(** * tcl-v4l2: a shallow embedding of the capture engine in [v4l2.c]

    The development follows the layout of the C file: name fix-up for
    controls, the colour-space conversions, the capture state machine
    ([StopCapture], [BufferReady], [StartCapture]), the control registry
    ([SetControls]), image retrieval ([GetImage]) and the [orientation]
    sub-command; then the blocks handed to Tk, the sub-commands on pixel
    data, the text of controls and menus, and the loopback sub-commands.
    C [int]s are modelled as [Z]; bytes of frame buffers are
    [Z] values in [0,255]; characters of C strings are [Z] values of the
    (signed) [char] type. *)

From Stdlib Require Import ZArith Lia Bool List Ascii String DecimalString.
From stdpp Require Import base strings gmap list.
Import ListNotations.

Local Open Scope Z_scope.

(** ** C strings *)

Module CStr.

(** The characters of a Rocq string, as C [char] values. *)
Definition of_string (s : string) : list Z :=
  map (fun a => Z.of_nat (nat_of_ascii a)) (list_ascii_of_string s).

(** [strlen]: the number of characters before the first NUL.  The end of
    the list stands for the terminator of a buffer that has none. *)
Fixpoint strlen (s : list Z) : nat :=
  match s with
  | [] => O
  | c :: rest => if c =? 0 then O else S (strlen rest)
  end.

(** The C string held in a buffer. *)
Definition cstring (buf : list Z) : list Z := take (strlen buf) buf.

Definition hyphen : Z := 45.

(** [tolower] of the C locale. *)
Definition tolower (c : Z) : Z :=
  if (65 <=? c) && (c <=? 90) then c + 32 else c.

Definition is_upper (c : Z) : bool := (65 <=? c) && (c <=? 90).

(** The characters of the literal handed to [strchr] in [FixupName]. *)
Definition separators : list Z := of_string " .,/_+(){}[]=&%$:;'#*~".

Definition is_separator (c : Z) : bool := existsb (Z.eqb c) separators.

End CStr.

(** ** FixupName *)

Module Fixup.
Import CStr.

(** The body of the first loop, for one character [p[0]]. *)
Definition fix_char (c : Z) : Z :=
  let c := if 0 <=? c then tolower c else c in
  if (0 <? c) && is_separator c then hyphen else c.

(** The second loop: [strchr] finds the next hyphen; a hyphen followed by
    a hyphen is removed by moving the rest of the string (terminator
    included) one place down, a hyphen followed by the terminator is
    overwritten by a terminator, any other hyphen is stepped over.  The
    function returns the C string left in the buffer. *)
Fixpoint squeeze (s : list Z) : list Z :=
  match s with
  | [] => []
  | c :: rest =>
      if c =? 0 then []
      else if c =? hyphen then
        match rest with
        | [] => []
        | d :: _ =>
            if d =? hyphen then squeeze rest
            else if d =? 0 then []
            else c :: squeeze rest
        end
      else c :: squeeze rest
  end.

(** Whether the C string in [s] has two hyphens in a row. *)
Fixpoint has_double_hyphen (s : list Z) : bool :=
  match s with
  | [] => false
  | c :: rest =>
      if c =? 0 then false
      else match rest with
           | [] => false
           | d :: _ => ((c =? hyphen) && (d =? hyphen)) || has_double_hyphen rest
           end
  end.

(** The buffer after the first loop and the assignment that follows it.
    With [length < 0] the loop runs over [strlen(name)] characters,
    otherwise over [length] characters, and [name[length - 1]] is then set
    to NUL when [length > 0]. *)
Definition lowered (name : list Z) (length : Z) : list Z :=
  let n := if length <? 0 then strlen name else Z.to_nat length in
  let name1 := map fix_char (take n name) ++ drop n name in
  if 0 <? length then <[Z.to_nat (length - 1) := 0]> name1 else name1.

(** [FixupName(name, length)].  [name] is the buffer; the result is the C
    string it holds afterwards.  All callers pass [sizeof (qry.name) = 32].
    With [length = 0] the count handed to [memmove] is computed from
    [end = name + 1] and the function does not return properly on a
    doubled hyphen: the model gives [None] there. *)
Definition FixupName (name : list Z) (length : Z) : option (list Z) :=
  let name2 := lowered name length in
  if (length =? 0) && has_double_hyphen name2 then None
  else Some (squeeze name2).

(** Properties of a normalized name. *)
Fixpoint adjacent_hyphens (r : list Z) : bool :=
  match r with
  | [] => false
  | c :: rest =>
      match rest with
      | [] => false
      | d :: _ => ((c =? hyphen) && (d =? hyphen)) || adjacent_hyphens rest
      end
  end.

(** A character the first loop leaves as it is: no upper-case letter and
    none of the separators. *)
Definition settled (c : Z) : Prop :=
  is_upper c = false /\ is_separator c = false.

Definition not_hyphen (c : Z) : bool := negb (c =? hyphen).

(** A kernel-filled [name[32]] field holding the string [s]. *)
Definition name_field (s : string) : list Z :=
  take 32 (of_string s ++ replicate 32 0).

Definition fixup_field (s : string) : option (list Z) :=
  FixupName (name_field s) 32.

(** *** The normalization in words

    What the specification says of a name, to be compared with
    [FixupName]. *)

(** The name a buffer holds when [FixupName] is called with [length]: the
    characters before the first NUL, among the first [length - 1] of the
    buffer when [length] is positive. *)
Definition name_text (name : list Z) (length : Z) : list Z :=
  if 0 <? length then cstring (take (Z.to_nat (length - 1)) name)
  else cstring name.

(** A separator becomes a hyphen, an upper-case letter its lower-case
    letter; every other character stays. *)
Definition normal_char (c : Z) : Z :=
  if is_separator c then hyphen
  else if is_upper c then c + 32
  else c.

(** Of hyphens in a row only the last is kept. *)
Fixpoint collapse_hyphens (s : list Z) : list Z :=
  match s with
  | [] => []
  | c :: rest =>
      match rest with
      | d :: _ =>
          if (c =? hyphen) && (d =? hyphen) then collapse_hyphens rest
          else c :: collapse_hyphens rest
      | [] => [c]
      end
  end.

(** A hyphen at the end is dropped; one at the start is not. *)
Fixpoint strip_trailing_hyphen (s : list Z) : list Z :=
  match s with
  | [] => []
  | c :: rest =>
      match rest with
      | [] => if c =? hyphen then [] else [c]
      | _ :: _ => c :: strip_trailing_hyphen rest
      end
  end.

(** The normalized name of a text. *)
Definition normalized (text : list Z) : list Z :=
  strip_trailing_hyphen (collapse_hyphens (map normal_char text)).

End Fixup.

(** ** Colour-space conversion between packed YUV 4:2:2 and RGB *)

Module Convert.

(** [sat]: the saturation clamp to an [unsigned char]. *)
Definition sat (i : Z) : Z :=
  if 255 <=? i then 255 else if i <? 0 then 0 else i.

(** [p[i]] on a byte buffer; outside of the buffer the model reads 0. *)
Definition rd (mem : list Z) (i : Z) : Z :=
  if i <? 0 then 0 else nth (Z.to_nat i) mem 0.

(** Number of passes of a loop [while (beg < end) { ...; beg += step; }]
    over [len] bytes. *)
Definition passes (len step : Z) : nat := Z.to_nat ((len + step - 1) / step).

(** One pass of the loop of [ConvertFromYUV]: four input bytes at [inp]
    give two RGB pixels. *)
Definition yuv_to_rgb_pair (isvu : bool) (mem : list Z) (inp : Z) : list Z :=
  let cr := if isvu then rd mem (inp + 1) else rd mem (inp + 3) in
  let cb := if isvu then rd mem (inp + 3) else rd mem (inp + 1) in
  let r := Z.shiftr (22987 * (cr - 128)) 14 in
  let g := Z.shiftr (-5636 * (cb - 128) - 11698 * (cr - 128)) 14 in
  let b := Z.shiftr (29049 * (cb - 128)) 14 in
  [ sat (rd mem inp + r); sat (rd mem inp + g); sat (rd mem inp + b);
    sat (rd mem (inp + 2) + r); sat (rd mem (inp + 2) + g);
    sat (rd mem (inp + 2) + b) ].

Fixpoint from_yuv_loop (n : nat) (isvu : bool) (mem : list Z) (inp : Z)
  : list Z :=
  match n with
  | O => []
  | S n' => yuv_to_rgb_pair isvu mem inp ++ from_yuv_loop n' isvu mem (inp + 4)
  end.

(** [ConvertFromYUV(in, width, height, isvu)].  [alloc] tells whether
    [attemptckalloc] succeeded; [None] is the NULL result.  The result is
    the allocated block of [width * height * 3] bytes. *)
Definition ConvertFromYUV (alloc : bool) (inp : list Z) (width height : Z)
    (isvu : bool) : option (list Z) :=
  if negb alloc then None
  else
    let len := width * height * 3 in
    Some (take (Z.to_nat len) (from_yuv_loop (passes len 6) isvu inp 0)).

(** [Tk_PhotoImageBlock]: [pixelPtr] is the memory it points into, seen
    from the pointer. *)
Record Tk_PhotoImageBlock := {
  pixelPtr : list Z;
  width : Z;
  height : Z;
  pitch : Z;
  pixelSize : Z;
  offset0 : Z;
  offset1 : Z;
  offset2 : Z;
  offset3 : Z
}.

(** One pass of the loop of [ConvertToYUV]: two pixels at [inp] give four
    output bytes [beg[0..3]]. *)
Definition rgb_to_yuv_pair (blk : Tk_PhotoImageBlock) (isvu : bool) (inp : Z)
  : list Z :=
  let mem := pixelPtr blk in
  let r1 := rd mem (inp + offset0 blk) in
  let g1 := rd mem (inp + offset1 blk) in
  let b1 := rd mem (inp + offset2 blk) in
  let inp2 := inp + pixelSize blk in
  let y1 := sat (Z.shiftr (4224 * r1 + 8256 * g1 + 1600 * b1) 14 + 16) in
  let r2 := rd mem (inp2 + offset0 blk) in
  let g2 := rd mem (inp2 + offset1 blk) in
  let b2 := rd mem (inp2 + offset2 blk) in
  let y2 := sat (Z.shiftr (4224 * r2 + 8256 * g2 + 1600 * b2) 14 + 16) in
  let r1 := r1 + r2 in
  let b1 := b1 + b2 in
  let g1 := g1 + g2 in
  let cb := sat (Z.shiftr (-2432 * r1 - 4736 * g1 + 7168 * b1) 15 + 128) in
  let cr := sat (Z.shiftr (7168 * r1 - 6016 * g1 - 1152 * b1) 15 + 128) in
  if isvu then [y1; cr; y2; cb] else [y1; cb; y2; cr].

Fixpoint to_yuv_loop (n : nat) (blk : Tk_PhotoImageBlock) (isvu : bool)
    (inp : Z) : list Z :=
  match n with
  | O => []
  | S n' =>
      rgb_to_yuv_pair blk isvu inp
        ++ to_yuv_loop n' blk isvu (inp + 2 * pixelSize blk)
  end.

(** [ConvertToYUV(blk, isvu, lenPtr)]: the output block and [lenPtr[0]];
    [None] is the NULL result. *)
Definition ConvertToYUV (alloc : bool) (blk : Tk_PhotoImageBlock)
    (isvu : bool) : option (list Z * Z) :=
  if negb (pitch blk =? width blk * pixelSize blk) then None
  else
    let len := width blk * height blk * 2 in
    if negb alloc then None
    else Some (take (Z.to_nat len) (to_yuv_loop (passes len 4) blk isvu 0), len).

(** The block [GetImage] and [DataToPhoto] build around packed RGB data. *)
Definition rgb_block (data : list Z) (w h : Z) : Tk_PhotoImageBlock :=
  {| pixelPtr := data; width := w; height := h; pitch := w * 3;
     pixelSize := 3; offset0 := 0; offset1 := 1; offset2 := 2; offset3 := 4 |}.

(** RGB to packed YUV and back, with the same byte ordering. *)
Definition roundtrip (data : list Z) (w h : Z) (isvu : bool)
  : option (list Z) :=
  match ConvertToYUV true (rgb_block data w h) isvu with
  | None => None
  | Some (yuv, _) => ConvertFromYUV true yuv w h isvu
  end.

(** An image all of whose pixel pairs are one grey value each: [vs] lists
    the value of each pair, in memory order. *)
Definition grey_pairs (vs : list Z) : list Z :=
  flat_map (fun v => [v; v; v; v; v; v]) vs.

(** What a grey value comes back as. *)
Definition luma (v : Z) : Z := Z.shiftr (14080 * v) 14 + 16.

Definition is_byte (v : Z) : Prop := 0 <= v <= 255.

(** The packed YUV data of such an image: luma, and neutral chroma. *)
Definition grey_yuv (vs : list Z) : list Z :=
  flat_map (fun v => [luma v; 128; luma v; 128]) vs.

(** The image that comes back. *)
Definition grey_back (vs : list Z) : list Z :=
  flat_map (fun v => [luma v; luma v; luma v; luma v; luma v; luma v]) vs.

End Convert.

(** ** The orientation sub-command: snapping of degrees *)

Module Orient.

(** The ladder of [CMD_orientation] (and of [DataToPhoto]); [%] is C's
    remainder, which truncates towards zero. *)
Definition snap (degrees : Z) : Z :=
  let degrees := Z.rem degrees 360 in
  if degrees <? 45 then 0
  else if degrees <? 135 then 90
  else if degrees <? 225 then 180
  else if degrees <? 315 then 270
  else 0.

(** The sector the snapped value of an angle of [0,360) lies in. *)
Definition sector (a : Z) : Z :=
  if (a <? 45) || (315 <=? a) then 0
  else if a <? 135 then 90
  else if a <? 225 then 180
  else 270.

End Orient.

(** ** The capture engine *)

Module Engine.

(** *** The Tcl side *)

Inductive TclCode := TCL_OK | TCL_ERROR.

(** A [Tcl_Obj]: its string representation, and what Tcl's integer
    conversions give for it ([None]: the conversion fails). *)
Record Tcl_Obj := {
  Tcl_GetString : string;
  Tcl_GetIntFromObj : option Z;
  Tcl_GetWideIntFromObj : option Z
}.

(** An element appended to the callback command; [WInt z] is [z] printed
    with [%d]. *)
Inductive Word := WStr (s : string) | WInt (z : Z).

(** The interpreter result a command leaves. *)
Inductive Result :=
| ResUnset
| ResInt (z : Z)
| ResString (s : string)
| ResPosix (what : string)
| ResSetFailed (name : string) (errno : Z)
| ResNotPhoto (name : string)
| ResImage (width height pixelSize rawSize : Z).

(** *** Constants of [<linux/videodev2.h>] and [<errno.h>] *)

Definition EAGAIN : Z := 11.
Definition EWOULDBLOCK : Z := 11.
Definition EINVAL : Z := 22.
Definition MAP_FAILED : Z := -1.

Definition V4L2_CTRL_FLAG_DISABLED : Z := 0x0001.
Definition V4L2_CTRL_FLAG_READ_ONLY : Z := 0x0004.
Definition V4L2_CTRL_FLAG_INACTIVE : Z := 0x0010.
Definition V4L2_CTRL_FLAG_WRITE_ONLY : Z := 0x0040.
Definition V4L2_CAP_TIMEPERFRAME : Z := 0x1000.

Definition V4L2_CTRL_ID2CLASS (id : Z) : Z := Z.land id 0x0fff0000.

Definition v4l2_fourcc (a b c d : Z) : Z :=
  Z.lor (Z.lor a (Z.shiftl b 8)) (Z.lor (Z.shiftl c 16) (Z.shiftl d 24)).

Definition V4L2_PIX_FMT_RGB24 : Z := v4l2_fourcc 82 71 66 51.
Definition V4L2_PIX_FMT_BGR24 : Z := v4l2_fourcc 66 71 82 51.
Definition V4L2_PIX_FMT_RGB32 : Z := v4l2_fourcc 82 71 66 52.
Definition V4L2_PIX_FMT_BGR32 : Z := v4l2_fourcc 66 71 82 52.
Definition V4L2_PIX_FMT_YUYV : Z := v4l2_fourcc 89 85 89 86.
Definition V4L2_PIX_FMT_YVYU : Z := v4l2_fourcc 89 86 89 85.
Definition V4L2_PIX_FMT_MJPEG : Z := v4l2_fourcc 77 74 80 71.
Definition V4L2_PIX_FMT_Y16 : Z := v4l2_fourcc 89 49 54 32.
Definition V4L2_PIX_FMT_Y10 : Z := v4l2_fourcc 89 49 48 32.
Definition V4L2_PIX_FMT_GREY : Z := v4l2_fourcc 71 82 69 89.

Inductive v4l2_ctrl_type :=
| V4L2_CTRL_TYPE_INTEGER
| V4L2_CTRL_TYPE_BOOLEAN
| V4L2_CTRL_TYPE_MENU
| V4L2_CTRL_TYPE_BUTTON
| V4L2_CTRL_TYPE_INTEGER64
| V4L2_CTRL_TYPE_CTRL_CLASS
| V4L2_CTRL_TYPE_STRING.

(** The value of an [int] a C expression of a wider or unsigned type is
    stored into. *)
Definition to_int (x : Z) : Z := (x + 2 ^ 31) mod 2 ^ 32 - 2 ^ 31.

(** The same for [Tcl_WideInt]. *)
Definition to_wide (x : Z) : Z := (x + 2 ^ 63) mod 2 ^ 64 - 2 ^ 63.

(** *** Data structures *)

(** V4L2 frame buffer. *)
Record VBUF := {
  start : Z;     (* Start address from mmap(). *)
  length : Z     (* Size of buffer. *)
}.

Record v4l2_queryctrl := {
  id : Z;
  type : v4l2_ctrl_type;
  name : string;
  minimum : Z;
  maximum : Z;
  step : Z;
  default_value : Z;
  flags : Z
}.

(** Structure describing V4L2 control.  [ds] holds the menu choices, one
    entry per NUL-terminated piece of the [Tcl_DString]. *)
Record VCTRL := {
  qry : v4l2_queryctrl;
  useOld : Z;          (* Use old ioctl()s if positive. *)
  ds : list string     (* For menu choices. *)
}.

Definition set_useOld (v : Z) (c : VCTRL) : VCTRL :=
  {| qry := qry c; useOld := v; ds := ds c |}.

(** A [VCTRL *]: the two special controls live inside [V4L2C], all others
    are allocated. *)
Inductive vptr := P_fsize | P_frate | P_alloc (addr : Z).

(** Control structure for camera capture. *)
Record V4L2C := {
  running : Z;  (* Greater than zero when acquiring, negative in the error state. *)
  stalled : Z;  (* True when stalled in file handler. *)
  format : Z;  (* Pixel format for capture. *)
  wantFormat : Z;  (* Requested pixel format for capture. *)
  greyshift : Z;  (* Bit shift for grey images. *)
  fd : Z;  (* V4L2 file descriptor. *)
  isLoopDev : Z;  (* True when loopback device. *)
  loopFormat : Z;  (* Pixel format for writing. *)
  mirror : Z;  (* Image mirror flags. *)
  rotate : Z;  (* Image rotation in degrees. *)
  bufrdy : Z;  (* Index of last ready buffer or -1. *)
  bufdone : Z;  (* True when buffer processed. *)
  width : Z;
  height : Z;  (* Width and height of frame buffers. *)
  loopWidth : Z;
  loopHeight : Z;  (* Ditto, for writing to loopback device. *)
  fps : Z;  (* Frames per second. *)
  devId : string;  (* Device id. *)
  devName : string;  (* Device name. *)
  cbCmdLen : nat;  (* Initial length of callback command. *)
  cbCmd : list Word;  (* Callback command prefix. *)
  ctrl : gmap Z vptr;  (* V4L2 controls. *)
  nctrl : gmap string vptr;  (* V4L2 names to controls. *)
  fsize : VCTRL;  (* Special control: frame-size. *)
  frate : VCTRL;  (* Special control: frame-rate. *)
  heap : gmap Z VCTRL;  (* The allocated VCTRL blocks the two tables point to. *)
  counters0 : Z;  (* Statistic counter: frames captured. *)
  counters1 : Z;  (* Statistic counter: frames consumed. *)
  nvbufs : Z;  (* Number of buffers used. *)
  vbufs : list VBUF  (* Frame buffers. *)
}.

Definition set_running (v : Z) (s : V4L2C) : V4L2C :=
  {| running := v; stalled := stalled s; format := format s; wantFormat :=
     wantFormat s; greyshift := greyshift s; fd := fd s; isLoopDev :=
     isLoopDev s; loopFormat := loopFormat s; mirror := mirror s; rotate :=
     rotate s; bufrdy := bufrdy s; bufdone := bufdone s; width := width s;
     height := height s; loopWidth := loopWidth s; loopHeight := loopHeight
     s; fps := fps s; devId := devId s; devName := devName s; cbCmdLen :=
     cbCmdLen s; cbCmd := cbCmd s; ctrl := ctrl s; nctrl := nctrl s; fsize
     := fsize s; frate := frate s; heap := heap s; counters0 := counters0 s;
     counters1 := counters1 s; nvbufs := nvbufs s; vbufs := vbufs s |}.

Definition set_stalled (v : Z) (s : V4L2C) : V4L2C :=
  {| running := running s; stalled := v; format := format s; wantFormat :=
     wantFormat s; greyshift := greyshift s; fd := fd s; isLoopDev :=
     isLoopDev s; loopFormat := loopFormat s; mirror := mirror s; rotate :=
     rotate s; bufrdy := bufrdy s; bufdone := bufdone s; width := width s;
     height := height s; loopWidth := loopWidth s; loopHeight := loopHeight
     s; fps := fps s; devId := devId s; devName := devName s; cbCmdLen :=
     cbCmdLen s; cbCmd := cbCmd s; ctrl := ctrl s; nctrl := nctrl s; fsize
     := fsize s; frate := frate s; heap := heap s; counters0 := counters0 s;
     counters1 := counters1 s; nvbufs := nvbufs s; vbufs := vbufs s |}.

Definition set_format (v : Z) (s : V4L2C) : V4L2C :=
  {| running := running s; stalled := stalled s; format := v; wantFormat :=
     wantFormat s; greyshift := greyshift s; fd := fd s; isLoopDev :=
     isLoopDev s; loopFormat := loopFormat s; mirror := mirror s; rotate :=
     rotate s; bufrdy := bufrdy s; bufdone := bufdone s; width := width s;
     height := height s; loopWidth := loopWidth s; loopHeight := loopHeight
     s; fps := fps s; devId := devId s; devName := devName s; cbCmdLen :=
     cbCmdLen s; cbCmd := cbCmd s; ctrl := ctrl s; nctrl := nctrl s; fsize
     := fsize s; frate := frate s; heap := heap s; counters0 := counters0 s;
     counters1 := counters1 s; nvbufs := nvbufs s; vbufs := vbufs s |}.

Definition set_wantFormat (v : Z) (s : V4L2C) : V4L2C :=
  {| running := running s; stalled := stalled s; format := format s;
     wantFormat := v; greyshift := greyshift s; fd := fd s; isLoopDev :=
     isLoopDev s; loopFormat := loopFormat s; mirror := mirror s; rotate :=
     rotate s; bufrdy := bufrdy s; bufdone := bufdone s; width := width s;
     height := height s; loopWidth := loopWidth s; loopHeight := loopHeight
     s; fps := fps s; devId := devId s; devName := devName s; cbCmdLen :=
     cbCmdLen s; cbCmd := cbCmd s; ctrl := ctrl s; nctrl := nctrl s; fsize
     := fsize s; frate := frate s; heap := heap s; counters0 := counters0 s;
     counters1 := counters1 s; nvbufs := nvbufs s; vbufs := vbufs s |}.

Definition set_greyshift (v : Z) (s : V4L2C) : V4L2C :=
  {| running := running s; stalled := stalled s; format := format s;
     wantFormat := wantFormat s; greyshift := v; fd := fd s; isLoopDev :=
     isLoopDev s; loopFormat := loopFormat s; mirror := mirror s; rotate :=
     rotate s; bufrdy := bufrdy s; bufdone := bufdone s; width := width s;
     height := height s; loopWidth := loopWidth s; loopHeight := loopHeight
     s; fps := fps s; devId := devId s; devName := devName s; cbCmdLen :=
     cbCmdLen s; cbCmd := cbCmd s; ctrl := ctrl s; nctrl := nctrl s; fsize
     := fsize s; frate := frate s; heap := heap s; counters0 := counters0 s;
     counters1 := counters1 s; nvbufs := nvbufs s; vbufs := vbufs s |}.

Definition set_mirror (v : Z) (s : V4L2C) : V4L2C :=
  {| running := running s; stalled := stalled s; format := format s;
     wantFormat := wantFormat s; greyshift := greyshift s; fd := fd s;
     isLoopDev := isLoopDev s; loopFormat := loopFormat s; mirror := v;
     rotate := rotate s; bufrdy := bufrdy s; bufdone := bufdone s; width :=
     width s; height := height s; loopWidth := loopWidth s; loopHeight :=
     loopHeight s; fps := fps s; devId := devId s; devName := devName s;
     cbCmdLen := cbCmdLen s; cbCmd := cbCmd s; ctrl := ctrl s; nctrl :=
     nctrl s; fsize := fsize s; frate := frate s; heap := heap s; counters0
     := counters0 s; counters1 := counters1 s; nvbufs := nvbufs s; vbufs :=
     vbufs s |}.

Definition set_rotate (v : Z) (s : V4L2C) : V4L2C :=
  {| running := running s; stalled := stalled s; format := format s;
     wantFormat := wantFormat s; greyshift := greyshift s; fd := fd s;
     isLoopDev := isLoopDev s; loopFormat := loopFormat s; mirror := mirror
     s; rotate := v; bufrdy := bufrdy s; bufdone := bufdone s; width :=
     width s; height := height s; loopWidth := loopWidth s; loopHeight :=
     loopHeight s; fps := fps s; devId := devId s; devName := devName s;
     cbCmdLen := cbCmdLen s; cbCmd := cbCmd s; ctrl := ctrl s; nctrl :=
     nctrl s; fsize := fsize s; frate := frate s; heap := heap s; counters0
     := counters0 s; counters1 := counters1 s; nvbufs := nvbufs s; vbufs :=
     vbufs s |}.

Definition set_bufrdy (v : Z) (s : V4L2C) : V4L2C :=
  {| running := running s; stalled := stalled s; format := format s;
     wantFormat := wantFormat s; greyshift := greyshift s; fd := fd s;
     isLoopDev := isLoopDev s; loopFormat := loopFormat s; mirror := mirror
     s; rotate := rotate s; bufrdy := v; bufdone := bufdone s; width :=
     width s; height := height s; loopWidth := loopWidth s; loopHeight :=
     loopHeight s; fps := fps s; devId := devId s; devName := devName s;
     cbCmdLen := cbCmdLen s; cbCmd := cbCmd s; ctrl := ctrl s; nctrl :=
     nctrl s; fsize := fsize s; frate := frate s; heap := heap s; counters0
     := counters0 s; counters1 := counters1 s; nvbufs := nvbufs s; vbufs :=
     vbufs s |}.

Definition set_bufdone (v : Z) (s : V4L2C) : V4L2C :=
  {| running := running s; stalled := stalled s; format := format s;
     wantFormat := wantFormat s; greyshift := greyshift s; fd := fd s;
     isLoopDev := isLoopDev s; loopFormat := loopFormat s; mirror := mirror
     s; rotate := rotate s; bufrdy := bufrdy s; bufdone := v; width := width
     s; height := height s; loopWidth := loopWidth s; loopHeight :=
     loopHeight s; fps := fps s; devId := devId s; devName := devName s;
     cbCmdLen := cbCmdLen s; cbCmd := cbCmd s; ctrl := ctrl s; nctrl :=
     nctrl s; fsize := fsize s; frate := frate s; heap := heap s; counters0
     := counters0 s; counters1 := counters1 s; nvbufs := nvbufs s; vbufs :=
     vbufs s |}.

Definition set_width (v : Z) (s : V4L2C) : V4L2C :=
  {| running := running s; stalled := stalled s; format := format s;
     wantFormat := wantFormat s; greyshift := greyshift s; fd := fd s;
     isLoopDev := isLoopDev s; loopFormat := loopFormat s; mirror := mirror
     s; rotate := rotate s; bufrdy := bufrdy s; bufdone := bufdone s; width
     := v; height := height s; loopWidth := loopWidth s; loopHeight :=
     loopHeight s; fps := fps s; devId := devId s; devName := devName s;
     cbCmdLen := cbCmdLen s; cbCmd := cbCmd s; ctrl := ctrl s; nctrl :=
     nctrl s; fsize := fsize s; frate := frate s; heap := heap s; counters0
     := counters0 s; counters1 := counters1 s; nvbufs := nvbufs s; vbufs :=
     vbufs s |}.

Definition set_height (v : Z) (s : V4L2C) : V4L2C :=
  {| running := running s; stalled := stalled s; format := format s;
     wantFormat := wantFormat s; greyshift := greyshift s; fd := fd s;
     isLoopDev := isLoopDev s; loopFormat := loopFormat s; mirror := mirror
     s; rotate := rotate s; bufrdy := bufrdy s; bufdone := bufdone s; width
     := width s; height := v; loopWidth := loopWidth s; loopHeight :=
     loopHeight s; fps := fps s; devId := devId s; devName := devName s;
     cbCmdLen := cbCmdLen s; cbCmd := cbCmd s; ctrl := ctrl s; nctrl :=
     nctrl s; fsize := fsize s; frate := frate s; heap := heap s; counters0
     := counters0 s; counters1 := counters1 s; nvbufs := nvbufs s; vbufs :=
     vbufs s |}.

Definition set_fps (v : Z) (s : V4L2C) : V4L2C :=
  {| running := running s; stalled := stalled s; format := format s;
     wantFormat := wantFormat s; greyshift := greyshift s; fd := fd s;
     isLoopDev := isLoopDev s; loopFormat := loopFormat s; mirror := mirror
     s; rotate := rotate s; bufrdy := bufrdy s; bufdone := bufdone s; width
     := width s; height := height s; loopWidth := loopWidth s; loopHeight :=
     loopHeight s; fps := v; devId := devId s; devName := devName s;
     cbCmdLen := cbCmdLen s; cbCmd := cbCmd s; ctrl := ctrl s; nctrl :=
     nctrl s; fsize := fsize s; frate := frate s; heap := heap s; counters0
     := counters0 s; counters1 := counters1 s; nvbufs := nvbufs s; vbufs :=
     vbufs s |}.

Definition set_cbCmd (v : list Word) (s : V4L2C) : V4L2C :=
  {| running := running s; stalled := stalled s; format := format s;
     wantFormat := wantFormat s; greyshift := greyshift s; fd := fd s;
     isLoopDev := isLoopDev s; loopFormat := loopFormat s; mirror := mirror
     s; rotate := rotate s; bufrdy := bufrdy s; bufdone := bufdone s; width
     := width s; height := height s; loopWidth := loopWidth s; loopHeight :=
     loopHeight s; fps := fps s; devId := devId s; devName := devName s;
     cbCmdLen := cbCmdLen s; cbCmd := v; ctrl := ctrl s; nctrl := nctrl s;
     fsize := fsize s; frate := frate s; heap := heap s; counters0 :=
     counters0 s; counters1 := counters1 s; nvbufs := nvbufs s; vbufs :=
     vbufs s |}.

Definition set_frate (v : VCTRL) (s : V4L2C) : V4L2C :=
  {| running := running s; stalled := stalled s; format := format s;
     wantFormat := wantFormat s; greyshift := greyshift s; fd := fd s;
     isLoopDev := isLoopDev s; loopFormat := loopFormat s; mirror := mirror
     s; rotate := rotate s; bufrdy := bufrdy s; bufdone := bufdone s; width
     := width s; height := height s; loopWidth := loopWidth s; loopHeight :=
     loopHeight s; fps := fps s; devId := devId s; devName := devName s;
     cbCmdLen := cbCmdLen s; cbCmd := cbCmd s; ctrl := ctrl s; nctrl :=
     nctrl s; fsize := fsize s; frate := v; heap := heap s; counters0 :=
     counters0 s; counters1 := counters1 s; nvbufs := nvbufs s; vbufs :=
     vbufs s |}.

Definition set_fsize (v : VCTRL) (s : V4L2C) : V4L2C :=
  {| running := running s; stalled := stalled s; format := format s;
     wantFormat := wantFormat s; greyshift := greyshift s; fd := fd s;
     isLoopDev := isLoopDev s; loopFormat := loopFormat s; mirror := mirror
     s; rotate := rotate s; bufrdy := bufrdy s; bufdone := bufdone s; width
     := width s; height := height s; loopWidth := loopWidth s; loopHeight :=
     loopHeight s; fps := fps s; devId := devId s; devName := devName s;
     cbCmdLen := cbCmdLen s; cbCmd := cbCmd s; ctrl := ctrl s; nctrl :=
     nctrl s; fsize := v; frate := frate s; heap := heap s; counters0 :=
     counters0 s; counters1 := counters1 s; nvbufs := nvbufs s; vbufs :=
     vbufs s |}.

Definition set_heap (v : gmap Z VCTRL) (s : V4L2C) : V4L2C :=
  {| running := running s; stalled := stalled s; format := format s;
     wantFormat := wantFormat s; greyshift := greyshift s; fd := fd s;
     isLoopDev := isLoopDev s; loopFormat := loopFormat s; mirror := mirror
     s; rotate := rotate s; bufrdy := bufrdy s; bufdone := bufdone s; width
     := width s; height := height s; loopWidth := loopWidth s; loopHeight :=
     loopHeight s; fps := fps s; devId := devId s; devName := devName s;
     cbCmdLen := cbCmdLen s; cbCmd := cbCmd s; ctrl := ctrl s; nctrl :=
     nctrl s; fsize := fsize s; frate := frate s; heap := v; counters0 :=
     counters0 s; counters1 := counters1 s; nvbufs := nvbufs s; vbufs :=
     vbufs s |}.

Definition set_counters0 (v : Z) (s : V4L2C) : V4L2C :=
  {| running := running s; stalled := stalled s; format := format s;
     wantFormat := wantFormat s; greyshift := greyshift s; fd := fd s;
     isLoopDev := isLoopDev s; loopFormat := loopFormat s; mirror := mirror
     s; rotate := rotate s; bufrdy := bufrdy s; bufdone := bufdone s; width
     := width s; height := height s; loopWidth := loopWidth s; loopHeight :=
     loopHeight s; fps := fps s; devId := devId s; devName := devName s;
     cbCmdLen := cbCmdLen s; cbCmd := cbCmd s; ctrl := ctrl s; nctrl :=
     nctrl s; fsize := fsize s; frate := frate s; heap := heap s; counters0
     := v; counters1 := counters1 s; nvbufs := nvbufs s; vbufs := vbufs s |}.

Definition set_counters1 (v : Z) (s : V4L2C) : V4L2C :=
  {| running := running s; stalled := stalled s; format := format s;
     wantFormat := wantFormat s; greyshift := greyshift s; fd := fd s;
     isLoopDev := isLoopDev s; loopFormat := loopFormat s; mirror := mirror
     s; rotate := rotate s; bufrdy := bufrdy s; bufdone := bufdone s; width
     := width s; height := height s; loopWidth := loopWidth s; loopHeight :=
     loopHeight s; fps := fps s; devId := devId s; devName := devName s;
     cbCmdLen := cbCmdLen s; cbCmd := cbCmd s; ctrl := ctrl s; nctrl :=
     nctrl s; fsize := fsize s; frate := frate s; heap := heap s; counters0
     := counters0 s; counters1 := v; nvbufs := nvbufs s; vbufs := vbufs s |}.

Definition set_nvbufs (v : Z) (s : V4L2C) : V4L2C :=
  {| running := running s; stalled := stalled s; format := format s;
     wantFormat := wantFormat s; greyshift := greyshift s; fd := fd s;
     isLoopDev := isLoopDev s; loopFormat := loopFormat s; mirror := mirror
     s; rotate := rotate s; bufrdy := bufrdy s; bufdone := bufdone s; width
     := width s; height := height s; loopWidth := loopWidth s; loopHeight :=
     loopHeight s; fps := fps s; devId := devId s; devName := devName s;
     cbCmdLen := cbCmdLen s; cbCmd := cbCmd s; ctrl := ctrl s; nctrl :=
     nctrl s; fsize := fsize s; frate := frate s; heap := heap s; counters0
     := counters0 s; counters1 := counters1 s; nvbufs := v; vbufs := vbufs s
     |}.

Definition set_vbufs (v : list VBUF) (s : V4L2C) : V4L2C :=
  {| running := running s; stalled := stalled s; format := format s;
     wantFormat := wantFormat s; greyshift := greyshift s; fd := fd s;
     isLoopDev := isLoopDev s; loopFormat := loopFormat s; mirror := mirror
     s; rotate := rotate s; bufrdy := bufrdy s; bufdone := bufdone s; width
     := width s; height := height s; loopWidth := loopWidth s; loopHeight :=
     loopHeight s; fps := fps s; devId := devId s; devName := devName s;
     cbCmdLen := cbCmdLen s; cbCmd := cbCmd s; ctrl := ctrl s; nctrl :=
     nctrl s; fsize := fsize s; frate := frate s; heap := heap s; counters0
     := counters0 s; counters1 := counters1 s; nvbufs := nvbufs s; vbufs :=
     v |}.

(** [*vctrl] and [vctrl->useOld = v]. *)
Definition deref (s : V4L2C) (p : vptr) : option VCTRL :=
  match p with
  | P_fsize => Some (fsize s)
  | P_frate => Some (frate s)
  | P_alloc a => heap s !! a
  end.

Definition store_useOld (p : vptr) (v : Z) (s : V4L2C) : V4L2C :=
  match p with
  | P_fsize => set_fsize (set_useOld v (fsize s)) s
  | P_frate => set_frate (set_useOld v (frate s)) s
  | P_alloc a => set_heap (alter (set_useOld v) a (heap s)) s
  end.

(** The session after the four assignments that end [StopCapture]. *)
Definition stopped_fields (s : V4L2C) : V4L2C :=
  set_bufdone 0 (set_bufrdy (-1) (set_stalled 0 (set_running 0 s))).

(** The session after the stop-and-error cleanup of [BufferReady]. *)
Definition error_fields (s : V4L2C) : V4L2C :=
  let s1 := if 0 <? running s then stopped_fields s else s in
  set_cbCmd (take (cbCmdLen s1) (cbCmd s1) ++ [WStr (devId s1); WStr "error"])
    (set_stalled 0 (set_running (-1) s1)).

(** The three states of a session, as [CMD_state] reports them. *)
Inductive State := Stopped | Capturing | Error.

Definition state_of (s : V4L2C) : State :=
  if running s <? 0 then Error
  else if running s =? 0 then Stopped else Capturing.

(** *** The device and the event loop

    Everything the engine asks of its surroundings is a [Request]; the
    surroundings answer with a [Reply].  [ret] and [errno] are those of the
    call ([DoIoctl] has already retried on [EINTR]); [out1 .. out3] are the
    fields the call writes back into its argument when it succeeds (a call
    that fails leaves its argument as it was):
    - [VIDIOC_S_FMT]: pixelformat, width, height;
    - [VIDIOC_G_PARM]: capability, numerator, denominator of timeperframe;
    - [VIDIOC_REQBUFS]: count;
    - [VIDIOC_DQBUF]: index, sequence;
    - [VIDIOC_QUERYBUF]: length, offset;
    - [v4l2_mmap]: [ret] is the address;
    - [Tcl_EvalEx]: [ret] is the Tcl completion code (0 is [TCL_OK]). *)

Inductive Request :=
| Tcl_DeleteFileHandler
| Tcl_CreateFileHandler
| VIDIOC_STREAMOFF
| VIDIOC_STREAMON
| VIDIOC_REQBUFS (count : Z)
| VIDIOC_DQBUF
| VIDIOC_QBUF (index : Z)
| VIDIOC_QUERYBUF (index : Z)
| VIDIOC_S_FMT (pixelformat width height : Z)
| VIDIOC_G_PARM
| VIDIOC_S_PARM (numerator denominator : Z)
| VIDIOC_S_CTRL (id value : Z)
| VIDIOC_S_EXT_CTRLS (ctrl_class id value value64 : Z)
| v4l2_mmap (length offset : Z)
| v4l2_munmap (start length : Z)
| nanosleep (nsec : Z)
| Tcl_EvalEx (cmd : list Word)
| CheckForTk
| Tk_MainWindow
| Tk_FindPhoto (name : string)
| attemptckalloc (size : Z)
| jpeg_decode
| Tk_PhotoExpand (width height : Z)
| Tk_PhotoPutBlock (width height pitch pixelSize : Z).

Record Reply := {
  ret : Z;
  errno : Z;
  out1 : Z;
  out2 : Z;
  out3 : Z
}.

(** What [StopCapture] asks for on a capturing session. *)
Definition unmap_requests (s : V4L2C) (from n : nat) : list Request :=
  map (fun i => v4l2_munmap (start (nth i (vbufs s) {| start := 0; length := 0 |}))
                            (length (nth i (vbufs s) {| start := 0; length := 0 |})))
      (seq from n).

Definition stop_requests (s : V4L2C) : list Request :=
  [Tcl_DeleteFileHandler; VIDIOC_STREAMOFF]
  ++ unmap_requests s 0 (Z.to_nat (nvbufs s))
  ++ [VIDIOC_REQBUFS 0].

(** A dequeue attempt that would block. *)
Definition would_block (r : Reply) : Prop :=
  ret r < 0 /\ (errno r = EAGAIN \/ errno r = EWOULDBLOCK).

(** A buffer count the engine accepts: between 1 and the 16 slots of
    [vbufs]. *)
Definition in_pool_range (count : Z) : bool :=
  negb ((count <=? 0) || (16 <? count)).

(** An answer to [VIDIOC_REQBUFS] that ends the doubling: the call failed,
    or the count it wrote back is accepted. *)
Definition decisive (r : Reply) : bool :=
  (ret r <? 0) || in_pool_range (out1 r).

(** *** The machine: one session, its surroundings, and what was asked *)

Definition TCL_READABLE : Z := 2.

Section Machine.

Variable World : Type.
Variable sys : World -> Request -> Reply * World.

(** The build option of the same name. *)
Variable USE_MJPEG : bool.

(** [sscanf(fmt, "%dx%d", &w, &h)]: the two numbers when it returns 2. *)
Variable sscanf_size : string -> option (Z * Z).

Record Machine := {
  session : V4L2C;
  world : World;
  trace : list Request
}.

Definition M (A : Type) : Type := Machine -> A * Machine.

#[local] Instance M_ret : MRet M := fun A a m => (a, m).

#[local] Instance M_bind : MBind M :=
  fun A B f c m => let (a, m') := c m in f a m'.

Definition get : M V4L2C := fun m => (session m, m).

Definition modify (f : V4L2C -> V4L2C) : M unit :=
  fun m => (tt, {| session := f (session m); world := world m;
                   trace := trace m |}).

Definition call (r : Request) : M Reply :=
  fun m =>
    let (rep, w) := sys (world m) r in
    (rep, {| session := session m; world := w; trace := trace m ++ [r] |}).

Definition vbuf_at (s : V4L2C) (i : nat) : VBUF :=
  nth i (vbufs s) {| start := 0; length := 0 |}.

(** [for (i = from; i < from + n; i++) v4l2_munmap(vbufs[i].start, ...)] *)
Fixpoint munmap_up (n : nat) (from : nat) : M unit :=
  match n with
  | O => mret tt
  | S n' =>
      s ← get;
      call (v4l2_munmap (start (vbuf_at s from)) (length (vbuf_at s from)));;
      munmap_up n' (S from)
  end.

(** [StopCapture] *)
Definition StopCapture : M TclCode :=
  s ← get;
  (if 0 <? running s then
     call Tcl_DeleteFileHandler;;
     (* stop capture *)
     call VIDIOC_STREAMOFF;;
     (* unmap buffers *)
     munmap_up (Z.to_nat (nvbufs s)) 0;;
     (* release buffers *)
     call (VIDIOC_REQBUFS 0);;
     (* done *)
     modify (set_running 0);;
     modify (set_stalled 0);;
     modify (set_bufrdy (-1));;
     modify (set_bufdone 0)
   else mret tt);;
  mret TCL_OK.

(** [BufferReady], from the label [captureError] to [goto doCallback]. *)
Definition captureError : M unit :=
  StopCapture;;
  modify (set_running (-1));;
  modify (set_stalled 0);;
  s ← get;
  modify (set_cbCmd
            (take (cbCmdLen s) (cbCmd s) ++ [WStr (devId s); WStr "error"])).

(** [BufferReady], from the label [doCallback].  The script may itself run
    commands of the device; these are operations of their own, since after
    the script the handler does nothing but [StopCapture]. *)
Definition doCallback : M unit :=
  s ← get;
  r ← call (Tcl_EvalEx (cbCmd s));
  if negb (ret r =? 0) then StopCapture;; mret tt else mret tt.

(** [BufferReady], the frame indication before [doCallback]. *)
Definition frameCallback (sequence : Z) : M unit :=
  s ← get;
  modify (set_cbCmd
            (take (cbCmdLen s) (cbCmd s) ++ [WStr (devId s); WInt sequence]));;
  doCallback.

(** [BufferReady] *)
Definition BufferReady (mask : Z) : M unit :=
  if Z.land mask TCL_READABLE =? 0 then mret tt
  else
    vbuf ← call VIDIOC_DQBUF;
    if ret vbuf <? 0 then
      if (errno vbuf =? EAGAIN) || (errno vbuf =? EWOULDBLOCK) then
        (* Allow one more try through this file handler after a very
           short delay. *)
        s ← get;
        if negb (stalled s =? 0) then captureError;; doCallback
        else
          modify (set_stalled 1);;
          call (nanosleep 10000000);;
          mret tt
      else captureError;; doCallback
    else
      let sequence := to_int (out2 vbuf) in
      modify (set_stalled 0);;
      modify (set_bufdone 0);;
      modify (fun s => set_counters0 (to_wide (counters0 s + 1)) s);;
      s ← get;
      if 0 <=? bufrdy s then
        let swap := to_int (out1 vbuf) in
        modify (set_bufrdy swap);;
        q ← call (VIDIOC_QBUF (bufrdy s));
        if ret q <? 0 then captureError;; doCallback
        else frameCallback sequence
      else
        modify (set_bufrdy (to_int (out1 vbuf)));;
        frameCallback sequence.

(** What the next [VIDIOC_DQBUF] will answer, and whether the buffer the
    new frame displaces, if there is one, will be taken back by the
    kernel. *)
Definition dequeue_reply (m : Machine) : Reply :=
  (sys (world m) VIDIOC_DQBUF).1.

Definition requeued (m : Machine) : Prop :=
  bufrdy (session m) < 0
  \/ 0 <= ret (sys (sys (world m) VIDIOC_DQBUF).2
                   (VIDIOC_QBUF (bufrdy (session m)))).1.

(** The buffer the new frame displaces is refused by the kernel. *)
Definition requeue_refused (m : Machine) : Prop :=
  0 <= bufrdy (session m)
  /\ ret (sys (sys (world m) VIDIOC_DQBUF).2
              (VIDIOC_QBUF (bufrdy (session m)))).1 < 0.

(** Supported formats for video devices in test order. *)
Definition FormatsNormal : list Z :=
  [V4L2_PIX_FMT_RGB24; V4L2_PIX_FMT_BGR24; V4L2_PIX_FMT_YUYV;
   V4L2_PIX_FMT_YVYU]
  ++ (if USE_MJPEG then [V4L2_PIX_FMT_MJPEG] else [])
  ++ [V4L2_PIX_FMT_Y16; V4L2_PIX_FMT_Y10; V4L2_PIX_FMT_GREY].

(** Supported formats for loopback video devices in test order. *)
Definition FormatsLoop : list Z :=
  [V4L2_PIX_FMT_RGB32; V4L2_PIX_FMT_BGR32; V4L2_PIX_FMT_RGB24;
   V4L2_PIX_FMT_BGR24; V4L2_PIX_FMT_YUYV; V4L2_PIX_FMT_YVYU;
   V4L2_PIX_FMT_GREY].

Definition in_formats (f : Z) (fmts : list Z) : bool := existsb (Z.eqb f) fmts.

(** The fields of [struct v4l2_format] the engine uses. *)
Record pix_format := {
  pixelformat : Z;
  pix_width : Z;
  pix_height : Z
}.

Definition written_format (r : Reply) : pix_format :=
  {| pixelformat := out1 r; pix_width := out2 r; pix_height := out3 r |}.

(** [for (i = 0; i < maxFmt; i++)] over the catalogue: the format the
    kernel accepted, or [None] when the loop ran to [maxFmt]. *)
Fixpoint try_formats (fmts : list Z) (fmt : pix_format)
  : M (option pix_format) :=
  match fmts with
  | [] => mret None
  | f :: rest =>
      r ← call (VIDIOC_S_FMT f (pix_width fmt) (pix_height fmt));
      if 0 <=? ret r then mret (Some (written_format r))
      else try_formats rest fmt
  end.

Inductive FormatOutcome :=
| GotFormat (fmt : pix_format)
| NoFormat
| UnsupportedFormat.

(** [StartCapture]: "set format/size", up to the label [gotFormat]. *)
Definition negotiate_format : M FormatOutcome :=
  s ← get;
  let tryFmts := if isLoopDev s =? 0 then FormatsNormal else FormatsLoop in
  let fmt := {| pixelformat := 0; pix_width := width s;
                pix_height := height s |} in
  let catalogue :=
    got ← try_formats tryFmts fmt;
    match got with
    | None => mret NoFormat
    | Some fmt' =>
        if in_formats (pixelformat fmt') tryFmts then mret (GotFormat fmt')
        else mret UnsupportedFormat
    end in
  if negb (wantFormat s =? 0) && in_formats (wantFormat s) tryFmts then
    r ← call (VIDIOC_S_FMT (wantFormat s) (pix_width fmt) (pix_height fmt));
    if 0 <=? ret r then mret (GotFormat (written_format r))
    else catalogue
  else catalogue.

(** [StartCapture]: "try to set frame rate". *)
Definition set_frame_rate : M unit :=
  stp ← call VIDIOC_G_PARM;
  if 0 <=? ret stp then
    s ← get;
    if negb (Z.land (out1 stp) V4L2_CAP_TIMEPERFRAME =? 0) then
      r ← call (VIDIOC_S_PARM 100 ((fps s * 100) mod 2 ^ 32));
      if 0 <=? ret r then
        g ← call VIDIOC_G_PARM;
        let stp' := if 0 <=? ret g then g else r in
        if negb (ret g =? -1) && (0 <? out2 stp') then
          let f := to_int (out3 stp' / out2 stp') in
          modify (set_fps (if f <=? 0 then 1 else f))
        else mret tt
      else mret tt
    else mret tt
  else mret tt.

Inductive BuffersOutcome :=
| ReqFailed
| ReqCount (count : Z)
| ReqUnfinished.

(** [StartCapture]: the loop [while (i < 16)] of "request buffers"; [count]
    is [req.count].  [fuel] bounds the passes; [ReqUnfinished] is the loop
    still running when it is used up. *)
Fixpoint request_loop (fuel : nat) (i count : Z) : M BuffersOutcome :=
  match fuel with
  | O => mret ReqUnfinished
  | S fuel' =>
      if i <? 16 then
        req ← call (VIDIOC_REQBUFS i);
        if ret req <? 0 then mret ReqFailed
        else if (out1 req <=? 0) || (16 <? out1 req) then
          request_loop fuel' (i * 2) (out1 req)
        else mret (ReqCount (out1 req))
      else mret (ReqCount count)
  end.

Definition request_buffers : M BuffersOutcome := request_loop 16 2 0.

(** [while (--i >= 0) v4l2_munmap(vbufs[i].start, vbufs[i].length)] *)
Fixpoint munmap_down (i : nat) : M unit :=
  match i with
  | O => mret tt
  | S i' =>
      s ← get;
      call (v4l2_munmap (start (vbuf_at s i')) (length (vbuf_at s i')));;
      munmap_down i'
  end.

Inductive MapOutcome := Mapped | QueryFailed | MapFailed.

(** [StartCapture]: "mmap() buffers", [n] passes from index [i]. *)
Fixpoint map_buffers (n : nat) (i : nat) : M MapOutcome :=
  match n with
  | O => mret Mapped
  | S n' =>
      buf ← call (VIDIOC_QUERYBUF (Z.of_nat i));
      if ret buf <? 0 then mret QueryFailed
      else
        a ← call (v4l2_mmap (out1 buf) (out2 buf));
        modify (fun s =>
                  set_vbufs (<[i := {| start := ret a; length := out1 buf |}]>
                               (vbufs s)) s);;
        if ret a =? MAP_FAILED then munmap_down i;; mret MapFailed
        else map_buffers n' (S i)
  end.

(** [StartCapture]: "queue buffers"; [false] when a [VIDIOC_QBUF] failed. *)
Fixpoint queue_buffers (n : nat) (i : nat) : M bool :=
  match n with
  | O => mret true
  | S n' =>
      r ← call (VIDIOC_QBUF (Z.of_nat i));
      if ret r <? 0 then mret false else queue_buffers n' (S i)
  end.

(** The assignments before each [return TCL_ERROR] of [StartCapture]. *)
Definition start_failed (res : Result) : M (TclCode * Result) :=
  modify (set_running (-1));;
  modify (set_stalled 0);;
  mret (TCL_ERROR, res).

(** [StartCapture], the label [unmapAll]. *)
Definition unmapAll (count : Z) (res : Result) : M (TclCode * Result) :=
  munmap_up (Z.to_nat count) 0;;
  start_failed res.

(** [StartCapture], from "setup file handler" to the end. *)
Definition capture_started (fmt : pix_format) : M (TclCode * Result) :=
  call Tcl_CreateFileHandler;;
  modify (set_width (pix_width fmt));;
  modify (set_height (pix_height fmt));;
  modify (set_running 1);;
  modify (set_stalled 0);;
  modify (set_bufrdy (-1));;
  modify (set_bufdone 0);;
  modify (set_counters1 0);;
  modify (set_counters0 0);;
  mret (TCL_OK, ResUnset).

(** [StartCapture], from "mmap() buffers" on, for the [count] buffers
    the kernel granted. *)
Definition start_pool (fmt : pix_format) (count : Z)
  : M (TclCode * Result) :=
  (* mmap() buffers *)
  mapped ← map_buffers (Z.to_nat count) 0;
  match mapped with
  | QueryFailed => start_failed (ResPosix "error querying buffer")
  | MapFailed => start_failed (ResPosix "error mapping buffer")
  | Mapped =>
      (* queue buffers *)
      queued ← queue_buffers (Z.to_nat count) 0;
      if negb queued then
        unmapAll count (ResPosix "error querying buffer")
      else
        (* start capture *)
        modify (set_nvbufs count);;
        on ← call VIDIOC_STREAMON;
        if ret on <? 0 then
          unmapAll count (ResPosix "error starting capture")
        else
          (* setup file handler *)
          capture_started fmt
  end.

(** [StartCapture], from "request buffers" on; [fmt] is the format that
    was set. *)
Definition start_buffers (fmt : pix_format) : M (TclCode * Result) :=
  (* request buffers *)
  req ← request_buffers;
  match req with
  | ReqUnfinished => mret (TCL_ERROR, ResUnset)
  | ReqFailed => start_failed (ResPosix "error requesting buffers")
  | ReqCount count =>
      if (count <=? 0) || (16 <? count) then
        start_failed (ResString "unable to get buffers")
      else start_pool fmt count
  end.

(** [StartCapture].  ([ReqUnfinished] above does not occur: see
    [request_buffers_finishes].) *)
Definition StartCapture : M (TclCode * Result) :=
  s ← get;
  if 0 <? running s then mret (TCL_OK, ResUnset)
  else
    (* set format/size *)
    got ← negotiate_format;
    match got with
    | NoFormat => start_failed (ResPosix "error setting format")
    | UnsupportedFormat =>
        mret (TCL_ERROR, ResString "unable to set supported pixel format")
    | GotFormat fmt =>
        modify (set_format (pixelformat fmt));;
        modify (fun s => if wantFormat s =? 0
                         then set_wantFormat (format s) s else s);;
        (* try to set frame rate *)
        set_frame_rate;;
        start_buffers fmt
    end.

(** [StartCapture], from the label [gotFormat] to "request buffers". *)
Definition before_buffers (fmt : pix_format) : M unit :=
  modify (set_format (pixelformat fmt));;
  modify (fun s => if wantFormat s =? 0
                   then set_wantFormat (format s) s else s);;
  set_frame_rate.

(** The negotiation of the pool in words: the counts of [counts] are asked
    for in turn, of the device as the request before left it, up to the
    first answer that is decisive.  The counts asked for, and the decisive
    answer when there is one. *)
Fixpoint doubling (counts : list Z) (w : World) : list Z * option Reply :=
  match counts with
  | [] => ([], None)
  | i :: rest =>
      let (a, w') := sys w (VIDIOC_REQBUFS i) in
      if decisive a then ([i], Some a)
      else let (l, d) := doubling rest w' in (i :: l, d)
  end.

(** *** The control registry: [SetControls] *)

(** [GetZZString]: the entry of the given index in a list of
    NUL-terminated strings that ends with an empty one.  An empty entry
    met on the way ends the search; a leading comma marks a placeholder
    and is skipped. *)
Fixpoint GetZZString_at (entries : list string) (index : nat) : string :=
  match index, entries with
  | _, [] => EmptyString
  | O, e :: _ =>
      match e with
      | String "," rest => rest
      | _ => e
      end
  | S i, e :: rest =>
      match e with
      | EmptyString => EmptyString
      | _ => GetZZString_at rest i
      end
  end.

Definition GetZZString (entries : list string) (index : Z) : string :=
  GetZZString_at entries (Z.to_nat index).

(** The loop over the menu entries in [SetControls]: the first [k], among
    [n] from [k] on, whose entry is not empty and equals the value. *)
Fixpoint find_choice (n : nat) (k : Z) (entries : list string)
    (value : string) : option Z :=
  match n with
  | O => None
  | S n' =>
      let entry := GetZZString entries k in
      if negb (String.eqb entry EmptyString) && String.eqb entry value
      then Some k
      else find_choice n' (k + 1) entries value
  end.

(** The text after the first ['@'] of a string: [strchr(fmt, '@') + 1]. *)
Fixpoint after_at (fmt : string) : option string :=
  match fmt with
  | EmptyString => None
  | String c rest => if Ascii.eqb c "@" then Some rest else after_at rest
  end.

(** A [char] as stored in [fcbuf], and the [__u32] built from four. *)
Definition char_of (c : ascii) : Z :=
  let n := Z.of_nat (nat_of_ascii c) in if n <? 128 then n else n - 256.

Definition u32 (x : Z) : Z := x mod 2 ^ 32.

Definition fourcc_of (fcbuf : list ascii) : Z :=
  let ch i := u32 (char_of (nth i fcbuf " "%char)) in
  to_int (Z.lor (Z.lor (ch 0%nat) (u32 (Z.shiftl (ch 1%nat) 8)))
                (Z.lor (u32 (Z.shiftl (ch 2%nat) 16))
                       (u32 (Z.shiftl (ch 3%nat) 24)))).

(** The branch of [SetControls] for the "frame-size" control. *)
Definition set_frame_size (value : Tcl_Obj) : M unit :=
  s ← get;
  let fmt := Tcl_GetString value in
  match sscanf_size fmt with
  | Some (w, h) =>
      if (0 <? w) && (0 <? h) && (running s <=? 0) then
        modify (set_width w);;
        modify (set_height h);;
        modify (set_wantFormat 0);;
        match after_at fmt with
        | Some (String c rest) =>
            modify (set_wantFormat
                      (fourcc_of (take 4 (list_ascii_of_string (String c rest)))))
        | _ => mret tt
        end
      else mret tt
  | None => mret tt
  end.

(** The branch of [SetControls] for the "frame-rate" control. *)
Definition set_frame_rate_control (value : Tcl_Obj) : M unit :=
  match Tcl_GetIntFromObj value with
  | None => (* ignored *) mret tt
  | Some fps =>
      if (0 <? fps) && (fps <? 200) then modify (set_fps fps) else mret tt
  end.

(** [struct v4l2_ext_control]: the 32 bit and the 64 bit view of its
    value (one union; little-endian). *)
Record v4l2_ext_control := {
  xc_value : Z;
  xc_value64 : Z
}.

(** The [switch (vctrl->qry.type)] of [SetControls]: the value to write,
    or [None] where the pair is ignored. *)
Definition control_value (vctrl : VCTRL) (value : Tcl_Obj)
  : option v4l2_ext_control :=
  match type (qry vctrl) with
  | V4L2_CTRL_TYPE_INTEGER
  | V4L2_CTRL_TYPE_BOOLEAN =>
      match Tcl_GetIntFromObj value with
      | None => None
      | Some ival => Some {| xc_value := ival; xc_value64 := u32 ival |}
      end
  | V4L2_CTRL_TYPE_INTEGER64 =>
      match Tcl_GetWideIntFromObj value with
      | None => None
      | Some wval => Some {| xc_value := to_int wval; xc_value64 := wval |}
      end
  | V4L2_CTRL_TYPE_BUTTON => Some {| xc_value := 0; xc_value64 := 0 |}
  | V4L2_CTRL_TYPE_MENU =>
      let span := maximum (qry vctrl) - minimum (qry vctrl) in
      match find_choice (Z.to_nat (span + 1)) 0 (ds vctrl)
                        (Tcl_GetString value) with
      | None => None
      | Some k =>
          let v := to_int (k + minimum (qry vctrl)) in
          Some {| xc_value := v; xc_value64 := u32 v |}
      end
  | _ => None
  end.

(** The write of one device control; [Some errno] on the way to the label
    [errorSet]. *)
Definition write_control (p : vptr) (vctrl : VCTRL) (xc : v4l2_ext_control)
  : M (option Z) :=
  let xid := id (qry vctrl) in
  if 0 <? useOld vctrl then
    r ← call (VIDIOC_S_CTRL xid (xc_value xc));
    if ret r <? 0 then mret (Some (errno r)) else mret None
  else
    r ← call (VIDIOC_S_EXT_CTRLS (V4L2_CTRL_ID2CLASS xid) xid
                                  (xc_value xc) (xc_value64 xc));
    if ret r <? 0 then
      if (errno r =? EINVAL) && (useOld vctrl <? 0) then
        (* retry with old ioctl() command *)
        r' ← call (VIDIOC_S_CTRL xid (xc_value xc));
        if ret r' =? 0 then modify (store_useOld p 1);; mret None
        else mret (Some (if ret r' <? 0 then errno r' else errno r))
      else mret (Some (errno r))
    else mret None.

(** One pass of the loop of [SetControls], for [objv[i]] and
    [objv[i + 1]]: [None] where the loop goes on, the error otherwise. *)
Definition set_control (key value : Tcl_Obj) : M (option Result) :=
  s ← get;
  match nctrl s !! Tcl_GetString key with
  | None => mret None
  | Some p =>
      match deref s p with
      | None => mret None
      | Some vctrl =>
          if negb (Z.land (flags (qry vctrl)) V4L2_CTRL_FLAG_READ_ONLY =? 0)
             || negb (Z.land (flags (qry vctrl)) V4L2_CTRL_FLAG_INACTIVE =? 0)
          then mret None
          else
            match p with
            | P_fsize => set_frame_size value;; mret None
            | P_frate => set_frame_rate_control value;; mret None
            | P_alloc _ =>
                match control_value vctrl value with
                | None => (* ignored *) mret None
                | Some xc =>
                    e ← write_control p vctrl xc;
                    match e with
                    | None => mret None
                    | Some en =>
                        mret (Some (ResSetFailed (Tcl_GetString key) en))
                    end
                end
            end
      end
  end.

(** [SetControls]; the command only passes an even number of objects. *)
Fixpoint SetControls (objv : list Tcl_Obj) : M (TclCode * Result) :=
  match objv with
  | key :: value :: rest =>
      e ← set_control key value;
      match e with
      | None => SetControls rest
      | Some res => mret (TCL_ERROR, res)
      end
  | _ => mret (TCL_OK, ResUnset)
  end.

(** The objects of a list of name/value pairs, as [CMD_parameters] gets
    them. *)
Definition objv_of (pairs : list (Tcl_Obj * Tcl_Obj)) : list Tcl_Obj :=
  flat_map (fun p => [p.1; p.2]) pairs.

(** A control that is neither read-only nor inactive. *)
Definition unlocked (vctrl : VCTRL) : Prop :=
  Z.land (flags (qry vctrl)) V4L2_CTRL_FLAG_READ_ONLY = 0
  /\ Z.land (flags (qry vctrl)) V4L2_CTRL_FLAG_INACTIVE = 0.

(** The request that writes a value to a control of the kernel: the old
    ioctl where the control is marked for it. *)
Definition write_request (vctrl : VCTRL) (xc : v4l2_ext_control) : Request :=
  let xid := id (qry vctrl) in
  if 0 <? useOld vctrl then VIDIOC_S_CTRL xid (xc_value xc)
  else VIDIOC_S_EXT_CTRLS (V4L2_CTRL_ID2CLASS xid) xid
                          (xc_value xc) (xc_value64 xc).

(** The value of a control as 32 bits. *)
Definition value32 (v : Z) : v4l2_ext_control :=
  {| xc_value := v; xc_value64 := u32 v |}.

(** The pairs [SetControls] passes over: the name is unknown; the control
    is read-only or inactive; the value is not an integer (for an integer,
    boolean or the frame-rate control) or not a wide integer (for a 64 bit
    control); or the control is a menu of the kernel and the value is none
    of the labels of its choices. *)
Inductive Skipped (s : V4L2C) (key value : Tcl_Obj) : Prop :=
| skip_unknown :
    nctrl s !! Tcl_GetString key = None -> Skipped s key value
| skip_locked (p : vptr) (vctrl : VCTRL) :
    nctrl s !! Tcl_GetString key = Some p -> deref s p = Some vctrl ->
    Z.land (flags (qry vctrl)) V4L2_CTRL_FLAG_READ_ONLY <> 0
    \/ Z.land (flags (qry vctrl)) V4L2_CTRL_FLAG_INACTIVE <> 0 ->
    Skipped s key value
| skip_not_int (a : Z) (vctrl : VCTRL) :
    nctrl s !! Tcl_GetString key = Some (P_alloc a) ->
    deref s (P_alloc a) = Some vctrl ->
    type (qry vctrl) = V4L2_CTRL_TYPE_INTEGER
    \/ type (qry vctrl) = V4L2_CTRL_TYPE_BOOLEAN ->
    Tcl_GetIntFromObj value = None -> Skipped s key value
| skip_not_wide (a : Z) (vctrl : VCTRL) :
    nctrl s !! Tcl_GetString key = Some (P_alloc a) ->
    deref s (P_alloc a) = Some vctrl ->
    type (qry vctrl) = V4L2_CTRL_TYPE_INTEGER64 ->
    Tcl_GetWideIntFromObj value = None -> Skipped s key value
| skip_rate_not_int :
    nctrl s !! Tcl_GetString key = Some P_frate ->
    Tcl_GetIntFromObj value = None -> Skipped s key value
| skip_no_choice (a : Z) (vctrl : VCTRL) :
    nctrl s !! Tcl_GetString key = Some (P_alloc a) ->
    deref s (P_alloc a) = Some vctrl ->
    type (qry vctrl) = V4L2_CTRL_TYPE_MENU ->
    (forall k, 0 <= k <= maximum (qry vctrl) - minimum (qry vctrl) ->
               GetZZString (ds vctrl) k <> Tcl_GetString value) ->
    Skipped s key value.

(** *** The orientation sub-command *)

(** [CMD_orientation], once the device is found. *)
Definition Orientation (arg : option Tcl_Obj) : M (TclCode * Result) :=
  match arg with
  | Some obj =>
      match Tcl_GetIntFromObj obj with
      | None => mret (TCL_ERROR, ResUnset)
      | Some degrees =>
          modify (set_rotate (Orient.snap degrees));;
          mret (TCL_OK, ResUnset)
      end
  | None => s ← get; mret (TCL_OK, ResInt (rotate s))
  end.

(** *** Image retrieval: [GetImage]

    The pixels themselves are not part of this model of [GetImage] (the
    conversions are in [Convert]); what is modelled is which allocations
    and Tk calls are made, the geometry of the block handed to Tk, the
    result, and the bookkeeping at the label [done]. *)

(** The geometry of a [Tk_PhotoImageBlock]; [g_ptr] is [pixelPtr] as an
    offset into the pixel data. *)
Record geometry := {
  g_ptr : Z;
  g_width : Z;
  g_height : Z;
  g_pitch : Z;
  g_pixelSize : Z
}.

(** Rotation and mirroring of a block of [width] by [height] pixels, as in
    [GetImage] and [DataToPhoto]. *)
Definition transform (rot mirror width height : Z) (g : geometry)
  : geometry :=
  let rot := if Z.land mirror 3 =? 3 then Z.rem (rot + 180) 360 else rot in
  let g :=
    if rot =? 270 then
      {| g_pitch := g_pixelSize g;
         g_ptr := g_ptr g + width * g_pixelSize g * (height - 1);
         g_pixelSize := g_pixelSize g * - width;
         g_width := height; g_height := width |}
    else if rot =? 180 then
      {| g_pitch := - g_pitch g;
         g_ptr := g_ptr g + (width * height - 1) * g_pixelSize g;
         g_pixelSize := - g_pixelSize g;
         g_width := g_width g; g_height := g_height g |}
    else if rot =? 90 then
      {| g_pitch := - g_pixelSize g;
         g_ptr := g_ptr g + (width - 1) * g_pixelSize g;
         g_pixelSize := g_pixelSize g * width;
         g_width := height; g_height := width |}
    else g in
  let g :=
    if Z.land mirror 3 =? 2 then
      (* mirror in X *)
      {| g_ptr := g_ptr g + (g_width g - 1) * g_pixelSize g;
         g_pixelSize := - g_pixelSize g;
         g_pitch := g_pitch g; g_width := g_width g;
         g_height := g_height g |}
    else g in
  if Z.land mirror 3 =? 1 then
    (* mirror in Y *)
    {| g_ptr := g_ptr g + g_pitch g * (g_height g - 1);
       g_pitch := - g_pitch g;
       g_pixelSize := g_pixelSize g; g_width := g_width g;
       g_height := g_height g |}
  else g.

Inductive Prepared :=
| Pixels (rawSize pixelSize : Z)
| NotPrepared (res : Result).

Definition out_of_memory : Result := ResString "out of memory".

(** A conversion that allocates [size] bytes and cannot fail otherwise. *)
Definition converted (size : Z) (ok : Prepared) : M Prepared :=
  a ← call (attemptckalloc size);
  if ret a =? 0 then mret (NotPrepared out_of_memory) else mret ok.

(** [ConvertFromMJPEG], by its outcome. *)
Definition converted_mjpeg (size : Z) (ok : Prepared) : M Prepared :=
  a ← call (attemptckalloc size);
  if ret a =? 0 then mret (NotPrepared out_of_memory)
  else
    d ← call jpeg_decode;
    if ret d <? 0
    then mret (NotPrepared (ResString "conversion from jpeg failed"))
    else mret ok.

(** [switch (v4l2c->format)] of the photo branch. *)
Definition prepare_photo (s : V4L2C) : M Prepared :=
  let f := format s in
  let n := width s * height s in
  if (f =? V4L2_PIX_FMT_YUYV) || (f =? V4L2_PIX_FMT_YVYU) then
    converted (n * 3) (Pixels (n * 3) 3)
  else if (f =? V4L2_PIX_FMT_RGB32) || (f =? V4L2_PIX_FMT_BGR32) then
    mret (Pixels (n * 4) 4)
  else if USE_MJPEG && (f =? V4L2_PIX_FMT_MJPEG) then
    converted_mjpeg (n * 3) (Pixels (n * 3) 3)
  else if f =? V4L2_PIX_FMT_GREY then mret (Pixels n 1)
  else if (f =? V4L2_PIX_FMT_Y10) || (f =? V4L2_PIX_FMT_Y16) then
    converted n (Pixels n 1)
  else mret (Pixels (n * 3) 3).

(** [switch (v4l2c->format)] of the byte array branch. *)
Definition prepare_raw (s : V4L2C) : M Prepared :=
  let f := format s in
  let n := width s * height s in
  if (f =? V4L2_PIX_FMT_YUYV) || (f =? V4L2_PIX_FMT_YVYU) then
    converted (n * 3) (Pixels (n * 3) 3)
  else if (f =? V4L2_PIX_FMT_RGB32) || (f =? V4L2_PIX_FMT_BGR32) then
    mret (Pixels (n * 4) 4)
  else if USE_MJPEG && (f =? V4L2_PIX_FMT_MJPEG) then
    converted_mjpeg (n * 3) (Pixels (n * 3) 3)
  else if f =? V4L2_PIX_FMT_GREY then mret (Pixels n 1)
  else if (f =? V4L2_PIX_FMT_Y10) || (f =? V4L2_PIX_FMT_Y16) then
    mret (Pixels (n * 2) 2)
  else mret (Pixels (n * 3) 3).

(** The channel extraction [if ((flags & 0x07) && (pixelSize >= 3))]. *)
Definition extract_channels (flags : Z) (s : V4L2C) (p : Prepared)
  : M Prepared :=
  match p with
  | Pixels rawSize pixelSize =>
      if negb (Z.land flags 7 =? 0) && (3 <=? pixelSize) then
        converted (width s * height s)
                  (Pixels (width s * height s) 1)
      else mret p
  | NotPrepared _ => mret p
  end.

(** [GetImage], from the label [done]. *)
Definition image_done (done : bool) (result : TclCode * Result)
  : M (TclCode * Result) :=
  s ← get;
  (if done && (bufdone s =? 0) then
     modify (set_bufdone 1);;
     modify (fun s => set_counters1 (to_wide (counters1 s + 1)) s)
   else mret tt);;
  mret result.

(** [GetImage], after the photo image was looked up. *)
Definition get_image (flags : Z) (photo : bool) : M (TclCode * Result) :=
  s ← get;
  if bufrdy s <? 0 then
    (* no image available *)
    if photo then image_done false (TCL_OK, ResInt 0)
    else image_done false (TCL_ERROR, ResString "no image available")
  else if photo then
    p ← prepare_photo s;
    p ← extract_channels flags s p;
    match p with
    | NotPrepared res => image_done false (TCL_ERROR, res)
    | Pixels _ pixelSize =>
        let g := transform (rotate s) (mirror s) (width s) (height s)
                   {| g_ptr := 0; g_width := width s; g_height := height s;
                      g_pitch := pixelSize * width s;
                      g_pixelSize := pixelSize |} in
        e ← call (Tk_PhotoExpand (g_width g) (g_height g));
        if negb (ret e =? 0) then image_done false (TCL_ERROR, ResUnset)
        else
          b ← call (Tk_PhotoPutBlock (g_width g) (g_height g) (g_pitch g)
                                      (g_pixelSize g));
          if negb (ret b =? 0) then image_done false (TCL_ERROR, ResUnset)
          else image_done true (TCL_OK, ResInt 1)
    end
  else
    p ← prepare_raw s;
    p ← extract_channels flags s p;
    match p with
    | NotPrepared res => image_done false (TCL_ERROR, res)
    | Pixels rawSize pixelSize =>
        image_done true
          (TCL_OK, ResImage (width s) (height s) pixelSize rawSize)
    end.

(** [GetImage]; [arg] is the optional photo image name. *)
Definition GetImage (flags : Z) (arg : option Tcl_Obj)
  : M (TclCode * Result) :=
  match arg with
  | Some obj =>
      t ← call CheckForTk;
      if negb (ret t =? 0) then mret (TCL_ERROR, ResUnset)
      else
        w ← call Tk_MainWindow;
        if ret w =? 0
        then mret (TCL_ERROR, ResString "application has been destroyed")
        else
          ph ← call (Tk_FindPhoto (Tcl_GetString obj));
          if ret ph =? 0
          then mret (TCL_ERROR, ResNotPhoto (Tcl_GetString obj))
          else get_image flags true
  | None => get_image flags false
  end.

(** *** Operations on a session, and runs of them *)

Inductive Op :=
| OpStart
| OpStop
| OpReady (mask : Z)
| OpImage (flags : Z) (arg : option Tcl_Obj)
| OpParameters (objv : list Tcl_Obj)
| OpOrientation (arg : option Tcl_Obj).

Definition perform (o : Op) : M unit :=
  match o with
  | OpStart => StartCapture;; mret tt
  | OpStop => StopCapture;; mret tt
  | OpReady mask => BufferReady mask
  | OpImage flags arg => GetImage flags arg;; mret tt
  | OpParameters objv => SetControls objv;; mret tt
  | OpOrientation arg => Orientation arg;; mret tt
  end.

Fixpoint run (ops : list Op) : M unit :=
  match ops with
  | [] => mret tt
  | o :: rest => perform o;; run rest
  end.

(** *** Relating the session before and after a computation *)

(** [c] takes every session to one related to it by [R]. *)
Definition sends {A : Type} (R : relation V4L2C) (c : M A) : Prop :=
  forall m, R (session m) (session (c m).2).

(** The fields behind the two counters. *)
Definition core (s : V4L2C) : Z * Z * Z * Z :=
  (bufrdy s, bufdone s, counters0 s, counters1 s).

Definition same_core : relation V4L2C := fun s s' => core s' = core s.

(** What a start may do to these fields: nothing, or reset them. *)
Definition restarted : relation V4L2C :=
  fun s s' => core s' = core s \/ core s' = (-1, 0, 0, 0).

(** The session after [GetImage] counted the ready frame as consumed. *)
Definition handed_out (s : V4L2C) : V4L2C :=
  set_counters1 (to_wide (counters1 s + 1)) (set_bufdone 1 s).

Definition may_consume : relation V4L2C :=
  fun s s' => s' = s \/ (bufdone s = 0 /\ s' = handed_out s).

(** The counters of a session on which at most [n] frames were dequeued:
    consumed never exceeds captured, and a ready frame that was not yet
    handed out is one that is captured and not consumed. *)
Definition counted (n : Z) (s : V4L2C) : Prop :=
  0 <= counters1 s /\ counters1 s <= counters0 s /\ counters0 s <= n
  /\ (0 <= bufrdy s -> bufdone s = 0 -> counters1 s < counters0 s).

(** Whether the photo image named by [obj] can be used: Tk is there, the
    application has a main window, and the image is found. *)
Definition photo_found (m : Machine) (obj : Tcl_Obj) : Prop :=
  let '(t, w1) := sys (world m) CheckForTk in
  let '(w, w2) := sys w1 Tk_MainWindow in
  let '(ph, _) := sys w2 (Tk_FindPhoto (Tcl_GetString obj)) in
  ret t = 0 /\ ret w <> 0 /\ ret ph <> 0.

End Machine.

(** *** A freshly opened session *)

(** The "frame-rate" pseudo control, as [InitControls] fills it in. *)
Definition frame_rate_control : VCTRL :=
  {| qry := {| id := 1; type := V4L2_CTRL_TYPE_INTEGER; name := "frame-rate";
               minimum := 1; maximum := 200; step := 1; default_value := 15;
               flags := 0 |};
     useOld := 0; ds := [] |}.

(** The "frame-size" pseudo menu control for the given list of sizes. *)
Definition frame_size_control (sizes : list string) : VCTRL :=
  {| qry := {| id := 0; type := V4L2_CTRL_TYPE_MENU; name := "frame-size";
               minimum := 0; maximum := Z.of_nat (List.length sizes) - 1;
               step := 0; default_value := 0; flags := 0 |};
     useOld := 0; ds := sizes |}.

(** The session [CMD_open] leaves, given what the device reported ([w],
    [h], [rate]), the list of frame sizes, and the tables [InitControls]
    built for the controls of the kernel; the two pseudo controls are
    entered last, under the ids 0 and 1 and under their reserved names. *)
Definition opened (dev_fd loop w h rate : Z) (dev_id dev_name : string)
    (callback : string) (sizes : list string)
    (kctrl : gmap Z vptr) (knctrl : gmap string vptr)
    (kheap : gmap Z VCTRL) : V4L2C :=
  {| running := 0; stalled := 0; format := 0; wantFormat := 0;
     greyshift := 4; fd := dev_fd; isLoopDev := loop; loopFormat := 0;
     mirror := 0; rotate := 0; bufrdy := -1; bufdone := 0;
     width := if w <? 0 then 640 else w;
     height := if h <? 0 then 320 else h;
     loopWidth := 0; loopHeight := 0; fps := rate;
     devId := dev_id; devName := dev_name;
     cbCmdLen := 1; cbCmd := [WStr callback];
     ctrl := <[1 := P_frate]> (<[0 := P_fsize]> kctrl);
     nctrl := <["frame-rate"%string := P_frate]>
                (<["frame-size"%string := P_fsize]> knctrl);
     fsize := frame_size_control sizes;
     frate := frame_rate_control;
     heap := kheap;
     counters0 := 0; counters1 := 0; nvbufs := 0;
     vbufs := replicate 16 {| start := 0; length := 0 |} |}.

(** The rate [CMD_open] takes from the time per frame the device reports. *)
Definition open_fps (numerator denominator : Z) : Z :=
  let rate := denominator / numerator in
  if (0 <? rate) && (rate <? 200) then rate else 15.

End Engine.

(** ** A scripted device, for running the engine on examples

    The surroundings answer from a list, one reply per request, in order;
    when the list is used up every request succeeds with zeros. *)

Module Sim.
Import Engine.

Definition ok : Reply :=
  {| ret := 0; errno := 0; out1 := 0; out2 := 0; out3 := 0 |}.

Definition failed (e : Z) : Reply :=
  {| ret := -1; errno := e; out1 := 0; out2 := 0; out3 := 0 |}.

Definition gives (a b c : Z) : Reply :=
  {| ret := 0; errno := 0; out1 := a; out2 := b; out3 := c |}.

Definition returns (r : Z) : Reply :=
  {| ret := r; errno := 0; out1 := 0; out2 := 0; out3 := 0 |}.

Definition scripted (w : list Reply) (r : Request) : Reply * list Reply :=
  match w with
  | [] => (ok, [])
  | x :: w' => (x, w')
  end.

Definition no_sizes (fmt : string) : option (Z * Z) := None.

(** A camera just opened: 640x480 at 30 frames per second, no kernel
    controls. *)
Definition camera : V4L2C :=
  opened 3 0 640 480 30 "vdev0" "/dev/video0" "onframe" [] ∅ ∅ ∅.

Definition boot (s : V4L2C) (script : list Reply) : Machine (list Reply) :=
  {| session := s; world := script; trace := [] |}.

(** The replies of a start that the device grants at once, with two
    buffers: format, stream parameters (no time per frame), buffer count,
    two buffers queried and mapped, two buffers queued, stream on, file
    handler. *)
Definition start_script : list Reply :=
  [ gives V4L2_PIX_FMT_RGB24 640 480; ok; gives 2 0 0;
    gives 614400 0 0; returns 4096; gives 614400 614400 0; returns 8192;
    ok; ok; ok; ok ].

(** A session that is capturing, with two mapped buffers. *)
Definition capturing : V4L2C :=
  session _ (StartCapture _ scripted false (boot camera start_script)).2.

Definition int_obj (z : Z) (text : string) : Tcl_Obj :=
  {| Tcl_GetString := text; Tcl_GetIntFromObj := Some z;
     Tcl_GetWideIntFromObj := Some z |}.

Definition text_obj (text : string) : Tcl_Obj :=
  {| Tcl_GetString := text; Tcl_GetIntFromObj := None;
     Tcl_GetWideIntFromObj := None |}.

(** A device whose answer to [VIDIOC_REQBUFS] is a function of the count
    asked for; everything else is scripted. *)
Definition kernel (answer : Z -> Reply) (w : list Reply) (r : Request)
  : Reply * list Reply :=
  match r with
  | VIDIOC_REQBUFS i => (answer i, w)
  | _ => scripted w r
  end.

(** A driver that grants a pool only when at least five buffers are asked
    for, and writes back a count of 0 otherwise. *)
Definition needs_five (i : Z) : Reply :=
  if i <? 5 then gives 0 0 0 else gives i 0 0.

(** A driver that grants a pool only when at least nine buffers are asked
    for. *)
Definition needs_nine (i : Z) : Reply :=
  if i <? 9 then gives 0 0 0 else gives i 0 0.

(** The replies of a start with eight buffers, the buffer counts left
    out: format, stream parameters, eight buffers queried and mapped;
    queueing, stream on and the file handler succeed. *)
Definition start8_script : list Reply :=
  [ gives V4L2_PIX_FMT_RGB24 640 480; ok ]
  ++ flat_map (fun k => [ gives 614400 (614400 * Z.of_nat k) 0;
                          returns (4096 * (Z.of_nat k + 1)) ]) (seq 0 8).

(** The replies of a start on a high-speed camera: the driver takes a
    time per frame and reports 1/240 s afterwards. *)
Definition fast_start_script : list Reply :=
  [ gives V4L2_PIX_FMT_RGB24 640 480;
    gives V4L2_CAP_TIMEPERFRAME 1 30; ok; gives V4L2_CAP_TIMEPERFRAME 1 240;
    gives 2 0 0;
    gives 614400 0 0; returns 4096; gives 614400 614400 0; returns 8192;
    ok; ok; ok; ok ].

(** A menu control of the kernel, with three choices. *)
Definition power_line : VCTRL :=
  {| qry := {| id := 9963800; type := V4L2_CTRL_TYPE_MENU;
               name := "power-line-frequency";
               minimum := 0; maximum := 2; step := 1; default_value := 1;
               flags := 0 |};
     useOld := -1; ds := ["disabled"; "50-hz"; "60-hz"; ""]%string |}.

(** A camera with that control. *)
Definition webcam : V4L2C :=
  opened 3 0 640 480 30 "vdev0" "/dev/video0" "onframe" []
         {[ 9963800 := P_alloc 1 ]}
         {[ "power-line-frequency"%string := P_alloc 1 ]}
         {[ 1 := power_line ]}.

(** A camera whose driver lists no frame sizes: [InitControls] falls
    back to the one size of the format that is set. *)
Definition fallback_camera : V4L2C :=
  opened 3 0 640 480 30 "vdev0" "/dev/video0" "onframe" ["640x480"%string]
         ∅ ∅ ∅.

(** [sscanf] for numbers that fit an [int]: white space, an optional
    sign and decimal digits for each [%d]. *)
Definition is_digit (c : ascii) : bool :=
  (48 <=? nat_of_ascii c)%nat && (nat_of_ascii c <=? 57)%nat.

Definition is_space (c : ascii) : bool :=
  (nat_of_ascii c =? 32)%nat
  || ((9 <=? nat_of_ascii c)%nat && (nat_of_ascii c <=? 13)%nat).

Fixpoint skip_space (s : string) : string :=
  match s with
  | String c rest => if is_space c then skip_space rest else s
  | EmptyString => s
  end.

Fixpoint scan_digits (s : string) (value : Z) : Z * string :=
  match s with
  | String c rest =>
      if is_digit c
      then scan_digits rest (value * 10 + (Z.of_nat (nat_of_ascii c) - 48))
      else (value, s)
  | EmptyString => (value, s)
  end.

Definition scan_unsigned (s : string) : option (Z * string) :=
  match s with
  | String c _ => if is_digit c then Some (scan_digits s 0) else None
  | EmptyString => None
  end.

(** One [%d]: the number and the rest of the input. *)
Definition scan_int (s : string) : option (Z * string) :=
  match skip_space s with
  | String "-" rest =>
      match scan_unsigned rest with
      | Some (n, rest') => Some (- n, rest')
      | None => None
      end
  | String "+" rest => scan_unsigned rest
  | s' => scan_unsigned s'
  end.

(** [sscanf(fmt, "%dx%d", &w, &h) == 2], and the two numbers. *)
Definition scan_size (fmt : string) : option (Z * Z) :=
  match scan_int fmt with
  | Some (w, String "x" rest) =>
      match scan_int rest with
      | Some (h, _) => Some (w, h)
      | None => None
      end
  | _ => None
  end.

(** A spurious wake-up, then a frame (buffer 0, sequence 7). *)
Definition stall_then_frame : list Reply :=
  [ failed EAGAIN; ok; gives 0 7 0; ok ].

(** A first frame (buffer 0), a spurious wake-up, then a second frame
    (buffer 1) whose displaced buffer 0 the kernel refuses to take back. *)
Definition stall_then_refused_requeue : list Reply :=
  [ gives 0 7 0; ok; failed EAGAIN; ok; gives 1 8 0; failed EINVAL ].

(** Tk is there, with a main window, and finds the photo image. *)
Definition photo_script : list Reply := [ ok; returns 1; returns 1 ].

End Sim.

(** ** Blocks of pixels handed to Tk: [GetImage] and [DataToPhoto] *)

Module Photo.
Import Engine.

(** Where Tk reads the pixel in column [x] and row [y] of a
    [Tk_PhotoImageBlock]: [pixelPtr + y * pitch + x * pixelSize], as an
    offset into the pixel data. *)
Definition pixel_at (g : geometry) (x y : Z) : Z :=
  g_ptr g + y * g_pitch g + x * g_pixelSize g.

(** The block both functions start from: [width] by [height] pixels of
    [pixelSize] bytes, rows one after the other. *)
Definition plain (width height pixelSize : Z) : geometry :=
  {| g_ptr := 0; g_width := width; g_height := height;
     g_pitch := pixelSize * width; g_pixelSize := pixelSize |}.

(** [mirror = (mirx ? 1 : 0) | (miry ? 2 : 0)], in [DataToPhoto] and in the
    mirror sub-command. *)
Definition mirror_flags (mirx miry : bool) : Z :=
  Z.lor (if mirx then 1 else 0) (if miry then 2 else 0).

(** [DataToPhoto], from the length test on: the block put into the photo
    image, or [None] for "unsupported data format".  [length] is the
    length of the byte array; the product is an [int]. *)
Definition DataToPhoto_block (width height bpp rot : Z) (mirx miry : bool)
    (length : Z) : option geometry :=
  if (length <? to_int (width * height * bpp))
     || (negb (bpp =? 1) && negb (bpp =? 3))
  then None
  else
    let block :=
      {| g_ptr := 0; g_width := width; g_height := height;
         g_pitch := width * bpp; g_pixelSize := bpp |} in
    Some (transform (Orient.snap rot) (mirror_flags mirx miry)
                    width height block).

(** The column and the row of the frame that a block turned by [rot]
    shows at column [x] and row [y]. *)
Definition turned (rot w h x y : Z) : Z * Z :=
  if rot =? 270 then (y, h - 1 - x)
  else if rot =? 180 then (w - 1 - x, h - 1 - y)
  else if rot =? 90 then (w - 1 - y, x)
  else (x, y).

(** The rotation in effect: both mirror flags together are a half turn. *)
Definition turn (rot mirror : Z) : Z :=
  if Z.land mirror 3 =? 3 then Z.rem (rot + 180) 360 else rot.

(** Width and height of the block shown. *)
Definition shown_size (rot mirror w h : Z) : Z * Z :=
  let r := turn rot mirror in
  if (r =? 270) || (r =? 90) then (h, w) else (w, h).

(** The column and the row of the frame shown at column [x] and row [y],
    mirroring included: the flag 2 alone reverses the columns of the
    block, the flag 1 alone its rows. *)
Definition shown (rot mirror w h x y : Z) : Z * Z :=
  let r := turn rot mirror in
  let '(W, H) := shown_size rot mirror w h in
  let x' := if Z.land mirror 3 =? 2 then W - 1 - x else x in
  let y' := if Z.land mirror 3 =? 1 then H - 1 - y else y in
  turned r w h x' y'.

End Photo.

(** ** Bytes and grey values: the sub-commands that work on pixel data *)

Module Pixels.
Import Convert.

(** *** [CMD_mbcopy]: copy of the masked bits of a byte array *)

(** [dst[i] = (dst[i] & (~mask)) | (src[i] & mask)], stored into an
    [unsigned char]. *)
Definition merge_byte (mask d s : Z) : Z :=
  Z.lor (Z.land d (Z.lnot mask)) (Z.land s mask) mod 256.

(** [n] passes of [for (...; i < srcLen; i += 3) dst[i] = ...], from [i]. *)
Fixpoint merge_pass (n : nat) (mask : Z) (i : nat) (dst src : list Z)
  : list Z :=
  match n with
  | O => dst
  | S n' =>
      merge_pass n' mask (i + 3)
                 (<[i := merge_byte mask (nth i dst 0) (nth i src 0)]> dst) src
  end.

(** [(mask0 >> shift) & 0xff] *)
Definition channel_mask (mask0 shift : Z) : Z :=
  Z.land (Z.shiftr mask0 shift) 255.

(** One of the three loops: the bytes [first], [first + 3], ... below
    [srcLen], when the mask of the channel is not 0. *)
Definition merge_channel (mask0 shift : Z) (first : nat) (dst src : list Z)
  : list Z :=
  let mask := channel_mask mask0 shift in
  if mask =? 0 then dst
  else
    merge_pass (passes (Z.of_nat (List.length src) - Z.of_nat first) 3)
               mask first dst src.

(** [CMD_mbcopy] on the two byte arrays; [None] is the error
    "incompatible bytearrays". *)
Definition mbcopy (mask0 : Z) (dst src : list Z) : option (list Z) :=
  let srcLen := Z.of_nat (List.length src) in
  let dstLen := Z.of_nat (List.length dst) in
  if negb (srcLen =? dstLen) || negb (Z.rem srcLen 3 =? 0) then None
  else
    let dst := merge_channel mask0 16 0 dst src in   (* red *)
    let dst := merge_channel mask0 8 1 dst src in    (* green *)
    let dst := merge_channel mask0 0 2 dst src in    (* blue *)
    Some dst.

(** The bit of [mask0] that decides about bit [b] of the byte [i]. *)
Definition deciding_bit (i : nat) (b : Z) : Z :=
  8 * (2 - Z.of_nat (i mod 3)) + b.

(** *** [CMD_greyimage]: the channels named by the mask argument *)

(** [strchr(maskStr, c) != NULL], for a character other than NUL. *)
Definition has_char (c : ascii) (maskStr : string) : bool :=
  existsb (Ascii.eqb c) (list_ascii_of_string maskStr).

(** Whether the mask argument names a channel, in either case. *)
Definition names (lower upper : ascii) (maskStr : string) : bool :=
  has_char lower maskStr || has_char upper maskStr.

Definition grey_mask (maskStr : string) : Z :=
  let mask := 0 in
  let mask := if has_char "b" maskStr || has_char "B" maskStr
              then Z.lor mask 1 else mask in
  let mask := if has_char "g" maskStr || has_char "G" maskStr
              then Z.lor mask 2 else mask in
  let mask := if has_char "r" maskStr || has_char "R" maskStr
              then Z.lor mask 4 else mask in
  if mask =? 0 then 7 else mask.

(** *** [GetImage]: 16 bit grey samples to bytes *)

(** One pass of the loops for [V4L2_PIX_FMT_Y10] and [V4L2_PIX_FMT_Y16]:
    [v = *fromPtr++; v = v >> shift; *toPtr++ = v] for a positive
    [greyshift], [v = v << -shift] otherwise.  The shift counts are taken
    to be below the width of an [int]; the store keeps the low byte. *)
Definition grey_sample (greyshift v : Z) : Z :=
  if 0 <? greyshift then Z.shiftr v greyshift mod 256
  else Z.shiftl v (- greyshift) mod 256.

(** *** [ConvertToGREY] *)

Definition rgb_to_grey (blk : Tk_PhotoImageBlock) (inp : Z) : Z :=
  let mem := pixelPtr blk in
  let r := rd mem (inp + offset0 blk) in
  let g := rd mem (inp + offset1 blk) in
  let b := rd mem (inp + offset2 blk) in
  sat (Z.shiftr (4224 * r + 8256 * g + 1600 * b) 14 + 16).

Fixpoint to_grey_loop (n : nat) (blk : Tk_PhotoImageBlock) (inp : Z)
  : list Z :=
  match n with
  | O => []
  | S n' => rgb_to_grey blk inp :: to_grey_loop n' blk (inp + pixelSize blk)
  end.

(** [ConvertToGREY(blk, lenPtr)]: the output block and [lenPtr[0]];
    [None] is the NULL result. *)
Definition ConvertToGREY (alloc : bool) (blk : Tk_PhotoImageBlock)
  : option (list Z * Z) :=
  if negb (pitch blk =? width blk * pixelSize blk) then None
  else
    let len := width blk * height blk in
    if negb alloc then None
    else Some (to_grey_loop (passes len 1) blk 0, len).

(** *** The two byte orderings of packed YUV *)

(** Bytes 1 and 3 of every group of four exchanged. *)
Fixpoint swap_chroma (mem : list Z) : list Z :=
  match mem with
  | y0 :: u :: y1 :: v :: rest => y0 :: v :: y1 :: u :: swap_chroma rest
  | _ => mem
  end.

End Pixels.

(** ** Sessions and what they ask of the device: tests on requests, and
    properties of sessions and machines *)

Module Session.
Import Engine.

Section Traces.

Variable World : Type.

#[local] Existing Instance M_ret.
#[local] Existing Instance M_bind.

Abbreviation Machine := (Machine World).

(** What a start that went through the buffer phase leaves. *)
Definition started (r : TclCode * Result) (m' : Machine) : Prop :=
  match r.1 with
  | TCL_OK =>
      running (session _ m') = 1 /\ stalled (session _ m') = 0
      /\ core (session _ m') = (-1, 0, 0, 0)
      /\ last (trace _ m') = Some Tcl_CreateFileHandler
  | TCL_ERROR =>
      running (session _ m') = -1 /\ stalled (session _ m') = 0
  end.

Definition is_mmap (r : Request) : bool :=
  match r with v4l2_mmap _ _ => true | _ => false end.

Definition is_munmap (r : Request) : bool :=
  match r with v4l2_munmap _ _ => true | _ => false end.

Definition is_qbuf (r : Request) : bool :=
  match r with VIDIOC_QBUF _ => true | _ => false end.

Definition is_querybuf (r : Request) : bool :=
  match r with VIDIOC_QUERYBUF _ => true | _ => false end.

Definition is_create (r : Request) : bool :=
  match r with Tcl_CreateFileHandler => true | _ => false end.

Definition is_delete (r : Request) : bool :=
  match r with Tcl_DeleteFileHandler => true | _ => false end.

Fixpoint tally (p : Request -> bool) (t : list Request) : Z :=
  match t with
  | [] => 0
  | r :: t' => (if p r then 1 else 0) + tally p t'
  end.

(** The requests made since the trace was [before]. *)
Definition since (before : list Request) (m' : Machine) : list Request :=
  drop (List.length before) (trace _ m').

(** [c] only adds requests to the trace: those of [t]. *)
Definition adds {A} (c : M World A) (m : Machine) (t : list Request) : Prop :=
  trace _ (c m).2 = trace _ m ++ t.

(** The requests that make, undo or use a mapping, and those that
    register and remove the file handler. *)
Definition bookkeeping : list (Request -> bool) :=
  [is_mmap; is_munmap; is_qbuf; is_querybuf; is_create; is_delete].

(** Computations that ask for nothing the tests of [ps] single out. *)
Definition silent {A} (ps : list (Request -> bool)) (c : M World A) : Prop :=
  forall m, exists t, adds c m t /\ Forall (fun p => tally p t = 0) ps.

(** Computations that neither map, unmap, queue nor query a buffer, and
    leave the file handler alone. *)
Definition quiet {A} (c : M World A) : Prop :=
  forall m, exists t,
    adds c m t /\ tally is_mmap t = 0 /\ tally is_munmap t = 0
    /\ tally is_qbuf t = 0 /\ tally is_querybuf t = 0
    /\ tally is_create t = 0 /\ tally is_delete t = 0.

(** What a start that got a count of buffers mapped and left mapped. *)
Definition pool_mappings (count : Z) (r : TclCode * Result)
    (t : list Request) : Prop :=
  let mapped := tally is_mmap t in
  let unmapped := tally is_munmap t in
  match r with
  | (TCL_OK, _) => mapped = count /\ unmapped = 0
  | (TCL_ERROR, res) =>
      (res = ResPosix "error mapping buffer" /\ unmapped + 1 = mapped)
      \/ (res = ResPosix "error starting capture"
          /\ mapped = count /\ unmapped = count)
      \/ (res = ResPosix "error querying buffer"
          /\ ((0 < tally is_qbuf t /\ mapped = count /\ unmapped = count)
              \/ (tally is_qbuf t = 0 /\ mapped < count /\ unmapped = 0
                  /\ tally is_querybuf t = mapped + 1)))
  end.

(** The results of a start that fails before any buffer is mapped. *)
Definition early_failures : list Result :=
  [ ResPosix "error setting format";
    ResString "unable to set supported pixel format";
    ResPosix "error requesting buffers";
    ResString "unable to get buffers" ].

Definition mmap_length (r : Request) : option Z :=
  match r with v4l2_mmap l _ => Some l | _ => None end.

Definition munmap_length (r : Request) : option Z :=
  match r with v4l2_munmap _ l => Some l | _ => None end.

(** The lengths of the regions asked to be mapped, and to be unmapped, in
    the order of the requests. *)
Definition mapped_lengths (t : list Request) : list Z := omap mmap_length t.

Definition unmapped_lengths (t : list Request) : list Z :=
  omap munmap_length t.

(** The [length] fields of the buffer table. *)
Definition buffer_lengths (s : V4L2C) : list Z := map Engine.length (vbufs s).

(** [P] holds afterwards where it held before. *)
Definition preserved (P : V4L2C -> Prop) : relation V4L2C :=
  fun s s' => P s -> P s'.

(** The rotations the orientation sub-command stores. *)
Definition right_angle (degrees : Z) : Prop :=
  degrees = 0 \/ degrees = 90 \/ degrees = 180 \/ degrees = 270.

(** The part of the invariant that does not speak of [running]. *)
Definition sane_fields (s : V4L2C) : Prop :=
  0 <= stalled s <= 1
  /\ 0 <= bufdone s <= 1
  /\ 0 <= nvbufs s <= 16
  /\ 1 <= fps s
  /\ List.length (vbufs s) = 16%nat
  /\ right_angle (rotate s).

(** The invariant of a session: [running] is -1, 0 or 1; the flags are 0
    or 1; the buffers in use are among the 16 of the table, and there is
    one at least while the session captures; the frame rate is positive;
    the rotation is a multiple of a right angle. *)
Definition sane (s : V4L2C) : Prop :=
  -1 <= running s <= 1
  /\ (0 < running s -> 1 <= nvbufs s)
  /\ sane_fields s.

(** A session that holds at least one buffer. *)
Definition pooled (s : V4L2C) : Prop := sane s /\ 1 <= nvbufs s.

(** The buffer table as a start leaves it. *)
Definition lengths_are (ls : list Z) (s : V4L2C) : Prop :=
  buffer_lengths s = ls.

(** File handlers registered and not removed again. *)
Definition handlers (t : list Request) : Z :=
  tally is_create t - tally is_delete t.

(** The file handler is there exactly while the session captures. *)
Definition registered (m : Machine) : Prop :=
  handlers (trace _ m) = if 0 <? running (session _ m) then 1 else 0.

(** No handler, and not capturing. *)
Definition unregistered (m : Machine) : Prop :=
  handlers (trace _ m) = 0 /\ running (session _ m) <= 0.

(** [c] keeps the property [I] of machines. *)
Definition holds {A} (I : Machine -> Prop) (c : M World A) : Prop :=
  forall m, I m -> I (c m).2.

(** From a session that does not capture, every way through [c] ends
    registered. *)
Definition registers {A} (c : M World A) : Prop :=
  forall m, unregistered m -> registered (c m).2.

(** An evaluation of the callback: the command prefix, the device id, and
    a frame sequence number or the word "error". *)
Definition callback_of (prefix : list Word) (dev : string) (r : Request)
  : Prop :=
  match r with
  | Tcl_EvalEx cmd =>
      cmd = prefix ++ [WStr dev; WStr "error"]
      \/ exists sequence, cmd = prefix ++ [WStr dev; WInt sequence]
  | _ => True
  end.

(** The session holds the prefix and the id, and every script evaluated
    so far was such a callback. *)
Definition announces (prefix : list Word) (dev : string) (m : Machine)
  : Prop :=
  take (cbCmdLen (session _ m)) (cbCmd (session _ m)) = prefix
  /\ (cbCmdLen (session _ m) <= List.length (cbCmd (session _ m)))%nat
  /\ devId (session _ m) = dev
  /\ Forall (callback_of prefix dev) (trace _ m).

End Traces.

Arguments started {World} r m'.
Arguments since {World} before m'.
Arguments adds {World A} c m t.
Arguments silent {World A} ps c.
Arguments quiet {World A} c.
Arguments holds {World A} I c.
Arguments registered {World} m.
Arguments unregistered {World} m.
Arguments registers {World A} c.
Arguments announces {World} prefix dev m.

(** *** The formats a start asks for *)

Definition is_eval (r : Request) : bool :=
  match r with Tcl_EvalEx _ => true | _ => false end.

(** The catalogue of formats of a session: [tryFmts]. *)
Definition catalogue (USE_MJPEG : bool) (s : V4L2C) : list Z :=
  if isLoopDev s =? 0 then FormatsNormal USE_MJPEG else FormatsLoop.

(** A request for a format is one for a format of the list [fmts], and
    for a frame of [w] by [h]. *)
Definition asks_format (fmts : list Z) (w h : Z) (r : Request) : Prop :=
  match r with
  | VIDIOC_S_FMT f w' h' => In f fmts /\ w' = w /\ h' = h
  | _ => True
  end.

(** Since the trace was [before], only such formats were asked for. *)
Definition asked_within {World : Type} (before : list Request)
    (fmts : list Z) (w h : Z) (m : Machine World) : Prop :=
  exists t, trace _ m = before ++ t /\ Forall (asks_format fmts w h) t.

(** The format of the session, and the format wanted. *)
Definition formats_are (f want : Z) (s : V4L2C) : Prop :=
  format s = f /\ wantFormat s = want.

(** [StartCapture], the label [gotFormat]: the format is noted, and is
    the format wanted from now on unless one is wanted already. *)
Definition noted_format (fmt : pix_format) (s : V4L2C) : V4L2C :=
  let s1 := set_format (pixelformat fmt) s in
  if wantFormat s1 =? 0 then set_wantFormat (format s1) s1 else s1.

End Session.

(** ** Controls as text: [fourcc_str] and the menu labels of [GetControls] *)

Module Controls.
Import Engine.

(** The [char] an [unsigned int] is stored as: its low byte. *)
Definition byte_char (x : Z) : ascii := ascii_of_nat (Z.to_nat (x mod 256)).

(** [while (i && (buf[i - 1] == ' ')) --i;]: the index the loop ends
    with. *)
Fixpoint strip (buf : list ascii) (i : nat) : nat :=
  match i with
  | O => O
  | S j => if Ascii.eqb (nth j buf " "%char) " " then strip buf j else i
  end.

(** The C string in a buffer that has a NUL written after its
    characters. *)
Fixpoint c_string (buf : list ascii) : string :=
  match buf with
  | [] => EmptyString
  | c :: rest =>
      if Ascii.eqb c zero then EmptyString else String c (c_string rest)
  end.

(** [fourcc_str(fmt, buf)]: the format string to be appended to
    "width"x"height"; [fmt] is the value of the [unsigned int]. *)
Definition fourcc_str (fmt : Z) : string :=
  if fmt =? 0 then EmptyString
  else
    let fmt := Z.land fmt 0x7FFFFFFF in
    let buf := [ "@"%char; byte_char fmt; byte_char (Z.shiftr fmt 8);
                 byte_char (Z.shiftr fmt 16); byte_char (Z.shiftr fmt 24) ] in
    c_string (take (strip buf 5) buf).

(** A four character code all of whose characters are of 7 bits and none
    is NUL. *)
Definition plain_code (a b c d : Z) : Prop :=
  1 <= a <= 127 /\ 1 <= b <= 127 /\ 1 <= c <= 127 /\ 1 <= d <= 127.

Definition blank : Z := 32.

(** The character of a byte. *)
Definition chr (x : Z) : ascii := ascii_of_nat (Z.to_nat x).

(** [GetControls], the value of a menu control of the kernel:
    [GetZZString(p, xc.value)]. *)
Definition shown_choice (vctrl : VCTRL) (value : Z) : string :=
  GetZZString (ds vctrl) value.

End Controls.

(** ** Loopback devices: [CMD_loopback], [CMD_write] and [CMD_writephoto] *)

Module Loop.
Import Engine Convert Pixels.

(** [CMD_loopback], the search of [FormatsLoop]
    [while (i > 0) { --i; if (... == FormatsLoop[i]) break; }]:
    the value of [i] afterwards. *)
Fixpoint scan (formats : list Z) (i : nat) (code : Z) : Z :=
  match i with
  | O => 0
  | S j => if code =? nth j formats 0 then Z.of_nat j else scan formats j code
  end.

(** [CMD_loopback] with a fourcc argument, up to the test that follows
    the search: the error, or the pixel format that is set.  (The table
    does not depend on the build option.) *)
Definition loopback_fourcc (text : string) : Result + Z :=
  let code := fourcc_of (take 4 (list_ascii_of_string text)) in
  let formats := FormatsLoop in
  let i := scan formats (List.length formats) code in
  if i <? 0 then inl (ResString "unsupported fourcc") else inr code.

(** The block [CMD_write] builds around a byte array of [length] bytes:
    three bytes a pixel, unless the length is that of four bytes, or of
    one byte, a pixel. *)
Definition write_block (s : V4L2C) (data : list Z) (length : Z)
  : Tk_PhotoImageBlock :=
  let n := to_int (loopWidth s * loopHeight s) in
  let sized (bytes o1 o2 o3 : Z) :=
    {| pixelPtr := data; width := loopWidth s; height := loopHeight s;
       pitch := to_int (bytes * loopWidth s); pixelSize := bytes;
       offset0 := 0; offset1 := o1; offset2 := o2; offset3 := o3 |} in
  if length =? to_int (n * 4) then sized (3 + 1) 1 2 (4 - 1)
  else if length =? n then sized 1 0 0 2
  else sized 3 1 2 4.

(** [CMD_write], once the device is found: the error, or the bytes and
    the count handed to [write]. *)
Definition CMD_write (s : V4L2C) (alloc : bool) (data : list Z)
  : Result + (list Z * Z) :=
  let length := Z.of_nat (List.length data) in
  let n := to_int (loopWidth s * loopHeight s) in
  if isLoopDev s =? 0 then inl (ResString "not a loop device")
  else if negb (length =? to_int (n * 3)) && negb (length =? to_int (n * 4))
          && negb (length =? n)
  then inl (ResString "unsupported width or height")
  else if (loopFormat s =? V4L2_PIX_FMT_YUYV)
          || (loopFormat s =? V4L2_PIX_FMT_YVYU)
          || (loopFormat s =? V4L2_PIX_FMT_GREY) then
    let block := write_block s data length in
    if (loopFormat s =? V4L2_PIX_FMT_GREY) && (pixelSize block =? 1)
    then inr (data, length)
    else
      match ConvertToYUV alloc block (loopFormat s =? V4L2_PIX_FMT_YVYU) with
      | None => inl (ResString "out of memory")
      | Some (out, len) => inr (out, len)
      end
  else inr (data, length).

(** [CMD_writephoto], once the device and the photo image are found;
    [block] is what [Tk_PhotoGetImage] gives. *)
Definition CMD_writephoto (s : V4L2C) (alloc : bool)
    (block : Tk_PhotoImageBlock) : Result + (list Z * Z) :=
  if isLoopDev s =? 0 then inl (ResString "not a loop device")
  else if negb (pitch block =? to_int (width block * pixelSize block))
          || negb (pixelSize block =? 4)
  then inl (ResString "unsupported photo format")
  else if negb (width block =? loopWidth s)
          || negb (height block =? loopHeight s)
  then inl (ResString "unsupported width or height")
  else
    let length := to_int (pitch block * height block * pixelSize block) in
    if (loopFormat s =? V4L2_PIX_FMT_YUYV)
       || (loopFormat s =? V4L2_PIX_FMT_YVYU) then
      match ConvertToYUV alloc block (loopFormat s =? V4L2_PIX_FMT_YVYU) with
      | None => inl (ResString "out of memory")
      | Some (out, len) => inr (out, len)
      end
    else if loopFormat s =? V4L2_PIX_FMT_GREY then
      match ConvertToGREY alloc block with
      | None => inl (ResString "out of memory")
      | Some (out, len) => inr (out, len)
      end
    else inr (pixelPtr block, length).

(** The bytes of the image a block describes. *)
Definition block_bytes (block : Tk_PhotoImageBlock) : Z :=
  pitch block * height block.

End Loop.

(** ** The menus of [InitControls] *)

Module Menus.
Import CStr Fixup Engine.

(** The C string [cs] as a string. *)
Definition to_string (cs : list Z) : string :=
  string_of_list_ascii (map (fun c => ascii_of_nat (Z.to_nat c)) cs).

(** [sprintf(buf, "%d", i)] *)
Definition decimal (i : Z) : string := NilZero.string_of_int (Z.to_int i).

(** [InitControls], one pass of the loop over the indexes of a menu: the
    name that is appended for the index [i].  [reply] is the name the
    kernel gave, [None] when [VIDIOC_QUERYMENU] failed.  [FixupName] is
    called with the size of the field, for which it always gives a name:
    the last case is not reached. *)
Definition menu_entry (i : Z) (reply : option string) : string :=
  match reply with
  | None => (* force empty menu entry *) ","
  | Some name =>
      match fixup_field name with
      | Some [] => decimal i
      | Some [c] => if c =? hyphen then decimal i else to_string [c]
      | Some fixed => to_string fixed
      | None => EmptyString
      end
  end.

(** The loop [for (i = qry.minimum; i <= qry.maximum; i++)], for the
    replies to the indexes in turn. *)
Fixpoint menu_entries (i : Z) (replies : list (option string))
  : list string :=
  match replies with
  | [] => []
  | reply :: rest => menu_entry i reply :: menu_entries (i + 1) rest
  end.

(** [vctrl->ds] after the loop: the names, each with its NUL, and the NUL
    that ends the [Tcl_DString]. *)
Definition menu_ds (minimum : Z) (replies : list (option string))
  : list string :=
  menu_entries minimum replies ++ [EmptyString].

(** A character of 8 bits. *)
Definition in_byte (c : Z) : Prop := 0 <= c < 256.

(** A name that is appended and is no placeholder. *)
Definition label (e : string) : Prop :=
  match e with
  | EmptyString => False
  | String c _ => c <> ","%char
  end.

End Menus.

(** ** Devices, controls and pixel data for examples *)

Module Cases.
Import Engine Sim.

(** Every script fails; everything else is scripted. *)
Definition broken_callback (w : list Reply) (r : Request)
  : Reply * list Reply :=
  match r with
  | Tcl_EvalEx _ => (returns 1, w)
  | _ => scripted w r
  end.

(** [sscanf] with "%dx%d" on a text that starts with 640x480. *)
Definition vga_size (text : string) : option (Z * Z) :=
  if String.prefix "640x480" text then Some (640, 480) else None.

(** An integer control of the kernel that has not been written yet. *)
Definition brightness : VCTRL :=
  {| qry := {| id := 9963776; type := V4L2_CTRL_TYPE_INTEGER;
               name := "brightness";
               minimum := 0; maximum := 255; step := 1; default_value := 128;
               flags := 0 |};
     useOld := -1; ds := [] |}.

(** A camera with that control. *)
Definition dimmer : V4L2C :=
  opened 3 0 640 480 30 "vdev0" "/dev/video0" "onframe" []
         {[ 9963776 := P_alloc 1 ]}
         {[ "brightness"%string := P_alloc 1 ]}
         {[ 1 := brightness ]}.

(** The driver refuses the extended write and takes the old one. *)
Definition old_driver : list Reply := [ failed EINVAL; ok ].

(** A loop device set up for frames of [w] by [h] pixels of the format
    [fmt]. *)
Definition loop_device (fmt w h : Z) : V4L2C :=
  let s := opened 3 1 w h 30 "vdev0" "/dev/video1" "onframe" [] ∅ ∅ ∅ in
  {| running := running s; stalled := stalled s; format := format s;
     wantFormat := wantFormat s; greyshift := greyshift s; fd := fd s;
     isLoopDev := isLoopDev s; loopFormat := fmt;
     mirror := mirror s; rotate := rotate s; bufrdy := bufrdy s;
     bufdone := bufdone s; width := width s; height := height s;
     loopWidth := w; loopHeight := h; fps := fps s;
     devId := devId s; devName := devName s;
     cbCmdLen := cbCmdLen s; cbCmd := cbCmd s;
     ctrl := ctrl s; nctrl := nctrl s; fsize := fsize s; frate := frate s;
     heap := heap s; counters0 := counters0 s; counters1 := counters1 s;
     nvbufs := nvbufs s; vbufs := vbufs s |}.

(** The block of a photo image of [w] by [h] pixels: red, green, blue
    and alpha. *)
Definition rgba_block (data : list Z) (w h : Z)
  : Convert.Tk_PhotoImageBlock :=
  {| Convert.pixelPtr := data; Convert.width := w; Convert.height := h;
     Convert.pitch := w * 4; Convert.pixelSize := 4;
     Convert.offset0 := 0; Convert.offset1 := 1; Convert.offset2 := 2;
     Convert.offset3 := 3 |}.

(** Two pixels: a red one and a white one. *)
Definition two_pixels : list Z := [255; 0; 0; 255; 255; 255].

Definition two_pixels_alpha : list Z := [255; 0; 0; 255; 255; 255; 255; 255].

(** The answers to [VIDIOC_QUERYMENU] of a menu with a gap. *)
Definition gappy_menu : list (option string) :=
  [Some "Disabled"; None; Some "60 Hz"; Some ""]%string.

End Cases.

(** * Properties *)

(** ** FixupName *)

Module FixupFacts.
Import CStr Fixup.

Lemma cstring_cons (c : Z) (s : list Z) :
  cstring (c :: s) = if c =? 0 then [] else c :: cstring s.
Proof. unfold cstring. cbn. destruct (c =? 0); reflexivity. Qed.

Lemma strlen_le_length (s : list Z) : (strlen s <= List.length s)%nat.
Proof.
  induction s as [|c s IH]; cbn; [lia|]. destruct (c =? 0); lia.
Qed.

Lemma strlen_le_zero (s : list Z) (i : nat) :
  s !! i = Some 0 -> (strlen s <= i)%nat.
Proof.
  revert i. induction s as [|c s IH]; intros i H; [discriminate|].
  cbn [strlen]. destruct (Z.eqb_spec c 0) as [->|Hc]; [lia|].
  destruct i as [|i]; cbn in H; [congruence|].
  specialize (IH i H). lia.
Qed.

Lemma strlen_stops (s : list Z) :
  s !! strlen s = Some 0 \/ strlen s = List.length s.
Proof.
  induction s as [|c s IH]; [right; reflexivity|].
  cbn [strlen]. destruct (Z.eqb_spec c 0) as [->|Hc]; [left; reflexivity|].
  cbn. destruct IH as [IH|IH]; [left; exact IH | right; congruence].
Qed.

Lemma cstring_nonzero (s : list Z) : Forall (fun c => c <> 0) (cstring s).
Proof.
  induction s as [|c s IH]; [constructor|].
  rewrite cstring_cons. destruct (Z.eqb_spec c 0); constructor; assumption.
Qed.

(** *** The first loop *)

Lemma fix_char_settled (c : Z) : settled (fix_char c).
Proof.
  unfold settled, fix_char.
  assert (Hlow : forall d, is_upper (tolower d) = false).
  { intros d. unfold is_upper, tolower.
    destruct (Z.leb_spec 65 d), (Z.leb_spec d 90); cbn; lia. }
  assert (Hneg : forall d, d < 0 -> is_upper d = false /\ is_separator d = false).
  { intros d Hd. split; [unfold is_upper; lia|].
    unfold is_separator, separators. vm_compute of_string.
    cbn [existsb].
    repeat match goal with
           | |- context [d =? ?k] =>
               destruct (Z.eqb_spec d k); [lia|]; cbn [orb]
           end.
    reflexivity. }
  destruct (Z.leb_spec 0 c) as [Hc|Hc].
  - destruct (is_separator (tolower c)) eqn:E.
    + destruct (Z.ltb_spec 0 (tolower c)) as [_|Hz]; cbn [andb];
        [split; reflexivity|].
      assert (tolower c = 0) as E0
        by (unfold tolower in *; destruct (_ && _); lia).
      rewrite E0 in E. discriminate.
    + rewrite andb_false_r. split; [apply Hlow | exact E].
  - destruct (Hneg c Hc) as [H1 H2]. rewrite H2, andb_false_r.
    split; assumption.
Qed.

Lemma settled_zero : settled 0.
Proof. split; reflexivity. Qed.

Lemma fixed_prefix (name : list Z) (n k : nat) :
  (k <= n)%nat -> (k <= List.length name)%nat ->
  Forall settled (take k (map fix_char (take n name) ++ drop n name)).
Proof.
  intros Hk1 Hk2. rewrite take_app_le.
  - apply Forall_take. apply List.Forall_map.
    apply Forall_forall. intros. apply fix_char_settled.
  - rewrite length_map, length_take. lia.
Qed.

Lemma fixed_length (name : list Z) (n : nat) :
  List.length (map fix_char (take n name) ++ drop n name) = List.length name.
Proof. rewrite length_app, length_map, length_take, length_drop. lia. Qed.

(** The C string left by the first loop and the cut at [length - 1]
    consists of characters the loop has seen. *)
Lemma lowered_settled (name : list Z) (length : Z) :
  length <> 0 -> Forall settled (cstring (lowered name length)).
Proof.
  intros Hlen. unfold lowered, cstring.
  destruct (Z.ltb_spec length 0) as [Hneg|Hge];
    destruct (Z.ltb_spec 0 length) as [Hpos|Hnp]; try lia.
  - set (name1 := map fix_char (take (strlen name) name)
                  ++ drop (strlen name) name).
    pose proof (fixed_length name (strlen name)) as Hl1. fold name1 in Hl1.
    pose proof (strlen_le_length name) as Hle.
    assert (Hs : (strlen name1 <= strlen name)%nat).
    { destruct (strlen_stops name) as [H0|Hfull].
      - apply strlen_le_zero. subst name1.
        rewrite lookup_app_r by (rewrite length_map, length_take; lia).
        rewrite length_map, length_take, lookup_drop.
        replace (strlen name
                 + (strlen name - strlen name `min` List.length name))%nat
          with (strlen name) by lia.
        exact H0.
      - pose proof (strlen_le_length name1). lia. }
    apply fixed_prefix; [exact Hs|].
    pose proof (strlen_le_length name1). lia.
  - set (n := Z.to_nat length).
    set (name1 := map fix_char (take n name) ++ drop n name).
    pose proof (fixed_length name n) as Hl1. fold name1 in Hl1.
    set (i := Z.to_nat (length - 1)).
    assert (Hi : S i = n) by lia.
    pose proof (strlen_le_length (<[i:=0%Z]> name1)) as Hle.
    rewrite length_insert in Hle.
    assert (Hs : (strlen (<[i:=0%Z]> name1) <= i)%nat).
    { destruct (Nat.lt_ge_cases i (List.length name1)) as [Hin|Hout].
      - apply strlen_le_zero. apply list_lookup_insert_eq. exact Hin.
      - lia. }
    rewrite take_insert_ge by exact Hs.
    apply fixed_prefix; lia.
Qed.

(** *** The second loop *)

Lemma squeeze_Forall (P : Z -> Prop) (s : list Z) :
  Forall P (cstring s) -> Forall P (squeeze s).
Proof.
  induction s as [|c s IH]; intros H; [constructor|].
  rewrite cstring_cons in H. cbn [squeeze].
  destruct (c =? 0); [constructor|].
  apply Forall_cons in H as [Hc Hs]. specialize (IH Hs).
  destruct (c =? hyphen).
  - destruct s as [|d s']; [constructor|].
    destruct (d =? hyphen); [exact IH|].
    destruct (d =? 0); constructor; assumption.
  - constructor; assumption.
Qed.

(** The character after a hyphen of the result is no hyphen. *)
Lemma squeeze_after_hyphen (s r : list Z) :
  squeeze s = hyphen :: r -> exists d r', r = d :: r' /\ d <> hyphen.
Proof.
  revert r. induction s as [|c s IH]; intros r H; [discriminate|].
  cbn [squeeze] in H. destruct (Z.eqb_spec c 0) as [|Hc0]; [discriminate|].
  destruct (Z.eqb_spec c hyphen) as [->|Hc].
  - destruct s as [|d s']; [discriminate|].
    destruct (Z.eqb_spec d hyphen) as [->|Hd]; [apply IH; exact H|].
    destruct (Z.eqb_spec d 0) as [->|Hd0]; [discriminate|].
    injection H as <-. cbn [squeeze].
    destruct (Z.eqb_spec d 0); [contradiction|].
    destruct (Z.eqb_spec d hyphen); [contradiction|].
    eauto.
  - injection H as E _. contradiction.
Qed.

Lemma adjacent_hyphens_cons (c : Z) (r : list Z) :
  adjacent_hyphens r = false ->
  (c = hyphen -> forall d r', r = d :: r' -> d <> hyphen) ->
  adjacent_hyphens (c :: r) = false.
Proof.
  intros Hr Hc. cbn [adjacent_hyphens]. destruct r as [|d r']; [reflexivity|].
  rewrite Hr, orb_false_r.
  destruct (Z.eqb_spec c hyphen) as [E|_]; [|reflexivity].
  destruct (Z.eqb_spec d hyphen) as [E'|_]; [|reflexivity].
  exfalso. apply (Hc E d r' eq_refl E').
Qed.

Lemma squeeze_no_adjacent (s : list Z) : adjacent_hyphens (squeeze s) = false.
Proof.
  induction s as [|c s IH]; [reflexivity|].
  cbn [squeeze]. destruct (c =? 0); [reflexivity|].
  destruct (Z.eqb_spec c hyphen) as [->|Hc].
  - destruct s as [|d s']; [reflexivity|].
    destruct (Z.eqb_spec d hyphen) as [->|Hd]; [exact IH|].
    destruct (Z.eqb_spec d 0) as [->|Hd0]; [reflexivity|].
    apply adjacent_hyphens_cons; [exact IH|].
    intros _ d' r' E. cbn [squeeze] in E.
    destruct (Z.eqb_spec d 0); [contradiction|].
    destruct (Z.eqb_spec d hyphen); [contradiction|].
    injection E as <- _. exact Hd.
  - apply adjacent_hyphens_cons; [exact IH|]. intros E. contradiction.
Qed.

(** The result does not end with a hyphen. *)
Lemma squeeze_last (s : list Z) : last (squeeze s) <> Some hyphen.
Proof.
  induction s as [|c s IH]; [discriminate|].
  cbn [squeeze]. destruct (c =? 0); [discriminate|].
  destruct (Z.eqb_spec c hyphen) as [->|Hc].
  - destruct s as [|d s']; [discriminate|].
    destruct (Z.eqb_spec d hyphen) as [->|Hd]; [exact IH|].
    destruct (Z.eqb_spec d 0) as [->|Hd0]; [discriminate|].
    revert IH. cbn [squeeze].
    destruct (Z.eqb_spec d 0); [contradiction|].
    destruct (Z.eqb_spec d hyphen); [contradiction|].
    intros IH. rewrite last_cons.
    destruct (last (d :: squeeze s')) eqn:E; [exact IH|].
    apply last_None in E. discriminate.
  - rewrite last_cons. destruct (last (squeeze s)) eqn:E; [exact IH|].
    intros H. injection H as H. contradiction.
Qed.

(** What is no hyphen is kept, in order. *)
Lemma squeeze_keeps (s : list Z) :
  filter (fun c => c <> hyphen) (squeeze s)
  = filter (fun c => c <> hyphen) (cstring s).
Proof.
  induction s as [|c s IH]; [reflexivity|].
  rewrite cstring_cons. cbn [squeeze].
  destruct (Z.eqb_spec c 0) as [|Hc0]; [reflexivity|].
  destruct (Z.eqb_spec c hyphen) as [->|Hc].
  - rewrite filter_cons_False by (intros H; apply H; reflexivity).
    destruct s as [|d s']; [reflexivity|].
    destruct (Z.eqb_spec d hyphen) as [->|Hd]; [exact IH|].
    destruct (Z.eqb_spec d 0) as [->|Hd0].
    + rewrite cstring_cons. reflexivity.
    + rewrite filter_cons_False by (intros H; apply H; reflexivity).
      exact IH.
  - rewrite !filter_cons_True by exact Hc. rewrite IH. reflexivity.
Qed.

Lemma FixupName_squeeze (name : list Z) (length : Z) :
  length <> 0 -> FixupName name length = Some (squeeze (lowered name length)).
Proof.
  intros H. unfold FixupName.
  destruct (Z.eqb_spec length 0); [contradiction|reflexivity].
Qed.

(** *** The two loops and the normalization in words *)

Lemma separator_range (c : Z) :
  is_separator c = true -> 32 <= c <= 126 /\ ~ 65 <= c <= 90 /\ ~ 97 <= c <= 122.
Proof.
  unfold is_separator, separators. vm_compute of_string. cbn [existsb].
  repeat match goal with
         | |- context [c =? ?k] =>
             destruct (Z.eqb_spec c k); [intros _; lia|]; cbn [orb]
         end.
  discriminate.
Qed.

Lemma fix_char_normal (c : Z) : fix_char c = normal_char c.
Proof.
  unfold fix_char, normal_char, tolower, is_upper.
  destruct (is_separator c) eqn:E.
  - destruct (separator_range c E) as (H1 & H2 & _).
    destruct (Z.leb_spec 0 c); [|lia].
    destruct (Z.leb_spec 65 c), (Z.leb_spec c 90); cbn [andb]; try lia;
      rewrite E; destruct (Z.ltb_spec 0 c); try lia; reflexivity.
  - destruct (Z.leb_spec 0 c).
    + destruct (Z.leb_spec 65 c), (Z.leb_spec c 90); cbn [andb];
        rewrite ?E, ?andb_false_r; try reflexivity.
      destruct (is_separator (c + 32)) eqn:E2;
        [|rewrite andb_false_r; reflexivity].
      destruct (separator_range _ E2) as (_ & _ & H2). lia.
    + rewrite E, andb_false_r.
      destruct (Z.leb_spec 65 c); [lia | reflexivity].
Qed.

Lemma fix_char_zero (c : Z) : fix_char c = 0 <-> c = 0.
Proof.
  rewrite fix_char_normal. unfold normal_char, hyphen, is_upper.
  destruct (is_separator c) eqn:E.
  - destruct (separator_range c E). lia.
  - destruct (Z.leb_spec 65 c), (Z.leb_spec c 90); cbn [andb]; lia.
Qed.

Lemma cstring_map_fix (s : list Z) :
  cstring (map fix_char s) = map fix_char (cstring s).
Proof.
  induction s as [|c s IH]; [reflexivity|].
  cbn [map]. rewrite !cstring_cons.
  destruct (Z.eqb_spec c 0) as [->|Hc].
  - reflexivity.
  - destruct (Z.eqb_spec (fix_char c) 0) as [E|_].
    + exfalso. apply Hc. apply fix_char_zero. exact E.
    + cbn [map]. rewrite IH. reflexivity.
Qed.

Lemma cstring_app_zero (s rest : list Z) :
  cstring (s ++ 0 :: rest) = cstring s.
Proof.
  induction s as [|c s IH]; [reflexivity|].
  cbn [app]. rewrite !cstring_cons. rewrite IH. reflexivity.
Qed.

Lemma cstring_idem (s : list Z) : cstring (cstring s) = cstring s.
Proof.
  induction s as [|c s IH]; [reflexivity|].
  rewrite cstring_cons. destruct (Z.eqb_spec c 0) as [->|Hc]; [reflexivity|].
  rewrite cstring_cons. destruct (Z.eqb_spec c 0); [contradiction|].
  rewrite IH. reflexivity.
Qed.

Lemma cstring_take_strlen (s rest : list Z) :
  (rest = [] \/ exists t, rest = 0 :: t) ->
  cstring (s ++ rest) = cstring s.
Proof.
  intros [->|[t ->]]; [rewrite app_nil_r; reflexivity|].
  apply cstring_app_zero.
Qed.

Lemma drop_strlen (s : list Z) :
  drop (strlen s) s = [] \/ exists t, drop (strlen s) s = 0 :: t.
Proof.
  induction s as [|c s IH]; [left; reflexivity|].
  cbn [strlen]. destruct (Z.eqb_spec c 0) as [->|Hc].
  - right. exists s. reflexivity.
  - exact IH.
Qed.

(** The C string left by the first loop and the cut at [length - 1] is the
    name, character by character through [fix_char]. *)
Lemma lowered_text (name : list Z) (length : Z) :
  length <> 0 ->
  cstring (lowered name length) = map fix_char (name_text name length).
Proof.
  intros Hlen. unfold lowered, name_text.
  destruct (Z.ltb_spec length 0) as [Hneg|Hge];
    destruct (Z.ltb_spec 0 length) as [Hpos|Hnp]; try lia.
  - rewrite cstring_take_strlen by apply drop_strlen.
    rewrite cstring_map_fix. unfold cstring at 2.
    fold (cstring name). rewrite cstring_idem. reflexivity.
  - set (n := Z.to_nat length). set (i := Z.to_nat (length - 1)).
    assert (Hn : n = S i) by lia.
    rewrite <- cstring_map_fix.
    destruct (Nat.lt_ge_cases i (List.length name)) as [Hin|Hout].
    + assert (E : <[i:=0]> (map fix_char (take n name) ++ drop n name)
                  = map fix_char (take i name)
                    ++ 0 :: drop (S i) (map fix_char (take n name)
                                        ++ drop n name)).
      { rewrite insert_take_drop
          by (rewrite length_app, length_map, length_take, length_drop; lia).
        f_equal. rewrite take_app_le by (rewrite length_map, length_take; lia).
        rewrite firstn_map, take_take. f_equal. f_equal. lia. }
      rewrite E, cstring_app_zero. reflexivity.
    + rewrite list_insert_ge
        by (rewrite length_app, length_map, length_take, length_drop; lia).
      rewrite (take_ge name n) by lia. rewrite (take_ge name i) by lia.
      rewrite (drop_ge name n) by lia. rewrite app_nil_r. reflexivity.
Qed.

Lemma collapse_nil (s : list Z) : collapse_hyphens s = [] -> s = [].
Proof.
  induction s as [|c s IH]; [reflexivity|]. cbn [collapse_hyphens].
  destruct s as [|d s']; [discriminate|].
  destruct ((c =? hyphen) && (d =? hyphen)); [|discriminate].
  intros H. specialize (IH H). discriminate.
Qed.

Lemma strip_cons (c : Z) (s : list Z) :
  s <> [] -> strip_trailing_hyphen (c :: s) = c :: strip_trailing_hyphen s.
Proof. destruct s; [contradiction | reflexivity]. Qed.

(** The second loop does what the words say. *)
Lemma squeeze_words (s : list Z) :
  squeeze s = strip_trailing_hyphen (collapse_hyphens (cstring s)).
Proof.
  induction s as [|c s IH]; [reflexivity|].
  rewrite cstring_cons. cbn [squeeze].
  destruct (Z.eqb_spec c 0) as [|Hc0]; [reflexivity|].
  destruct (Z.eqb_spec c hyphen) as [->|Hc].
  - destruct s as [|d s']; [reflexivity|].
    rewrite cstring_cons in *.
    destruct (Z.eqb_spec d hyphen) as [->|Hd].
    + destruct (Z.eqb_spec hyphen 0) as [E|_]; [unfold hyphen in E; lia|].
      rewrite IH. cbn [collapse_hyphens].
      change (hyphen =? hyphen) with true. reflexivity.
    + destruct (Z.eqb_spec d 0) as [->|Hd0]; [reflexivity|].
      rewrite IH.
      change (collapse_hyphens (hyphen :: d :: cstring s'))
        with (if (hyphen =? hyphen) && (d =? hyphen)
              then collapse_hyphens (d :: cstring s')
              else hyphen :: collapse_hyphens (d :: cstring s')).
      destruct (Z.eqb_spec d hyphen); [contradiction|].
      rewrite andb_false_r. rewrite strip_cons; [reflexivity|].
      intros E. apply collapse_nil in E. discriminate.
  - rewrite IH.
    assert (E : collapse_hyphens (c :: cstring s)
                = c :: collapse_hyphens (cstring s)).
    { cbn [collapse_hyphens]. destruct (cstring s) as [|d t]; [reflexivity|].
      destruct (Z.eqb_spec c hyphen); [contradiction|]. reflexivity. }
    rewrite E.
    destruct (collapse_hyphens (cstring s)) as [|d t] eqn:Ec.
    + cbn. destruct (Z.eqb_spec c hyphen); [contradiction | reflexivity].
    + rewrite (strip_cons c (d :: t)) by discriminate. reflexivity.
Qed.

(** [FixupName] is the normalization in words. *)
Lemma FixupName_normalized (name : list Z) (length : Z) :
  length <> 0 ->
  FixupName name length = Some (normalized (name_text name length)).
Proof.
  intros Hlen. rewrite FixupName_squeeze by exact Hlen.
  rewrite squeeze_words, lowered_text by exact Hlen.
  unfold normalized. do 3 f_equal.
  apply map_ext. intros c. apply fix_char_normal.
Qed.

(** A hyphen at the start stays when something other than hyphens
    follows. *)
Lemma collapse_keeps (s : list Z) (d : Z) :
  In d s -> d <> hyphen -> In d (collapse_hyphens s).
Proof.
  induction s as [|c s IH]; intros Hin Hd; [contradiction|].
  cbn [collapse_hyphens]. destruct s as [|e s'].
  - exact Hin.
  - destruct Hin as [->|Hin].
    + destruct (Z.eqb_spec d hyphen); [contradiction|]. left. reflexivity.
    + destruct ((c =? hyphen) && (e =? hyphen)); [|right]; apply IH; assumption.
Qed.

Lemma strip_keeps (s : list Z) (d : Z) :
  In d s -> d <> hyphen -> In d (strip_trailing_hyphen s).
Proof.
  induction s as [|c s IH]; intros Hin Hd; [contradiction|].
  cbn [strip_trailing_hyphen]. destruct s as [|e s'].
  - destruct Hin as [->|[]].
    destruct (Z.eqb_spec d hyphen); [contradiction|]. left. reflexivity.
  - destruct Hin as [->|Hin]; [left; reflexivity|]. right. apply IH; assumption.
Qed.

Lemma collapse_head (s : list Z) (d : Z) :
  In d s -> d <> hyphen ->
  head (collapse_hyphens (hyphen :: s)) = Some hyphen.
Proof.
  revert d. induction s as [|c s IH]; intros d Hin Hd; [contradiction|].
  cbn [collapse_hyphens].
  change (hyphen =? hyphen) with true. cbn [andb].
  destruct (Z.eqb_spec c hyphen) as [->|Hc]; [|reflexivity].
  destruct Hin as [E|Hin]; [congruence|].
  fold (collapse_hyphens (hyphen :: s)). apply (IH d); assumption.
Qed.

Lemma normalized_leading (text : list Z) (c d : Z) (rest : list Z) :
  text = c :: rest -> normal_char c = hyphen ->
  In d rest -> normal_char d <> hyphen ->
  head (normalized text) = Some hyphen.
Proof.
  intros -> Hc Hin Hd. unfold normalized. cbn [map]. rewrite Hc.
  assert (Hin' : In (normal_char d) (map normal_char rest))
    by (apply in_map; exact Hin).
  pose proof (collapse_head _ _ Hin' Hd) as Hh.
  pose proof (collapse_keeps (hyphen :: map normal_char rest) _
                (or_intror Hin') Hd) as Hk.
  destruct (collapse_hyphens (hyphen :: map normal_char rest)) as [|e t];
    [discriminate|].
  cbn [head] in Hh. injection Hh as ->.
  destruct t as [|e' t'].
  - destruct Hk as [E|[]]. congruence.
  - reflexivity.
Qed.

(** C7.  For every buffer and every [length] other than 0 [FixupName]
    returns, and the name it leaves is the normalization in words of the
    name the buffer held: every separator of the source's list replaced by
    a hyphen and every upper-case letter by its lower-case letter, of
    hyphens in a row only one kept, and a hyphen at the end dropped.  So
    the name has no upper-case letter, no separator and no NUL, has no two
    hyphens in a row and does not end with a hyphen; its characters other
    than hyphens are those of the name, lower-cased, in order; and a hyphen
    at its start is not dropped: a name that starts with a separator or
    hyphen and holds any other character gives a name that starts with a
    hyphen. *)
Theorem fixup_name_normalized (name : list Z) (length : Z) :
  length <> 0 ->
  let text := name_text name length in
  exists r,
    FixupName name length = Some r
    /\ r = normalized text
    /\ Forall (fun c => c <> 0 /\ is_upper c = false
                        /\ is_separator c = false) r
    /\ adjacent_hyphens r = false
    /\ last r <> Some hyphen
    /\ filter (fun c => c <> hyphen) r
       = filter (fun c => c <> hyphen) (map normal_char text)
    /\ (forall (c d : Z) (rest : list Z),
          text = c :: rest -> normal_char c = hyphen ->
          In d rest -> normal_char d <> hyphen ->
          head r = Some hyphen).
Proof.
  intros Hlen text. exists (squeeze (lowered name length)).
  pose proof (FixupName_normalized name length Hlen) as Hn.
  rewrite FixupName_squeeze in Hn by exact Hlen. injection Hn as Hn.
  split; [apply FixupName_squeeze; exact Hlen|].
  split; [exact Hn|].
  split.
  - apply squeeze_Forall.
    pose proof (lowered_settled name length Hlen) as H1.
    pose proof (cstring_nonzero (lowered name length)) as H2.
    rewrite Forall_forall in *. intros c Hc.
    destruct (H1 c Hc). auto.
  - split; [apply squeeze_no_adjacent|].
    split; [apply squeeze_last|].
    split.
    + rewrite squeeze_keeps, lowered_text by exact Hlen.
      f_equal. apply map_ext. intros c. apply fix_char_normal.
    + intros c d rest Ht Hc Hin Hd. rewrite Hn.
      apply (normalized_leading text c d rest Ht Hc Hin Hd).
Qed.

End FixupFacts.

(** ** Colour-space conversion *)

Module ConvertFacts.
Import Convert.

Lemma passes_exact (step n : Z) :
  0 < step -> 0 <= n -> passes (step * n) step = Z.to_nat n.
Proof.
  intros Hs Hn. unfold passes.
  replace (step * n + step - 1) with (n * step + (step - 1)) by lia.
  rewrite Z.div_add_l by lia. rewrite Z.div_small by lia.
  rewrite Z.add_0_r. reflexivity.
Qed.

Lemma rd_app (pre l : list Z) (k : Z) :
  0 <= k -> rd (pre ++ l) (Z.of_nat (List.length pre) + k) = rd l k.
Proof.
  intros Hk. unfold rd.
  destruct (Z.ltb_spec (Z.of_nat (List.length pre) + k) 0); [lia|].
  destruct (Z.ltb_spec k 0); [lia|].
  replace (Z.to_nat (Z.of_nat (List.length pre) + k))
    with (List.length pre + Z.to_nat k)%nat by lia.
  apply app_nth2_plus.
Qed.

Lemma rd_app0 (pre l : list Z) :
  rd (pre ++ l) (Z.of_nat (List.length pre)) = rd l 0.
Proof.
  rewrite <- (Z.add_0_r (Z.of_nat (List.length pre))). apply rd_app. lia.
Qed.

Lemma rd_same (l rest : list Z) (v k : Z) :
  Forall (eq v) l -> 0 <= k < Z.of_nat (List.length l) ->
  rd (l ++ rest) k = v.
Proof.
  intros Hl Hk. unfold rd. destruct (Z.ltb_spec k 0); [lia|].
  rewrite app_nth1 by lia.
  rewrite Forall_forall in Hl. symmetry. apply Hl.
  apply list_elem_of_In. apply nth_In. lia.
Qed.

Lemma luma_bounds (v : Z) : is_byte v -> 16 <= luma v <= 235.
Proof.
  unfold is_byte, luma. intros H. rewrite Z.shiftr_div_pow2 by lia.
  change (2 ^ 14) with 16384.
  assert (0 <= 14080 * v / 16384 < 220); [|lia].
  split; [apply Z.div_pos; lia|].
  apply Z.div_lt_upper_bound; lia.
Qed.

Lemma sat_byte (v : Z) : 0 <= v < 255 -> sat v = v.
Proof.
  intros H. unfold sat.
  destruct (Z.leb_spec 255 v); [lia|]. destruct (Z.ltb_spec v 0); lia.
Qed.

(** One pass of [ConvertToYUV] over a pair of equal grey pixels. *)
Lemma grey_pair_to_yuv (pre rest : list Z) (v w h : Z) (isvu : bool) :
  is_byte v ->
  rgb_to_yuv_pair (rgb_block (pre ++ [v; v; v; v; v; v] ++ rest) w h) isvu
                  (Z.of_nat (List.length pre))
  = [luma v; 128; luma v; 128].
Proof.
  intros Hv. unfold rgb_to_yuv_pair.
  cbn [pixelPtr pixelSize offset0 offset1 offset2 rgb_block].
  rewrite <- !Z.add_assoc.
  rewrite !rd_app by lia.
  rewrite !(rd_same [v; v; v; v; v; v] rest v)
    by (cbn [List.length]; repeat constructor || lia).
  replace (4224 * v + (8256 * v + 1600 * v)) with (14080 * v) by lia.
  change (Z.shiftr (14080 * v) 14 + 16) with (luma v).
  replace (-2432 * (v + v) - 4736 * (v + v) + 7168 * (v + v)) with 0 by lia.
  replace (7168 * (v + v) - 6016 * (v + v) - 1152 * (v + v)) with 0 by lia.
  change (sat (Z.shiftr 0 15 + 128)) with 128.
  rewrite (sat_byte (luma v)) by (pose proof (luma_bounds v Hv); lia).
  destruct isvu; reflexivity.
Qed.

(** One pass of [ConvertFromYUV] over a pair with neutral chroma. *)
Lemma neutral_pair_to_rgb (pre rest : list Z) (y : Z) (isvu : bool) :
  0 <= y < 255 ->
  yuv_to_rgb_pair isvu (pre ++ [y; 128; y; 128] ++ rest)
                  (Z.of_nat (List.length pre))
  = [y; y; y; y; y; y].
Proof.
  intros Hy. unfold yuv_to_rgb_pair.
  rewrite !rd_app by lia. rewrite !rd_app0.
  assert (H0 : rd ([y; 128; y; 128] ++ rest) 0 = y) by reflexivity.
  assert (H1 : rd ([y; 128; y; 128] ++ rest) 1 = 128) by reflexivity.
  assert (H2 : rd ([y; 128; y; 128] ++ rest) 2 = y) by reflexivity.
  assert (H3 : rd ([y; 128; y; 128] ++ rest) 3 = 128) by reflexivity.
  rewrite H0, H1, H2, H3.
  destruct isvu;
    change (Z.shiftr (22987 * (128 - 128)) 14) with 0;
    change (Z.shiftr (-5636 * (128 - 128) - 11698 * (128 - 128)) 14) with 0;
    change (Z.shiftr (29049 * (128 - 128)) 14) with 0;
    rewrite !Z.add_0_r; rewrite !sat_byte by lia; reflexivity.
Qed.

Lemma grey_pairs_cons (v : Z) (vs : list Z) :
  grey_pairs (v :: vs) = [v; v; v; v; v; v] ++ grey_pairs vs.
Proof. reflexivity. Qed.

Lemma grey_yuv_cons (v : Z) (vs : list Z) :
  grey_yuv (v :: vs) = [luma v; 128; luma v; 128] ++ grey_yuv vs.
Proof. reflexivity. Qed.

Lemma grey_back_cons (v : Z) (vs : list Z) :
  grey_back (v :: vs)
  = [luma v; luma v; luma v; luma v; luma v; luma v] ++ grey_back vs.
Proof. reflexivity. Qed.

Lemma to_yuv_loop_grey (vs pre : list Z) (w h : Z) (isvu : bool) :
  Forall is_byte vs ->
  to_yuv_loop (List.length vs) (rgb_block (pre ++ grey_pairs vs) w h) isvu
              (Z.of_nat (List.length pre))
  = grey_yuv vs.
Proof.
  revert pre. induction vs as [|v vs IH]; intros pre Hvs; [reflexivity|].
  apply Forall_cons in Hvs as [Hv Hvs].
  rewrite grey_pairs_cons, grey_yuv_cons. cbn [List.length to_yuv_loop].
  rewrite (grey_pair_to_yuv pre (grey_pairs vs) v w h isvu Hv).
  cbn [pixelSize rgb_block app]. f_equal. f_equal. f_equal. f_equal.
  specialize (IH (pre ++ [v; v; v; v; v; v]) Hvs).
  rewrite <- app_assoc in IH. cbn [app] in IH.
  rewrite length_app in IH. cbn [List.length] in IH.
  replace (Z.of_nat (List.length pre) + 2 * 3)
    with (Z.of_nat (List.length pre + 6)) by lia.
  exact IH.
Qed.

Lemma from_yuv_loop_grey (vs pre : list Z) (isvu : bool) :
  Forall is_byte vs ->
  from_yuv_loop (List.length vs) isvu (pre ++ grey_yuv vs)
                (Z.of_nat (List.length pre))
  = grey_back vs.
Proof.
  revert pre. induction vs as [|v vs IH]; intros pre Hvs; [reflexivity|].
  apply Forall_cons in Hvs as [Hv Hvs].
  rewrite grey_yuv_cons, grey_back_cons. cbn [List.length from_yuv_loop].
  rewrite (neutral_pair_to_rgb pre (grey_yuv vs) (luma v) isvu)
    by (pose proof (luma_bounds v Hv); lia).
  cbn [app]. do 6 f_equal.
  specialize (IH (pre ++ [luma v; 128; luma v; 128]) Hvs).
  rewrite <- app_assoc in IH. cbn [app] in IH.
  rewrite length_app in IH. cbn [List.length] in IH.
  replace (Z.of_nat (List.length pre) + 4)
    with (Z.of_nat (List.length pre + 4)) by lia.
  exact IH.
Qed.

Lemma grey_yuv_length (vs : list Z) :
  List.length (grey_yuv vs) = (4 * List.length vs)%nat.
Proof.
  induction vs as [|v vs IH]; [reflexivity|].
  rewrite grey_yuv_cons, length_app, IH. cbn [List.length]. lia.
Qed.

Lemma grey_back_length (vs : list Z) :
  List.length (grey_back vs) = (6 * List.length vs)%nat.
Proof.
  induction vs as [|v vs IH]; [reflexivity|].
  rewrite grey_back_cons, length_app, IH. cbn [List.length]. lia.
Qed.

(** C6.  For an image of [w] by [h] pixels all of whose pixel
    pairs are one grey value each, RGB to packed YUV 4:2:2 and back (either
    byte ordering, the same both ways) gives, in every channel of both
    pixels of a pair of value [v], the value [(14080 * v >> 14) + 16]:
    the luma of the limited range 16..235, which [ConvertFromYUV] does not
    expand again.  It differs from [v] by at most 20, and by at most 2
    exactly for [v] from 93 to 128. *)
Theorem grey_roundtrip (vs : list Z) (w h : Z) (isvu : bool) :
  Forall is_byte vs ->
  w * h = 2 * Z.of_nat (List.length vs) ->
  roundtrip (grey_pairs vs) w h isvu = Some (grey_back vs)
  /\ Forall (fun v => 16 <= luma v <= 235 /\ -20 <= luma v - v <= 16
                      /\ (-2 <= luma v - v <= 2 <-> 93 <= v <= 128)) vs.
Proof.
  intros Hvs Hwh. split.
  - unfold roundtrip, ConvertToYUV, ConvertFromYUV.
    cbn [pitch width height pixelSize rgb_block negb].
    rewrite Z.eqb_refl. cbn [negb].
    replace (w * h * 2) with (4 * Z.of_nat (List.length vs)) by lia.
    replace (w * h * 3) with (6 * Z.of_nat (List.length vs)) by lia.
    rewrite !passes_exact by lia. rewrite !Nat2Z.id.
    pose proof (to_yuv_loop_grey vs [] w h isvu Hvs) as H1.
    change (Z.of_nat (List.length (@nil Z))) with 0 in H1.
    cbn [app] in H1. rewrite H1.
    rewrite (firstn_all2 (grey_yuv vs)) by (rewrite grey_yuv_length; lia).
    pose proof (from_yuv_loop_grey vs [] isvu Hvs) as H2.
    change (Z.of_nat (List.length (@nil Z))) with 0 in H2.
    cbn [app] in H2. rewrite H2.
    rewrite (firstn_all2 (grey_back vs))
      by (rewrite grey_back_length; lia).
    reflexivity.
  - eapply Forall_impl; [exact Hvs|]. intros v Hv. cbv beta.
    pose proof (luma_bounds v Hv) as Hb. split; [exact Hb|].
    unfold is_byte, luma in *. rewrite Z.shiftr_div_pow2 in * by lia.
    change (2 ^ 14) with 16384 in *.
    pose proof (Z.div_mod (14080 * v) 16384 ltac:(lia)) as Hd.
    pose proof (Z.mod_pos_bound (14080 * v) 16384 ltac:(lia)) as Hm.
    lia.
Qed.

End ConvertFacts.

(** ** Orientation *)

Module OrientFacts.
Import Orient.

Lemma snap_values (degrees : Z) :
  snap degrees = 0 \/ snap degrees = 90 \/ snap degrees = 180
  \/ snap degrees = 270.
Proof.
  unfold snap.
  repeat match goal with
         | |- context [if ?b then _ else _] => destruct b
         end; auto.
Qed.

Lemma rem_nonneg (degrees : Z) :
  0 <= degrees -> Z.rem degrees 360 = degrees mod 360.
Proof. intros H. apply Z.rem_mod_nonneg; lia. Qed.

(** For a non-negative argument the stored rotation is the sector of the
    angle reduced modulo 360. *)
Lemma snap_nonneg (degrees : Z) :
  0 <= degrees -> snap degrees = sector (degrees mod 360).
Proof.
  intros H. unfold snap, sector. rewrite (rem_nonneg _ H).
  pose proof (Z.mod_pos_bound degrees 360 ltac:(lia)) as Hb.
  repeat match goal with
         | |- context [?a <? ?b] => destruct (Z.ltb_spec a b)
         | |- context [?a <=? ?b] => destruct (Z.leb_spec a b)
         end; simpl; lia.
Qed.

(** C's remainder of a negative number is not positive, so every negative
    argument lands in the first rung of the ladder. *)
Lemma snap_negative (degrees : Z) : degrees < 0 -> snap degrees = 0.
Proof.
  intros H. unfold snap.
  assert (Z.rem degrees 360 <= 0) as Hr by (apply Z.rem_nonpos; lia).
  destruct (Z.ltb_spec (Z.rem degrees 360) 45); [reflexivity | lia].
Qed.

End OrientFacts.

(** ** The capture engine *)

Module EngineFacts.
Import Engine.

Section Facts.

Variable World : Type.
Variable sys : World -> Request -> Reply * World.
Variable USE_MJPEG : bool.
Variable sscanf_size : string -> option (Z * Z).

#[local] Existing Instance M_ret.
#[local] Existing Instance M_bind.

Abbreviation Machine := (Machine World).
Abbreviation M := (M World).
Abbreviation sends := (sends World).
Abbreviation get := (get World).
Abbreviation modify := (modify World).
Abbreviation call := (call World sys).
Abbreviation munmap_up := (munmap_up World sys).
Abbreviation munmap_down := (munmap_down World sys).
Abbreviation StopCapture := (StopCapture World sys).
Abbreviation captureError := (captureError World sys).
Abbreviation doCallback := (doCallback World sys).
Abbreviation frameCallback := (frameCallback World sys).
Abbreviation BufferReady := (BufferReady World sys).
Abbreviation StartCapture := (StartCapture World sys USE_MJPEG).
Abbreviation SetControls := (SetControls World sys sscanf_size).
Abbreviation set_control := (set_control World sys sscanf_size).
Abbreviation GetImage := (GetImage World sys USE_MJPEG).
Abbreviation get_image := (get_image World sys USE_MJPEG).
Abbreviation Orientation := (Orientation World).
Abbreviation perform := (perform World sys USE_MJPEG sscanf_size).
Abbreviation run := (run World sys USE_MJPEG sscanf_size).

Ltac munfold :=
  unfold mbind, mret, M_bind, M_ret, get, modify, Engine.call in *.

Ltac msimpl := cbn [session world trace fst snd].

Ltac sys_step :=
  msimpl;
  match goal with
  | |- context [sys ?w ?r] =>
      let rep := fresh "rep" in
      let w' := fresh "w" in
      let E := fresh "Esys" in
      destruct (sys w r) as [rep w'] eqn:E in *;
      cbn [fst snd session world trace]
  end.

(** *** Calls leave the session alone *)

Lemma call_session (r : Request) (m : Machine) :
  session _ (call r m).2 = session _ m.
Proof. munfold. sys_step. reflexivity. Qed.

Lemma munmap_up_session (n from : nat) (m : Machine) :
  session _ (munmap_up n from m).2 = session _ m.
Proof.
  revert from m. induction n as [|n IH]; intros from m; [reflexivity|].
  cbn [Engine.munmap_up]. munfold. sys_step. rewrite IH. reflexivity.
Qed.

Lemma munmap_down_session (i : nat) (m : Machine) :
  session _ (munmap_down i m).2 = session _ m.
Proof.
  revert m. induction i as [|i IH]; intros m; [reflexivity|].
  cbn [Engine.munmap_down]. munfold. sys_step. rewrite IH. reflexivity.
Qed.

(** *** StopCapture *)

Lemma StopCapture_idle (m : Machine) :
  running (session _ m) <= 0 -> StopCapture m = (TCL_OK, m).
Proof.
  intros H. unfold Engine.StopCapture. munfold.
  destruct (Z.ltb_spec 0 (running (session _ m))); [lia|reflexivity].
Qed.

Lemma StopCapture_code (m : Machine) : (StopCapture m).1 = TCL_OK.
Proof.
  unfold Engine.StopCapture. munfold.
  destruct (0 <? running (session _ m)); [|reflexivity].
  repeat sys_step.
  destruct (munmap_up _ _ _) as [[] m1]. repeat sys_step. reflexivity.
Qed.

Lemma StopCapture_active (m : Machine) :
  0 < running (session _ m) ->
  session _ (StopCapture m).2 = stopped_fields (session _ m).
Proof.
  intros H. unfold Engine.StopCapture. munfold.
  destruct (Z.ltb_spec 0 (running (session _ m))); [|lia].
  repeat sys_step.
  match goal with
  | |- context [munmap_up ?n ?i ?m0] =>
      pose proof (munmap_up_session n i m0) as Hs;
      destruct (munmap_up n i m0) as [[] m1]
  end.
  cbn in Hs. repeat sys_step. cbn. rewrite Hs. reflexivity.
Qed.

(** C3.  [StopCapture] always returns [TCL_OK] and never touches the two
    counters.  On a session that is not capturing it changes nothing at
    all and asks nothing of the device; on a capturing session it changes
    [running], [stalled], [bufrdy] and [bufdone] and no other field.  A
    second stop right after a stop is the first case. *)
Theorem stop_capture_idempotent (m : Machine) :
  (StopCapture m).1 = TCL_OK
  /\ counters0 (session _ (StopCapture m).2) = counters0 (session _ m)
  /\ counters1 (session _ (StopCapture m).2) = counters1 (session _ m)
  /\ (running (session _ m) <= 0 -> StopCapture m = (TCL_OK, m))
  /\ (0 < running (session _ m) ->
      session _ (StopCapture m).2 = stopped_fields (session _ m))
  /\ StopCapture (StopCapture m).2 = (TCL_OK, (StopCapture m).2).
Proof.
  assert (Hcases : running (session _ m) <= 0 \/ 0 < running (session _ m))
    by lia.
  split; [apply StopCapture_code|].
  destruct Hcases as [Hidle | Hact].
  - rewrite (StopCapture_idle m Hidle). cbn [fst snd].
    repeat split; try reflexivity; try lia.
    apply StopCapture_idle; assumption.
  - pose proof (StopCapture_active m Hact) as Hs.
    rewrite Hs. repeat split; try reflexivity; try lia.
    apply StopCapture_idle. rewrite Hs. cbn. lia.
Qed.

(** *** BufferReady *)

Lemma StopCapture_session (m : Machine) :
  session _ (StopCapture m).2
  = if 0 <? running (session _ m) then stopped_fields (session _ m)
    else session _ m.
Proof.
  destruct (Z.ltb_spec 0 (running (session _ m))) as [H|H].
  - apply StopCapture_active; assumption.
  - rewrite StopCapture_idle; [reflexivity|assumption].
Qed.

Lemma captureError_session (m : Machine) :
  session _ (captureError m).2 = error_fields (session _ m).
Proof.
  unfold Engine.captureError. munfold.
  pose proof (StopCapture_session m) as Hs.
  destruct (StopCapture m) as [c m1]. cbn [snd] in Hs. cbn.
  rewrite Hs. unfold error_fields.
  destruct (0 <? running (session _ m)); reflexivity.
Qed.

Lemma doCallback_session (m : Machine) :
  session _ (doCallback m).2 = session _ m
  \/ (0 < running (session _ m)
      /\ session _ (doCallback m).2 = stopped_fields (session _ m)).
Proof.
  unfold Engine.doCallback. munfold. sys_step.
  destruct (negb (ret rep =? 0)); [|left; reflexivity].
  match goal with
  | |- context [StopCapture ?m0] =>
      pose proof (StopCapture_session m0) as Hs;
      destruct (StopCapture m0) as [c m1]
  end.
  cbn in Hs |- *. rewrite Hs.
  destruct (Z.ltb_spec 0 (running (session _ m))); [right|left]; auto.
Qed.

Lemma doCallback_error (m : Machine) :
  running (session _ m) < 0 -> session _ (doCallback m).2 = session _ m.
Proof.
  intros H. destruct (doCallback_session m) as [E|[Hr _]]; [exact E|lia].
Qed.

Lemma captureError_doCallback (m : Machine) :
  session _ ((captureError;; doCallback) m).2 = error_fields (session _ m).
Proof.
  munfold. pose proof (captureError_session m) as Hs.
  destruct (captureError m) as [[] m1]. cbn [snd] in Hs.
  rewrite doCallback_error; [exact Hs|]. rewrite Hs. cbn. lia.
Qed.

Lemma call_trace (r : Request) (m : Machine) :
  trace _ (call r m).2 = trace _ m ++ [r].
Proof. munfold. sys_step. reflexivity. Qed.

Lemma munmap_up_trace (n from : nat) (m : Machine) :
  trace _ (munmap_up n from m).2
  = trace _ m ++ unmap_requests (session _ m) from n.
Proof.
  revert from m. induction n as [|n IH]; intros from m.
  - cbn. rewrite app_nil_r. reflexivity.
  - cbn [Engine.munmap_up]. munfold. sys_step. rewrite IH. cbn.
    rewrite <- app_assoc. reflexivity.
Qed.

Lemma StopCapture_trace (m : Machine) :
  0 < running (session _ m) ->
  trace _ (StopCapture m).2 = trace _ m ++ stop_requests (session _ m).
Proof.
  intros H. unfold Engine.StopCapture. munfold.
  destruct (Z.ltb_spec 0 (running (session _ m))); [|lia].
  repeat sys_step.
  match goal with
  | |- context [munmap_up ?n ?i ?m0] =>
      pose proof (munmap_up_trace n i m0) as Ht;
      destruct (munmap_up n i m0) as [[] m1]
  end.
  cbn in Ht. repeat sys_step. cbn. rewrite Ht. unfold stop_requests.
  rewrite <- !app_assoc. reflexivity.
Qed.

Lemma doCallback_error_trace (m : Machine) :
  running (session _ m) < 0 ->
  trace _ (doCallback m).2 = trace _ m ++ [Tcl_EvalEx (cbCmd (session _ m))].
Proof.
  intros H. unfold Engine.doCallback. munfold. sys_step.
  destruct (negb (ret rep =? 0)); [|reflexivity].
  rewrite StopCapture_idle; [reflexivity|cbn; lia].
Qed.

Lemma captureError_trace (m : Machine) :
  0 < running (session _ m) ->
  trace _ (captureError m).2 = trace _ m ++ stop_requests (session _ m).
Proof.
  intros H. unfold Engine.captureError. munfold.
  pose proof (StopCapture_trace m H) as Ht.
  destruct (StopCapture m) as [c m1]. cbn in Ht |- *. exact Ht.
Qed.

Lemma captureError_doCallback_trace (m : Machine) :
  0 < running (session _ m) ->
  trace _ ((captureError;; doCallback) m).2
  = trace _ m ++ stop_requests (session _ m)
    ++ [Tcl_EvalEx (cbCmd (error_fields (session _ m)))].
Proof.
  intros H. munfold.
  pose proof (captureError_session m) as Hs.
  pose proof (captureError_trace m H) as Ht.
  destruct (captureError m) as [[] m1]. cbn [snd] in Hs, Ht.
  rewrite doCallback_error_trace; [|rewrite Hs; cbn; lia].
  rewrite Ht, Hs, <- app_assoc. reflexivity.
Qed.

Ltac readable_mask H :=
  unfold Engine.BufferReady;
  match goal with
  | |- context [Z.land ?x TCL_READABLE =? 0] =>
      let Hm := fresh "Hm" in
      destruct (Z.eqb_spec (Z.land x TCL_READABLE) 0) as [Hm|_];
      [exfalso; apply H; exact Hm|]
  end.

Lemma would_block_tests (r : Reply) :
  would_block r ->
  (ret r <? 0) = true /\ ((errno r =? EAGAIN) || (errno r =? EWOULDBLOCK)) = true.
Proof.
  intros [Hr He]. split; [apply Z.ltb_lt; exact Hr|].
  destruct He as [-> | ->]; reflexivity.
Qed.

(** The first spurious wake-up: mark, sleep, return. *)
Lemma BufferReady_stall (m : Machine) (mask : Z) :
  Z.land mask TCL_READABLE <> 0 ->
  would_block (sys (world _ m) VIDIOC_DQBUF).1 ->
  stalled (session _ m) = 0 ->
  session _ (BufferReady mask m).2 = set_stalled 1 (session _ m)
  /\ trace _ (BufferReady mask m).2
     = trace _ m ++ [VIDIOC_DQBUF; nanosleep 10000000].
Proof.
  intros Hmask Hwb Hst. readable_mask Hmask. munfold. sys_step.
  cbn [fst] in Hwb. destruct (would_block_tests _ Hwb) as [-> ->].
  msimpl. rewrite Hst. cbn [Z.eqb negb]. sys_step. msimpl.
  rewrite <- app_assoc. split; reflexivity.
Qed.

(** The second spurious wake-up in a row: stop-and-error cleanup. *)
Lemma BufferReady_stalled_twice (m : Machine) (mask : Z) :
  Z.land mask TCL_READABLE <> 0 ->
  0 < running (session _ m) ->
  would_block (sys (world _ m) VIDIOC_DQBUF).1 ->
  stalled (session _ m) <> 0 ->
  session _ (BufferReady mask m).2 = error_fields (session _ m)
  /\ trace _ (BufferReady mask m).2
     = trace _ m ++ [VIDIOC_DQBUF] ++ stop_requests (session _ m)
       ++ [Tcl_EvalEx (cbCmd (error_fields (session _ m)))].
Proof.
  intros Hmask Hrun Hwb Hst. readable_mask Hmask. munfold. sys_step.
  cbn [fst] in Hwb. destruct (would_block_tests _ Hwb) as [-> ->].
  msimpl.
  destruct (Z.eqb_spec (stalled (session _ m)) 0) as [E|_]; [contradiction|].
  cbn [negb].
  match goal with
  | |- context [(let (_, _) := captureError ?m0 in _)] =>
      change (let (_, m') := captureError m0 in doCallback m')
        with ((captureError;; doCallback) m0);
      pose proof (captureError_doCallback m0) as Hs;
      pose proof (captureError_doCallback_trace m0 Hrun) as Ht
  end.
  cbn [session trace] in Hs, Ht. rewrite Hs, Ht, <- app_assoc.
  split; reflexivity.
Qed.

Lemma frameCallback_session (sequence : Z) (m : Machine) :
  let s2 := set_cbCmd (take (cbCmdLen (session _ m)) (cbCmd (session _ m))
                       ++ [WStr (devId (session _ m)); WInt sequence])
                      (session _ m) in
  session _ (frameCallback sequence m).2 = s2
  \/ (0 < running (session _ m)
      /\ session _ (frameCallback sequence m).2 = stopped_fields s2).
Proof.
  intros s2. unfold Engine.frameCallback. munfold. msimpl.
  match goal with
  | |- context [doCallback ?m0] => destruct (doCallback_session m0) as [E|[Hr E]]
  end.
  - left. exact E.
  - right. split; [exact Hr | exact E].
Qed.

(** A frame was dequeued and the buffer it displaces, if any, went back to
    the kernel: the marker is cleared, the frame is counted, and the session
    keeps capturing (or is stopped, when the script failed). *)
Lemma BufferReady_frame (m : Machine) (mask : Z) :
  Z.land mask TCL_READABLE <> 0 ->
  0 < running (session _ m) ->
  0 <= ret (sys (world _ m) VIDIOC_DQBUF).1 ->
  (bufrdy (session _ m) < 0
   \/ 0 <= ret (sys (sys (world _ m) VIDIOC_DQBUF).2
                    (VIDIOC_QBUF (bufrdy (session _ m)))).1) ->
  stalled (session _ (BufferReady mask m).2) = 0
  /\ 0 <= running (session _ (BufferReady mask m).2)
  /\ counters0 (session _ (BufferReady mask m).2)
     = to_wide (counters0 (session _ m) + 1)
  /\ counters1 (session _ (BufferReady mask m).2) = counters1 (session _ m).
Proof.
  intros Hmask Hrun Hok Hq. readable_mask Hmask. munfold. sys_step.
  cbn [fst snd] in Hok, Hq.
  destruct (Z.ltb_spec (ret rep) 0) as [Hneg|_]; [lia|]. msimpl.
  destruct (Z.leb_spec 0 (bufrdy (session _ m))) as [Hrdy|Hrdy].
  - cbn [bufrdy set_counters0 set_bufdone set_stalled].
    destruct (Z.leb_spec 0 (bufrdy (session _ m))) as [_|?]; [|lia].
    destruct Hq as [Hq|Hq]; [lia|]. sys_step. cbn [fst] in Hq.
    destruct (Z.ltb_spec (ret rep0) 0) as [?|_]; [lia|].
    match goal with
    | |- context [frameCallback ?q ?m0] =>
        destruct (frameCallback_session q m0) as [E|[_ E]]
    end; cbn [session world trace fst snd] in E; rewrite E; cbn;
      repeat split; lia.
  - cbn [bufrdy set_counters0 set_bufdone set_stalled].
    destruct (Z.leb_spec 0 (bufrdy (session _ m))) as [?|_]; [lia|].
    msimpl.
    match goal with
    | |- context [frameCallback ?q ?m0] =>
        destruct (frameCallback_session q m0) as [E|[_ E]]
    end; cbn [session world trace fst snd] in E; rewrite E; cbn;
      repeat split; lia.
Qed.

Lemma error_fields_state (s : V4L2C) : state_of (error_fields s) = Error.
Proof. unfold error_fields, state_of. reflexivity. Qed.

Lemma running_state (s : V4L2C) : 0 <= running s -> state_of s <> Error.
Proof.
  intros H. unfold state_of.
  destruct (Z.ltb_spec (running s) 0); [lia|].
  destruct (running s =? 0); discriminate.
Qed.

(** A frame whose displaced buffer the kernel does not take back:
    stop-and-error cleanup. *)
Lemma BufferReady_refused (m : Machine) (mask : Z) :
  Z.land mask TCL_READABLE <> 0 ->
  0 < running (session _ m) ->
  0 <= ret (sys (world _ m) VIDIOC_DQBUF).1 ->
  0 <= bufrdy (session _ m) ->
  ret (sys (sys (world _ m) VIDIOC_DQBUF).2
           (VIDIOC_QBUF (bufrdy (session _ m)))).1 < 0 ->
  running (session _ (BufferReady mask m).2) = -1
  /\ stalled (session _ (BufferReady mask m).2) = 0
  /\ trace _ (BufferReady mask m).2
     = trace _ m ++ [VIDIOC_DQBUF; VIDIOC_QBUF (bufrdy (session _ m))]
       ++ stop_requests (session _ m)
       ++ [Tcl_EvalEx (cbCmd (error_fields (session _ m)))].
Proof.
  intros Hmask Hrun Hok Hrdy Hq. readable_mask Hmask. munfold. sys_step.
  cbn [fst snd] in Hok, Hq.
  destruct (Z.ltb_spec (ret rep) 0) as [Hneg|_]; [lia|]. msimpl.
  cbn [bufrdy set_counters0 set_bufdone set_stalled].
  destruct (Z.leb_spec 0 (bufrdy (session _ m))) as [_|?]; [|lia].
  sys_step. cbn [fst] in Hq.
  destruct (Z.ltb_spec (ret rep0) 0) as [_|?]; [|lia].
  match goal with
  | |- context [(let (_, _) := captureError ?m0 in _)] =>
      change (let (_, m') := captureError m0 in doCallback m')
        with ((captureError;; doCallback) m0);
      pose proof (captureError_doCallback m0) as Hs;
      pose proof (captureError_doCallback_trace m0 Hrun) as Ht
  end.
  cbn [session trace] in Hs, Ht. rewrite Hs, Ht, <- !app_assoc.
  split; [reflexivity|]. split; [reflexivity|].
  unfold error_fields, stop_requests, unmap_requests. cbn.
  destruct (0 <? running (session _ m)); reflexivity.
Qed.

(** C1.  For a capturing session and a readable descriptor:
    a dequeue that would block, with the marker clear, sets the marker,
    sleeps 10 ms and returns; with the marker set it performs the
    stop-and-error cleanup and leaves the session in the error state; a
    dequeue that succeeds clears the marker and, provided the buffer it
    displaces (if any) is taken back by the kernel, does not lead to the
    error state; when the kernel refuses to take that buffer back, the
    same cleanup runs and the session is in the error state.  So two
    spurious wake-ups in a row end in the error state; one followed by a
    successful dequeue does not when the requeue is accepted, and does
    when the requeue is refused. *)
Theorem ready_event_stall (m : Machine) (mask : Z) :
  Z.land mask TCL_READABLE <> 0 ->
  0 < running (session _ m) ->
  let m1 := (BufferReady mask m).2 in
  let m2 := (BufferReady mask m1).2 in
  (would_block (dequeue_reply _ sys m) -> stalled (session _ m) = 0 ->
   session _ m1 = set_stalled 1 (session _ m)
   /\ trace _ m1 = trace _ m ++ [VIDIOC_DQBUF; nanosleep 10000000])
  /\ (would_block (dequeue_reply _ sys m) -> stalled (session _ m) <> 0 ->
      session _ m1 = error_fields (session _ m)
      /\ state_of (session _ m1) = Error
      /\ trace _ m1
         = trace _ m ++ [VIDIOC_DQBUF] ++ stop_requests (session _ m)
           ++ [Tcl_EvalEx (cbCmd (error_fields (session _ m)))])
  /\ (0 <= ret (dequeue_reply _ sys m) -> requeued _ sys m ->
      stalled (session _ m1) = 0 /\ state_of (session _ m1) <> Error)
  /\ (would_block (dequeue_reply _ sys m) -> stalled (session _ m) = 0 ->
      would_block (dequeue_reply _ sys m1) ->
      state_of (session _ m2) = Error)
  /\ (would_block (dequeue_reply _ sys m) -> stalled (session _ m) = 0 ->
      0 <= ret (dequeue_reply _ sys m1) -> requeued _ sys m1 ->
      stalled (session _ m2) = 0 /\ state_of (session _ m2) <> Error)
  /\ (0 <= ret (dequeue_reply _ sys m) -> requeue_refused _ sys m ->
      state_of (session _ m1) = Error
      /\ stalled (session _ m1) = 0
      /\ trace _ m1
         = trace _ m ++ [VIDIOC_DQBUF; VIDIOC_QBUF (bufrdy (session _ m))]
           ++ stop_requests (session _ m)
           ++ [Tcl_EvalEx (cbCmd (error_fields (session _ m)))])
  /\ (would_block (dequeue_reply _ sys m) -> stalled (session _ m) = 0 ->
      0 <= ret (dequeue_reply _ sys m1) -> requeue_refused _ sys m1 ->
      state_of (session _ m2) = Error).
Proof.
  intros Hmask Hrun m1 m2.
  unfold dequeue_reply, requeued, requeue_refused in *.
  assert (Hfirst : would_block (sys (world _ m) VIDIOC_DQBUF).1 ->
                   stalled (session _ m) = 0 ->
                   session _ m1 = set_stalled 1 (session _ m))
    by (intros Hwb Hst; apply (BufferReady_stall m mask Hmask Hwb Hst)).
  assert (Herr : forall s : V4L2C, running s = -1 -> state_of s = Error).
  { intros s E. unfold state_of. rewrite E. reflexivity. }
  repeat apply conj.
  - intros Hwb Hst. apply (BufferReady_stall m mask Hmask Hwb Hst).
  - intros Hwb Hst.
    destruct (BufferReady_stalled_twice m mask Hmask Hrun Hwb Hst) as [Hs Ht].
    subst m1. rewrite Hs. split; [reflexivity|].
    split; [apply error_fields_state | exact Ht].
  - intros Hok Hq.
    destruct (BufferReady_frame m mask Hmask Hrun Hok Hq) as (H1 & H2 & _).
    split; [exact H1 | apply running_state; exact H2].
  - intros Hwb Hst Hwb2. specialize (Hfirst Hwb Hst).
    assert (Hrun1 : 0 < running (session _ m1)) by (rewrite Hfirst; exact Hrun).
    assert (Hst1 : stalled (session _ m1) <> 0) by (rewrite Hfirst; cbn; lia).
    destruct (BufferReady_stalled_twice m1 mask Hmask Hrun1 Hwb2 Hst1)
      as [Hs _].
    subst m2. rewrite Hs. apply error_fields_state.
  - intros Hwb Hst Hok Hq. specialize (Hfirst Hwb Hst).
    assert (Hrun1 : 0 < running (session _ m1)) by (rewrite Hfirst; exact Hrun).
    destruct (BufferReady_frame m1 mask Hmask Hrun1 Hok Hq) as (H1 & H2 & _).
    split; [exact H1 | apply running_state; exact H2].
  - intros Hok [Hrdy Hq].
    destruct (BufferReady_refused m mask Hmask Hrun Hok Hrdy Hq)
      as (H1 & H2 & H3).
    split; [apply Herr; exact H1|]. split; [exact H2 | exact H3].
  - intros Hwb Hst Hok [Hrdy Hq]. specialize (Hfirst Hwb Hst).
    assert (Hrun1 : 0 < running (session _ m1)) by (rewrite Hfirst; exact Hrun).
    destruct (BufferReady_refused m1 mask Hmask Hrun1 Hok Hrdy Hq)
      as (H1 & _).
    apply Herr. exact H1.
Qed.

(** *** Rules for [sends] *)

Section Sends.

Context (R : relation V4L2C) `{!Reflexive R} `{!Transitive R}.

Lemma sends_ret {A} (a : A) : sends R (mret a : M A).
Proof. intros m. cbn. reflexivity. Qed.

Lemma sends_get : sends R get.
Proof. intros m. cbn. reflexivity. Qed.

Lemma sends_call (r : Request) : sends R (call r).
Proof. intros m. rewrite call_session. reflexivity. Qed.

Lemma sends_modify (f : V4L2C -> V4L2C) :
  (forall s, R s (f s)) -> sends R (modify f).
Proof. intros H m. cbn. apply H. Qed.

Lemma sends_bind {A B} (c : M A) (k : A -> M B) :
  sends R c -> (forall a, sends R (k a)) -> sends R (c ≫= k).
Proof.
  intros Hc Hk m. unfold mbind, M_bind.
  specialize (Hc m). destruct (c m) as [a m1]. cbn [snd] in Hc.
  etransitivity; [exact Hc | apply Hk].
Qed.

End Sends.

#[local] Instance same_core_refl : Reflexive same_core.
Proof. intros s. reflexivity. Qed.

#[local] Instance same_core_trans : Transitive same_core.
Proof. intros a b c H1 H2. unfold same_core in *. congruence. Qed.

Lemma sends_eq_core {A} (c : M A) : sends eq c -> sends same_core c.
Proof. intros H m. unfold same_core. rewrite <- (H m). reflexivity. Qed.

(** Splits a goal [sends R c] along the structure of [c]. *)
Ltac sends_step :=
  lazymatch goal with
  | |- Engine.sends _ _ (mret _) => apply sends_ret; try exact _
  | |- Engine.sends _ _ (Engine.get _) => apply sends_get; try exact _
  | |- Engine.sends _ _ (Engine.call _ _ _) => apply sends_call; try exact _
  | |- Engine.sends _ _ (Engine.modify _ _) =>
      apply sends_modify; intros;
      try match goal with
          | |- context [if ?b then _ else _] => destruct b
          end;
      try reflexivity; try (left; reflexivity);
      try (unfold same_core; solve [auto])
  | |- Engine.sends _ _ (_ ≫= _) =>
      apply sends_bind; [try exact _ | | intros]
  | |- Engine.sends _ _ (if ?b then _ else _) => destruct b
  | |- Engine.sends _ _ (match ?x with _ => _ end) => destruct x
  | |- Engine.sends _ _ (let _ := _ in _) => cbv zeta
  end.

Ltac sends_auto := repeat (sends_step; auto).

(** *** What the phases of [StartCapture] leave alone *)

Abbreviation try_formats := (try_formats World sys).
Abbreviation negotiate_format := (negotiate_format World sys USE_MJPEG).
Abbreviation set_frame_rate := (set_frame_rate World sys).
Abbreviation request_loop := (request_loop World sys).
Abbreviation request_buffers := (request_buffers World sys).
Abbreviation map_buffers := (map_buffers World sys).
Abbreviation queue_buffers := (queue_buffers World sys).
Abbreviation start_failed := (start_failed World).
Abbreviation unmapAll := (unmapAll World sys).

Lemma munmap_up_quiet (n from : nat) : sends eq (munmap_up n from).
Proof. intros m. symmetry. apply munmap_up_session. Qed.

Lemma munmap_down_quiet (i : nat) : sends eq (munmap_down i).
Proof. intros m. symmetry. apply munmap_down_session. Qed.

Lemma try_formats_quiet (fmts : list Z) (fmt : pix_format) :
  sends eq (try_formats fmts fmt).
Proof.
  induction fmts as [|f rest IH]; cbn [Engine.try_formats]; sends_auto.
Qed.

Lemma negotiate_format_quiet : sends eq negotiate_format.
Proof.
  unfold Engine.negotiate_format.
  pose proof try_formats_quiet. sends_auto.
Qed.

Lemma request_loop_quiet (fuel : nat) (i count : Z) :
  sends eq (request_loop fuel i count).
Proof.
  revert i count.
  induction fuel as [|fuel IH]; intros i count; cbn [Engine.request_loop];
    sends_auto.
Qed.

Lemma queue_buffers_quiet (n i : nat) : sends eq (queue_buffers n i).
Proof.
  revert i. induction n as [|n IH]; intros i; cbn [Engine.queue_buffers];
    sends_auto.
Qed.

Lemma set_frame_rate_core : sends same_core set_frame_rate.
Proof. unfold Engine.set_frame_rate. sends_auto. Qed.

Lemma map_buffers_core (n i : nat) : sends same_core (map_buffers n i).
Proof.
  revert i. induction n as [|n IH]; intros i; cbn [Engine.map_buffers].
  - sends_auto.
  - pose proof (fun k => sends_eq_core _ (munmap_down_quiet k)). sends_auto.
Qed.

#[local] Instance restarted_refl : Reflexive restarted.
Proof. intros s. left. reflexivity. Qed.

#[local] Instance restarted_trans : Transitive restarted.
Proof.
  intros a b c [H1|H1] [H2|H2]; unfold restarted; rewrite ?H2, ?H1; auto.
Qed.

Lemma sends_core_restarted {A} (c : M A) :
  sends same_core c -> sends restarted c.
Proof. intros H m. left. apply H. Qed.

Lemma start_failed_core (res : Result) : sends same_core (start_failed res).
Proof. unfold Engine.start_failed. sends_auto. Qed.

Lemma unmapAll_core (count : Z) (res : Result) :
  sends same_core (unmapAll count res).
Proof.
  unfold Engine.unmapAll.
  pose proof (fun n k => sends_eq_core _ (munmap_up_quiet n k)).
  pose proof start_failed_core. sends_auto.
Qed.

Lemma capture_started_core (fmt : pix_format) :
  sends restarted (capture_started World sys fmt).
Proof.
  intros m. unfold Engine.capture_started. munfold. sys_step.
  right. reflexivity.
Qed.

Lemma start_buffers_core (fmt : pix_format) :
  sends restarted (start_buffers World sys fmt).
Proof.
  unfold Engine.start_buffers, Engine.start_pool, Engine.request_buffers.
  pose proof (fun f i c =>
                sends_core_restarted _ (sends_eq_core _ (request_loop_quiet f i c))).
  pose proof (fun n i => sends_core_restarted _ (map_buffers_core n i)).
  pose proof (fun n i =>
                sends_core_restarted _ (sends_eq_core _ (queue_buffers_quiet n i))).
  pose proof (fun r => sends_core_restarted _ (start_failed_core r)).
  pose proof (fun c r => sends_core_restarted _ (unmapAll_core c r)).
  pose proof capture_started_core.
  sends_auto.
Qed.

Lemma StartCapture_core : sends restarted StartCapture.
Proof.
  unfold Engine.StartCapture.
  pose proof (sends_core_restarted _ (sends_eq_core _ negotiate_format_quiet)).
  pose proof (sends_core_restarted _ set_frame_rate_core).
  pose proof (fun r => sends_core_restarted _ (start_failed_core r)).
  pose proof start_buffers_core.
  sends_auto.
Qed.

(** *** What [SetControls] and [Orientation] leave alone *)

Abbreviation set_frame_size := (set_frame_size World sscanf_size).
Abbreviation set_frame_rate_control := (set_frame_rate_control World).
Abbreviation write_control := (write_control World sys).

Lemma set_frame_size_core (value : Tcl_Obj) :
  sends same_core (set_frame_size value).
Proof. unfold Engine.set_frame_size. sends_auto. Qed.

Lemma set_frame_rate_control_core (value : Tcl_Obj) :
  sends same_core (set_frame_rate_control value).
Proof. unfold Engine.set_frame_rate_control. sends_auto. Qed.

Lemma store_useOld_core (p : vptr) (v : Z) (s : V4L2C) :
  core (store_useOld p v s) = core s.
Proof. destruct p; reflexivity. Qed.

Lemma write_control_core (p : vptr) (vctrl : VCTRL) (xc : v4l2_ext_control) :
  sends same_core (write_control p vctrl xc).
Proof.
  unfold Engine.write_control. pose proof store_useOld_core.
  sends_auto.
Qed.

Lemma set_control_core (key value : Tcl_Obj) :
  sends same_core (set_control key value).
Proof.
  unfold Engine.set_control.
  pose proof set_frame_size_core. pose proof set_frame_rate_control_core.
  pose proof write_control_core. sends_auto.
Qed.

Lemma SetControls_core (objv : list Tcl_Obj) : sends same_core (SetControls objv).
Proof.
  induction objv as [objv IH] using (induction_ltof1 _ List.length).
  unfold ltof in IH.
  destruct objv as [|key [|value rest]]; cbn [Engine.SetControls];
    [sends_auto | sends_auto |].
  pose proof set_control_core.
  assert (sends same_core (SetControls rest)) by (apply IH; cbn; lia).
  sends_auto.
Qed.

Lemma Orientation_core (arg : option Tcl_Obj) :
  sends same_core (Orientation arg).
Proof. unfold Engine.Orientation. sends_auto. Qed.

(** *** GetImage *)

Lemma get_bind {A} (k : V4L2C -> M A) (m : Machine) :
  (get ≫= k) m = k (session _ m) m.
Proof. reflexivity. Qed.

Abbreviation image_done := (image_done World).
Abbreviation prepare_photo := (prepare_photo World sys USE_MJPEG).
Abbreviation prepare_raw := (prepare_raw World sys USE_MJPEG).
Abbreviation extract_channels := (extract_channels World sys).

#[local] Instance may_consume_refl : Reflexive may_consume.
Proof. intros s. left. reflexivity. Qed.

#[local] Instance may_consume_trans : Transitive may_consume.
Proof.
  intros a b c [->|[H1 ->]] [->|[H2 ->]]; unfold may_consume; auto.
  cbn in H2. discriminate.
Qed.

Lemma sends_eq_consume {A} (c : M A) : sends eq c -> sends may_consume c.
Proof. intros H m. left. symmetry. apply H. Qed.

Lemma converted_quiet (size : Z) (ok : Prepared) :
  sends eq (converted World sys size ok).
Proof. unfold Engine.converted. sends_auto. Qed.

Lemma converted_mjpeg_quiet (size : Z) (ok : Prepared) :
  sends eq (converted_mjpeg World sys size ok).
Proof. unfold Engine.converted_mjpeg. sends_auto. Qed.

Lemma prepare_photo_quiet (s : V4L2C) : sends eq (prepare_photo s).
Proof.
  unfold Engine.prepare_photo.
  pose proof converted_quiet. pose proof converted_mjpeg_quiet. sends_auto.
Qed.

Lemma prepare_raw_quiet (s : V4L2C) : sends eq (prepare_raw s).
Proof.
  unfold Engine.prepare_raw.
  pose proof converted_quiet. pose proof converted_mjpeg_quiet. sends_auto.
Qed.

Lemma extract_channels_quiet (flags : Z) (s : V4L2C) (p : Prepared) :
  sends eq (extract_channels flags s p).
Proof. unfold Engine.extract_channels. pose proof converted_quiet. sends_auto. Qed.

Lemma image_done_consume (done : bool) (r : TclCode * Result) :
  sends may_consume (image_done done r).
Proof.
  intros m. unfold Engine.image_done. munfold. msimpl.
  destruct done; [|left; reflexivity]. cbn [andb].
  destruct (Z.eqb_spec (bufdone (session _ m)) 0) as [E|E];
    [right; split; [exact E | reflexivity] | left; reflexivity].
Qed.

Lemma image_done_false (r : TclCode * Result) (m : Machine) :
  image_done false r m = (r, m).
Proof. unfold Engine.image_done. munfold. destruct m; reflexivity. Qed.

Lemma get_image_consume (flags : Z) (photo : bool) (m : Machine) :
  let s := session _ m in
  let s' := session _ (get_image flags photo m).2 in
  s' = s \/ (0 <= bufrdy s /\ bufdone s = 0 /\ s' = handed_out s).
Proof.
  intros s s'. subst s s'. unfold Engine.get_image. rewrite get_bind.
  destruct (Z.ltb_spec (bufrdy (session _ m)) 0) as [Hno|Hrdy].
  - left. destruct photo; rewrite image_done_false; reflexivity.
  - match goal with
    | |- context [session _ (?c m).2] =>
        assert (Hc : sends may_consume c)
    end.
    { pose proof (fun s => sends_eq_consume _ (prepare_photo_quiet s)).
      pose proof (fun s => sends_eq_consume _ (prepare_raw_quiet s)).
      pose proof (fun f s p => sends_eq_consume _ (extract_channels_quiet f s p)).
      pose proof image_done_consume.
      sends_auto. }
    destruct (Hc m) as [E|[E1 E2]]; [left; exact E|].
    right. split; [exact Hrdy|]. split; assumption.
Qed.

Lemma GetImage_consume (flags : Z) (arg : option Tcl_Obj) (m : Machine) :
  let s := session _ m in
  let s' := session _ (GetImage flags arg m).2 in
  s' = s \/ (0 <= bufrdy s /\ bufdone s = 0 /\ s' = handed_out s).
Proof.
  intros s s'. subst s s'. unfold Engine.GetImage.
  destruct arg as [obj|]; [|apply get_image_consume].
  munfold. sys_step.
  destruct (negb (ret rep =? 0)); [left; reflexivity|].
  sys_step. destruct (ret rep0 =? 0); [left; reflexivity|].
  sys_step. destruct (ret rep1 =? 0); [left; reflexivity|].
  match goal with
  | |- context [get_image flags true ?m0] =>
      apply (get_image_consume flags true m0)
  end.
Qed.

(** *** The two counters *)

Lemma to_wide_small (x : Z) : - 2 ^ 63 <= x < 2 ^ 63 -> to_wide x = x.
Proof. intros H. unfold to_wide. rewrite Z.mod_small; lia. Qed.

Lemma counted_core (n : Z) (s s' : V4L2C) :
  core s' = core s -> counted n s -> counted n s'.
Proof.
  unfold core, counted. intros E H.
  injection E as -> -> -> ->. exact H.
Qed.

Lemma counted_mono (n n' : Z) (s : V4L2C) :
  n <= n' -> counted n s -> counted n' s.
Proof. unfold counted. intros Hn H. repeat split; try apply H; lia. Qed.

Lemma counted_nonneg (n : Z) (s : V4L2C) : counted n s -> 0 <= n.
Proof. unfold counted. lia. Qed.

Lemma counted_reset (n : Z) (s : V4L2C) :
  0 <= n -> core s = (-1, 0, 0, 0) -> counted n s.
Proof.
  unfold core, counted. intros Hn E. injection E as -> -> -> ->. lia.
Qed.

Lemma counted_stopped (n : Z) (s : V4L2C) :
  counted n s -> counted n (stopped_fields s).
Proof. unfold counted. cbn. lia. Qed.

Lemma counted_error (n : Z) (s : V4L2C) :
  counted n s -> counted n (error_fields s).
Proof.
  intros H. unfold error_fields. destruct (0 <? running s).
  - apply counted_stopped in H. revert H. unfold counted. cbn. tauto.
  - revert H. unfold counted. cbn. tauto.
Qed.

Lemma counted_restarted (n : Z) (s s' : V4L2C) :
  restarted s s' -> counted n s -> counted n s'.
Proof.
  intros [E|E] H; [apply (counted_core n s s' E H)|].
  apply counted_reset; [apply (counted_nonneg n s H) | exact E].
Qed.

Lemma counted_handed_out (n : Z) (s : V4L2C) :
  n < 2 ^ 63 -> 0 <= bufrdy s -> bufdone s = 0 ->
  counted n s -> counted n (handed_out s).
Proof.
  unfold counted, handed_out. cbn. intros Hn Hr Hd H.
  rewrite to_wide_small by lia. lia.
Qed.

(** The session right after a frame was dequeued and counted. *)
Lemma counted_frame (n x : Z) (s s' : V4L2C) :
  n + 1 < 2 ^ 63 -> counted n s ->
  core s' = (x, 0, to_wide (counters0 s + 1), counters1 s) ->
  counted (n + 1) s'.
Proof.
  unfold counted, core. intros Hn H E. injection E as -> -> -> ->.
  rewrite to_wide_small by lia. lia.
Qed.

Lemma frameCallback_counted (n sequence : Z) (m : Machine) :
  counted n (session _ m) ->
  counted n (session _ (frameCallback sequence m).2).
Proof.
  intros H. destruct (frameCallback_session sequence m) as [E|[_ E]];
    rewrite E; [|apply counted_stopped]; revert H; unfold counted; cbn; tauto.
Qed.

Lemma BufferReady_counted (n mask : Z) (m : Machine) :
  n + 1 < 2 ^ 63 ->
  counted n (session _ m) ->
  counted (n + 1) (session _ (BufferReady mask m).2).
Proof.
  intros Hn H.
  assert (Hup : counted (n + 1) (session _ m))
    by (apply (counted_mono n); [lia | exact H]).
  unfold Engine.BufferReady.
  destruct (Z.land mask TCL_READABLE =? 0); [exact Hup|].
  munfold. sys_step.
  destruct (ret rep <? 0).
  - destruct ((errno rep =? EAGAIN) || (errno rep =? EWOULDBLOCK)).
    + msimpl. destruct (negb (stalled (session _ m) =? 0)).
      * match goal with
        | |- context [(let (_, _) := captureError ?m0 in _)] =>
            change (let (_, m') := captureError m0 in doCallback m')
              with ((captureError;; doCallback) m0);
            rewrite (captureError_doCallback m0)
        end.
        apply counted_error. exact Hup.
      * sys_step. revert Hup. unfold counted. cbn. tauto.
    + match goal with
      | |- context [(let (_, _) := captureError ?m0 in _)] =>
          change (let (_, m') := captureError m0 in doCallback m')
            with ((captureError;; doCallback) m0);
          rewrite (captureError_doCallback m0)
      end.
      apply counted_error. exact Hup.
  - msimpl. cbn [bufrdy set_counters0 set_bufdone set_stalled].
    destruct (0 <=? bufrdy (session _ m)).
    + sys_step. destruct (ret rep0 <? 0).
      * match goal with
        | |- context [(let (_, _) := captureError ?m0 in _)] =>
            change (let (_, m') := captureError m0 in doCallback m')
              with ((captureError;; doCallback) m0);
            rewrite (captureError_doCallback m0)
        end.
        apply counted_error.
        eapply counted_frame; [exact Hn | exact H | reflexivity].
      * apply frameCallback_counted.
        eapply counted_frame; [exact Hn | exact H | reflexivity].
    + msimpl. apply frameCallback_counted.
      eapply counted_frame; [exact Hn | exact H | reflexivity].
Qed.

Lemma then_unit_session {A} (c : M A) (m : Machine) :
  session _ ((c;; mret tt) m).2 = session _ (c m).2.
Proof. munfold. destruct (c m). reflexivity. Qed.

Lemma perform_counted (n : Z) (o : Op) (m : Machine) :
  n + 1 < 2 ^ 63 ->
  counted n (session _ m) ->
  counted (n + 1) (session _ (perform o m).2).
Proof.
  intros Hn H.
  assert (Hup : counted (n + 1) (session _ m))
    by (apply (counted_mono n); [lia | exact H]).
  destruct o as [| |mask|flags arg|objv|arg]; cbn [Engine.perform];
    rewrite ?then_unit_session.
  - apply (counted_restarted _ _ _ (StartCapture_core m) Hup).
  - rewrite StopCapture_session.
    destruct (0 <? running (session _ m));
      [apply counted_stopped|]; exact Hup.
  - apply BufferReady_counted; assumption.
  - destruct (GetImage_consume flags arg m) as [E|(Hr & Hd & E)]; rewrite E.
    + exact Hup.
    + apply counted_handed_out; [exact Hn | assumption | assumption | exact Hup].
  - apply (counted_core _ _ _ (SetControls_core objv m) Hup).
  - apply (counted_core _ _ _ (Orientation_core arg m) Hup).
Qed.

Lemma run_counted (ops : list Op) (n : Z) (m : Machine) :
  n + Z.of_nat (List.length ops) < 2 ^ 63 ->
  counted n (session _ m) ->
  counted (n + Z.of_nat (List.length ops)) (session _ (run ops m).2).
Proof.
  revert n m. induction ops as [|o ops IH]; intros n m Hn H.
  - cbn. rewrite Z.add_0_r. exact H.
  - cbn [Engine.run List.length] in Hn |- *. munfold.
    pose proof (perform_counted n o m ltac:(lia) H) as H1.
    destruct (perform o m) as [[] m1]. cbn [snd] in H1.
    replace (n + Z.of_nat (S (List.length ops)))
      with (n + 1 + Z.of_nat (List.length ops)) by lia.
    apply IH; [lia | exact H1].
Qed.

Lemma opened_counted (dev_fd loop w h rate : Z) (dev_id dev_name cb : string)
    (sizes : list string) (kctrl : gmap Z vptr) (knctrl : gmap string vptr)
    (kheap : gmap Z VCTRL) :
  counted 0 (opened dev_fd loop w h rate dev_id dev_name cb sizes
                    kctrl knctrl kheap).
Proof. unfold counted. cbn. lia. Qed.

(** C9.  On a session opened by [CMD_open], after any run of start, stop,
    ready events, image retrievals, parameter settings and orientation
    settings (fewer than 2^63 of them, the range of the counters), the
    count of consumed frames does not exceed the count of captured frames.
    [GetImage] changes the session only by counting the ready frame as
    consumed, which it does only when there is a ready frame whose
    [bufdone] flag is clear, and it sets the flag; so two calls in a row
    count at most one frame. *)
Theorem consumed_never_exceeds_captured
    (dev_fd loop w h rate : Z) (dev_id dev_name cb : string)
    (sizes : list string) (kctrl : gmap Z vptr) (knctrl : gmap string vptr)
    (kheap : gmap Z VCTRL) (world0 : World) (ops : list Op) :
  Z.of_nat (List.length ops) < 2 ^ 63 ->
  let m0 := {| session := opened dev_fd loop w h rate dev_id dev_name cb
                                 sizes kctrl knctrl kheap;
               world := world0; trace := [] |} in
  let m := (run ops m0).2 in
  counters1 (session _ m) <= counters0 (session _ m)
  /\ (forall flags arg,
        let s' := session _ (GetImage flags arg m).2 in
        s' = session _ m
        \/ (0 <= bufrdy (session _ m) /\ bufdone (session _ m) = 0
            /\ s' = handed_out (session _ m)))
  /\ (forall flags arg flags' arg',
        let m1 := (GetImage flags arg m).2 in
        let m2 := (GetImage flags' arg' m1).2 in
        counters1 (session _ m2) = counters1 (session _ m)
        \/ (counters1 (session _ m2) = counters1 (session _ m) + 1
            /\ bufdone (session _ m2) = 1)).
Proof.
  intros Hlen m0 m.
  assert (Hc : counted (Z.of_nat (List.length ops)) (session _ m)).
  { pose proof (run_counted ops 0 m0 ltac:(lia)
                  (opened_counted _ _ _ _ _ _ _ _ _ _ _ _)) as H.
    rewrite Z.add_0_l in H. exact H. }
  split; [unfold counted in Hc; lia|].
  split; [intros flags arg; apply GetImage_consume|].
  intros flags arg flags' arg' m1 m2.
  assert (Hw : 0 <= bufrdy (session _ m) -> bufdone (session _ m) = 0 ->
               to_wide (counters1 (session _ m) + 1)
               = counters1 (session _ m) + 1)
    by (intros; apply to_wide_small; unfold counted in Hc; lia).
  destruct (GetImage_consume flags arg m) as [E1|(Hr1 & Hd1 & E1)];
    destruct (GetImage_consume flags' arg' m1) as [E2|(Hr2 & Hd2 & E2)];
    subst m2; rewrite E2; fold m1 in E1; rewrite ?E1 in *.
  - left. reflexivity.
  - right. cbn. rewrite Hw by assumption. split; reflexivity.
  - right. cbn. rewrite Hw by assumption. split; reflexivity.
  - cbn in Hd2. discriminate.
Qed.

(** C10.  With no ready frame ([bufrdy] negative), [GetImage] without a
    photo image fails with "no image available" and changes nothing;
    [GetImage] with a photo image that Tk finds returns [TCL_OK] with the
    integer 0, leaves the session (both counters included) as it was, and
    asks Tk only for the lookup of the image: nothing is put into it. *)
Theorem get_image_without_frame (m : Machine) (flags : Z) :
  bufrdy (session _ m) < 0 ->
  GetImage flags None m = ((TCL_ERROR, ResString "no image available"), m)
  /\ (forall obj, photo_found _ sys m obj ->
      (GetImage flags (Some obj) m).1 = (TCL_OK, ResInt 0)
      /\ session _ (GetImage flags (Some obj) m).2 = session _ m
      /\ trace _ (GetImage flags (Some obj) m).2
         = trace _ m ++ [CheckForTk; Tk_MainWindow;
                         Tk_FindPhoto (Tcl_GetString obj)]).
Proof.
  intros Hno. split.
  - unfold Engine.GetImage, Engine.get_image. rewrite get_bind.
    destruct (Z.ltb_spec (bufrdy (session _ m)) 0); [|lia].
    apply image_done_false.
  - intros obj Hph. unfold photo_found in Hph.
    unfold Engine.GetImage. munfold.
    sys_step. cbn beta iota in Hph.
    destruct (negb (ret rep =? 0)) eqn:Et;
      [destruct (sys w Tk_MainWindow) as [? w2];
       destruct (sys w2 _); destruct Hph as (Ht & _); rewrite Ht in Et;
       discriminate|].
    sys_step. cbn beta iota in Hph.
    destruct (Z.eqb_spec (ret rep0) 0) as [E|_];
      [destruct (sys w0 _); destruct Hph as (_ & Hw & _); contradiction|].
    sys_step. cbn beta iota in Hph. destruct Hph as (_ & _ & Hp).
    destruct (Z.eqb_spec (ret rep1) 0) as [?|_]; [contradiction|].
    unfold Engine.get_image. munfold. msimpl.
    destruct (Z.ltb_spec (bufrdy (session _ m)) 0); [|lia].
    rewrite image_done_false. cbn. rewrite <- !app_assoc.
    repeat split; reflexivity.
Qed.

(** *** SetControls *)

Lemma find_choice_none (n : nat) (k0 : Z) (entries : list string)
    (value : string) :
  (forall k, k0 <= k < k0 + Z.of_nat n -> GetZZString entries k <> value) ->
  find_choice n k0 entries value = None.
Proof.
  revert k0. induction n as [|n IH]; intros k0 H; [reflexivity|].
  cbn [find_choice].
  destruct (String.eqb_spec (GetZZString entries k0) value) as [E|_].
  - exfalso. apply (H k0); [lia | exact E].
  - rewrite andb_false_r. apply IH. intros k Hk. apply H. lia.
Qed.

(** What the search of a menu finds: the first choice that is the
    value. *)
Lemma find_choice_spec (n : nat) (k : Z) (entries : list string)
    (value : string) :
  match find_choice n k entries value with
  | Some j =>
      k <= j < k + Z.of_nat n
      /\ GetZZString entries j = value /\ value <> EmptyString
      /\ forall i, k <= i < j ->
           GetZZString entries i <> value \/ value = EmptyString
  | None =>
      forall i, k <= i < k + Z.of_nat n ->
        GetZZString entries i <> value \/ value = EmptyString
  end.
Proof.
  revert k. induction n as [|n IH]; intros k; cbn [find_choice].
  - intros i Hi. lia.
  - cbv zeta.
    destruct (String.eqb_spec (GetZZString entries k) EmptyString) as [E0|E0];
      cbn [negb andb];
      [|destruct (String.eqb_spec (GetZZString entries k) value) as [E|E]].
    + specialize (IH (k + 1)).
      assert (Hk : GetZZString entries k <> value \/ value = EmptyString).
      { destruct (String.eqb_spec value EmptyString) as [Ev|Ev]; [auto|].
        left. rewrite E0. auto. }
      destruct (find_choice n (k + 1) entries value) as [j|].
      * destruct IH as (H1 & H2 & H3 & H4).
        split; [lia|]. split; [exact H2|]. split; [exact H3|].
        intros i Hi. destruct (Z.eq_dec i k) as [->|]; [exact Hk|].
        apply H4. lia.
      * intros i Hi. destruct (Z.eq_dec i k) as [->|]; [exact Hk|].
        apply IH. lia.
    + split; [lia|]. split; [exact E|]. split; [rewrite <- E; exact E0|].
      intros i Hi. lia.
    + specialize (IH (k + 1)).
      destruct (find_choice n (k + 1) entries value) as [j|].
      * destruct IH as (H1 & H2 & H3 & H4).
        split; [lia|]. split; [exact H2|]. split; [exact H3|].
        intros i Hi. destruct (Z.eq_dec i k) as [->|]; [auto|].
        apply H4. lia.
      * intros i Hi. destruct (Z.eq_dec i k) as [->|]; [auto|].
        apply IH. lia.
Qed.

Lemma locked_tests (vctrl : VCTRL) :
  Z.land (flags (qry vctrl)) V4L2_CTRL_FLAG_READ_ONLY <> 0
  \/ Z.land (flags (qry vctrl)) V4L2_CTRL_FLAG_INACTIVE <> 0 ->
  negb (Z.land (flags (qry vctrl)) V4L2_CTRL_FLAG_READ_ONLY =? 0)
  || negb (Z.land (flags (qry vctrl)) V4L2_CTRL_FLAG_INACTIVE =? 0) = true.
Proof.
  intros [H|H].
  - destruct (Z.eqb_spec (Z.land (flags (qry vctrl))
                                 V4L2_CTRL_FLAG_READ_ONLY) 0);
      [contradiction | reflexivity].
  - destruct (Z.eqb_spec (Z.land (flags (qry vctrl))
                                 V4L2_CTRL_FLAG_INACTIVE) 0);
      [contradiction | apply orb_true_r].
Qed.

Lemma machine_eta (m : Machine) :
  {| session := session _ m; world := world _ m; trace := trace _ m |} = m.
Proof. destruct m; reflexivity. Qed.

(** A pair that is passed over leaves the machine as it is: nothing is
    written, and nothing is asked of the device. *)
Lemma set_control_skipped (key value : Tcl_Obj) (m : Machine) :
  Skipped (session _ m) key value -> set_control key value m = (None, m).
Proof.
  intros H. unfold Engine.set_control. rewrite get_bind.
  destruct H as [Hn | p vctrl Hn Hd Hl | a vctrl Hn Hd Ht Hv
                 | a vctrl Hn Hd Ht Hv | Hn Hv | a vctrl Hn Hd Ht Hv];
    rewrite Hn; try rewrite Hd; try reflexivity.
  - rewrite (locked_tests vctrl Hl). reflexivity.
  - destruct (_ || _); [reflexivity|].
    unfold control_value. destruct Ht as [-> | ->]; rewrite Hv; reflexivity.
  - destruct (_ || _); [reflexivity|].
    unfold control_value. rewrite Ht, Hv. reflexivity.
  - cbn [deref]. destruct (_ || _); [reflexivity|].
    unfold Engine.set_frame_rate_control. rewrite Hv. reflexivity.
  - destruct (_ || _); [reflexivity|].
    unfold control_value. rewrite Ht.
    rewrite find_choice_none; [reflexivity|].
    intros k Hk. apply Hv. lia.
Qed.

Lemma SetControls_cons (key value : Tcl_Obj) (rest : list Tcl_Obj)
    (m : Machine) :
  SetControls (key :: value :: rest) m
  = match set_control key value m with
    | (None, m1) => SetControls rest m1
    | (Some res, m1) => ((TCL_ERROR, res), m1)
    end.
Proof.
  cbn [Engine.SetControls]. munfold.
  destruct (set_control key value m) as [[res|] m1]; reflexivity.
Qed.

(** The pairs are applied in the order given: the pairs after a prefix
    are applied to what the prefix left, unless the prefix failed. *)
Lemma SetControls_app (pre post : list (Tcl_Obj * Tcl_Obj)) (m : Machine) :
  SetControls (objv_of (pre ++ post)) m
  = match SetControls (objv_of pre) m with
    | ((TCL_OK, _), m1) => SetControls (objv_of post) m1
    | failure => failure
    end.
Proof.
  revert m. induction pre as [|[key value] pre IH]; intros m.
  - reflexivity.
  - cbn [app objv_of flat_map fst snd]. change (flat_map _ ?l) with (objv_of l).
    cbn [app]. rewrite !SetControls_cons.
    destruct (set_control key value m) as [[res|] m1]; [reflexivity|].
    apply IH.
Qed.

Lemma unlocked_tests (vctrl : VCTRL) :
  unlocked vctrl ->
  negb (Z.land (flags (qry vctrl)) V4L2_CTRL_FLAG_READ_ONLY =? 0)
  || negb (Z.land (flags (qry vctrl)) V4L2_CTRL_FLAG_INACTIVE =? 0) = false.
Proof. intros [-> ->]. reflexivity. Qed.

(** The frame size is parsed, not looked up among the choices: a text of
    two positive numbers is taken on a session that does not capture,
    anything else is passed over; the device is not asked. *)
Lemma set_control_frame_size (key value : Tcl_Obj) (m : Machine) :
  nctrl (session _ m) !! Tcl_GetString key = Some P_fsize ->
  unlocked (fsize (session _ m)) ->
  exists s',
    set_control key value m
    = (None, {| session := s'; world := world _ m; trace := trace _ m |})
    /\ match sscanf_size (Tcl_GetString value) with
       | Some (w, h) =>
           if (0 <? w) && (0 <? h) && (running (session _ m) <=? 0)
           then width s' = w /\ height s' = h
                /\ running s' = running (session _ m)
                /\ fsize s' = fsize (session _ m)
           else s' = session _ m
       | None => s' = session _ m
       end.
Proof.
  intros Hn Hu. unfold Engine.set_control. rewrite get_bind, Hn.
  cbn [deref]. rewrite (unlocked_tests _ Hu).
  unfold Engine.set_frame_size. munfold.
  destruct m as [s w0 t]. msimpl.
  destruct (sscanf_size (Tcl_GetString value)) as [[w h]|];
    [|exists s; split; reflexivity].
  destruct ((0 <? w) && (0 <? h) && (running s <=? 0));
    [|exists s; split; reflexivity].
  msimpl.
  destruct (after_at (Tcl_GetString value)) as [[|c r]|];
    eexists; (split; [reflexivity|]); cbn; auto.
Qed.

(** A value for a control of the kernel is handed to the device. *)
Lemma set_control_written (key value : Tcl_Obj) (a : Z) (vctrl : VCTRL)
    (xc : v4l2_ext_control) (m : Machine) :
  nctrl (session _ m) !! Tcl_GetString key = Some (P_alloc a) ->
  deref (session _ m) (P_alloc a) = Some vctrl ->
  unlocked vctrl ->
  control_value vctrl value = Some xc ->
  let request := write_request vctrl xc in
  (exists t, trace _ (set_control key value m).2
             = trace _ m ++ request :: t)
  /\ (0 <= ret (sys (world _ m) request).1 ->
      set_control key value m
      = (None, {| session := session _ m;
                  world := (sys (world _ m) request).2;
                  trace := trace _ m ++ [request] |})).
Proof.
  intros Hn Hd Hu Hc request. subst request.
  unfold Engine.set_control. rewrite get_bind, Hn, Hd.
  rewrite (unlocked_tests _ Hu), Hc.
  unfold Engine.write_control, write_request. munfold.
  destruct (0 <? useOld vctrl).
  - msimpl.
    destruct (sys (world _ m) (VIDIOC_S_CTRL (id (qry vctrl)) (xc_value xc)))
      as [r w]. msimpl.
    destruct (Z.ltb_spec (ret r) 0).
    + split; [exists []; reflexivity | intros; lia].
    + split; [exists []; reflexivity | intros; reflexivity].
  - msimpl.
    destruct (sys (world _ m)
                  (VIDIOC_S_EXT_CTRLS (V4L2_CTRL_ID2CLASS (id (qry vctrl)))
                                      (id (qry vctrl)) (xc_value xc)
                                      (xc_value64 xc)))
      as [r w]. msimpl.
    destruct (Z.ltb_spec (ret r) 0).
    + split; [|intros; lia].
      destruct ((errno r =? EINVAL) && (useOld vctrl <? 0)).
      * msimpl.
        destruct (sys w (VIDIOC_S_CTRL (id (qry vctrl)) (xc_value xc)))
          as [r' w'].
        msimpl. eexists.
        destruct (ret r' =? 0); cbn; rewrite <- app_assoc; reflexivity.
      * exists []. reflexivity.
    + split; [exists []; reflexivity | intros; reflexivity].
Qed.

(** The value written to an integer or boolean control is the integer. *)
Lemma control_value_integer (vctrl : VCTRL) (value : Tcl_Obj) (v : Z) :
  type (qry vctrl) = V4L2_CTRL_TYPE_INTEGER
  \/ type (qry vctrl) = V4L2_CTRL_TYPE_BOOLEAN ->
  Tcl_GetIntFromObj value = Some v ->
  control_value vctrl value = Some (value32 v).
Proof.
  intros Ht Hv. unfold control_value.
  destruct Ht as [-> | ->]; rewrite Hv; reflexivity.
Qed.

(** The value written to a menu is the index of the first choice that is
    the label, counted from [minimum]. *)
Lemma control_value_choice (vctrl : VCTRL) (value : Tcl_Obj) (k : Z) :
  type (qry vctrl) = V4L2_CTRL_TYPE_MENU ->
  0 <= k <= maximum (qry vctrl) - minimum (qry vctrl) ->
  GetZZString (ds vctrl) k = Tcl_GetString value ->
  Tcl_GetString value <> EmptyString ->
  (forall j, 0 <= j < k -> GetZZString (ds vctrl) j <> Tcl_GetString value) ->
  control_value vctrl value
  = Some (value32 (to_int (k + minimum (qry vctrl)))).
Proof.
  intros Ht Hk He Hne Hfirst. unfold control_value. rewrite Ht. cbv zeta.
  set (span := maximum (qry vctrl) - minimum (qry vctrl)) in *.
  pose proof (find_choice_spec (Z.to_nat (span + 1)) 0 (ds vctrl)
                (Tcl_GetString value)) as H.
  destruct (find_choice (Z.to_nat (span + 1)) 0 (ds vctrl)
                        (Tcl_GetString value)) as [j|].
  - destruct H as (H1 & H2 & _ & H4).
    assert (j = k) as ->; [|reflexivity].
    destruct (Z.lt_trichotomy j k) as [Hlt|[E|Hgt]]; [|exact E|].
    + exfalso. apply (Hfirst j); [lia | exact H2].
    + exfalso. destruct (H4 k ltac:(lia)) as [Hn|Hn]; contradiction.
  - exfalso. destruct (H k ltac:(lia)) as [Hn|Hn]; contradiction.
Qed.

(** C5.  The pairs are applied in the order given.  A pair that is
    passed over (unknown name, read-only or inactive control, value that
    is not an integer or wide integer where one is needed, value that is
    none of the labels of a menu of the kernel) changes nothing, asks
    nothing of the device and raises no error: what the pairs before it
    did stays, and the pairs after it are applied as if it were not
    there.  The frame size, although a menu, is not looked up among its
    choices: a value of two positive numbers is taken as width and height
    on a session that does not capture, whether it is one of the choices
    or not, and any other value is passed over; the device is not asked.
    A value for a control of the kernel is handed to the device, and when
    the device takes it the pairs after it are applied to what it left;
    the value is the integer for an integer or boolean control, and for a
    menu the index of the first choice that is the label. *)
Theorem skipped_pair_is_noop
    (pre rest : list (Tcl_Obj * Tcl_Obj)) (key value : Tcl_Obj)
    (m m1 : Machine) (res : Result) :
  SetControls (objv_of pre) m = ((TCL_OK, res), m1) ->
  let whole := SetControls (objv_of (pre ++ (key, value) :: rest)) m in
  (Skipped (session _ m1) key value ->
   set_control key value m1 = (None, m1)
   /\ SetControls (objv_of (pre ++ [(key, value)])) m
      = ((TCL_OK, ResUnset), m1)
   /\ whole = SetControls (objv_of rest) m1
   /\ whole = SetControls (objv_of (pre ++ rest)) m)
  /\ (nctrl (session _ m1) !! Tcl_GetString key = Some P_fsize ->
      unlocked (fsize (session _ m1)) ->
      exists s',
        set_control key value m1
        = (None, {| session := s'; world := world _ m1;
                    trace := trace _ m1 |})
        /\ whole
           = SetControls (objv_of rest)
               {| session := s'; world := world _ m1; trace := trace _ m1 |}
        /\ match sscanf_size (Tcl_GetString value) with
           | Some (w, h) =>
               if (0 <? w) && (0 <? h) && (running (session _ m1) <=? 0)
               then width s' = w /\ height s' = h
                    /\ running s' = running (session _ m1)
                    /\ fsize s' = fsize (session _ m1)
               else s' = session _ m1
           | None => s' = session _ m1
           end)
  /\ (forall (a : Z) (vctrl : VCTRL) (xc : v4l2_ext_control),
        nctrl (session _ m1) !! Tcl_GetString key = Some (P_alloc a) ->
        deref (session _ m1) (P_alloc a) = Some vctrl ->
        unlocked vctrl ->
        control_value vctrl value = Some xc ->
        let request := write_request vctrl xc in
        let written := {| session := session _ m1;
                          world := (sys (world _ m1) request).2;
                          trace := trace _ m1 ++ [request] |} in
        (exists t, trace _ (set_control key value m1).2
                   = trace _ m1 ++ request :: t)
        /\ (0 <= ret (sys (world _ m1) request).1 ->
            set_control key value m1 = (None, written)
            /\ whole = SetControls (objv_of rest) written))
  /\ (forall (vctrl : VCTRL) (v : Z),
        type (qry vctrl) = V4L2_CTRL_TYPE_INTEGER
        \/ type (qry vctrl) = V4L2_CTRL_TYPE_BOOLEAN ->
        Tcl_GetIntFromObj value = Some v ->
        control_value vctrl value = Some (value32 v))
  /\ (forall (vctrl : VCTRL) (k : Z),
        type (qry vctrl) = V4L2_CTRL_TYPE_MENU ->
        0 <= k <= maximum (qry vctrl) - minimum (qry vctrl) ->
        GetZZString (ds vctrl) k = Tcl_GetString value ->
        Tcl_GetString value <> EmptyString ->
        (forall j, 0 <= j < k ->
                   GetZZString (ds vctrl) j <> Tcl_GetString value) ->
        control_value vctrl value
        = Some (value32 (to_int (k + minimum (qry vctrl))))).
Proof.
  intros Hpre whole.
  assert (Hwhole : whole
            = match set_control key value m1 with
              | (None, m2) => SetControls (objv_of rest) m2
              | (Some e, m2) => ((TCL_ERROR, e), m2)
              end).
  { subst whole. rewrite SetControls_app, Hpre.
    cbn [objv_of flat_map fst snd app].
    change (flat_map _ ?l) with (objv_of l).
    rewrite SetControls_cons.
    destruct (set_control key value m1) as [[e|] m2]; reflexivity. }
  split; [|split; [|split; [|split]]].
  - intros Hskip.
    pose proof (set_control_skipped key value m1 Hskip)
      as Hs.
    split; [exact Hs|]. rewrite Hwhole, Hs.
    rewrite !SetControls_app, Hpre.
    cbn [objv_of flat_map fst snd app].
    change (flat_map _ ?l) with (objv_of l).
    rewrite !SetControls_cons, Hs. repeat split; reflexivity.
  - intros Hn Hu.
    destruct (set_control_frame_size key value m1 Hn Hu) as (s' & Hs & Hm).
    exists s'. rewrite Hwhole, Hs. auto.
  - intros a vctrl xc Hn Hd Hu Hc request written.
    destruct (set_control_written key value a vctrl xc m1 Hn Hd Hu Hc)
      as [H1 H2].
    split; [exact H1|]. intros Hok. specialize (H2 Hok).
    fold request in H2. fold written in H2.
    rewrite Hwhole, H2. auto.
  - intros vctrl v. apply control_value_integer.
  - intros vctrl k. apply control_value_choice.
Qed.

(** C4.  A write of an integer [v] to the frame-rate control
    stores [v] as the session's frame rate when [0 < v < 200] and is
    passed over otherwise (the stored rate stays what it was: nothing is
    clamped to a bound); either way no request goes to the device and no
    other field of the session changes.  So a stored rate within 1..200
    stays within 1..200. *)
Theorem frame_rate_write (m : Machine) (key value : Tcl_Obj) (v : Z) :
  nctrl (session _ m) !! Tcl_GetString key = Some P_frate ->
  frate (session _ m) = frame_rate_control ->
  Tcl_GetIntFromObj value = Some v ->
  let s' := if (0 <? v) && (v <? 200) then set_fps v (session _ m)
            else session _ m in
  SetControls [key; value] m
  = ((TCL_OK, ResUnset),
     {| session := s'; world := world _ m; trace := trace _ m |})
  /\ (0 < v < 200 -> fps s' = v)
  /\ (v <= 0 \/ 200 <= v -> s' = session _ m)
  /\ (1 <= fps (session _ m) <= 200 -> 1 <= fps s' <= 200).
Proof.
  intros Hn Hf Hv s'. subst s'. split.
  - rewrite SetControls_cons. unfold Engine.set_control. rewrite get_bind.
    rewrite Hn. cbn [deref]. rewrite Hf. cbn [frame_rate_control qry flags].
    cbn [Z.land Z.eqb negb orb].
    unfold Engine.set_frame_rate_control. rewrite Hv. munfold.
    destruct ((0 <? v) && (v <? 200)); cbn; rewrite ?machine_eta;
      reflexivity.
  - destruct (Z.ltb_spec 0 v), (Z.ltb_spec v 200); cbn [andb];
      repeat split; intros; try reflexivity; try lia; cbn; lia.
Qed.

(** *** StartCapture: the buffer pool *)

Lemma start_failed_result (res : Result) (m : Machine) :
  (start_failed res m).1 = (TCL_ERROR, res)
  /\ running (session _ (start_failed res m).2) = -1
  /\ trace _ (start_failed res m).2 = trace _ m.
Proof. unfold Engine.start_failed. munfold. cbn. auto. Qed.

Lemma unmapAll_result (count : Z) (res : Result) (m : Machine) :
  (unmapAll count res m).1 = (TCL_ERROR, res)
  /\ running (session _ (unmapAll count res m).2) = -1.
Proof.
  unfold Engine.unmapAll. munfold.
  destruct (munmap_up _ _ m) as [[] m1].
  destruct (start_failed_result res m1) as (H1 & H2 & _). auto.
Qed.

(** Unrolls the loop of [request_buffers]: the passes for 2, 4 and 8 are
    made, the pass for 16 is not. *)
Ltac unroll_requests :=
  unfold Engine.request_buffers; cbn [Engine.request_loop];
  change (2 * 2) with 4; change (4 * 2) with 8; change (8 * 2) with 16;
  change (2 <? 16) with true; change (4 <? 16) with true;
  change (8 <? 16) with true; change (16 <? 16) with false;
  cbv iota.

(** [request_buffers] never runs out of passes. *)
Lemma request_buffers_finishes (m : Machine) :
  (request_buffers m).1 <> ReqUnfinished.
Proof.
  unroll_requests. munfold.
  sys_step. destruct (ret rep <? 0); [discriminate|].
  destruct ((out1 rep <=? 0) || (16 <? out1 rep)); [|discriminate].
  sys_step. destruct (ret rep0 <? 0); [discriminate|].
  destruct ((out1 rep0 <=? 0) || (16 <? out1 rep0)); [|discriminate].
  sys_step. destruct (ret rep1 <? 0); [discriminate|].
  destruct ((out1 rep1 <=? 0) || (16 <? out1 rep1)); discriminate.
Qed.

(** X1.  Whatever the device answers, the counts asked for are 2, then 4,
    then 8: a pool of 16 buffers is never asked for (it can only be
    granted by a driver that writes back a larger count than was asked
    for). *)
Theorem request_counts_stop_at_eight (m : Machine) :
  exists l : list Z,
    trace _ (request_buffers m).2 = trace _ m ++ map VIDIOC_REQBUFS l
    /\ In l [[2]; [2; 4]; [2; 4; 8]].
Proof.
  unroll_requests. munfold.
  sys_step. destruct (ret rep <? 0);
    [exists [2]; split; [reflexivity | cbn; tauto]|].
  destruct ((out1 rep <=? 0) || (16 <? out1 rep));
    [|exists [2]; split; [reflexivity | cbn; tauto]].
  sys_step. destruct (ret rep0 <? 0);
    [exists [2; 4]; rewrite <- app_assoc; split; [reflexivity | cbn; tauto]|].
  destruct ((out1 rep0 <=? 0) || (16 <? out1 rep0));
    [|exists [2; 4]; rewrite <- app_assoc; split; [reflexivity | cbn; tauto]].
  sys_step. exists [2; 4; 8].
  destruct (ret rep1 <? 0);
    [|destruct ((out1 rep1 <=? 0) || (16 <? out1 rep1))];
    msimpl; rewrite <- !app_assoc; split; try reflexivity; cbn; tauto.
Qed.

Abbreviation doubling := (doubling World sys).
Abbreviation before_buffers := (before_buffers World sys).

Lemma capture_started_result (fmt : pix_format) (m : Machine) :
  (capture_started World sys fmt m).1 = (TCL_OK, ResUnset)
  /\ nvbufs (session _ (capture_started World sys fmt m).2)
     = nvbufs (session _ m)
  /\ running (session _ (capture_started World sys fmt m).2) = 1.
Proof.
  unfold Engine.capture_started. munfold. sys_step. cbn. auto.
Qed.

(** What [start_buffers] does with a count that was accepted: a failure
    later on is an error; otherwise the count is the size of the pool and
    the session is capturing. *)
Lemma pool_of_count (fmt : pix_format) (count : Z) (m : Machine) :
  let r := start_pool World sys fmt count m in
  (r.1.1 = TCL_ERROR /\ running (session _ r.2) = -1)
  \/ (r.1.1 = TCL_OK /\ nvbufs (session _ r.2) = count
      /\ running (session _ r.2) = 1).
Proof.
  intros r. subst r. unfold Engine.start_pool. munfold.
  destruct (map_buffers _ _ m) as [[| |] m1].
  - destruct (queue_buffers _ _ m1) as [[|] m2]; cbn [negb].
    + sys_step. destruct (ret rep <? 0).
      * left. match goal with
              | |- context [unmapAll ?c ?r ?m0] =>
                  destruct (unmapAll_result c r m0) as [-> ->]
              end. auto.
      * right. match goal with
               | |- context [capture_started _ _ ?f ?m0] =>
                   destruct (capture_started_result f m0) as (-> & -> & ->)
               end. auto.
    + left. destruct (unmapAll_result count
                        (ResPosix "error querying buffer") m2) as [-> ->].
      auto.
  - left. destruct (start_failed_result
                      (ResPosix "error querying buffer") m1) as (-> & -> & _).
    auto.
  - left. destruct (start_failed_result
                      (ResPosix "error mapping buffer") m1) as (-> & -> & _).
    auto.
Qed.

Lemma in_pool_range_bounds (count : Z) :
  in_pool_range count = true -> 1 <= count <= 16.
Proof. unfold in_pool_range. lia. Qed.

Ltac decided :=
  msimpl; rewrite <- ?app_assoc; cbn [map app orb negb fst snd];
  repeat match goal with
         | H : (_ <? _) = _ |- _ => rewrite H; clear H
         | H : (_ || _) = _ |- _ => rewrite H; clear H
         end;
  cbn [map app orb negb fst snd]; repeat split; try reflexivity.

(** The loop of [request_buffers] is the doubling over 2, 4 and 8: it asks
    for the same counts and ends with the decisive answer, or with a
    count that is not accepted. *)
Lemma request_buffers_doubling (m : Machine) :
  let n := doubling [2; 4; 8] (world _ m) in
  trace _ (request_buffers m).2 = trace _ m ++ map VIDIOC_REQBUFS n.1
  /\ session _ (request_buffers m).2 = session _ m
  /\ match n.2 with
     | Some a =>
         (request_buffers m).1
         = if ret a <? 0 then ReqFailed else ReqCount (out1 a)
     | None =>
         exists count, (request_buffers m).1 = ReqCount count
                       /\ in_pool_range count = false
     end.
Proof.
  cbv zeta. unroll_requests. cbn [Engine.doubling]. munfold.
  unfold decisive, in_pool_range.
  sys_step. destruct (ret rep <? 0) eqn:R2; [decided|].
  destruct ((out1 rep <=? 0) || (16 <? out1 rep)) eqn:C2; [|decided].
  cbn [orb negb].
  sys_step. destruct (ret rep0 <? 0) eqn:R4; [decided|].
  destruct ((out1 rep0 <=? 0) || (16 <? out1 rep0)) eqn:C4; [|decided].
  cbn [orb negb].
  sys_step. destruct (ret rep1 <? 0) eqn:R8; [decided|].
  destruct ((out1 rep1 <=? 0) || (16 <? out1 rep1)) eqn:C8; [|decided].
  pose proof C8 as C8'. decided. exists (out1 rep1). rewrite C8'.
  split; reflexivity.
Qed.

(** The decisive answer of a doubling is decisive. *)
Lemma doubling_decisive (counts : list Z) (w : World) (a : Reply) :
  (doubling counts w).2 = Some a -> decisive a = true.
Proof.
  revert w. induction counts as [|i counts IH]; intros w; [discriminate|].
  cbn [Engine.doubling]. destruct (sys w (VIDIOC_REQBUFS i)) as [b w'].
  destruct (decisive b) eqn:D.
  - cbn. intros E. injection E as <-. exact D.
  - specialize (IH w'). destruct (doubling counts w') as [l d]. exact IH.
Qed.

(** The counts asked for are the first of the candidates. *)
Lemma doubling_prefix (counts : list Z) (w : World) :
  exists rest, counts = (doubling counts w).1 ++ rest.
Proof.
  revert w. induction counts as [|i counts IH]; intros w;
    [exists []; reflexivity|].
  cbn [Engine.doubling]. destruct (sys w (VIDIOC_REQBUFS i)) as [b w'].
  destruct (decisive b); [exists counts; reflexivity|].
  destruct (IH w') as [rest E]. destruct (doubling counts w') as [l d].
  cbn [fst] in *. exists rest. rewrite E at 1. reflexivity.
Qed.

Lemma start_buffers_doubling (fmt : pix_format) (m : Machine) :
  let r := start_buffers World sys fmt m in
  match (doubling [2; 4; 8] (world _ m)).2 with
  | Some a =>
      if ret a <? 0 then
        r.1 = (TCL_ERROR, ResPosix "error requesting buffers")
        /\ running (session _ r.2) = -1
      else
        1 <= out1 a <= 16
        /\ (r.1.1 = TCL_OK ->
            nvbufs (session _ r.2) = out1 a
            /\ running (session _ r.2) = 1)
  | None =>
      r.1 = (TCL_ERROR, ResString "unable to get buffers")
      /\ running (session _ r.2) = -1
  end.
Proof.
  intros r. subst r. unfold Engine.start_buffers.
  destruct (request_buffers_doubling m) as (_ & _ & Hreq).
  pose proof (doubling_decisive [2; 4; 8] (world _ m)) as Hdec.
  unfold mbind, M_bind.
  destruct (request_buffers m) as [req m1]. cbn [fst] in Hreq.
  assert (Hfail : forall res,
             (start_failed res m1).1 = (TCL_ERROR, res)
             /\ running (session _ (start_failed res m1).2) = -1).
  { intros res.
    destruct (start_failed_result res m1) as (? & ? & _). auto. }
  destruct (doubling [2; 4; 8] (world _ m)) as [l [a|]]; cbn [snd] in *.
  - specialize (Hdec a eq_refl). unfold decisive in Hdec. subst req.
    destruct (ret a <? 0) eqn:R; [apply Hfail|].
    cbn [orb] in Hdec.
    split; [apply in_pool_range_bounds; exact Hdec|].
    unfold in_pool_range in Hdec.
    destruct ((out1 a <=? 0) || (16 <? out1 a)); [discriminate|].
    intros Hok.
    destruct (pool_of_count fmt (out1 a) m1)
      as [[E _]|(_ & E1 & E2)].
    + cbv zeta in E. rewrite E in Hok. discriminate.
    + auto.
  - destruct Hreq as (count & -> & Hc). unfold in_pool_range in Hc.
    destruct ((count <=? 0) || (16 <? count)); [apply Hfail | discriminate].
Qed.

Lemma StartCapture_buffers (m m1 : Machine) (fmt : pix_format) :
  running (session _ m) <= 0 ->
  negotiate_format m = (GotFormat fmt, m1) ->
  StartCapture m = start_buffers World sys fmt (before_buffers fmt m1).2.
Proof.
  intros Hrun Hfmt. unfold Engine.StartCapture, Engine.before_buffers.
  rewrite get_bind.
  destruct (Z.ltb_spec 0 (running (session _ m))); [lia|].
  unfold mbind, M_bind. rewrite Hfmt. unfold Engine.modify.
  match goal with
  | |- context [set_frame_rate ?m0] => destruct (set_frame_rate m0) as [[] m3]
  end.
  reflexivity.
Qed.

(** C2.  On a session that is not capturing, once a format is set, the
    pool is negotiated by asking for 2 buffers and doubling while the
    kernel writes back a count outside of 1..16, as long as the count to
    ask for is below 16: the requests are those of the doubling over 2, 4
    and 8, whatever the device.  The first count within 1..16 that comes
    back is the size of the pool when the start succeeds (the session is
    then capturing); when none of the three requests is granted, or a
    request fails, the start fails with an error and the session is in
    the error state.  A pool of 16 is never asked for. *)
Theorem buffer_pool_negotiation (m m1 : Machine) (fmt : pix_format) :
  running (session _ m) <= 0 ->
  negotiate_format m = (GotFormat fmt, m1) ->
  let r := StartCapture m in
  let device := world _ (before_buffers fmt m1).2 in
  match (doubling [2; 4; 8] device).2 with
  | Some a =>
      if ret a <? 0 then
        r.1 = (TCL_ERROR, ResPosix "error requesting buffers")
        /\ state_of (session _ r.2) = Error
      else
        1 <= out1 a <= 16
        /\ (r.1.1 = TCL_OK ->
            nvbufs (session _ r.2) = out1 a
            /\ state_of (session _ r.2) = Capturing)
  | None =>
      r.1 = (TCL_ERROR, ResString "unable to get buffers")
      /\ state_of (session _ r.2) = Error
  end
  /\ (forall m' : Machine,
        trace _ (request_buffers m').2
        = trace _ m' ++ map VIDIOC_REQBUFS (doubling [2; 4; 8] (world _ m')).1)
  /\ (forall w : World,
        exists rest, [2; 4; 8] = (doubling [2; 4; 8] w).1 ++ rest).
Proof.
  intros Hrun Hfmt r device.
  split; [|split; [intros m'; apply request_buffers_doubling
                  | apply doubling_prefix]].
  subst r. rewrite (StartCapture_buffers m m1 fmt Hrun Hfmt).
  pose proof (start_buffers_doubling fmt (before_buffers fmt m1).2) as H.
  cbv zeta in H. fold device in H.
  assert (Herr : forall s : V4L2C, running s = -1 -> state_of s = Error).
  { intros s E. unfold state_of. rewrite E. reflexivity. }
  assert (Hcap : forall s : V4L2C, running s = 1 -> state_of s = Capturing).
  { intros s E. unfold state_of. rewrite E. reflexivity. }
  destruct (doubling [2; 4; 8] device).2 as [a|].
  - destruct (ret a <? 0).
    + destruct H as [H1 H2]. auto.
    + destruct H as [H1 H2]. split; [exact H1|].
      intros Hok. destruct (H2 Hok). auto.
  - destruct H as [H1 H2]. auto.
Qed.

(** *** The orientation sub-command *)

(** C8.  The orientation sub-command stores [snap degrees] and nothing
    else: one of 0, 90, 180 and 270.  The reduction is C's remainder,
    which keeps the sign of its argument: for a non-negative argument the
    stored rotation is that of the sector of the angle modulo 360, but for
    every negative argument it is 0.  At -90 the stored rotation is 0,
    where the equivalent angle 270 of [0,360) has the rotation 270. *)
Theorem orientation_snap (m : Machine) (degrees : Z) :
  (forall obj : Tcl_Obj,
      Tcl_GetIntFromObj obj = Some degrees ->
      Orientation (Some obj) m
      = ((TCL_OK, ResUnset),
         {| session := set_rotate (Orient.snap degrees) (session _ m);
            world := world _ m; trace := trace _ m |}))
  /\ In (Orient.snap degrees) [0; 90; 180; 270]
  /\ (0 <= degrees -> Orient.snap degrees = Orient.sector (degrees mod 360))
  /\ (degrees < 0 -> Orient.snap degrees = 0)
  /\ Orient.snap (-90) = 0
  /\ Orient.sector ((-90) mod 360) = 270
  /\ Orient.snap 270 = 270.
Proof.
  split; [|split; [|split; [|split]]].
  - intros obj E. unfold Engine.Orientation. rewrite E. reflexivity.
  - destruct (OrientFacts.snap_values degrees) as [H|[H|[H|H]]];
      rewrite H; cbn [In]; tauto.
  - apply OrientFacts.snap_nonneg.
  - apply OrientFacts.snap_negative.
  - repeat split; reflexivity.
Qed.

End Facts.

End EngineFacts.

(** ** Blocks of pixels handed to Tk *)

Module PhotoFacts.
Import Engine Photo.

Lemma land3_cases (m : Z) :
  Z.land m 3 = 0 \/ Z.land m 3 = 1 \/ Z.land m 3 = 2 \/ Z.land m 3 = 3.
Proof.
  assert (E : Z.land m 3 = m mod 4) by (apply (Z.land_ones m 2); lia).
  rewrite E. pose proof (Z.mod_pos_bound m 4 ltac:(lia)). lia.
Qed.

(** The size of the block that [transform] makes. *)
Lemma transform_size (rot mirror w h ps : Z) :
  let g := transform rot mirror w h (plain w h ps) in
  (g_width g, g_height g) = shown_size rot mirror w h.
Proof.
  unfold transform, shown_size, turn, plain.
  destruct (land3_cases mirror) as [E|[E|[E|E]]]; rewrite E; cbn [Z.eqb];
    set (r := if false then _ else rot) || set (r := Z.rem (rot + 180) 360)
    || idtac;
    repeat match goal with
           | |- context [?a =? ?b] =>
               destruct (Z.eqb_spec a b); try lia; cbn [orb]
           end; reflexivity.
Qed.

Ltac split_tests :=
  repeat match goal with
         | |- context [?a =? ?b] =>
             destruct (Z.eqb_spec a b); try lia; cbn [orb]
         end.

Ltac literal_tests :=
  repeat match goal with
         | |- context [Z.pos ?p =? Z.pos ?q] =>
             let v := eval vm_compute in (Z.pos p =? Z.pos q) in
             change (Z.pos p =? Z.pos q) with v
         | |- context [0 =? Z.pos ?q] => change (0 =? Z.pos q) with false
         end;
  cbv iota.

Lemma transform_pixel (rot mirror w h ps x y : Z) :
  let g := transform rot mirror w h (plain w h ps) in
  0 <= x < g_width g -> 0 <= y < g_height g ->
  pixel_at g x y
  = ps * ((shown rot mirror w h x y).2 * w + (shown rot mirror w h x y).1)
  /\ 0 <= (shown rot mirror w h x y).1 < w
  /\ 0 <= (shown rot mirror w h x y).2 < h.
Proof.
  unfold transform, shown, shown_size, turned, turn, plain, pixel_at.
  destruct (land3_cases mirror) as [E|[E|[E|E]]]; rewrite E; literal_tests;
    cbv zeta.
  all: try set (rr := Z.rem (rot + 180) 360).
  all: split_tests; cbn [g_ptr g_width g_height g_pitch g_pixelSize orb fst snd];
    intros Hx Hy; (split; [ring | lia]).
Qed.

(** X2.  The block that [GetImage] and [DataToPhoto] hand to Tk, made
    from a frame of [w] by [h] pixels of [ps] bytes, has the size
    [shown_size] (width and height exchanged for a quarter turn), and the
    pixel Tk reads at column [x] and row [y] of it is the pixel of the
    frame in column [c] and row [r] given by [shown]: its address is
    [ps * (r * w + c)], with [c] and [r] inside the frame.  Both mirror
    flags together are a half turn; a rotation that is none of 90, 180 and
    270 leaves the frame as it is. *)
Theorem transform_shows (rot mirror w h ps x y : Z) :
  let g := transform rot mirror w h (plain w h ps) in
  0 <= x < g_width g -> 0 <= y < g_height g ->
  let '(c, r) := shown rot mirror w h x y in
  (g_width g, g_height g) = shown_size rot mirror w h
  /\ pixel_at g x y = ps * (r * w + c) /\ 0 <= c < w /\ 0 <= r < h.
Proof.
  intros g Hx Hy.
  pose proof (transform_pixel rot mirror w h ps x y Hx Hy) as H.
  pose proof (transform_size rot mirror w h ps) as Hs.
  destruct (shown rot mirror w h x y) as [c r]. cbn [fst snd] in H.
  split; [exact Hs | exact H].
Qed.

Lemma to_int_small (x : Z) : - 2 ^ 31 <= x < 2 ^ 31 -> to_int x = x.
Proof. intros H. unfold to_int. rewrite Z.mod_small; lia. Qed.

(** X3.  [DataToPhoto] refuses the data ("unsupported data format")
    exactly when the byte array is shorter than [width * height * bpp] or
    [bpp] is neither 1 nor 3 (for a positive size whose product fits an
    [int]).  Otherwise the block it puts into the photo image has as many
    pixels as the data, and every byte of every pixel that Tk reads from
    it lies inside the byte array, whatever the rotation and the
    mirroring. *)
Theorem DataToPhoto_block_reads
    (width height bpp rot : Z) (mirx miry : bool) (length : Z) :
  0 < width -> 0 < height -> width * height * bpp < 2 ^ 31 ->
  match DataToPhoto_block width height bpp rot mirx miry length with
  | None => length < width * height * bpp \/ (bpp <> 1 /\ bpp <> 3)
  | Some g =>
      (bpp = 1 \/ bpp = 3) /\ width * height * bpp <= length
      /\ g_width g * g_height g = width * height
      /\ forall x y o : Z,
          0 <= x < g_width g -> 0 <= y < g_height g -> 0 <= o < bpp ->
          0 <= pixel_at g x y + o < length
  end.
Proof.
  intros Hw Hh Hsmall. unfold DataToPhoto_block.
  destruct (Z.eqb_spec bpp 1) as [E1|E1]; destruct (Z.eqb_spec bpp 3) as [E3|E3];
    try lia; cbn [negb andb]; rewrite ?orb_false_r, ?orb_true_r;
    [| |right; split; assumption];
    (rewrite to_int_small by nia;
     destruct (Z.ltb_spec length (width * height * bpp)) as [Hl|Hl];
     [left; exact Hl|]);
    (split; [lia|]; split; [exact Hl|]);
    replace (width * bpp) with (bpp * width) by ring;
    change {| g_ptr := 0; g_width := width; g_height := height;
              g_pitch := bpp * width; g_pixelSize := bpp |}
      with (plain width height bpp);
    set (mirror := mirror_flags mirx miry); set (r := Orient.snap rot);
    (split;
     [pose proof (transform_size r mirror width height bpp) as Hs;
      cbv zeta in Hs; unfold shown_size in Hs;
      destruct ((turn r mirror =? 270) || (turn r mirror =? 90));
      injection Hs as -> ->; ring
     |intros x y o Hx Hy Ho;
      destruct (transform_pixel r mirror width height bpp x y Hx Hy)
        as (Hp & Hc & Hr);
      rewrite Hp; nia]).
Qed.

End PhotoFacts.

(** ** Bytes and grey values *)

Module PixelsFacts.
Import Convert Pixels.

(** *** mbcopy *)

Lemma merge_pass_length (n : nat) (mask : Z) (i : nat) (dst src : list Z) :
  List.length (merge_pass n mask i dst src) = List.length dst.
Proof.
  revert i dst. induction n as [|n IH]; intros i dst; [reflexivity|].
  cbn [merge_pass]. rewrite IH. apply length_insert.
Qed.

(** The byte [j] after [n] passes from [i]: merged when [j] is one of
    [i], [i + 3], ..., [i + 3 (n - 1)] and lies in the array. *)
Lemma merge_pass_nth (n : nat) (mask : Z) (i : nat) (dst src : list Z)
    (j : nat) :
  nth j (merge_pass n mask i dst src) 0
  = if decide ((i <= j)%nat /\ ((j - i) mod 3 = 0)%nat
               /\ ((j - i) / 3 < n)%nat /\ (j < List.length dst)%nat)
    then merge_byte mask (nth j dst 0) (nth j src 0)
    else nth j dst 0.
Proof.
  revert i dst. induction n as [|n IH]; intros i dst.
  - cbn [merge_pass]. destruct (decide _) as [H|_]; [lia|reflexivity].
  - cbn [merge_pass]. rewrite IH. rewrite length_insert.
    destruct (Nat.eq_dec i j) as [->|Hij].
    + (* the byte written by this pass; later passes start above it *)
      destruct (decide _) as [H|_]; [lia|].
      destruct (decide _) as [H|H].
      * rewrite !nth_lookup, list_lookup_insert_eq by lia. reflexivity.
      * assert (List.length dst <= j)%nat.
        { destruct (Nat.lt_ge_cases j (List.length dst)) as [Hl|Hl]; [|exact Hl].
          exfalso. apply H. rewrite Nat.sub_diag. cbn. repeat split; lia. }
        rewrite list_insert_ge by lia. reflexivity.
    + assert (Hn : nth j (<[i:=merge_byte mask (nth i dst 0) (nth i src 0)]> dst) 0
                   = nth j dst 0)
        by (rewrite !nth_lookup, list_lookup_insert_ne by exact Hij; reflexivity).
      rewrite Hn.
      destruct (decide _) as [(H1 & H2 & H3 & H4)|H];
        destruct (decide _) as [(G1 & G2 & G3 & G4)|G]; try reflexivity;
        exfalso.
      * apply G. 
        assert (j - i = 3 + (j - (i + 3)))%nat as E by lia.
        rewrite E. replace (3 + (j - (i + 3)))%nat with ((j - (i + 3)) + 1 * 3)%nat by lia.
        rewrite Nat.Div0.mod_add, Nat.div_add by lia. repeat split; lia.
      * apply H.
        assert (j - i <> 0)%nat by lia.
        assert (3 <= j - i)%nat.
        { pose proof (Nat.div_mod_eq (j - i) 3). lia. }
        assert (j - i = (j - (i + 3)) + 1 * 3)%nat as E by lia.
        rewrite E in G2, G3. rewrite Nat.Div0.mod_add in G2.
        rewrite Nat.div_add in G3 by lia. repeat split; lia.
Qed.

Lemma merge_byte_testbit (mask d s b : Z) :
  0 <= b < 8 ->
  Z.testbit (merge_byte mask d s) b
  = if Z.testbit mask b then Z.testbit s b else Z.testbit d b.
Proof.
  intros Hb. unfold merge_byte. change 256 with (2 ^ 8).
  rewrite Z.mod_pow2_bits_low by lia.
  rewrite Z.lor_spec, !Z.land_spec, Z.lnot_spec by lia.
  destruct (Z.testbit mask b), (Z.testbit s b), (Z.testbit d b); reflexivity.
Qed.

Lemma channel_mask_testbit (mask0 shift b : Z) :
  0 <= shift -> 0 <= b < 8 ->
  Z.testbit (channel_mask mask0 shift) b = Z.testbit mask0 (shift + b).
Proof.
  intros Hs Hb. unfold channel_mask. change 255 with (Z.ones 8).
  rewrite Z.land_spec, Z.shiftr_spec, Z.ones_spec_low by lia.
  rewrite andb_true_r. f_equal. lia.
Qed.

Lemma channel_mask_zero (mask0 shift b : Z) :
  0 <= shift -> 0 <= b < 8 -> channel_mask mask0 shift = 0 ->
  Z.testbit mask0 (shift + b) = false.
Proof.
  intros Hs Hb E. rewrite <- channel_mask_testbit, E by lia.
  apply Z.bits_0.
Qed.

Lemma merge_channel_length (mask0 shift : Z) (first : nat) (dst src : list Z) :
  List.length (merge_channel mask0 shift first dst src) = List.length dst.
Proof.
  unfold merge_channel. destruct (_ =? 0); [reflexivity|].
  apply merge_pass_length.
Qed.

(** One channel's loop, bit by bit. *)
Lemma merge_channel_testbit (mask0 shift : Z) (first : nat)
    (dst src : list Z) (j : nat) (b : Z) :
  0 <= shift -> (first < 3)%nat -> 0 <= b < 8 ->
  List.length src = List.length dst -> (j < List.length dst)%nat ->
  Z.testbit (nth j (merge_channel mask0 shift first dst src) 0) b
  = if (j mod 3 =? first)%nat && Z.testbit mask0 (shift + b)
    then Z.testbit (nth j src 0) b
    else Z.testbit (nth j dst 0) b.
Proof.
  intros Hs Hf Hb Hlen Hj. unfold merge_channel.
  destruct (Z.eqb_spec (channel_mask mask0 shift) 0) as [E|E].
  - rewrite (channel_mask_zero mask0 shift b Hs Hb E), andb_false_r.
    reflexivity.
  - rewrite merge_pass_nth.
    destruct (Nat.eqb_spec (j mod 3) first) as [Hm|Hm]; cbn [andb].
    + destruct (decide _) as [_|H].
      * rewrite merge_byte_testbit, channel_mask_testbit by lia. reflexivity.
      * exfalso. apply H.
        pose proof (Nat.div_mod_eq j 3) as Hd.
        assert (Hq : (j - first = (j / 3) * 3)%nat) by lia.
        repeat split; try lia.
        -- rewrite Hq. apply Nat.Div0.mod_mul.
        -- rewrite Hq, Nat.div_mul by lia. unfold passes.
           apply Nat2Z.inj_lt. rewrite Z2Nat.id.
           ++ apply Z.lt_le_trans with (Z.of_nat (j / 3) + 1); [lia|].
              apply Z.div_le_lower_bound; lia.
           ++ apply Z.div_pos; lia.
    + destruct (decide _) as [(H1 & H2 & _)|_]; [|reflexivity].
      exfalso. apply Hm.
      pose proof (Nat.div_mod_eq (j - first) 3) as Hd.
      assert (j = first + (j - first) / 3 * 3)%nat as -> by lia.
      rewrite Nat.Div0.mod_add. apply Nat.mod_small. exact Hf.
Qed.

(** X4.  [CMD_mbcopy] fails ("incompatible bytearrays") exactly when the
    two byte arrays differ in length or the length is no multiple of 3.
    Otherwise the length is kept, and bit [b] of byte [i] of the result is
    that bit of the second array where the mask has the bit
    [8 * (2 - i mod 3) + b] set (bits 16..23 for the first byte of a
    triple, 8..15 for the second, 0..7 for the third), and the bit of the
    first array elsewhere. *)
Theorem mbcopy_bits (mask0 : Z) (dst src : list Z) :
  match mbcopy mask0 dst src with
  | None =>
      List.length src <> List.length dst
      \/ (List.length src mod 3 <> 0)%nat
  | Some r =>
      List.length src = List.length dst
      /\ (List.length src mod 3 = 0)%nat
      /\ List.length r = List.length dst
      /\ forall (i : nat) (b : Z),
          (i < List.length dst)%nat -> 0 <= b < 8 ->
          Z.testbit (nth i r 0) b
          = if Z.testbit mask0 (deciding_bit i b)
            then Z.testbit (nth i src 0) b
            else Z.testbit (nth i dst 0) b
  end.
Proof.
  unfold mbcopy.
  destruct (Z.eqb_spec (Z.of_nat (List.length src)) (Z.of_nat (List.length dst)))
    as [Hlen|Hlen]; cbn [negb orb]; [|left; lia].
  apply Nat2Z.inj in Hlen.
  rewrite Z.rem_mod_nonneg by lia.
  destruct (Z.eqb_spec (Z.of_nat (List.length src) mod 3) 0) as [Hm|Hm];
    cbn [negb].
  2: { right. intros E. apply Hm.
       rewrite <- (Nat2Z.inj_mod _ 3), E. reflexivity. }
  split; [exact Hlen|]. split.
  { apply Nat2Z.inj. rewrite (Nat2Z.inj_mod _ 3). exact Hm. }
  split; [rewrite !merge_channel_length; reflexivity|].
  intros i b Hi Hb.
  rewrite merge_channel_testbit
    by (rewrite ?merge_channel_length; first [lia | exact Hlen | exact Hi]).
  rewrite merge_channel_testbit
    by (rewrite ?merge_channel_length; first [lia | exact Hlen | exact Hi]).
  rewrite merge_channel_testbit by first [lia | exact Hlen | exact Hi].
  unfold deciding_bit.
  pose proof (Nat.mod_upper_bound i 3 ltac:(lia)) as Hu.
  destruct (i mod 3)%nat as [|[|[|k]]] eqn:Ei; [| | |lia];
    cbn [Nat.eqb andb]; cbn [Z.of_nat Pos.of_succ_nat Pos.succ];
    match goal with
    | |- context [Z.testbit mask0 (8 * ?k + b)] =>
        let v := eval cbv in (8 * k) in
        replace (8 * k + b) with (v + b) by lia
    end; destruct (Z.testbit mask0 _); reflexivity.
Qed.

(** *** The grey mask *)

Lemma has_char_app (c : ascii) (s1 s2 : string) :
  has_char c (s1 ++ s2) = has_char c s1 || has_char c s2.
Proof.
  induction s1 as [|a s1 IH]; [reflexivity|].
  change (has_char c (String a s1 ++ s2))
    with (Ascii.eqb c a || has_char c (s1 ++ s2)).
  rewrite IH. apply orb_assoc.
Qed.

Lemma names_app (lower upper : ascii) (s1 s2 : string) :
  names lower upper (s1 ++ s2)
  = names lower upper s1 || names lower upper s2.
Proof.
  unfold names. rewrite !has_char_app.
  destruct (has_char lower s1), (has_char upper s1), (has_char lower s2);
    reflexivity.
Qed.

Lemma grey_mask_names (maskStr : string) :
  grey_mask maskStr
  = let mask := (if names "b" "B" maskStr then 1 else 0)
                + (if names "g" "G" maskStr then 2 else 0)
                + (if names "r" "R" maskStr then 4 else 0) in
    if mask =? 0 then 7 else mask.
Proof.
  unfold grey_mask. fold (names "b" "B" maskStr) (names "g" "G" maskStr)
    (names "r" "R" maskStr).
  destruct (names "b" "B" maskStr), (names "g" "G" maskStr),
    (names "r" "R" maskStr); reflexivity.
Qed.

(** X5.  The channel mask that [CMD_greyimage] makes of its mask argument
    is never 0: bit 0 is set when the argument has a [b] or [B], bit 1 for
    [g] or [G], bit 2 for [r] or [R], and all three are set when it names
    none of them (the empty argument too).  The order of the characters
    does not matter. *)
Theorem grey_mask_never_empty (maskStr : string) :
  1 <= grey_mask maskStr <= 7
  /\ Z.testbit (grey_mask maskStr) 0
     = names "b" "B" maskStr
       || negb (names "g" "G" maskStr || names "r" "R" maskStr)
  /\ Z.testbit (grey_mask maskStr) 1
     = names "g" "G" maskStr
       || negb (names "b" "B" maskStr || names "r" "R" maskStr)
  /\ Z.testbit (grey_mask maskStr) 2
     = names "r" "R" maskStr
       || negb (names "b" "B" maskStr || names "g" "G" maskStr)
  /\ (forall other : string,
        grey_mask (maskStr ++ other) = grey_mask (other ++ maskStr)).
Proof.
  split; [|split; [|split; [|split]]].
  5: { intros other. rewrite !grey_mask_names, !names_app.
       rewrite (orb_comm (names "b" "B" maskStr)),
         (orb_comm (names "g" "G" maskStr)),
         (orb_comm (names "r" "R" maskStr)). reflexivity. }
  all: rewrite grey_mask_names;
    destruct (names "b" "B" maskStr), (names "g" "G" maskStr),
      (names "r" "R" maskStr); cbv; first [reflexivity | split; discriminate].
Qed.

(** *** 16 bit grey samples *)

(** X6.  The byte that [GetImage] makes of a 16 bit grey sample [v]:
    for a positive [greyshift] the low byte of [v >> greyshift], which is
    [v >> greyshift] itself exactly when [v < 2^(greyshift + 8)] (so a
    shift of 8 keeps the high byte of every sample); otherwise the low
    byte of [v << -greyshift].  The shift counts are those below the
    width of an [int]. *)
Theorem grey_sample_exact (greyshift v : Z) :
  0 <= v < 65536 -> -32 < greyshift < 32 ->
  0 <= grey_sample greyshift v < 256
  /\ (0 < greyshift ->
      grey_sample greyshift v = (v / 2 ^ greyshift) mod 256
      /\ (grey_sample greyshift v = v / 2 ^ greyshift
          <-> v < 2 ^ (greyshift + 8)))
  /\ (greyshift <= 0 ->
      grey_sample greyshift v = (v * 2 ^ (- greyshift)) mod 256)
  /\ grey_sample 8 v = v / 256.
Proof.
  intros Hv _. unfold grey_sample. split; [|split; [|split]].
  - destruct (0 <? greyshift); apply Z.mod_pos_bound; lia.
  - intros Hs. destruct (Z.ltb_spec 0 greyshift); [|lia].
    rewrite Z.shiftr_div_pow2 by lia. split; [reflexivity|].
    assert (Hp : 0 < 2 ^ greyshift) by (apply Z.pow_pos_nonneg; lia).
    assert (Hq : 0 <= v / 2 ^ greyshift) by (apply Z.div_pos; lia).
    rewrite Z.pow_add_r by lia. change (2 ^ 8) with 256.
    split.
    + intros E.
      pose proof (Z.mod_pos_bound (v / 2 ^ greyshift) 256 ltac:(lia)) as Hb.
      rewrite E in Hb.
      pose proof (Z.mul_div_le v (2 ^ greyshift) Hp).
      pose proof (Z.mod_pos_bound v (2 ^ greyshift) Hp).
      pose proof (Z.div_mod v (2 ^ greyshift) ltac:(lia)). nia.
    + intros Hlt. apply Z.mod_small. split; [exact Hq|].
      apply Z.div_lt_upper_bound; lia.
  - intros Hs. destruct (Z.ltb_spec 0 greyshift); [lia|].
    rewrite Z.shiftl_mul_pow2 by lia. reflexivity.
  - change (0 <? 8) with true. cbv iota. rewrite Z.shiftr_div_pow2 by lia.
    change (2 ^ 8) with 256. apply Z.mod_small.
    split; [apply Z.div_pos; lia | apply Z.div_lt_upper_bound; lia].
Qed.

(** *** ConvertToGREY *)

Lemma rd_byte (mem : list Z) (i : Z) :
  Forall is_byte mem -> 0 <= rd mem i <= 255.
Proof.
  intros H. unfold rd. destruct (i <? 0); [lia|].
  destruct (Nat.lt_ge_cases (Z.to_nat i) (List.length mem)) as [Hl|Hl].
  - rewrite Forall_forall in H. apply H, list_elem_of_In, nth_In. exact Hl.
  - rewrite nth_overflow by exact Hl. lia.
Qed.

Lemma rgb_to_grey_range (blk : Tk_PhotoImageBlock) (inp : Z) :
  Forall is_byte (pixelPtr blk) -> 16 <= rgb_to_grey blk inp <= 235.
Proof.
  intros H. unfold rgb_to_grey.
  pose proof (rd_byte (pixelPtr blk) (inp + offset0 blk) H).
  pose proof (rd_byte (pixelPtr blk) (inp + offset1 blk) H).
  pose proof (rd_byte (pixelPtr blk) (inp + offset2 blk) H).
  set (r := rd _ _) in *. set (g := rd _ (inp + offset1 blk)) in *.
  set (b := rd _ (inp + offset2 blk)) in *.
  rewrite Z.shiftr_div_pow2 by lia. change (2 ^ 14) with 16384.
  assert (0 <= (4224 * r + 8256 * g + 1600 * b) / 16384 < 220).
  { split; [apply Z.div_pos; lia | apply Z.div_lt_upper_bound; lia]. }
  unfold sat.
  destruct (Z.leb_spec 255 ((4224 * r + 8256 * g + 1600 * b) / 16384 + 16));
    [lia|].
  destruct (Z.ltb_spec ((4224 * r + 8256 * g + 1600 * b) / 16384 + 16) 0); lia.
Qed.

Lemma to_grey_loop_range (n : nat) (blk : Tk_PhotoImageBlock) (inp : Z) :
  Forall is_byte (pixelPtr blk) ->
  List.length (to_grey_loop n blk inp) = n
  /\ Forall (fun v => 16 <= v <= 235) (to_grey_loop n blk inp).
Proof.
  intros H. revert inp. induction n as [|n IH]; intros inp.
  - split; [reflexivity | constructor].
  - cbn [to_grey_loop List.length]. destruct (IH (inp + pixelSize blk)) as [E F].
    split; [rewrite E; reflexivity|].
    constructor; [apply rgb_to_grey_range; exact H | exact F].
Qed.

Lemma to_grey_loop_nth (n : nat) (blk : Tk_PhotoImageBlock) (inp : Z)
    (k : nat) :
  (k < n)%nat ->
  nth k (to_grey_loop n blk inp) 0
  = rgb_to_grey blk (inp + Z.of_nat k * pixelSize blk).
Proof.
  revert inp k. induction n as [|n IH]; intros inp k Hk; [lia|].
  cbn [to_grey_loop]. destruct k as [|k].
  - cbn [nth]. f_equal. lia.
  - cbn [nth]. rewrite IH by lia. f_equal. lia.
Qed.

(** X7.  [ConvertToGREY] gives NULL (allocation apart) exactly when the
    pitch of the block is not [width * pixelSize].  Otherwise it writes
    [width * height] bytes, the byte [k] being the luma of the pixel at
    [k * pixelSize], and for pixel data of bytes every one of them lies in
    the limited range 16..235. *)
Theorem ConvertToGREY_range (blk : Tk_PhotoImageBlock) :
  Forall is_byte (pixelPtr blk) ->
  match ConvertToGREY true blk with
  | None => pitch blk <> width blk * pixelSize blk
  | Some (out, len) =>
      pitch blk = width blk * pixelSize blk
      /\ len = width blk * height blk
      /\ Z.of_nat (List.length out) = Z.max 0 len
      /\ Forall (fun v => 16 <= v <= 235) out
      /\ forall k : nat,
          (k < List.length out)%nat ->
          nth k out 0 = rgb_to_grey blk (Z.of_nat k * pixelSize blk)
  end.
Proof.
  intros H. unfold ConvertToGREY.
  destruct (Z.eqb_spec (pitch blk) (width blk * pixelSize blk)) as [E|E];
    cbn [negb]; [|exact E].
  destruct (to_grey_loop_range (passes (width blk * height blk) 1) blk 0 H)
    as [Hl Hf].
  split; [exact E|]. split; [reflexivity|]. split.
  { rewrite Hl. unfold passes. rewrite Z.div_1_r. lia. }
  split; [exact Hf|].
  intros k Hk. rewrite Hl in Hk. rewrite to_grey_loop_nth by exact Hk.
  f_equal.
Qed.

(** *** Odd numbers of pixels *)

Lemma from_yuv_loop_length (n : nat) (isvu : bool) (mem : list Z) (inp : Z) :
  List.length (from_yuv_loop n isvu mem inp) = (6 * n)%nat.
Proof.
  revert inp. induction n as [|n IH]; intros inp; [reflexivity|].
  cbn [from_yuv_loop]. rewrite length_app, IH. cbn. lia.
Qed.

Lemma to_yuv_loop_length (n : nat) (blk : Tk_PhotoImageBlock) (isvu : bool)
    (inp : Z) :
  List.length (to_yuv_loop n blk isvu inp) = (4 * n)%nat.
Proof.
  revert inp. induction n as [|n IH]; intros inp; [reflexivity|].
  cbn [to_yuv_loop]. rewrite length_app, IH.
  unfold rgb_to_yuv_pair. destruct isvu; cbn; lia.
Qed.

Lemma passes_pairs (n k : Z) :
  0 <= n -> 0 < k ->
  Z.of_nat (passes (n * k) (2 * k)) = (n + 1) / 2.
Proof.
  intros Hn Hk. unfold passes.
  rewrite Z2Nat.id by (apply Z.div_pos; nia).
  replace (n * k + 2 * k - 1) with ((n + 1) * k + (k - 1)) by ring.
  symmetry. apply Z.div_unique with (((n + 1) mod 2) * k + (k - 1)).
  - left. pose proof (Z.mod_pos_bound (n + 1) 2 ltac:(lia)). nia.
  - pose proof (Z.div_mod (n + 1) 2 ltac:(lia)). nia.
Qed.

(** X8.  The loops of [ConvertFromYUV] and [ConvertToYUV] work on pairs
    of pixels until the end of the allocated block is reached or passed.
    For an even number of pixels they write exactly the block
    ([width * height * 3] and [width * height * 2] bytes); for an odd
    number [ConvertFromYUV] writes 3 bytes, and [ConvertToYUV] 2 bytes,
    beyond it, and they read 2 bytes, and one pixel, beyond their
    input. *)
Theorem converters_overrun (width height : Z) (isvu : bool)
    (inp : list Z) (blk : Tk_PhotoImageBlock) :
  0 <= width * height ->
  let n := width * height in
  let odd := if Z.even n then 0 else 1 in
  Z.of_nat (List.length (from_yuv_loop (passes (n * 3) 6) isvu inp 0))
  = n * 3 + 3 * odd
  /\ Z.of_nat (List.length (to_yuv_loop (passes (n * 2) 4) blk isvu 0))
     = n * 2 + 2 * odd
  /\ Z.of_nat (passes (n * 3) 6) * 4 = n * 2 + 2 * odd
  /\ Z.of_nat (passes (n * 2) 4) * 2 = n + odd.
Proof.
  intros Hn n odd.
  rewrite from_yuv_loop_length, to_yuv_loop_length.
  pose proof (passes_pairs n 3 Hn ltac:(lia)) as H3.
  pose proof (passes_pairs n 2 Hn ltac:(lia)) as H2.
  change (2 * 3) with 6 in H3. change (2 * 2) with 4 in H2.
  assert (Hh : 2 * ((n + 1) / 2) = n + odd).
  { subst odd. rewrite Zeven_mod.
    pose proof (Z.div_mod (n + 1) 2 ltac:(lia)).
    pose proof (Z.div_mod n 2 ltac:(lia)).
    pose proof (Z.mod_pos_bound (n + 1) 2 ltac:(lia)).
    pose proof (Z.mod_pos_bound n 2 ltac:(lia)).
    destruct (Z.eqb_spec (n mod 2) 0); lia. }
  lia.
Qed.

(** *** The two byte orderings *)

Lemma from_yuv_loop_shift (n : nat) (isvu : bool) (pre mem : list Z) (k : Z) :
  0 <= k ->
  from_yuv_loop n isvu (pre ++ mem) (Z.of_nat (List.length pre) + k)
  = from_yuv_loop n isvu mem k.
Proof.
  revert k. induction n as [|n IH]; intros k Hk; [reflexivity|].
  cbn [from_yuv_loop]. rewrite <- Z.add_assoc, IH by lia. f_equal.
  unfold yuv_to_rgb_pair. rewrite <- !Z.add_assoc.
  rewrite !ConvertFacts.rd_app by lia. reflexivity.
Qed.

Lemma from_yuv_loop_group (n : nat) (isvu : bool) (a b c d : Z)
    (rest : list Z) :
  from_yuv_loop n isvu (a :: b :: c :: d :: rest) 4
  = from_yuv_loop n isvu rest 0.
Proof.
  apply (from_yuv_loop_shift n isvu [a; b; c; d] rest 0). lia.
Qed.

Lemma to_yuv_loop_swap (n : nat) (blk : Tk_PhotoImageBlock) (inp : Z) :
  to_yuv_loop n blk true inp = swap_chroma (to_yuv_loop n blk false inp).
Proof.
  revert inp. induction n as [|n IH]; intros inp; [reflexivity|].
  cbn [to_yuv_loop]. rewrite IH. unfold rgb_to_yuv_pair. reflexivity.
Qed.

Lemma from_yuv_loop_swap (n : nat) (mem : list Z) :
  (4 * n <= List.length mem)%nat ->
  from_yuv_loop n true mem 0 = from_yuv_loop n false (swap_chroma mem) 0.
Proof.
  revert mem. induction n as [|n IH]; intros mem Hl; [reflexivity|].
  destruct mem as [|y0 [|u [|y1 [|v rest]]]]; cbn [List.length] in Hl; try lia.
  cbn [from_yuv_loop swap_chroma]. change (0 + 4) with 4.
  rewrite !from_yuv_loop_group, IH by lia. reflexivity.
Qed.

Lemma swap_chroma_length (mem : list Z) :
  List.length (swap_chroma mem) = List.length mem.
Proof.
  assert (H : forall n (l : list Z), (List.length l <= n)%nat ->
                List.length (swap_chroma l) = List.length l).
  { induction n as [|n IH]; intros l Hl.
    - destruct l; [reflexivity | cbn in Hl; lia].
    - destruct l as [|a [|b [|c [|d rest]]]]; try reflexivity.
      cbn [swap_chroma List.length] in *. rewrite IH by lia. reflexivity. }
  apply (H (List.length mem)). lia.
Qed.

Lemma swap_chroma_take (k : nat) (mem : list Z) :
  swap_chroma (take (4 * k) mem) = take (4 * k) (swap_chroma mem).
Proof.
  revert mem. induction k as [|k IH]; intros mem.
  - cbn. destruct mem as [|a [|b [|c [|d rest]]]]; reflexivity.
  - replace (4 * S k)%nat with (S (S (S (S (4 * k))))) by lia.
    destruct mem as [|a [|b [|c [|d rest]]]]; try reflexivity.
    cbn [take firstn swap_chroma]. rewrite IH. reflexivity.
Qed.

Lemma even_pairs (n : Z) :
  Z.even n = true ->
  exists k : nat, n = 2 * Z.of_nat k \/ (n < 0 /\ k = O).
Proof.
  intros Heven. destruct (Z.le_gt_cases 0 n) as [Hp|Hp].
  - exists (Z.to_nat (n / 2)). left.
    rewrite Z2Nat.id by (apply Z.div_pos; lia).
    apply Z.even_spec in Heven. destruct Heven as [q ->].
    rewrite Z.mul_comm, Z.div_mul by lia. ring.
  - exists O. right. split; [lia | reflexivity].
Qed.

(** X9.  The two byte orderings differ by the exchange of the two chroma
    bytes of every group of four only: decoding with the second ordering
    is decoding, with the first, the data whose chroma bytes are
    exchanged, and encoding with the second ordering gives the data of
    the first with the chroma bytes exchanged (for an even number of
    pixels, and input that holds them all). *)
Theorem byte_orderings_exchange_chroma
    (blk : Tk_PhotoImageBlock) (inp : list Z) (w h : Z) :
  Z.even (w * h) = true ->
  w * h * 2 <= Z.of_nat (List.length inp) ->
  Z.even (width blk * height blk) = true ->
  ConvertFromYUV true inp w h true
  = ConvertFromYUV true (swap_chroma inp) w h false
  /\ ConvertToYUV true blk true
     = match ConvertToYUV true blk false with
       | Some (out, len) => Some (swap_chroma out, len)
       | None => None
       end.
Proof.
  intros Heven Hlen Hblk. split.
  - destruct (even_pairs _ Heven) as [k Hk].
    unfold ConvertFromYUV. cbn [negb]. f_equal. f_equal.
    apply from_yuv_loop_swap. unfold passes.
    destruct Hk as [Hk|[Hk _]].
    + replace ((w * h * 3 + 6 - 1) / 6) with (Z.of_nat k).
      * lia.
      * apply Z.div_unique with 5; lia.
    + rewrite Z2Nat.nonpos; [lia|].
      apply Z.lt_succ_r. apply Z.div_lt_upper_bound; lia.
  - destruct (even_pairs _ Hblk) as [k Hk].
    unfold ConvertToYUV.
    destruct (negb (pitch blk =? width blk * pixelSize blk)); [reflexivity|].
    cbn [negb]. rewrite to_yuv_loop_swap. f_equal. f_equal.
    destruct Hk as [Hk|[Hk _]].
    + replace (Z.to_nat (width blk * height blk * 2)) with (4 * k)%nat by lia.
      symmetry. apply swap_chroma_take.
    + rewrite Z2Nat.nonpos by lia.
      change (take 0 ?l) with (@nil Z). reflexivity.
Qed.

End PixelsFacts.

(** ** Sessions: starting, stopping, and what every operation keeps *)

Module SessionFacts.
Import Engine Session EngineFacts.

Section Facts.

Variable World : Type.
Variable sys : World -> Request -> Reply * World.
Variable USE_MJPEG : bool.
Variable sscanf_size : string -> option (Z * Z).

#[local] Existing Instance M_ret.
#[local] Existing Instance M_bind.

Abbreviation Machine := (Machine World).
Abbreviation StopCapture := (StopCapture World sys).
Abbreviation BufferReady := (BufferReady World sys).
Abbreviation StartCapture := (StartCapture World sys USE_MJPEG).
Abbreviation SetControls := (SetControls World sys sscanf_size).
Abbreviation set_control := (set_control World sys sscanf_size).
Abbreviation start_pool := (start_pool World sys).
Abbreviation start_buffers := (start_buffers World sys).
Abbreviation map_buffers := (map_buffers World sys).
Abbreviation queue_buffers := (queue_buffers World sys).
Abbreviation munmap_up := (munmap_up World sys).
Abbreviation munmap_down := (munmap_down World sys).

Ltac munfold :=
  unfold mbind, mret, M_bind, M_ret, Engine.get, Engine.modify, Engine.call
    in *.

Ltac msimpl := cbn [session world trace fst snd].

Ltac sys_step :=
  msimpl;
  match goal with
  | |- context [sys ?w ?r] =>
      let rep := fresh "rep" in
      let w' := fresh "w" in
      let E := fresh "Esys" in
      destruct (sys w r) as [rep w'] eqn:E in *;
      cbn [fst snd session world trace]
  end.

(** *** The outcomes of a start *)

Lemma start_failed_started (res : Result) (m : Machine) :
  started (start_failed World res m).1 (start_failed World res m).2.
Proof. unfold Engine.start_failed, started. munfold. cbn. auto. Qed.

Lemma unmapAll_started (count : Z) (res : Result) (m : Machine) :
  started (unmapAll World sys count res m).1 (unmapAll World sys count res m).2.
Proof.
  unfold Engine.unmapAll, Engine.start_failed. munfold.
  destruct (munmap_up _ _ m) as [[] m1]. apply start_failed_started.
Qed.

Lemma capture_started_started (fmt : pix_format) (m : Machine) :
  started (capture_started World sys fmt m).1
          (capture_started World sys fmt m).2
  /\ nvbufs (session _ (capture_started World sys fmt m).2)
     = nvbufs (session _ m).
Proof.
  unfold Engine.capture_started, started. munfold. sys_step. cbn.
  rewrite last_snoc. auto.
Qed.

Lemma start_pool_started (fmt : pix_format) (count : Z) (m : Machine) :
  started (start_pool fmt count m).1 (start_pool fmt count m).2
  /\ ((start_pool fmt count m).1.1 = TCL_OK ->
      nvbufs (session _ (start_pool fmt count m).2) = count).
Proof.
  unfold Engine.start_pool. munfold.
  destruct (map_buffers _ _ m) as [[| |] m1].
  - destruct (queue_buffers _ _ m1) as [[|] m2]; cbn [negb].
    + sys_step. destruct (ret rep <? 0).
      * split; [apply unmapAll_started|].
        destruct (unmapAll_result World sys count
                    (ResPosix "error starting capture")
                    {| session := set_nvbufs count (session _ m2);
                       world := w; trace := trace _ m2 ++ [VIDIOC_STREAMON] |})
          as [E _].
        rewrite E. discriminate.
      * match goal with
        | |- context [capture_started _ _ ?f ?m0] =>
            destruct (capture_started_started f m0) as [Hs Hn]
        end.
        split; [exact Hs|]. intros _. rewrite Hn. reflexivity.
    + split; [apply unmapAll_started|].
      destruct (unmapAll_result World sys count
                  (ResPosix "error querying buffer") m2) as [E _].
      rewrite E. discriminate.
  - split; [apply start_failed_started | discriminate].
  - split; [apply start_failed_started | discriminate].
Qed.

Lemma start_buffers_started (fmt : pix_format) (m : Machine) :
  started (start_buffers fmt m).1 (start_buffers fmt m).2
  /\ ((start_buffers fmt m).1.1 = TCL_OK ->
      1 <= nvbufs (session _ (start_buffers fmt m).2) <= 16).
Proof.
  unfold Engine.start_buffers. unfold mbind, M_bind.
  pose proof (request_buffers_finishes World sys m) as Hfin.
  destruct (request_buffers World sys m) as [[|count|] m1]; cbn [fst] in Hfin.
  - split; [apply start_failed_started | discriminate].
  - destruct (Z.leb_spec count 0); cbn [orb];
      [split; [apply start_failed_started | discriminate]|].
    destruct (Z.ltb_spec 16 count);
      [split; [apply start_failed_started | discriminate]|].
    destruct (start_pool_started fmt count m1) as [Hs Hn].
    split; [exact Hs|]. intros Hok. rewrite (Hn Hok). lia.
  - contradiction.
Qed.

Lemma StartCapture_ok (m : Machine) :
  running (session _ m) <= 0 -> (StartCapture m).1.1 = TCL_OK ->
  running (session _ (StartCapture m).2) = 1
  /\ stalled (session _ (StartCapture m).2) = 0
  /\ core (session _ (StartCapture m).2) = (-1, 0, 0, 0)
  /\ 1 <= nvbufs (session _ (StartCapture m).2) <= 16
  /\ last (trace _ (StartCapture m).2) = Some Tcl_CreateFileHandler.
Proof.
  unfold Engine.StartCapture. munfold. msimpl.
  destruct (Z.ltb_spec 0 (running (session _ m))) as [Hrun|Hrun]; [lia|].
  intros _.
  destruct (negotiate_format World sys USE_MJPEG m) as [[fmt| |] m1];
    [|discriminate..].
  msimpl.
  match goal with
  | |- context [set_frame_rate _ _ ?m0] =>
      destruct (set_frame_rate World sys m0) as [[] m2]
  end.
  destruct (start_buffers_started fmt m2) as [Hs Hn].
  unfold started in Hs.
  destruct (start_buffers fmt m2) as [[[|] res] m3]; cbn [fst snd] in *;
    [|discriminate].
  intros _. intuition.
Qed.

(** X10.  The outcomes of [StartCapture].  On a session that captures it
    does nothing and succeeds.  Otherwise, when it succeeds the session
    captures, is not stalled, holds no frame (the four counters are -1, 0,
    0, 0), has between 1 and 16 buffers, and the last thing done was to
    register the file handler.  When it fails the session is in the error
    state and not stalled, unless no pixel format could be set ("unable
    to set supported pixel format"): then the session is what it was. *)
Theorem start_capture_outcomes (m : Machine) :
  let r := StartCapture m in
  (0 < running (session _ m) -> r = ((TCL_OK, ResUnset), m))
  /\ (running (session _ m) <= 0 -> r.1.1 = TCL_OK ->
      running (session _ r.2) = 1 /\ stalled (session _ r.2) = 0
      /\ core (session _ r.2) = (-1, 0, 0, 0)
      /\ 1 <= nvbufs (session _ r.2) <= 16
      /\ last (trace _ r.2) = Some Tcl_CreateFileHandler)
  /\ (r.1.1 = TCL_ERROR ->
      (running (session _ r.2) = -1 /\ stalled (session _ r.2) = 0)
      \/ (r.1.2 = ResString "unable to set supported pixel format"
          /\ session _ r.2 = session _ m)).
Proof.
  intros r. subst r.
  split; [|split; [apply StartCapture_ok|]];
    unfold Engine.StartCapture; munfold; msimpl;
    destruct (Z.ltb_spec 0 (running (session _ m))) as [Hrun|Hrun];
    try reflexivity; try lia; try discriminate.
  pose proof (negotiate_format_quiet World sys USE_MJPEG m) as Hq.
  destruct (negotiate_format World sys USE_MJPEG m) as [[fmt| |] m1];
    cbn [snd] in Hq.
  - msimpl.
    match goal with
    | |- context [set_frame_rate _ _ ?m0] =>
        destruct (set_frame_rate World sys m0) as [[] m2]
    end.
    destruct (start_buffers_started fmt m2) as [Hs Hn].
    unfold started in Hs.
    destruct (start_buffers fmt m2) as [[[|] res] m3]; cbn [fst snd] in *;
      [discriminate|].
    intros _. left. exact Hs.
  - destruct (start_failed_started (ResPosix "error setting format") m1)
      as [H1 H2].
    intros _. left. split; assumption.
  - cbn. intros _. right. split; [reflexivity|]. symmetry. exact Hq.
Qed.

(** *** Mappings made and undone by a start *)

Lemma tally_app (p : Request -> bool) (t1 t2 : list Request) :
  tally p (t1 ++ t2) = tally p t1 + tally p t2.
Proof. induction t1 as [|r t1 IH]; cbn [tally app]; lia. Qed.

Lemma tally_nonneg (p : Request -> bool) (t : list Request) : 0 <= tally p t.
Proof. induction t as [|r t IH]; cbn [tally]; [lia|]. destruct (p r); lia. Qed.

Lemma since_adds {A} (c : M World A) (m : Machine) (t : list Request) :
  adds c m t -> since (trace _ m) (c m).2 = t.
Proof. unfold adds, since. intros ->. apply drop_app_length. Qed.

Lemma call_adds (r : Request) (m : Machine) : adds (call World sys r) m [r].
Proof. apply call_trace. Qed.

Lemma munmap_up_adds (n from : nat) (m : Machine) :
  exists t, adds (munmap_up n from) m t
            /\ tally is_munmap t = Z.of_nat n /\ tally is_mmap t = 0
            /\ tally is_qbuf t = 0 /\ tally is_querybuf t = 0.
Proof.
  revert from m. induction n as [|n IH]; intros from m.
  - exists []. unfold adds. cbn. rewrite app_nil_r. auto.
  - unfold adds. cbn [Engine.munmap_up]. munfold. sys_step.
    match goal with
    | |- context [munmap_up n (S from) ?m0] =>
        destruct (IH (S from) m0) as (t & Ht & H1 & H2 & H3 & H4)
    end.
    eexists (_ :: t). unfold adds in *. rewrite Ht. msimpl.
    rewrite <- app_assoc. split; [reflexivity|].
    cbn [tally is_munmap is_mmap is_qbuf is_querybuf].
    lia.
Qed.

Lemma munmap_down_adds (i : nat) (m : Machine) :
  exists t, adds (munmap_down i) m t
            /\ tally is_munmap t = Z.of_nat i /\ tally is_mmap t = 0
            /\ tally is_qbuf t = 0 /\ tally is_querybuf t = 0.
Proof.
  revert m. induction i as [|i IH]; intros m.
  - exists []. unfold adds. cbn. rewrite app_nil_r. auto.
  - unfold adds. cbn [Engine.munmap_down]. munfold. sys_step.
    match goal with
    | |- context [munmap_down i ?m0] =>
        destruct (IH m0) as (t & Ht & H1 & H2 & H3 & H4)
    end.
    eexists (_ :: t). unfold adds in *. rewrite Ht. msimpl.
    rewrite <- app_assoc. split; [reflexivity|].
    cbn [tally is_munmap is_mmap is_qbuf is_querybuf].
    lia.
Qed.

(** The mapping loop: every buffer mapped before a mapping fails is
    unmapped again; a query that fails leaves the mappings made so far. *)
Lemma map_buffers_adds (n i : nat) (m : Machine) :
  exists t, adds (map_buffers n i) m t /\ tally is_qbuf t = 0
    /\ match (map_buffers n i m).1 with
       | Mapped => tally is_mmap t = Z.of_nat n /\ tally is_munmap t = 0
       | MapFailed =>
           tally is_munmap t + 1 = Z.of_nat i + tally is_mmap t
       | QueryFailed =>
           tally is_mmap t < Z.of_nat n /\ tally is_munmap t = 0
           /\ tally is_querybuf t = tally is_mmap t + 1
       end.
Proof.
  revert i m. induction n as [|n IH]; intros i m.
  - exists []. unfold adds. cbn. rewrite app_nil_r. auto.
  - unfold adds. cbn [Engine.map_buffers]. munfold. sys_step.
    destruct (ret rep <? 0).
    + eexists [_]. unfold adds. msimpl. split; [reflexivity|]. cbn. lia.
    + sys_step. destruct (ret rep0 =? MAP_FAILED).
      * match goal with
        | |- context [munmap_down i ?m0] =>
            destruct (munmap_down_adds i m0) as (t & Ht & H1 & H2 & H3 & H4);
            unfold adds in Ht;
            destruct (munmap_down i m0) as [[] m1] eqn:Em in *
        end.
        cbn [session world trace fst snd] in Ht |- *.
        eexists (_ :: _ :: t). rewrite Ht, <- !app_assoc.
        split; [reflexivity|]. cbn [tally is_munmap is_mmap is_qbuf is_querybuf]. lia.
      * match goal with
        | |- context [map_buffers n (S i) ?m0] =>
            destruct (IH (S i) m0) as (t & Ht & Hq & H)
        end.
        unfold adds in *. cbn [session world trace fst snd] in Ht.
        eexists (_ :: _ :: t).
        split; [rewrite Ht, <- !app_assoc; reflexivity|].
        cbn [tally is_munmap is_mmap is_qbuf is_querybuf].
        split; [lia|]. revert H.
        destruct (map_buffers n (S i) _).1; lia.
Qed.

Lemma queue_buffers_adds (n i : nat) (m : Machine) :
  exists t, adds (queue_buffers n i) m t
    /\ tally is_mmap t = 0 /\ tally is_munmap t = 0
    /\ tally is_querybuf t = 0
    /\ ((queue_buffers n i m).1 = false -> 0 < tally is_qbuf t).
Proof.
  revert i m. induction n as [|n IH]; intros i m.
  - exists []. unfold adds. cbn. rewrite app_nil_r.
    repeat split; auto. discriminate.
  - unfold adds. cbn [Engine.queue_buffers]. munfold. sys_step.
    destruct (ret rep <? 0).
    + eexists [_]. unfold adds. msimpl. split; [reflexivity|]. cbn.
      repeat split; auto; lia.
    + match goal with
      | |- context [queue_buffers n (S i) ?m0] =>
          destruct (IH (S i) m0) as (t & Ht & H1 & H2 & H4 & H3)
      end.
      unfold adds in *. cbn [session world trace fst snd] in Ht.
      eexists (_ :: t). rewrite Ht, <- !app_assoc.
      split; [reflexivity|]. cbn [tally is_munmap is_mmap is_qbuf is_querybuf].
      repeat split; try lia. intros E. specialize (H3 E).
      pose proof (tally_nonneg is_qbuf t). lia.
Qed.

Section Silent.

Variable ps : list (Request -> bool).

Lemma silent_ret {A} (a : A) : silent ps (mret a : M World A).
Proof.
  intros m. exists []. unfold adds. cbn. rewrite app_nil_r.
  split; [reflexivity|]. apply List.Forall_forall. reflexivity.
Qed.

Lemma silent_get : silent ps (Engine.get World).
Proof.
  intros m. exists []. unfold adds. cbn. rewrite app_nil_r.
  split; [reflexivity|]. apply List.Forall_forall. reflexivity.
Qed.

Lemma silent_modify (f : V4L2C -> V4L2C) : silent ps (Engine.modify World f).
Proof.
  intros m. exists []. unfold adds. cbn. rewrite app_nil_r.
  split; [reflexivity|]. apply List.Forall_forall. reflexivity.
Qed.

Lemma silent_call (r : Request) :
  forallb (fun p => negb (p r)) ps = true -> silent ps (call World sys r).
Proof.
  intros H m. exists [r]. split; [apply call_trace|].
  apply List.Forall_forall. intros p Hp. cbn [tally].
  rewrite forallb_forall in H. specialize (H p).
  destruct (p r); [|reflexivity].
  discriminate H. exact Hp.
Qed.

Lemma silent_bind {A B} (c : M World A) (k : A -> M World B) :
  silent ps c -> (forall a, silent ps (k a)) -> silent ps (c ≫= k).
Proof.
  intros Hc Hk m. unfold mbind, M_bind.
  destruct (Hc m) as (t1 & Ht1 & H1). unfold adds in *.
  destruct (c m) as [a m1]. cbn [snd] in Ht1.
  destruct (Hk a m1) as (t2 & Ht2 & H2).
  exists (t1 ++ t2). rewrite Ht2, Ht1, <- app_assoc.
  split; [reflexivity|]. rewrite List.Forall_forall in *.
  intros p Hp. rewrite tally_app, (H1 p Hp), (H2 p Hp). reflexivity.
Qed.

End Silent.

Lemma silent_quiet {A} (c : M World A) : silent bookkeeping c -> quiet c.
Proof.
  intros H m. destruct (H m) as (t & Ht & Hp). exists t.
  split; [exact Ht|]. unfold bookkeeping in Hp.
  repeat match goal with
         | H : Forall _ (_ :: _) |- _ =>
             apply List.Forall_cons_iff in H; destruct H
         end.
  repeat split; assumption.
Qed.

Ltac silent_step :=
  lazymatch goal with
  | |- silent _ (mret _) => apply silent_ret
  | |- silent _ (Engine.get _) => apply silent_get
  | |- silent _ (Engine.call _ _ _) => apply silent_call; reflexivity
  | |- silent _ (Engine.modify _ _) => apply silent_modify
  | |- silent _ (_ ≫= _) => apply silent_bind; [ | intros]
  | |- silent _ (if ?b then _ else _) => destruct b
  | |- silent _ (match ?x with _ => _ end) => destruct x
  | |- silent _ (let _ := _ in _) => cbv zeta
  end.

Ltac silent_auto := repeat (silent_step; auto).

Lemma try_formats_silent (fmts : list Z) (fmt : pix_format) :
  silent bookkeeping (try_formats World sys fmts fmt).
Proof.
  induction fmts as [|f rest IH]; cbn [Engine.try_formats]; silent_auto.
Qed.

Lemma negotiate_format_silent :
  silent bookkeeping (negotiate_format World sys USE_MJPEG).
Proof.
  unfold Engine.negotiate_format. pose proof try_formats_silent.
  silent_auto.
Qed.

Lemma set_frame_rate_silent : silent bookkeeping (set_frame_rate World sys).
Proof. unfold Engine.set_frame_rate. silent_auto. Qed.

Lemma request_loop_silent (fuel : nat) (i count : Z) :
  silent bookkeeping (request_loop World sys fuel i count).
Proof.
  revert i count.
  induction fuel as [|fuel IH]; intros i count; cbn [Engine.request_loop];
    silent_auto.
Qed.

Lemma start_failed_silent (res : Result) :
  silent bookkeeping (start_failed World res).
Proof. unfold Engine.start_failed. silent_auto. Qed.

Lemma capture_started_adds (fmt : pix_format) (m : Machine) :
  adds (capture_started World sys fmt) m [Tcl_CreateFileHandler].
Proof. unfold adds, Engine.capture_started. munfold. sys_step. reflexivity. Qed.

Lemma start_pool_mappings (fmt : pix_format) (count : Z) (m m' : Machine)
    (r : TclCode * Result) :
  0 <= count ->
  start_pool fmt count m = (r, m') ->
  exists t, trace _ m' = trace _ m ++ t /\ pool_mappings count r t.
Proof.
  intros Hc E. unfold Engine.start_pool in E. unfold mbind, M_bind in E.
  destruct (map_buffers_adds (Z.to_nat count) 0 m) as (t1 & Ht1 & Hq1 & H1).
  unfold adds in Ht1.
  destruct (map_buffers (Z.to_nat count) 0 m) as [[| |] m1];
    cbn [fst snd] in Ht1, H1.
  - destruct (queue_buffers_adds (Z.to_nat count) 0 m1)
      as (t2 & Ht2 & G1 & G2 & G4 & G3).
    unfold adds in Ht2.
    destruct (queue_buffers (Z.to_nat count) 0 m1) as [[|] m2];
      cbn [fst snd negb] in Ht2, G3, E.
    + unfold Engine.modify, Engine.call in E. cbn [session world trace] in E.
      destruct (sys (world _ m2) VIDIOC_STREAMON) as [rep w].
      cbn [session world trace] in E.
      destruct (ret rep <? 0).
      * unfold Engine.unmapAll, Engine.start_failed in E.
        unfold mbind, M_bind, mret, M_ret, Engine.modify in E.
        match type of E with
        | context [munmap_up ?n 0 ?m0] =>
            destruct (munmap_up_adds n 0 m0) as (t3 & Ht3 & K1 & K2 & K3 & K4);
            unfold adds in Ht3;
            destruct (munmap_up n 0 m0) as [[] m3]
        end.
        cbn [session world trace fst snd] in Ht3, E.
        injection E as <- <-. cbn [trace].
        exists (t1 ++ t2 ++ [VIDIOC_STREAMON] ++ t3).
        split; [rewrite Ht3, Ht2, Ht1, <- !app_assoc; reflexivity|].
        unfold pool_mappings. rewrite !tally_app. cbn [tally is_mmap is_munmap].
        right. left. split; [reflexivity|]. lia.
      * match type of E with
        | capture_started _ _ _ ?m0 = _ =>
            pose proof (capture_started_adds fmt m0) as Ht3;
            destruct (capture_started_result World sys fmt m0) as [Er _]
        end.
        unfold adds in Ht3. rewrite E in Ht3, Er.
        cbn [session world trace fst snd] in Ht3, Er. subst r.
        exists (t1 ++ t2 ++ [VIDIOC_STREAMON; Tcl_CreateFileHandler]).
        split; [rewrite Ht3, Ht2, Ht1, <- !app_assoc; reflexivity|].
        unfold pool_mappings. rewrite !tally_app.
        cbn [tally is_mmap is_munmap]. lia.
    + unfold Engine.unmapAll, Engine.start_failed in E.
      unfold mbind, M_bind, mret, M_ret, Engine.modify in E.
      destruct (munmap_up_adds (Z.to_nat count) 0 m2)
        as (t3 & Ht3 & K1 & K2 & K3 & K4).
      unfold adds in Ht3.
      destruct (munmap_up (Z.to_nat count) 0 m2) as [[] m3].
      cbn [session world trace fst snd] in Ht3, E.
      injection E as <- <-. cbn [trace].
      exists (t1 ++ t2 ++ t3).
      split; [rewrite Ht3, Ht2, Ht1, <- !app_assoc; reflexivity|].
      unfold pool_mappings. rewrite !tally_app.
      right. right. split; [reflexivity|]. left.
      specialize (G3 eq_refl). pose proof (tally_nonneg is_qbuf t1).
      pose proof (tally_nonneg is_qbuf t3). lia.
  - unfold Engine.start_failed in E.
    unfold mbind, M_bind, mret, M_ret, Engine.modify in E.
    cbn [session world trace fst snd] in E. injection E as <- <-.
    exists t1. cbn [trace]. split; [exact Ht1|].
    unfold pool_mappings. right. right. split; [reflexivity|]. right. lia.
  - unfold Engine.start_failed in E.
    unfold mbind, M_bind, mret, M_ret, Engine.modify in E.
    cbn [session world trace fst snd] in E. injection E as <- <-.
    exists t1. cbn [trace]. split; [exact Ht1|].
    unfold pool_mappings. left. split; [reflexivity|]. lia.
Qed.

Lemma start_buffers_mappings (fmt : pix_format) (m m' : Machine)
    (r : TclCode * Result) :
  start_buffers fmt m = (r, m') ->
  exists t, trace _ m' = trace _ m ++ t
    /\ ((exists count, 1 <= count <= 16 /\ pool_mappings count r t
                       /\ (r.1 = TCL_OK -> nvbufs (session _ m') = count))
        \/ (r.1 = TCL_ERROR /\ In r.2 early_failures
            /\ tally is_mmap t = 0 /\ tally is_munmap t = 0)).
Proof.
  intros E. unfold Engine.start_buffers in E. unfold mbind, M_bind in E.
  pose proof (request_buffers_finishes World sys m) as Hfin.
  destruct (silent_quiet _ (request_loop_silent 16 2 0) m)
    as (t1 & Ht1 & A1 & A2 & A3 & A4 & A5 & A6).
  unfold adds in Ht1. fold (request_buffers World sys) in Ht1.
  destruct (request_buffers World sys m) as [[|count|] m1];
    cbn [fst snd] in Hfin, Ht1; [| |contradiction].
  - unfold Engine.start_failed in E.
    unfold mbind, M_bind, mret, M_ret, Engine.modify in E.
    cbn [session world trace] in E. injection E as <- <-. cbn [trace fst snd].
    exists t1. split; [exact Ht1|]. right. unfold early_failures.
    cbn [In]. auto 10.
  - destruct (Z.leb_spec count 0) as [Hle|Hgt]; cbn [orb] in E;
      [|destruct (Z.ltb_spec 16 count) as [Hlt|Hge]].
    1,2: unfold Engine.start_failed in E;
      unfold mbind, M_bind, mret, M_ret, Engine.modify in E;
      cbn [session world trace] in E; injection E as <- <-;
      cbn [trace fst snd]; exists t1; (split; [exact Ht1|]); right;
      unfold early_failures; cbn [In]; auto 10.
    destruct (start_pool_mappings fmt count m1 m' r ltac:(lia) E)
      as (t2 & Ht2 & Hp).
    exists (t1 ++ t2). split; [rewrite Ht2, Ht1, <- app_assoc; reflexivity|].
    left. exists count. split; [lia|]. split.
    + revert Hp. unfold pool_mappings. cbv zeta. rewrite !tally_app.
      rewrite A1, A2, A3, A4. cbn [Z.add]. auto.
    + intros Hok. destruct (start_pool_started fmt count m1) as [_ Hn].
      rewrite E in Hn. cbn [fst snd] in Hn. apply Hn. exact Hok.
Qed.

(** X11.  [StartCapture] accounts for its mappings.  A start that
    succeeds has mapped as many buffers as the session counts and has
    unmapped none (and has asked for nothing when the session captured
    already).  A start that fails before the buffers are there has mapped
    nothing; one that fails when the stream is switched on, or when a
    buffer is queued, has unmapped every buffer it mapped; one that fails
    at [mmap] has unmapped all but the mapping that failed.  A start that
    fails at [VIDIOC_QUERYBUF] has unmapped nothing: the buffers mapped
    before the failing query stay mapped. *)
Theorem start_capture_mappings (m : Machine) :
  let r := StartCapture m in
  let t := since (trace _ m) r.2 in
  let mapped := tally is_mmap t in
  let unmapped := tally is_munmap t in
  trace _ r.2 = trace _ m ++ t
  /\ match r.1 with
     | (TCL_OK, _) =>
         unmapped = 0
         /\ (0 < running (session _ m) -> t = [])
         /\ (running (session _ m) <= 0 -> mapped = nvbufs (session _ r.2))
     | (TCL_ERROR, res) =>
         (In res early_failures /\ mapped = 0 /\ unmapped = 0)
         \/ (res = ResPosix "error mapping buffer" /\ unmapped + 1 = mapped)
         \/ (res = ResPosix "error starting capture"
             /\ 1 <= mapped /\ unmapped = mapped)
         \/ (res = ResPosix "error querying buffer"
             /\ ((0 < tally is_qbuf t /\ 1 <= mapped /\ unmapped = mapped)
                 \/ (tally is_qbuf t = 0 /\ unmapped = 0
                     /\ tally is_querybuf t = mapped + 1)))
     end.
Proof.
  intros r t. subst t r.
  assert (exists t, trace _ (StartCapture m).2 = trace _ m ++ t
    /\ let mapped := tally is_mmap t in
       let unmapped := tally is_munmap t in
       match (StartCapture m).1 with
       | (TCL_OK, _) =>
           unmapped = 0
           /\ (0 < running (session _ m) -> t = [])
           /\ (running (session _ m) <= 0 ->
               mapped = nvbufs (session _ (StartCapture m).2))
       | (TCL_ERROR, res) =>
           (In res early_failures /\ mapped = 0 /\ unmapped = 0)
           \/ (res = ResPosix "error mapping buffer" /\ unmapped + 1 = mapped)
           \/ (res = ResPosix "error starting capture"
               /\ 1 <= mapped /\ unmapped = mapped)
           \/ (res = ResPosix "error querying buffer"
               /\ ((0 < tally is_qbuf t /\ 1 <= mapped /\ unmapped = mapped)
                   \/ (tally is_qbuf t = 0 /\ unmapped = 0
                       /\ tally is_querybuf t = mapped + 1)))
       end) as (t & Ht & H).
  2: { unfold since. rewrite Ht, drop_app_length. split; [reflexivity|].
       exact H. }
  destruct (StartCapture m) as [r m'] eqn:E. cbn [fst snd].
  unfold Engine.StartCapture in E.
  unfold mbind, M_bind, Engine.get in E. cbn [session world trace] in E.
  destruct (Z.ltb_spec 0 (running (session _ m))) as [Hrun|Hrun].
  - unfold mret, M_ret in E. injection E as <- <-.
    exists []. rewrite app_nil_r. cbn. repeat split; auto. lia.
  - destruct (silent_quiet _ negotiate_format_silent m)
      as (t1 & Ht1 & A1 & A2 & A3 & A4 & A5 & A6).
    unfold adds in Ht1.
    destruct (negotiate_format World sys USE_MJPEG m) as [[fmt| |] m1];
      cbn [fst snd] in Ht1.
    + unfold Engine.modify in E. cbn [session world trace] in E.
      match type of E with
      | context [set_frame_rate _ _ ?m0] =>
          destruct (silent_quiet _ set_frame_rate_silent m0)
            as (t2 & Ht2 & B1 & B2 & B3 & B4 & B5 & B6);
          unfold adds in Ht2;
          destruct (set_frame_rate World sys m0) as [[] m2]
      end.
      cbn [session world trace fst snd] in Ht2.
      destruct (start_buffers_mappings fmt m2 m' r E) as (t3 & Ht3 & H).
      exists (t1 ++ t2 ++ t3).
      split; [rewrite Ht3, Ht2, Ht1, <- !app_assoc; reflexivity|].
      cbv zeta. rewrite !tally_app, A1, A2, A3, A4, B1, B2, B3, B4.
      cbn [Z.add].
      destruct H as [(count & Hc & Hp & Hn) | (Hr & Hin & C1 & C2)].
      * unfold pool_mappings in Hp. cbv zeta in Hp.
        destruct r as [[|] res]; cbn [fst snd] in *.
        -- destruct Hp as [P1 P2]. rewrite (Hn eq_refl).
           repeat split; auto; lia.
        -- destruct Hp as [[-> P] | [[-> P] | [-> [P | P]]]].
           ++ right. left. auto.
           ++ right. right. left. split; [reflexivity|]. lia.
           ++ right. right. right. split; [reflexivity|]. left. lia.
           ++ right. right. right. split; [reflexivity|]. right. lia.
      * destruct r as [c res]. cbn [fst snd] in *. subst c. left. auto.
    + unfold Engine.start_failed in E.
      unfold mbind, M_bind, mret, M_ret, Engine.modify in E.
      cbn [session world trace] in E. injection E as <- <-. cbn [trace].
      exists t1. split; [exact Ht1|]. cbv zeta. left.
      unfold early_failures. cbn [In]. auto 10.
    + unfold mret, M_ret in E. injection E as <- <-.
      exists t1. split; [exact Ht1|]. cbv zeta. left.
      unfold early_failures. cbn [In]. auto 10.
Qed.

(** *** A stop after a start *)

Lemma mapped_lengths_none (t : list Request) :
  tally is_mmap t = 0 -> mapped_lengths t = [].
Proof.
  induction t as [|r t IH]; [reflexivity|]. cbn [tally].
  pose proof (tally_nonneg is_mmap t) as Hn.
  destruct r; cbn [is_mmap]; intros H; try exact (IH ltac:(lia)).
  lia.
Qed.

Lemma mapped_lengths_app (t1 t2 : list Request) :
  mapped_lengths (t1 ++ t2) = mapped_lengths t1 ++ mapped_lengths t2.
Proof. apply omap_app. Qed.

Lemma unmapped_lengths_cons (a l : Z) (t : list Request) :
  unmapped_lengths (v4l2_munmap a l :: t) = l :: unmapped_lengths t.
Proof. reflexivity. Qed.

Lemma unmap_requests_lengths (s : V4L2C) (n from : nat) :
  (from + n <= List.length (vbufs s))%nat ->
  unmapped_lengths (unmap_requests s from n)
  = take n (drop from (buffer_lengths s)).
Proof.
  unfold unmap_requests, buffer_lengths. revert from.
  induction n as [|n IH]; intros from H; [reflexivity|].
  cbn [seq map]. rewrite unmapped_lengths_cons, IH by lia.
  destruct (lookup_lt_is_Some_2 (vbufs s) from ltac:(lia)) as [v Hv].
  rewrite (drop_S _ (Engine.length v) from)
    by (rewrite list_lookup_fmap, Hv; reflexivity).
  cbn [take]. f_equal. f_equal.
  apply nth_lookup_Some with (d := {| start := 0; length := 0 |}) in Hv.
  rewrite Hv. reflexivity.
Qed.

Lemma map_buffers_lengths (n i : nat) (m : Machine) :
  (i + n <= List.length (vbufs (session _ m)))%nat ->
  (map_buffers n i m).1 = Mapped ->
  exists t, adds (map_buffers n i) m t
    /\ List.length (mapped_lengths t) = n
    /\ buffer_lengths (session _ (map_buffers n i m).2)
       = take i (buffer_lengths (session _ m)) ++ mapped_lengths t
         ++ drop (i + n) (buffer_lengths (session _ m)).
Proof.
  revert i m. induction n as [|n IH]; intros i m Hlen.
  - intros _. exists []. unfold adds. cbn. rewrite app_nil_r.
    split; [reflexivity|]. split; [reflexivity|].
    rewrite Nat.add_0_r, take_drop. reflexivity.
  - unfold adds. cbn [Engine.map_buffers]. munfold. sys_step.
    destruct (ret rep <? 0); [discriminate|].
    sys_step. destruct (ret rep0 =? MAP_FAILED).
    + destruct (munmap_down i _) as [[] m1]. discriminate.
    + intros Hm.
      match goal with
      | |- context [map_buffers n (S i) ?m0] =>
          destruct (IH (S i) m0) as (t & Ht & Hl & Hb);
          [cbn [session vbufs set_vbufs]; rewrite length_insert; lia
          | exact Hm |]
      end.
      unfold adds in Ht. cbn [session world trace] in Ht.
      eexists (_ :: _ :: t).
      split; [rewrite Ht, <- !app_assoc; reflexivity|].
      split; [cbn; rewrite <- Hl; reflexivity|].
      rewrite Hb. unfold buffer_lengths. cbn [session vbufs set_vbufs].
      rewrite list_fmap_insert. cbn [Engine.length].
      set (ls := map Engine.length (vbufs (session _ m))).
      assert (Hi : (i < List.length ls)%nat)
        by (unfold ls; rewrite length_map; lia).
      rewrite (take_S_r _ i (out1 rep))
        by (apply list_lookup_insert_eq; exact Hi).
      rewrite take_insert_ge by lia.
      rewrite drop_insert_lt by lia.
      unfold mapped_lengths. cbn [omap list_omap mmap_length].
      rewrite <- app_assoc. replace (S i + n)%nat with (i + S n)%nat by lia.
      reflexivity.
Qed.

(** *** What every operation keeps *)

#[local] Instance preserved_refl (P : V4L2C -> Prop) : Reflexive (preserved P).
Proof. intros s H. exact H. Qed.

#[local] Instance preserved_trans (P : V4L2C -> Prop) :
  Transitive (preserved P).
Proof. intros a b c H1 H2 H. apply H2, H1, H. Qed.

Lemma sends_eq_preserved {A} (P : V4L2C -> Prop) (c : M World A) :
  sends World eq c -> sends World (preserved P) c.
Proof. intros H m Hp. rewrite <- (H m). exact Hp. Qed.

Ltac bool_facts :=
  repeat match goal with
         | H : (_ && _)%bool = true |- _ => apply andb_prop in H; destruct H
         | H : (_ <? _) = true |- _ => apply Z.ltb_lt in H
         | H : (_ <? _) = false |- _ => apply Z.ltb_ge in H
         | H : (_ <=? _) = true |- _ => apply Z.leb_le in H
         | H : (_ <=? _) = false |- _ => apply Z.leb_gt in H
         | H : (_ =? _) = true |- _ => apply Z.eqb_eq in H
         end.

Ltac fields :=
  cbn [running stalled bufdone nvbufs fps vbufs rotate
       set_running set_stalled set_format set_wantFormat set_greyshift
       set_mirror set_rotate set_bufrdy set_bufdone set_width set_height
       set_fps set_cbCmd set_frate set_fsize set_heap set_counters0
       set_counters1 set_nvbufs set_vbufs] in *.

Ltac keeps_modify :=
  let s := fresh "s" in
  let Hs := fresh "Hs" in
  intros s Hs; unfold preserved, sane, sane_fields, buffer_lengths in *;
  repeat match goal with
         | |- context [if ?b then _ else _] => destruct b eqn:?
         end;
  bool_facts; fields; rewrite ?length_insert;
  repeat match goal with
         | H : _ /\ _ |- _ => destruct H
         end;
  repeat split; first [assumption | lia].

Ltac keeps_step :=
  lazymatch goal with
  | |- Engine.sends _ _ (mret _) => apply sends_ret; try exact _
  | |- Engine.sends _ _ (Engine.get _) => apply sends_get; try exact _
  | |- Engine.sends _ _ (Engine.call _ _ _) => apply sends_call; try exact _
  | |- Engine.sends _ _ (Engine.modify _ _) =>
      apply sends_modify; try solve [keeps_modify]
  | |- Engine.sends _ _ (_ ≫= _) =>
      apply sends_bind; [try exact _ | | intros]
  | |- Engine.sends _ _ (if ?b then _ else _) => destruct b eqn:?
  | |- Engine.sends _ _ (match ?x with _ => _ end) => destruct x eqn:?
  | |- Engine.sends _ _ (let _ := _ in _) => cbv zeta
  end.

Ltac keeps_auto := repeat (keeps_step; auto).

Lemma StopCapture_sane : sends World (preserved sane) StopCapture.
Proof.
  unfold Engine.StopCapture.
  pose proof (fun n k => sends_eq_preserved sane _
                           (munmap_up_quiet World sys n k)).
  keeps_auto.
Qed.

Lemma captureError_sane :
  sends World (preserved sane) (captureError World sys).
Proof. unfold Engine.captureError. pose proof StopCapture_sane. keeps_auto. Qed.

Lemma doCallback_sane : sends World (preserved sane) (doCallback World sys).
Proof. unfold Engine.doCallback. pose proof StopCapture_sane. keeps_auto. Qed.

Lemma BufferReady_sane (mask : Z) :
  sends World (preserved sane) (BufferReady mask).
Proof.
  unfold Engine.BufferReady, Engine.frameCallback.
  pose proof captureError_sane. pose proof doCallback_sane. keeps_auto.
Qed.

Lemma GetImage_sane (flags : Z) (arg : option Tcl_Obj) :
  sends World (preserved sane) (GetImage World sys USE_MJPEG flags arg).
Proof.
  unfold Engine.GetImage, Engine.get_image, Engine.image_done,
    Engine.prepare_photo, Engine.prepare_raw, Engine.extract_channels,
    Engine.converted, Engine.converted_mjpeg.
  keeps_auto.
Qed.

Lemma set_control_sane (key value : Tcl_Obj) :
  sends World (preserved sane) (set_control key value).
Proof.
  unfold Engine.set_control, Engine.set_frame_size,
    Engine.set_frame_rate_control, Engine.write_control.
  assert (forall p v s, preserved sane s (store_useOld p v s))
    by (intros [] v s Hs; exact Hs).
  keeps_auto.
Qed.

Lemma SetControls_sane (objv : list Tcl_Obj) :
  sends World (preserved sane) (SetControls objv).
Proof.
  induction objv as [objv IH] using (induction_ltof1 _ List.length).
  unfold ltof in IH.
  destruct objv as [|key [|value rest]]; cbn [Engine.SetControls];
    [keeps_auto | keeps_auto |].
  pose proof set_control_sane.
  assert (sends World (preserved sane) (SetControls rest))
    by (apply IH; cbn; lia).
  keeps_auto.
Qed.

Lemma Orientation_sane (arg : option Tcl_Obj) :
  sends World (preserved sane) (Orientation World arg).
Proof.
  unfold Engine.Orientation.
  assert (forall d s, preserved sane s (set_rotate (Orient.snap d) s)).
  { intros d s Hs. pose proof (OrientFacts.snap_values d).
    unfold sane, sane_fields, right_angle in *. fields.
    destruct Hs as (? & ? & ? & ? & ? & ? & ? & ?).
    repeat split; first [assumption | lia]. }
  keeps_auto.
Qed.

Lemma start_failed_sane (res : Result) :
  sends World (preserved sane) (start_failed World res).
Proof. unfold Engine.start_failed. keeps_auto. Qed.

Lemma unmapAll_sane (count : Z) (res : Result) :
  sends World (preserved sane) (unmapAll World sys count res).
Proof.
  unfold Engine.unmapAll.
  pose proof (fun n k => sends_eq_preserved sane _
                           (munmap_up_quiet World sys n k)).
  pose proof start_failed_sane. keeps_auto.
Qed.

Lemma map_buffers_sane (n i : nat) :
  sends World (preserved sane) (map_buffers n i).
Proof.
  revert i. induction n as [|n IH]; intros i; cbn [Engine.map_buffers].
  - keeps_auto.
  - pose proof (fun k => sends_eq_preserved sane _
                           (munmap_down_quiet World sys k)).
    keeps_auto.
Qed.

Lemma capture_started_pooled (fmt : pix_format) :
  sends World (preserved pooled) (capture_started World sys fmt).
Proof. unfold Engine.capture_started. unfold pooled. keeps_auto. Qed.

Lemma start_pool_sane (fmt : pix_format) (count : Z) :
  1 <= count <= 16 -> sends World (preserved sane) (start_pool fmt count).
Proof.
  intros Hc. unfold Engine.start_pool.
  apply sends_bind; [exact _ | apply map_buffers_sane |].
  intros [| |]; [|apply start_failed_sane..].
  apply sends_bind;
    [exact _
    | apply sends_eq_preserved, (queue_buffers_quiet World sys) |].
  intros [|]; cbn [negb]; [|apply unmapAll_sane].
  intros m Hs. munfold. msimpl. sys_step.
  assert (Hp : pooled (set_nvbufs count (session _ m))).
  { revert Hs. unfold pooled, sane, sane_fields. fields.
    intros (? & ? & ? & ? & ? & ? & ? & ?). repeat split; first [assumption | lia]. }
  destruct (ret rep <? 0).
  - apply unmapAll_sane. apply Hp.
  - apply capture_started_pooled. exact Hp.
Qed.

Lemma set_frame_rate_sane :
  sends World (preserved sane) (set_frame_rate World sys).
Proof. unfold Engine.set_frame_rate. keeps_auto. Qed.

Lemma start_buffers_sane (fmt : pix_format) :
  sends World (preserved sane) (start_buffers fmt).
Proof.
  unfold Engine.start_buffers.
  apply sends_bind;
    [exact _
    | apply sends_eq_preserved, (request_loop_quiet World sys) |].
  intros [|count|]; [apply start_failed_sane | | apply sends_ret; exact _].
  destruct (Z.leb_spec count 0); cbn [orb]; [apply start_failed_sane|].
  destruct (Z.ltb_spec 16 count); [apply start_failed_sane|].
  apply start_pool_sane. lia.
Qed.

Lemma StartCapture_sane : sends World (preserved sane) StartCapture.
Proof.
  unfold Engine.StartCapture.
  pose proof (sends_eq_preserved sane _
                (negotiate_format_quiet World sys USE_MJPEG)).
  pose proof set_frame_rate_sane. pose proof start_failed_sane.
  pose proof start_buffers_sane. keeps_auto.
Qed.

(** X12.  The invariant [sane] of a session is kept by every run of
    operations (start, stop, ready events, image retrieval, parameter
    writes, orientation), whatever the device answers: [running] is -1, 0
    or 1, the two flags are 0 or 1, the buffer count is at most 16 and at
    least 1 while the session captures, the frame rate is positive, the
    buffer table has its 16 entries and the rotation is 0, 90, 180 or
    270. *)
Theorem session_invariant (ops : list Op) (m : Machine) :
  sane (session _ m) ->
  sane (session _ (run World sys USE_MJPEG sscanf_size ops m).2).
Proof.
  revert m. induction ops as [|o ops IH]; intros m Hs; [exact Hs|].
  cbn [Engine.run]. unfold mbind, M_bind.
  assert (Ho : sends World (preserved sane)
                 (perform World sys USE_MJPEG sscanf_size o)).
  { pose proof StartCapture_sane. pose proof StopCapture_sane.
    pose proof BufferReady_sane. pose proof GetImage_sane.
    pose proof SetControls_sane. pose proof Orientation_sane.
    destruct o; cbn [Engine.perform]; auto; keeps_auto. }
  specialize (Ho m Hs).
  destruct (perform World sys USE_MJPEG sscanf_size o m) as [[] m1].
  apply IH. exact Ho.
Qed.

Lemma set_frame_rate_lengths (ls : list Z) :
  sends World (preserved (lengths_are ls)) (set_frame_rate World sys).
Proof. unfold Engine.set_frame_rate, lengths_are. keeps_auto. Qed.

Lemma capture_started_lengths (fmt : pix_format) (ls : list Z) :
  sends World (preserved (lengths_are ls)) (capture_started World sys fmt).
Proof. unfold Engine.capture_started, lengths_are. keeps_auto. Qed.

Lemma start_pool_lengths (fmt : pix_format) (count : Z) (m m' : Machine)
    (r : TclCode * Result) :
  0 <= count ->
  (Z.to_nat count <= List.length (vbufs (session _ m)))%nat ->
  start_pool fmt count m = (r, m') -> r.1 = TCL_OK ->
  exists t, trace _ m' = trace _ m ++ t
    /\ List.length (mapped_lengths t) = Z.to_nat count
    /\ buffer_lengths (session _ m')
       = mapped_lengths t
         ++ drop (Z.to_nat count) (buffer_lengths (session _ m)).
Proof.
  intros Hc Hlen E Hok. unfold Engine.start_pool in E.
  unfold mbind, M_bind in E.
  pose proof (map_buffers_lengths (Z.to_nat count) 0 m Hlen) as Hmap.
  unfold adds in Hmap.
  destruct (map_buffers (Z.to_nat count) 0 m) as [[| |] m1];
    cbn [fst snd] in Hmap.
  2,3: unfold Engine.start_failed in E;
    unfold mbind, M_bind, mret, M_ret, Engine.modify in E;
    injection E as <- <-; discriminate.
  destruct (Hmap eq_refl) as (t1 & Ht1 & Hl1 & Hb1). clear Hmap.
  cbn [take app Nat.add] in Hb1.
  destruct (queue_buffers_adds (Z.to_nat count) 0 m1)
    as (t2 & Ht2 & G1 & _).
  pose proof (queue_buffers_quiet World sys (Z.to_nat count) 0 m1) as Hq.
  unfold adds in Ht2.
  destruct (queue_buffers (Z.to_nat count) 0 m1) as [[|] m2];
    cbn [fst snd negb] in Ht2, Hq, E.
  2: { destruct (unmapAll_result World sys count
                   (ResPosix "error querying buffer") m2) as [Er _].
       rewrite E in Er. cbn [fst] in Er. rewrite Er in Hok. discriminate. }
  unfold Engine.modify, Engine.call in E. cbn [session world trace] in E.
  destruct (sys (world _ m2) VIDIOC_STREAMON) as [rep w].
  cbn [session world trace] in E.
  destruct (ret rep <? 0).
  { match type of E with
    | unmapAll _ _ _ ?res ?m0 = _ =>
        destruct (unmapAll_result World sys count res m0) as [Er _]
    end.
    rewrite E in Er. cbn [fst] in Er. rewrite Er in Hok. discriminate. }
  match type of E with
  | capture_started _ _ _ ?m0 = _ =>
      pose proof (capture_started_adds fmt m0) as Ht3;
      pose proof (capture_started_lengths fmt
                    (buffer_lengths (session _ m0)) m0 eq_refl) as Hb3
  end.
  unfold adds in Ht3. unfold lengths_are in Hb3. rewrite E in Ht3, Hb3.
  cbn [session world trace fst snd] in Ht3, Hb3.
  exists (t1 ++ t2 ++ [VIDIOC_STREAMON; Tcl_CreateFileHandler]).
  split; [rewrite Ht3, Ht2, Ht1, <- !app_assoc; reflexivity|].
  rewrite !mapped_lengths_app, (mapped_lengths_none t2 G1).
  cbn [mapped_lengths omap list_omap mmap_length app].
  rewrite app_nil_r. split; [exact Hl1|].
  rewrite Hb3. unfold buffer_lengths in *. fields. rewrite <- Hq. exact Hb1.
Qed.

Lemma start_buffers_lengths (fmt : pix_format) (m m' : Machine)
    (r : TclCode * Result) :
  List.length (vbufs (session _ m)) = 16%nat ->
  start_buffers fmt m = (r, m') -> r.1 = TCL_OK ->
  exists t, trace _ m' = trace _ m ++ t
    /\ Z.of_nat (List.length (mapped_lengths t)) = nvbufs (session _ m')
    /\ buffer_lengths (session _ m')
       = mapped_lengths t
         ++ drop (List.length (mapped_lengths t))
              (buffer_lengths (session _ m)).
Proof.
  intros Hlen E Hok. unfold Engine.start_buffers in E.
  unfold mbind, M_bind in E.
  destruct (silent_quiet _ (request_loop_silent 16 2 0) m)
    as (t1 & Ht1 & A1 & _).
  pose proof (request_loop_quiet World sys 16 2 0 m) as Hq.
  unfold adds in Ht1. fold (request_buffers World sys) in Ht1, Hq.
  destruct (request_buffers World sys m) as [[|count|] m1];
    cbn [fst snd] in Ht1, Hq.
  1,3: unfold Engine.start_failed in E;
    unfold mbind, M_bind, mret, M_ret, Engine.modify in E;
    injection E as <- <-; discriminate.
  destruct (Z.leb_spec count 0) as [Hle|Hgt]; cbn [orb] in E;
    [|destruct (Z.ltb_spec 16 count) as [Hlt|Hge]].
  1,2: unfold Engine.start_failed in E;
    unfold mbind, M_bind, mret, M_ret, Engine.modify in E;
    injection E as <- <-; discriminate.
  destruct (start_pool_lengths fmt count m1 m' r ltac:(lia)
              ltac:(rewrite <- Hq, Hlen; lia) E Hok)
    as (t2 & Ht2 & Hl2 & Hb2).
  destruct (start_pool_started fmt count m1) as [_ Hn].
  rewrite E in Hn. cbn [fst snd] in Hn. specialize (Hn Hok).
  exists (t1 ++ t2). split; [rewrite Ht2, Ht1, <- app_assoc; reflexivity|].
  rewrite mapped_lengths_app, (mapped_lengths_none t1 A1). cbn [app].
  split; [rewrite Hl2, Hn; lia|].
  rewrite Hb2, Hl2. unfold buffer_lengths. rewrite <- Hq. reflexivity.
Qed.

(** X13.  A stop after a start that succeeded unmaps what the start
    mapped: the lengths handed to [munmap] are, in order, the lengths
    handed to [mmap]; there are as many as the session counted buffers;
    and the session is stopped afterwards. *)
Theorem stop_unmaps_what_start_mapped (m : Machine) :
  running (session _ m) <= 0 ->
  List.length (vbufs (session _ m)) = 16%nat ->
  let begun := StartCapture m in
  let stopped := StopCapture begun.2 in
  begun.1.1 = TCL_OK ->
  unmapped_lengths (since (trace _ begun.2) stopped.2)
  = mapped_lengths (since (trace _ m) begun.2)
  /\ Z.of_nat (List.length (mapped_lengths (since (trace _ m) begun.2)))
     = nvbufs (session _ begun.2)
  /\ running (session _ stopped.2) = 0.
Proof.
  intros Hrun Hlen begun stopped Hok. subst stopped begun.
  destruct (StartCapture_ok m Hrun Hok) as (Hr1 & _ & _ & Hnv & _).
  assert (exists t, trace _ (StartCapture m).2 = trace _ m ++ t
    /\ Z.of_nat (List.length (mapped_lengths t))
       = nvbufs (session _ (StartCapture m).2)
    /\ buffer_lengths (session _ (StartCapture m).2)
       = mapped_lengths t
         ++ drop (List.length (mapped_lengths t))
              (buffer_lengths (session _ m))) as (t & Ht & Hl & Hb).
  { clear Hr1 Hnv. destruct (StartCapture m) as [r m'] eqn:E.
    cbn [fst snd] in *. unfold Engine.StartCapture in E.
    unfold mbind, M_bind, Engine.get in E. cbn [session world trace] in E.
    destruct (Z.ltb_spec 0 (running (session _ m))); [lia|].
    destruct (silent_quiet _ negotiate_format_silent m)
      as (t1 & Ht1 & A1 & _).
    pose proof (negotiate_format_quiet World sys USE_MJPEG m) as Hq1.
    unfold adds in Ht1.
    destruct (negotiate_format World sys USE_MJPEG m) as [[fmt| |] m1];
      cbn [fst snd] in Ht1, Hq1.
    2: { unfold Engine.start_failed in E.
         unfold mbind, M_bind, mret, M_ret, Engine.modify in E.
         injection E as <- <-. discriminate. }
    2: { unfold mret, M_ret in E. injection E as <- <-. discriminate. }
    unfold Engine.modify in E. cbn [session world trace] in E.
    match type of E with
    | context [set_frame_rate _ _ ?m0] =>
        destruct (silent_quiet _ set_frame_rate_silent m0)
          as (t2 & Ht2 & B1 & _);
        pose proof (set_frame_rate_lengths
                      (buffer_lengths (session _ m0)) m0 eq_refl) as Hq2;
        unfold adds in Ht2; unfold lengths_are in Hq2;
        destruct (set_frame_rate World sys m0) as [[] m2]
    end.
    cbn [session world trace fst snd] in Ht2, Hq2.
    assert (Hsame : buffer_lengths (session _ m2)
                    = buffer_lengths (session _ m)).
    { rewrite Hq2. unfold buffer_lengths.
      destruct (wantFormat _ =? 0); fields; rewrite <- Hq1; reflexivity. }
    destruct (start_buffers_lengths fmt m2 m' r) as (t3 & Ht3 & Hl3 & Hb3);
      [|exact E|exact Hok|].
    { apply (f_equal List.length) in Hsame. unfold buffer_lengths in Hsame.
      rewrite !length_map in Hsame. lia. }
    exists (t1 ++ t2 ++ t3).
    split; [rewrite Ht3, Ht2, Ht1, <- !app_assoc; reflexivity|].
    rewrite !mapped_lengths_app, (mapped_lengths_none t1 A1),
      (mapped_lengths_none t2 B1). cbn [app].
    split; [exact Hl3|]. rewrite Hb3, Hsame. reflexivity. }
  pose proof (StopCapture_trace World sys (StartCapture m).2 ltac:(lia)) as Hst.
  pose proof (StopCapture_active World sys (StartCapture m).2 ltac:(lia))
    as Hss.
  unfold since at 1. rewrite Hst, drop_app_length.
  unfold since. rewrite Ht, drop_app_length.
  split; [|split; [exact Hl | rewrite Hss; reflexivity]].
  unfold stop_requests. unfold unmapped_lengths. rewrite !omap_app.
  cbn [omap list_omap munmap_length app]. rewrite app_nil_r.
  fold (unmapped_lengths
          (unmap_requests (session _ (StartCapture m).2) 0
             (Z.to_nat (nvbufs (session _ (StartCapture m).2))))).
  rewrite unmap_requests_lengths.
  - rewrite Hb, drop_0, <- Hl, Nat2Z.id. apply take_app_length.
  - apply (f_equal List.length) in Hb. rewrite length_app in Hb.
    unfold buffer_lengths in Hb. rewrite length_map in Hb. lia.
Qed.

(** *** The file handler *)

Lemma holds_ret {A} (I : Machine -> Prop) (a : A) :
  holds I (mret a : M World A).
Proof. intros m H. exact H. Qed.

Lemma holds_get (I : Machine -> Prop) : holds I (Engine.get World).
Proof. intros m H. exact H. Qed.

Lemma holds_bind {A B} (I : Machine -> Prop) (c : M World A)
    (k : A -> M World B) :
  holds I c -> (forall a, holds I (k a)) -> holds I (c ≫= k).
Proof.
  intros Hc Hk m H. unfold mbind, M_bind. specialize (Hc m H).
  destruct (c m) as [a m1]. apply Hk. exact Hc.
Qed.

Lemma holds_call (I : Machine -> Prop) (r : Request) :
  (forall m w, I m -> I {| session := session _ m; world := w;
                           trace := trace _ m ++ [r] |}) ->
  holds I (call World sys r).
Proof.
  intros Hr m H. unfold Engine.call.
  destruct (sys (world _ m) r) as [rep w]. apply Hr. exact H.
Qed.

Lemma holds_modify (I : Machine -> Prop) (f : V4L2C -> V4L2C) :
  (forall m, I m -> I {| session := f (session _ m); world := world _ m;
                         trace := trace _ m |}) ->
  holds I (Engine.modify World f).
Proof. intros Hf m H. apply Hf. exact H. Qed.

Lemma handlers_app (t1 t2 : list Request) :
  handlers (t1 ++ t2) = handlers t1 + handlers t2.
Proof. unfold handlers. rewrite !tally_app. lia. Qed.

Lemma handlers_one (r : Request) :
  handlers [r]
  = (if is_create r then 1 else 0) - (if is_delete r then 1 else 0).
Proof. unfold handlers. cbn [tally]. lia. Qed.

Ltac running_cases :=
  repeat match goal with
         | H : context [0 <? ?x] |- _ => destruct (Z.ltb_spec 0 x)
         | |- context [0 <? ?x] => destruct (Z.ltb_spec 0 x)
         end.

Ltac handler_leaf :=
  let m := fresh "m" in
  let H := fresh "H" in
  intros m; intros; unfold registered, unregistered in *;
  cbn [session world trace] in *;
  rewrite ?handlers_app, ?handlers_one;
  repeat match goal with
         | |- context [store_useOld ?p _ _] => is_var p; destruct p
         end;
  repeat match goal with
         | |- context [if ?b then _ else _] =>
             lazymatch b with
             | 0 <? _ => fail
             | _ => destruct b eqn:?
             end
         end;
  cbn [handlers tally is_create is_delete running
       set_running set_stalled set_format set_wantFormat set_greyshift
       set_mirror set_rotate set_bufrdy set_bufdone set_width set_height
       set_fps set_cbCmd set_frate set_fsize set_heap set_counters0
       set_counters1 set_nvbufs set_vbufs store_useOld] in *;
  running_cases; lia.

Ltac holds_step leaf :=
  lazymatch goal with
  | |- holds _ (mret _) => apply holds_ret
  | |- holds _ (Engine.get _) => apply holds_get
  | |- holds _ (Engine.call _ _ _) => apply holds_call; try solve [leaf]
  | |- holds _ (Engine.modify _ _) => apply holds_modify; try solve [leaf]
  | |- holds _ (_ ≫= _) => apply holds_bind; [ | intros]
  | |- holds _ (if ?b then _ else _) => destruct b eqn:?
  | |- holds _ (match ?x with _ => _ end) => destruct x eqn:?
  | |- holds _ (let _ := _ in _) => cbv zeta
  end.

Ltac holds_auto := repeat first [solve [auto] | holds_step handler_leaf].

Lemma tally_unmap_requests (p : Request -> bool) (s : V4L2C) (from n : nat) :
  (forall a l, p (v4l2_munmap a l) = false) ->
  tally p (unmap_requests s from n) = 0.
Proof.
  intros Hp. unfold unmap_requests. revert from.
  induction n as [|n IH]; intros from; [reflexivity|].
  cbn [seq map tally]. rewrite Hp, IH. reflexivity.
Qed.

Lemma handlers_stop_requests (s : V4L2C) : handlers (stop_requests s) = -1.
Proof.
  unfold stop_requests. rewrite !handlers_app. unfold handlers at 2.
  rewrite !tally_unmap_requests by reflexivity. reflexivity.
Qed.

Lemma StopCapture_registered : holds registered StopCapture.
Proof.
  intros m H. unfold registered in *.
  destruct (Z.ltb_spec 0 (running (session _ m))) as [Hr|Hr].
  - rewrite (StopCapture_trace World sys m Hr),
      (StopCapture_active World sys m Hr), handlers_app,
      handlers_stop_requests.
    cbn. lia.
  - rewrite (StopCapture_idle World sys m Hr). cbn [snd].
    destruct (Z.ltb_spec 0 (running (session _ m))); [lia | exact H].
Qed.

Lemma StopCapture_stopped (m : Machine) :
  running (session _ (StopCapture m).2) <= 0.
Proof.
  rewrite (StopCapture_session World sys m).
  destruct (Z.ltb_spec 0 (running (session _ m))); [cbn; lia | exact H].
Qed.

Lemma captureError_registered : holds registered (captureError World sys).
Proof.
  intros m H. unfold Engine.captureError. munfold.
  pose proof (StopCapture_registered m H) as H1.
  pose proof (StopCapture_stopped m) as H2.
  destruct (StopCapture m) as [c m1]. cbn [snd] in *.
  unfold registered in *. cbn [session world trace running set_cbCmd
    set_stalled set_running] in *.
  running_cases; lia.
Qed.

Lemma doCallback_registered : holds registered (doCallback World sys).
Proof.
  unfold Engine.doCallback. pose proof StopCapture_registered. holds_auto.
Qed.

Lemma BufferReady_registered (mask : Z) :
  holds registered (BufferReady mask).
Proof.
  unfold Engine.BufferReady, Engine.frameCallback.
  pose proof captureError_registered. pose proof doCallback_registered.
  holds_auto.
Qed.

Lemma GetImage_registered (flags : Z) (arg : option Tcl_Obj) :
  holds registered (GetImage World sys USE_MJPEG flags arg).
Proof.
  unfold Engine.GetImage, Engine.get_image, Engine.image_done,
    Engine.prepare_photo, Engine.prepare_raw, Engine.extract_channels,
    Engine.converted, Engine.converted_mjpeg.
  holds_auto.
Qed.

Lemma set_control_registered (key value : Tcl_Obj) :
  holds registered (set_control key value).
Proof.
  unfold Engine.set_control, Engine.set_frame_size,
    Engine.set_frame_rate_control, Engine.write_control.
  holds_auto.
Qed.

Lemma SetControls_registered (objv : list Tcl_Obj) :
  holds registered (SetControls objv).
Proof.
  induction objv as [objv IH] using (induction_ltof1 _ List.length).
  unfold ltof in IH.
  destruct objv as [|key [|value rest]]; cbn [Engine.SetControls];
    [holds_auto | holds_auto |].
  pose proof set_control_registered.
  assert (holds registered (SetControls rest)) by (apply IH; cbn; lia).
  holds_auto.
Qed.

Lemma Orientation_registered (arg : option Tcl_Obj) :
  holds registered (Orientation World arg).
Proof. unfold Engine.Orientation. holds_auto. Qed.

Lemma unregistered_registered (m : Machine) :
  unregistered m -> registered m.
Proof. unfold unregistered, registered. running_cases; lia. Qed.

Lemma munmap_up_unregistered (n from : nat) :
  holds unregistered (munmap_up n from).
Proof.
  revert from. induction n as [|n IH]; intros from; cbn [Engine.munmap_up];
    holds_auto.
Qed.

Lemma munmap_down_unregistered (i : nat) :
  holds unregistered (munmap_down i).
Proof. induction i as [|i IH]; cbn [Engine.munmap_down]; holds_auto. Qed.

Lemma map_buffers_unregistered (n i : nat) :
  holds unregistered (map_buffers n i).
Proof.
  pose proof munmap_down_unregistered.
  revert i. induction n as [|n IH]; intros i; cbn [Engine.map_buffers];
    holds_auto.
Qed.

Lemma queue_buffers_unregistered (n i : nat) :
  holds unregistered (queue_buffers n i).
Proof.
  revert i. induction n as [|n IH]; intros i; cbn [Engine.queue_buffers];
    holds_auto.
Qed.

Lemma start_failed_unregistered (res : Result) :
  holds unregistered (start_failed World res).
Proof. unfold Engine.start_failed. holds_auto. Qed.

Lemma unmapAll_unregistered (count : Z) (res : Result) :
  holds unregistered (unmapAll World sys count res).
Proof.
  unfold Engine.unmapAll. pose proof munmap_up_unregistered.
  pose proof start_failed_unregistered. holds_auto.
Qed.

Lemma try_formats_unregistered (fmts : list Z) (fmt : pix_format) :
  holds unregistered (try_formats World sys fmts fmt).
Proof.
  induction fmts as [|f rest IH]; cbn [Engine.try_formats]; holds_auto.
Qed.

Lemma negotiate_format_unregistered :
  holds unregistered (negotiate_format World sys USE_MJPEG).
Proof.
  unfold Engine.negotiate_format. pose proof try_formats_unregistered.
  holds_auto.
Qed.

Lemma set_frame_rate_unregistered :
  holds unregistered (set_frame_rate World sys).
Proof. unfold Engine.set_frame_rate. holds_auto. Qed.

Lemma request_loop_unregistered (fuel : nat) (i count : Z) :
  holds unregistered (request_loop World sys fuel i count).
Proof.
  revert i count.
  induction fuel as [|fuel IH]; intros i count; cbn [Engine.request_loop];
    holds_auto.
Qed.

Lemma registers_holds {A} (c : M World A) :
  holds unregistered c -> registers c.
Proof. intros H m Hm. apply unregistered_registered, H, Hm. Qed.

Lemma registers_bind {A B} (c : M World A) (k : A -> M World B) :
  holds unregistered c -> (forall a, registers (k a)) -> registers (c ≫= k).
Proof.
  intros Hc Hk m H. unfold mbind, M_bind. specialize (Hc m H).
  destruct (c m) as [a m1]. apply Hk. exact Hc.
Qed.

Lemma capture_started_registers (fmt : pix_format) :
  registers (capture_started World sys fmt).
Proof.
  intros m [H1 H2]. unfold Engine.capture_started, registered. munfold.
  sys_step. cbn. rewrite handlers_app, handlers_one, H1. reflexivity.
Qed.

Lemma start_pool_registers (fmt : pix_format) (count : Z) :
  registers (start_pool fmt count).
Proof.
  unfold Engine.start_pool.
  apply registers_bind; [apply map_buffers_unregistered|].
  intros [| |];
    [|apply registers_holds, start_failed_unregistered..].
  apply registers_bind; [apply queue_buffers_unregistered|].
  intros [|]; cbn [negb];
    [|apply registers_holds, unmapAll_unregistered].
  apply registers_bind; [holds_auto|]. intros [].
  apply registers_bind; [holds_auto|]. intros on.
  destruct (ret on <? 0);
    [apply registers_holds, unmapAll_unregistered
    | apply capture_started_registers].
Qed.

Lemma start_buffers_registers (fmt : pix_format) :
  registers (start_buffers fmt).
Proof.
  unfold Engine.start_buffers.
  apply registers_bind; [apply request_loop_unregistered|].
  intros [|count|];
    [apply registers_holds, start_failed_unregistered | |
     apply registers_holds, holds_ret].
  destruct ((count <=? 0) || (16 <? count));
    [apply registers_holds, start_failed_unregistered
    | apply start_pool_registers].
Qed.

Lemma StartCapture_registered : holds registered StartCapture.
Proof.
  intros m H. unfold Engine.StartCapture. munfold. msimpl.
  destruct (Z.ltb_spec 0 (running (session _ m))) as [Hr|Hr]; [exact H|].
  assert (Hu : unregistered m).
  { revert H. unfold registered, unregistered. running_cases; lia. }
  assert (Hc : registers
            (got ← negotiate_format World sys USE_MJPEG;
             match got with
             | NoFormat => start_failed World (ResPosix "error setting format")
             | UnsupportedFormat =>
                 mret (TCL_ERROR,
                       ResString "unable to set supported pixel format")
             | GotFormat fmt =>
                 Engine.modify World (set_format (pixelformat fmt));;
                 Engine.modify World
                   (fun s => if wantFormat s =? 0
                             then set_wantFormat (format s) s else s);;
                 set_frame_rate World sys;;
                 start_buffers fmt
             end)).
  { apply registers_bind; [apply negotiate_format_unregistered|].
    intros [fmt| |];
      [|apply registers_holds, start_failed_unregistered
       |apply registers_holds, holds_ret].
    apply registers_bind; [holds_auto|]. intros [].
    apply registers_bind; [holds_auto|]. intros [].
    apply registers_bind; [apply set_frame_rate_unregistered|]. intros [].
    apply start_buffers_registers. }
  exact (Hc m Hu).
Qed.

(** X14.  Across every run of operations the file handlers registered
    and not yet removed are one while the session captures and none
    otherwise: a handler is never registered twice, and never left behind
    by a stop or by an error. *)
Theorem file_handler_while_capturing (ops : list Op) (m : Machine) :
  registered m ->
  registered (run World sys USE_MJPEG sscanf_size ops m).2.
Proof.
  revert m. induction ops as [|o ops IH]; intros m Hs; [exact Hs|].
  cbn [Engine.run]. unfold mbind, M_bind.
  assert (Ho : holds registered (perform World sys USE_MJPEG sscanf_size o)).
  { pose proof StartCapture_registered. pose proof StopCapture_registered.
    pose proof BufferReady_registered. pose proof GetImage_registered.
    pose proof SetControls_registered. pose proof Orientation_registered.
    destruct o; cbn [Engine.perform]; holds_auto. }
  specialize (Ho m Hs).
  destruct (perform World sys USE_MJPEG sscanf_size o m) as [[] m1].
  apply IH. exact Ho.
Qed.

(** *** The callback command *)

Ltac announce_leaf :=
  let m := fresh "m" in
  intros m; intros; unfold announces in *;
  cbn [session world trace] in *;
  repeat match goal with
         | |- context [store_useOld ?p _ _] => is_var p; destruct p
         end;
  repeat match goal with
         | |- context [if ?b then _ else _] => destruct b eqn:?
         end;
  cbn [cbCmdLen cbCmd devId
       set_running set_stalled set_format set_wantFormat set_greyshift
       set_mirror set_rotate set_bufrdy set_bufdone set_width set_height
       set_fps set_frate set_fsize set_heap set_counters0
       set_counters1 set_nvbufs set_vbufs store_useOld] in *;
  repeat match goal with
         | H : _ /\ _ |- _ => destruct H
         end;
  repeat split; try assumption;
  try (apply Forall_app; split;
       [assumption | apply Forall_cons; split; [exact I | apply Forall_nil_2]]).

Ltac announces_auto := repeat first [solve [auto] | holds_step announce_leaf].

Section Announces.

Variable prefix : list Word.
Variable dev : string.

Lemma munmap_up_announces (n from : nat) :
  holds (announces prefix dev) (munmap_up n from).
Proof.
  revert from. induction n as [|n IH]; intros from; cbn [Engine.munmap_up];
    announces_auto.
Qed.

Lemma StopCapture_announces : holds (announces prefix dev) StopCapture.
Proof.
  unfold Engine.StopCapture. pose proof munmap_up_announces. announces_auto.
Qed.

(** The callback command is built and evaluated. *)
Lemma announce (x : Word) (m : Machine) :
  x = WStr "error" \/ (exists sequence, x = WInt sequence) ->
  announces prefix dev m ->
  announces prefix dev
    ((Engine.modify World
        (set_cbCmd (take (cbCmdLen (session _ m)) (cbCmd (session _ m))
                    ++ [WStr (devId (session _ m)); x]));;
      doCallback World sys) m).2.
Proof.
  intros Hx (H1 & H2 & H3 & H4). unfold Engine.doCallback. munfold. msimpl.
  sys_step.
  assert (Ha : announces prefix dev
            {| session := set_cbCmd
                            (take (cbCmdLen (session _ m))
                               (cbCmd (session _ m))
                             ++ [WStr (devId (session _ m)); x])
                            (session _ m);
               world := w;
               trace := trace _ m
                        ++ [Tcl_EvalEx
                              (cbCmd
                                 (set_cbCmd
                                    (take (cbCmdLen (session _ m))
                                       (cbCmd (session _ m))
                                     ++ [WStr (devId (session _ m)); x])
                                    (session _ m)))] |}).
  { unfold announces. cbn [session trace cbCmdLen cbCmd devId set_cbCmd].
    split; [|split; [|split; [exact H3|]]].
    - rewrite take_app_length'
        by (symmetry; apply length_take_le; exact H2).
      exact H1.
    - rewrite length_app, length_take_le by exact H2. lia.
    - apply Forall_app. split; [exact H4|].
      apply Forall_cons. split; [|apply Forall_nil_2].
      cbn [callback_of]. rewrite H1, H3.
      destruct Hx as [->|[sequence ->]]; [left | right; exists sequence];
        reflexivity. }
  destruct (negb (ret rep =? 0)); [|exact Ha].
  pose proof (StopCapture_announces _ Ha) as Hs.
  destruct (StopCapture _) as [c m1]. exact Hs.
Qed.

Lemma frameCallback_announces (sequence : Z) :
  holds (announces prefix dev) (frameCallback World sys sequence).
Proof.
  intros m H. unfold Engine.frameCallback. rewrite get_bind.
  apply (announce (WInt sequence) m); [right; exists sequence; reflexivity|].
  exact H.
Qed.

Lemma captureError_announces :
  holds (announces prefix dev)
    (captureError World sys;; doCallback World sys).
Proof.
  intros m H. unfold Engine.captureError.
  pose proof (StopCapture_announces m H) as Hs.
  unfold mbind at 1 2, M_bind at 1 2.
  destruct (StopCapture m) as [c m1]. cbn [snd] in Hs.
  assert (Hm : announces prefix dev
            {| session := set_stalled 0 (set_running (-1) (session _ m1));
               world := world _ m1; trace := trace _ m1 |}).
  { revert Hs. unfold announces. cbn. tauto. }
  pose proof (announce (WStr "error") _ (or_introl eq_refl) Hm) as Ha.
  exact Ha.
Qed.

Lemma BufferReady_announces (mask : Z) :
  holds (announces prefix dev) (BufferReady mask).
Proof.
  unfold Engine.BufferReady.
  pose proof captureError_announces. pose proof frameCallback_announces.
  announces_auto.
Qed.

Lemma GetImage_announces (flags : Z) (arg : option Tcl_Obj) :
  holds (announces prefix dev) (GetImage World sys USE_MJPEG flags arg).
Proof.
  unfold Engine.GetImage, Engine.get_image, Engine.image_done,
    Engine.prepare_photo, Engine.prepare_raw, Engine.extract_channels,
    Engine.converted, Engine.converted_mjpeg.
  announces_auto.
Qed.

Lemma set_control_announces (key value : Tcl_Obj) :
  holds (announces prefix dev) (set_control key value).
Proof.
  unfold Engine.set_control, Engine.set_frame_size,
    Engine.set_frame_rate_control, Engine.write_control.
  announces_auto.
Qed.

Lemma SetControls_announces (objv : list Tcl_Obj) :
  holds (announces prefix dev) (SetControls objv).
Proof.
  induction objv as [objv IH] using (induction_ltof1 _ List.length).
  unfold ltof in IH.
  destruct objv as [|key [|value rest]]; cbn [Engine.SetControls];
    [announces_auto | announces_auto |].
  pose proof set_control_announces.
  assert (holds (announces prefix dev) (SetControls rest))
    by (apply IH; cbn; lia).
  announces_auto.
Qed.

Lemma Orientation_announces (arg : option Tcl_Obj) :
  holds (announces prefix dev) (Orientation World arg).
Proof. unfold Engine.Orientation. announces_auto. Qed.

Lemma munmap_down_announces (i : nat) :
  holds (announces prefix dev) (munmap_down i).
Proof. induction i as [|i IH]; cbn [Engine.munmap_down]; announces_auto. Qed.

Lemma map_buffers_announces (n i : nat) :
  holds (announces prefix dev) (map_buffers n i).
Proof.
  pose proof munmap_down_announces.
  revert i. induction n as [|n IH]; intros i; cbn [Engine.map_buffers];
    announces_auto.
Qed.

Lemma queue_buffers_announces (n i : nat) :
  holds (announces prefix dev) (queue_buffers n i).
Proof.
  revert i. induction n as [|n IH]; intros i; cbn [Engine.queue_buffers];
    announces_auto.
Qed.

Lemma try_formats_announces (fmts : list Z) (fmt : pix_format) :
  holds (announces prefix dev) (try_formats World sys fmts fmt).
Proof.
  induction fmts as [|f rest IH]; cbn [Engine.try_formats]; announces_auto.
Qed.

Lemma request_loop_announces (fuel : nat) (i count : Z) :
  holds (announces prefix dev) (request_loop World sys fuel i count).
Proof.
  revert i count.
  induction fuel as [|fuel IH]; intros i count; cbn [Engine.request_loop];
    announces_auto.
Qed.

Lemma StartCapture_announces : holds (announces prefix dev) StartCapture.
Proof.
  unfold Engine.StartCapture, Engine.negotiate_format, Engine.set_frame_rate,
    Engine.start_buffers, Engine.request_buffers, Engine.start_pool,
    Engine.unmapAll, Engine.start_failed, Engine.capture_started.
  pose proof try_formats_announces. pose proof request_loop_announces.
  pose proof map_buffers_announces. pose proof queue_buffers_announces.
  pose proof munmap_up_announces.
  announces_auto.
Qed.

(** X15.  Every script the engine evaluates, across every run of
    operations, is the callback command of the session followed by the
    device id and then a frame sequence number or the word "error"; no
    operation changes the command or the id. *)
Theorem callbacks_announce_the_device (ops : list Op) (m : Machine) :
  announces prefix dev m ->
  announces prefix dev (run World sys USE_MJPEG sscanf_size ops m).2.
Proof.
  revert m. induction ops as [|o ops IH]; intros m Hs; [exact Hs|].
  cbn [Engine.run]. unfold mbind, M_bind.
  assert (Ho : holds (announces prefix dev)
                 (perform World sys USE_MJPEG sscanf_size o)).
  { pose proof StartCapture_announces. pose proof StopCapture_announces.
    pose proof BufferReady_announces. pose proof GetImage_announces.
    pose proof SetControls_announces. pose proof Orientation_announces.
    destruct o; cbn [Engine.perform]; announces_auto. }
  specialize (Ho m Hs).
  destruct (perform World sys USE_MJPEG sscanf_size o m) as [[] m1].
  apply IH. exact Ho.
Qed.

End Announces.

(** *** A callback script that fails *)

Section FailingScript.

Hypothesis script_fails : forall w cmd, ret (sys w (Tcl_EvalEx cmd)).1 <> 0.

Lemma doCallback_failing (m : Machine) :
  running (session _ (doCallback World sys m).2) <= 0.
Proof.
  unfold Engine.doCallback. munfold. msimpl.
  pose proof (script_fails (world _ m) (cbCmd (session _ m))) as Hf.
  destruct (sys (world _ m) (Tcl_EvalEx (cbCmd (session _ m)))) as [rep w].
  cbn [fst] in Hf. msimpl.
  destruct (Z.eqb_spec (ret rep) 0) as [|_]; [contradiction|]. cbn [negb].
  match goal with
  | |- context [StopCapture ?m0] =>
      pose proof (StopCapture_stopped m0) as Hs;
      destruct (StopCapture m0) as [c m1]
  end.
  exact Hs.
Qed.

Lemma frameCallback_failing (sequence : Z) (m : Machine) :
  running (session _ (frameCallback World sys sequence m).2) <= 0.
Proof.
  unfold Engine.frameCallback. munfold. msimpl. apply doCallback_failing.
Qed.

Lemma captureError_failing (m : Machine) :
  running (session _ ((captureError World sys;; doCallback World sys) m).2)
  <= 0.
Proof.
  rewrite (captureError_doCallback World sys m). unfold error_fields.
  cbn. lia.
Qed.

(** X16.  When the callback script fails (every evaluation gives a code
    other than [TCL_OK]), a ready event either evaluated no script and
    left [running] as it was, or leaves the session not capturing: a
    callback that fails stops the capture. *)
Theorem failing_script_stops_capture (mask : Z) (m : Machine) :
  let m' := (BufferReady mask m).2 in
  running (session _ m') <= 0
  \/ (tally is_eval (since (trace _ m) m') = 0
      /\ running (session _ m') = running (session _ m)).
Proof.
  intros m'. subst m'. unfold Engine.BufferReady.
  destruct (Z.land mask TCL_READABLE =? 0).
  { right. unfold since. cbn. rewrite drop_all. auto. }
  munfold. sys_step.
  destruct (ret rep <? 0).
  - destruct ((errno rep =? EAGAIN) || (errno rep =? EWOULDBLOCK)).
    + msimpl. destruct (negb (stalled (session _ m) =? 0)).
      * left. apply captureError_failing.
      * msimpl. destruct (sys w (nanosleep 10000000)) as [rep1 w1]. msimpl.
        right. unfold since. cbn [trace session running set_stalled].
        rewrite <- app_assoc, drop_app_length. auto.
    + left. apply captureError_failing.
  - msimpl. cbn [bufrdy set_counters0 set_bufdone set_stalled].
    destruct (0 <=? bufrdy (session _ m)).
    + msimpl.
      destruct (sys w (VIDIOC_QBUF (bufrdy (session _ m)))) as [rep0 w0].
      msimpl. destruct (ret rep0 <? 0).
      * left. apply captureError_failing.
      * left. apply frameCallback_failing.
    + left. apply frameCallback_failing.
Qed.

End FailingScript.
(** *** The formats a start asks for *)

Section Formats.

Variable before : list Request.
Variable fmts : list Z.
Variables w h : Z.

Ltac format_leaf :=
  let m := fresh "m" in
  let t := fresh "t" in
  let Ht := fresh "Ht" in
  let Hf := fresh "Hf" in
  intros m; intros;
  match goal with
  | H : asked_within _ _ _ _ _ |- _ => destruct H as (t & Ht & Hf)
  end;
  cbn [session world trace] in *;
  first
    [ exists t; split; [exact Ht | exact Hf]
    | eexists (t ++ [_]); split;
      [rewrite Ht, <- app_assoc; reflexivity
      | apply Forall_app; split;
        [exact Hf | apply Forall_cons; split; [exact I | apply Forall_nil_2]]] ].

Ltac formats_auto := repeat first [solve [auto] | holds_step format_leaf].

Lemma munmap_up_formats (n from : nat) :
  holds (asked_within before fmts w h) (munmap_up n from).
Proof.
  revert from. induction n as [|n IH]; intros from; cbn [Engine.munmap_up];
    formats_auto.
Qed.

Lemma munmap_down_formats (i : nat) :
  holds (asked_within before fmts w h) (munmap_down i).
Proof. induction i as [|i IH]; cbn [Engine.munmap_down]; formats_auto. Qed.

Lemma map_buffers_formats (n i : nat) :
  holds (asked_within before fmts w h) (map_buffers n i).
Proof.
  pose proof munmap_down_formats.
  revert i. induction n as [|n IH]; intros i; cbn [Engine.map_buffers];
    formats_auto.
Qed.

Lemma queue_buffers_formats (n i : nat) :
  holds (asked_within before fmts w h) (queue_buffers n i).
Proof.
  revert i. induction n as [|n IH]; intros i; cbn [Engine.queue_buffers];
    formats_auto.
Qed.

Lemma request_loop_formats (fuel : nat) (i count : Z) :
  holds (asked_within before fmts w h) (request_loop World sys fuel i count).
Proof.
  revert i count.
  induction fuel as [|fuel IH]; intros i count; cbn [Engine.request_loop];
    formats_auto.
Qed.

(** After the format: the frame rate, the buffers, the stream. *)
Lemma start_rest_formats (fmt : pix_format) :
  holds (asked_within before fmts w h)
    (set_frame_rate World sys;; start_buffers fmt).
Proof.
  unfold Engine.set_frame_rate, Engine.start_buffers,
    Engine.request_buffers, Engine.start_pool, Engine.unmapAll,
    Engine.start_failed, Engine.capture_started.
  pose proof request_loop_formats. pose proof map_buffers_formats.
  pose proof queue_buffers_formats. pose proof munmap_up_formats.
  formats_auto.
Qed.

Lemma format_asked (f : Z) (m : Machine) (w1 : World) :
  In f fmts -> asked_within before fmts w h m ->
  asked_within before fmts w h
    {| session := session _ m; world := w1;
       trace := trace _ m ++ [VIDIOC_S_FMT f w h] |}.
Proof.
  intros Hin (t & Ht & Hf). exists (t ++ [VIDIOC_S_FMT f w h]).
  cbn [trace]. split; [rewrite Ht, <- app_assoc; reflexivity|].
  apply Forall_app. split; [exact Hf|].
  apply Forall_cons. split; [cbn; auto | apply Forall_nil_2].
Qed.

Lemma try_formats_asked (l : list Z) (fmt : pix_format) :
  pix_width fmt = w -> pix_height fmt = h ->
  (forall f, In f l -> In f fmts) ->
  holds (asked_within before fmts w h) (try_formats World sys l fmt).
Proof.
  intros Hw Hh. induction l as [|f rest IH]; intros Hsub m Hm;
    cbn [Engine.try_formats]; [exact Hm|].
  munfold. rewrite Hw, Hh.
  destruct (sys (world _ m) (VIDIOC_S_FMT f w h)) as [rep w1].
  pose proof (format_asked f m w1 (Hsub f (or_introl eq_refl)) Hm) as H1.
  destruct (0 <=? ret rep); [exact H1|].
  apply IH; [|exact H1]. intros g Hg. apply Hsub. right. exact Hg.
Qed.

End Formats.

Lemma in_formats_In (f : Z) (l : list Z) : in_formats f l = true -> In f l.
Proof.
  unfold in_formats. rewrite existsb_exists. intros (x & Hx & E).
  apply Z.eqb_eq in E. subst x. exact Hx.
Qed.

Lemma negotiate_format_asked (m : Machine) :
  let s := session _ m in
  let c := negotiate_format World sys USE_MJPEG m in
  asked_within (trace _ m) (catalogue USE_MJPEG s) (Engine.width s)
    (Engine.height s) c.2
  /\ session _ c.2 = s
  /\ match c.1 with
     | GotFormat fmt =>
         wantFormat s = 0 -> In (pixelformat fmt) (catalogue USE_MJPEG s)
     | _ => True
     end.
Proof.
  intros s c. subst c.
  pose proof (negotiate_format_quiet World sys USE_MJPEG m) as Hq.
  split; [|split; [symmetry; exact Hq|]].
  - unfold Engine.negotiate_format. rewrite get_bind. cbv zeta.
    fold s. fold (catalogue USE_MJPEG s).
    assert (H0 : asked_within (trace _ m) (catalogue USE_MJPEG s)
                   (Engine.width s) (Engine.height s) m).
    { exists []. rewrite app_nil_r. split; [reflexivity | apply Forall_nil_2]. }
    assert (Hcat : holds (asked_within (trace _ m) (catalogue USE_MJPEG s)
                            (Engine.width s) (Engine.height s))
              (got ← try_formats World sys (catalogue USE_MJPEG s)
                       {| pixelformat := 0; pix_width := Engine.width s;
                          pix_height := Engine.height s |};
               match got with
               | None => mret NoFormat
               | Some fmt' =>
                   if in_formats (pixelformat fmt') (catalogue USE_MJPEG s)
                   then mret (GotFormat fmt')
                   else mret UnsupportedFormat
               end)).
    { apply holds_bind; [apply try_formats_asked; auto|].
      intros [fmt'|]; [destruct (in_formats _ _)|]; apply holds_ret. }
    destruct (negb (wantFormat s =? 0)
              && in_formats (wantFormat s) (catalogue USE_MJPEG s)) eqn:Ew;
      [|apply Hcat; exact H0].
    apply andb_prop in Ew. destruct Ew as [_ Ein].
    munfold. cbn [pix_width pix_height].
    destruct (sys (world _ m)
                (VIDIOC_S_FMT (wantFormat s) (Engine.width s)
                   (Engine.height s))) as [rep w1].
    pose proof (format_asked _ _ _ _ (wantFormat s) m w1
                  (in_formats_In _ _ Ein) H0) as H1.
    destruct (0 <=? ret rep); [exact H1 | apply Hcat; exact H1].
  - unfold Engine.negotiate_format. rewrite get_bind. cbv zeta.
    fold s. fold (catalogue USE_MJPEG s).
    destruct (Z.eqb_spec (wantFormat s) 0) as [E0|E0]; cbn [negb andb].
    + unfold mbind, M_bind.
      destruct (try_formats World sys _ _ m) as [[fmt'|] m1]; cbn [fst];
        [|exact I].
      destruct (in_formats (pixelformat fmt') (catalogue USE_MJPEG s)) eqn:Ei;
        cbn [fst]; [|exact I].
      intros _. apply in_formats_In. exact Ei.
    + match goal with
      | |- match (?c).1 with _ => _ end =>
          destruct c as [[fmt| |] m1]
      end; cbn [fst]; try exact I.
      intros; contradiction.
Qed.

Ltac format_kept :=
  let s := fresh "s" in
  let Hs := fresh "Hs" in
  intros s Hs; unfold preserved, formats_are in *;
  repeat match goal with
         | |- context [if ?b then _ else _] => destruct b
         end;
  exact Hs.

Ltac kept_step :=
  lazymatch goal with
  | |- Engine.sends _ _ (mret _) => apply sends_ret; try exact _
  | |- Engine.sends _ _ (Engine.get _) => apply sends_get; try exact _
  | |- Engine.sends _ _ (Engine.call _ _ _) => apply sends_call; try exact _
  | |- Engine.sends _ _ (Engine.modify _ _) =>
      apply sends_modify; try solve [format_kept]
  | |- Engine.sends _ _ (_ ≫= _) =>
      apply sends_bind; [try exact _ | | intros]
  | |- Engine.sends _ _ (if ?b then _ else _) => destruct b
  | |- Engine.sends _ _ (match ?x with _ => _ end) => destruct x
  | |- Engine.sends _ _ (let _ := _ in _) => cbv zeta
  end.

Ltac kept_auto := repeat (kept_step; auto).

Lemma start_rest_keeps_format (fmt : pix_format) (f want : Z) :
  sends World (preserved (formats_are f want))
    (set_frame_rate World sys;; start_buffers fmt).
Proof.
  unfold Engine.set_frame_rate, Engine.start_buffers,
    Engine.request_buffers, Engine.start_pool, Engine.unmapAll,
    Engine.start_failed, Engine.capture_started.
  pose proof (fun fuel i c =>
                sends_eq_preserved (formats_are f want) _
                  (request_loop_quiet World sys fuel i c)).
  pose proof (fun n i =>
                sends_eq_preserved (formats_are f want) _
                  (queue_buffers_quiet World sys n i)).
  pose proof (fun n i =>
                sends_eq_preserved (formats_are f want) _
                  (munmap_up_quiet World sys n i)).
  assert (forall n i, sends World (preserved (formats_are f want))
                        (map_buffers n i)).
  { pose proof (fun k => sends_eq_preserved (formats_are f want) _
                           (munmap_down_quiet World sys k)).
    induction n as [|n IH]; intros i; cbn [Engine.map_buffers]; kept_auto. }
  kept_auto.
Qed.

(** The session once the format is noted ([gotFormat]). *)
Lemma StartCapture_phases (m : Machine) :
  running (session _ m) <= 0 ->
  StartCapture m
  = let (got, m1) := negotiate_format World sys USE_MJPEG m in
    match got with
    | NoFormat => start_failed World (ResPosix "error setting format") m1
    | UnsupportedFormat =>
        ((TCL_ERROR, ResString "unable to set supported pixel format"), m1)
    | GotFormat fmt =>
        (set_frame_rate World sys;; start_buffers fmt)
          {| session := noted_format fmt (session _ m1);
             world := world _ m1; trace := trace _ m1 |}
    end.
Proof.
  intros Hr. unfold Engine.StartCapture. rewrite get_bind.
  destruct (Z.ltb_spec 0 (running (session _ m))); [lia|].
  unfold mbind at 1, M_bind at 1.
  destruct (negotiate_format World sys USE_MJPEG m) as [[fmt| |] m1];
    reflexivity.
Qed.

(** X17.  Every [VIDIOC_S_FMT] of a start asks for the width and height
    of the session and for a format of the catalogue ([FormatsLoop] for
    a loop device, [FormatsNormal] otherwise).  After a start that
    succeeded on a session that wanted no format in particular, the
    format of the session is one of the catalogue, and is the format
    wanted from then on. *)
Theorem start_asks_within_catalogue (m : Machine) :
  let s := session _ m in
  let r := StartCapture m in
  asked_within (trace _ m) (catalogue USE_MJPEG s) (Engine.width s)
    (Engine.height s) r.2
  /\ (running s <= 0 -> r.1.1 = TCL_OK -> wantFormat s = 0 ->
      In (format (session _ r.2)) (catalogue USE_MJPEG s)
      /\ wantFormat (session _ r.2) = format (session _ r.2)).
Proof.
  intros s r. subst r.
  destruct (Z.ltb_spec 0 (running s)) as [Hr|Hr].
  { unfold Engine.StartCapture. rewrite get_bind. fold s.
    destruct (Z.ltb_spec 0 (running s)); [|lia].
    split; [|intros; lia]. exists []. cbn. rewrite app_nil_r.
    split; [reflexivity | apply Forall_nil_2]. }
  rewrite (StartCapture_phases m Hr).
  pose proof (negotiate_format_asked m) as (Ha & Hs & Hf). fold s in Ha, Hs, Hf.
  destruct (negotiate_format World sys USE_MJPEG m) as [[fmt| |] m1];
    cbn [fst snd] in Ha, Hs, Hf.
  - match goal with
    | |- context [(set_frame_rate World sys ≫= ?k) ?m0] =>
        pose proof (start_rest_formats (trace _ m) (catalogue USE_MJPEG s)
                      (Engine.width s) (Engine.height s) fmt m0 Ha) as H1;
        pose proof (start_rest_keeps_format fmt (format (session _ m0))
                      (wantFormat (session _ m0)) m0 (conj eq_refl eq_refl))
          as H2
    end.
    split; [exact H1|]. intros _ _ Hw. destruct H2 as [H2 H3].
    rewrite H2, H3. cbn [session]. rewrite Hs. unfold noted_format.
    cbn [wantFormat format set_format]. rewrite Hw. cbn [Z.eqb].
    cbn [wantFormat format set_format set_wantFormat].
    split; [exact (Hf Hw) | reflexivity].
  - split; [|intros _ Hok; exfalso; revert Hok].
    + unfold Engine.start_failed. munfold. cbn [snd trace].
      destruct Ha as (t & Ht & Hft). exists t. cbn [trace]. auto.
    + unfold Engine.start_failed. munfold. cbn. discriminate.
  - split; [exact Ha|]. cbn. discriminate.
Qed.


End Facts.

End SessionFacts.

(** ** Controls as text *)

Module ControlsFacts.
Import Engine Controls EngineFacts.

(** *** Bytes of a four character code *)

Lemma land_shifted (a b k : Z) :
  0 <= k -> 0 <= a < 2 ^ k -> Z.land a (Z.shiftl b k) = 0.
Proof.
  intros Hk Ha. apply Z.bits_inj'. intros n Hn.
  rewrite Z.land_spec, Z.bits_0.
  destruct (Z.lt_ge_cases n k) as [H|H].
  - rewrite (Z.shiftl_spec_low b k n H). apply andb_false_r.
  - replace a with (a mod 2 ^ k) by (apply Z.mod_small; lia).
    rewrite Z.mod_pow2_bits_high by lia. reflexivity.
Qed.

Lemma lor_shifted (a b k : Z) :
  0 <= k -> 0 <= a < 2 ^ k -> Z.lor a (Z.shiftl b k) = a + b * 2 ^ k.
Proof.
  intros Hk Ha. pose proof (Z.add_lor_land a (Z.shiftl b k)) as H.
  rewrite (land_shifted a b k Hk Ha) in H.
  rewrite Z.shiftl_mul_pow2 in * by lia. lia.
Qed.

Lemma fourcc_sum (a b c d : Z) :
  0 <= a < 256 -> 0 <= b < 256 -> 0 <= c < 256 -> 0 <= d ->
  v4l2_fourcc a b c d = a + b * 2 ^ 8 + c * 2 ^ 16 + d * 2 ^ 24.
Proof.
  intros Ha Hb Hc Hd. unfold v4l2_fourcc.
  rewrite (lor_shifted a b 8) by lia.
  replace (Z.lor (Z.shiftl c 16) (Z.shiftl d 24))
    with (Z.shiftl (Z.lor c (Z.shiftl d 8)) 16).
  2: { rewrite Z.shiftl_lor, Z.shiftl_shiftl by lia. reflexivity. }
  rewrite (lor_shifted c d 8) by lia.
  rewrite lor_shifted by lia. lia.
Qed.

Lemma code_value (a b c d : Z) :
  plain_code a b c d ->
  let f := v4l2_fourcc a b c d in
  0 < f < 2 ^ 31
  /\ f mod 256 = a /\ Z.shiftr f 8 mod 256 = b
  /\ Z.shiftr f 16 mod 256 = c /\ Z.shiftr f 24 mod 256 = d.
Proof.
  intros (Ha & Hb & Hc & Hd) f. subst f.
  rewrite fourcc_sum by lia. rewrite !Z.shiftr_div_pow2 by lia.
  split; [lia|].
  split; [symmetry; apply (Z.mod_unique _ _ (b + c * 2 ^ 8 + d * 2 ^ 16)); lia|].
  replace ((a + b * 2 ^ 8 + c * 2 ^ 16 + d * 2 ^ 24) / 2 ^ 8)
    with (b + c * 2 ^ 8 + d * 2 ^ 16)
    by (apply (Z.div_unique _ _ _ a); lia).
  replace ((a + b * 2 ^ 8 + c * 2 ^ 16 + d * 2 ^ 24) / 2 ^ 16)
    with (c + d * 2 ^ 8)
    by (apply (Z.div_unique _ _ _ (a + b * 2 ^ 8)); lia).
  replace ((a + b * 2 ^ 8 + c * 2 ^ 16 + d * 2 ^ 24) / 2 ^ 24) with d
    by (apply (Z.div_unique _ _ _ (a + b * 2 ^ 8 + c * 2 ^ 16)); lia).
  split; [symmetry; apply (Z.mod_unique _ _ (c + d * 2 ^ 8)); lia|].
  split; [symmetry; apply (Z.mod_unique _ _ d); lia|].
  apply Z.mod_small. lia.
Qed.

Lemma chr_code (x : Z) : 0 <= x < 256 -> Z.of_nat (nat_of_ascii (chr x)) = x.
Proof.
  intros H. unfold chr. rewrite nat_ascii_embedding by lia. lia.
Qed.

Lemma chr_eqb (x y : Z) :
  0 <= x < 256 -> 0 <= y < 256 -> Ascii.eqb (chr x) (chr y) = (x =? y).
Proof.
  intros Hx Hy. destruct (Z.eqb_spec x y) as [->|Hne].
  - apply Ascii.eqb_refl.
  - apply Ascii.eqb_neq. intros E.
    apply (f_equal (fun c => Z.of_nat (nat_of_ascii c))) in E.
    rewrite !chr_code in E by lia. contradiction.
Qed.

Lemma char_of_chr (x : Z) : 0 <= x < 128 -> char_of (chr x) = x.
Proof.
  intros H. unfold char_of. cbv zeta. rewrite chr_code by lia.
  destruct (Z.ltb_spec x 128); lia.
Qed.

Lemma fourcc_of_chrs (a b c d : Z) :
  plain_code a b c d ->
  fourcc_of [chr a; chr b; chr c; chr d] = v4l2_fourcc a b c d.
Proof.
  intros H. pose proof (code_value a b c d H) as (Hf & _).
  destruct H as (Ha & Hb & Hc & Hd).
  unfold fourcc_of. cbv zeta. cbn [nth].
  rewrite !char_of_chr by lia. unfold u32.
  rewrite (Z.mod_small a), (Z.mod_small b), (Z.mod_small c),
    (Z.mod_small d) by lia.
  rewrite !Z.shiftl_mul_pow2 by lia.
  rewrite (Z.mod_small (b * 2 ^ 8)), (Z.mod_small (c * 2 ^ 16)),
    (Z.mod_small (d * 2 ^ 24)) by lia.
  rewrite <- !Z.shiftl_mul_pow2 by lia.
  fold (v4l2_fourcc a b c d). unfold to_int.
  rewrite Z.mod_small by lia. lia.
Qed.

(** What [fourcc_str] leaves of a code, and what [SetControls] makes of
    it. *)
Lemma fourcc_str_parsed (a b c d : Z) :
  plain_code a b c d ->
  (a, b, c, d) <> (blank, blank, blank, blank) ->
  exists ch rest,
    fourcc_str (v4l2_fourcc a b c d) = String "@" (String ch rest)
    /\ fourcc_of (take 4 (list_ascii_of_string (String ch rest)))
       = v4l2_fourcc a b c d.
Proof.
  intros H Hnb. pose proof (code_value a b c d H) as (Hf & Ea & Eb & Ec & Ed).
  pose proof (fourcc_of_chrs a b c d H) as Hback.
  destruct H as (Ha & Hb & Hc & Hd).
  unfold fourcc_str.
  destruct (Z.eqb_spec (v4l2_fourcc a b c d) 0) as [E0|_]; [lia|].
  cbv zeta. change 0x7FFFFFFF with (Z.ones 31).
  rewrite Z.land_ones, (Z.mod_small _ (2 ^ 31)) by lia.
  unfold byte_char. rewrite Ea, Eb, Ec, Ed.
  fold (chr a) (chr b) (chr c) (chr d).
  cbn [strip nth]. change " "%char with (chr blank).
  rewrite !chr_eqb by (unfold blank; lia).
  assert (Hz : forall x, 1 <= x <= 127 -> Ascii.eqb (chr x) zero = false).
  { intros x Hx. change zero with (chr 0). rewrite chr_eqb by lia.
    apply Z.eqb_neq. lia. }
  destruct (Z.eqb_spec d blank) as [->|Hd'];
    [destruct (Z.eqb_spec c blank) as [->|Hc'];
     [destruct (Z.eqb_spec b blank) as [->|Hb'];
      [destruct (Z.eqb_spec a blank) as [->|Ha']; [contradiction|]|]|]|];
    cbn [take c_string]; rewrite ?Hz by (unfold blank; lia);
    change (Ascii.eqb "@" zero) with false; cbv iota;
    eexists _, _; (split; [reflexivity|]);
    cbn [list_ascii_of_string take]; exact Hback.
Qed.

Lemma after_at_app (dims rest : string) :
  after_at dims = None ->
  after_at (dims ++ String "@" rest) = Some rest.
Proof.
  induction dims as [|ch dims IH]; simpl; [reflexivity|].
  destruct (Ascii.eqb ch "@"); [discriminate | exact IH].
Qed.

(** *** Menu controls *)

(** X19.  Writing a label to a menu control.  When a value is written
    it is the index of the first choice whose label is the text (the
    text is not empty), counted from [minimum]; for a menu that starts at
    0, what [GetControls] shows for the value written is the text again.
    When nothing is written the text is empty or is the label of no
    choice of the menu. *)
Theorem menu_choice_written (vctrl : VCTRL) (value : Tcl_Obj) :
  type (qry vctrl) = V4L2_CTRL_TYPE_MENU ->
  let label := Tcl_GetString value in
  let span := maximum (qry vctrl) - minimum (qry vctrl) in
  match control_value vctrl value with
  | Some xc =>
      exists k,
        0 <= k <= span
        /\ GetZZString (ds vctrl) k = label /\ label <> EmptyString
        /\ (forall j, 0 <= j < k -> GetZZString (ds vctrl) j <> label)
        /\ xc_value xc = to_int (k + minimum (qry vctrl))
        /\ (minimum (qry vctrl) = 0 -> k < 2 ^ 31 ->
            shown_choice vctrl (xc_value xc) = label)
  | None =>
      label = EmptyString
      \/ forall k, 0 <= k <= span -> GetZZString (ds vctrl) k <> label
  end.
Proof.
  intros Ht label span. unfold control_value. rewrite Ht. cbv zeta.
  fold span. fold label.
  pose proof (find_choice_spec (Z.to_nat (span + 1)) 0 (ds vctrl) label) as H.
  destruct (find_choice (Z.to_nat (span + 1)) 0 (ds vctrl) label) as [k|].
  - destruct H as (H1 & H2 & H3 & H4). exists k. cbn [xc_value].
    split; [lia|]. split; [exact H2|]. split; [exact H3|].
    split; [|split; [reflexivity|]].
    + intros j Hj. destruct (H4 j Hj) as [Hn|Hn]; [exact Hn | contradiction].
    + intros Hm Hk. unfold shown_choice. rewrite Hm, Z.add_0_r.
      unfold to_int. rewrite Z.mod_small by lia.
      replace (k + 2 ^ 31 - 2 ^ 31) with k by lia. exact H2.
  - destruct (String.eqb_spec label EmptyString) as [E|E]; [left; exact E|].
    right. intros k Hk. destruct (H k ltac:(lia)) as [Hn|Hn];
      [exact Hn | contradiction].
Qed.

Section Writes.

Variable World : Type.
Variable sys : World -> Request -> Reply * World.
Variable sscanf_size : string -> option (Z * Z).

#[local] Existing Instance M_ret.
#[local] Existing Instance M_bind.

Abbreviation Machine := (Machine World).
Abbreviation set_frame_size := (set_frame_size World sscanf_size).
Abbreviation set_control := (set_control World sys sscanf_size).
Abbreviation SetControls := (SetControls World sys sscanf_size).
Abbreviation write_control := (write_control World sys).

(** X18.  The frame size text that [GetControls] prints is read back by
    [SetControls].  For a four character code of 7 bit characters that
    are not all blanks, and a "width"x"height" text without an at-sign,
    writing that text followed by [fourcc_str] of the code to the frame
    size of a session that does not capture stores the code as the format
    wanted, and the width and height that [sscanf] read. *)
Theorem frame_size_format_round_trip (a b c d w h : Z) (dims : string)
    (value : Tcl_Obj) (m : Machine) :
  plain_code a b c d ->
  (a, b, c, d) <> (blank, blank, blank, blank) ->
  after_at dims = None ->
  Tcl_GetString value = (dims ++ fourcc_str (v4l2_fourcc a b c d))%string ->
  sscanf_size (Tcl_GetString value) = Some (w, h) ->
  0 < w -> 0 < h -> running (session _ m) <= 0 ->
  let s' := session _ (set_frame_size value m).2 in
  wantFormat s' = v4l2_fourcc a b c d /\ Engine.width s' = w
  /\ Engine.height s' = h.
Proof.
  intros Hp Hnb Hd Hv Hs Hw Hh Hr s'. subst s'.
  destruct (fourcc_str_parsed a b c d Hp Hnb) as (ch & rest & E1 & E2).
  unfold Engine.set_frame_size.
  unfold mbind, M_bind, mret, M_ret, Engine.get, Engine.modify.
  cbn [session world trace]. rewrite Hs.
  destruct (Z.ltb_spec 0 w); [|lia]. destruct (Z.ltb_spec 0 h); [|lia].
  destruct (Z.leb_spec (running (session _ m)) 0); [|lia]. cbn [andb].
  cbn [session world trace]. rewrite Hv, E1, (after_at_app dims _ Hd).
  cbn [session world trace]. rewrite E2. cbn. auto.
Qed.

Lemma control_value_useOld (v : Z) (vctrl : VCTRL) (value : Tcl_Obj) :
  control_value (set_useOld v vctrl) value = control_value vctrl value.
Proof. reflexivity. Qed.

(** X20.  A control whose write with [VIDIOC_S_EXT_CTRLS] is refused with
    [EINVAL] is written with [VIDIOC_S_CTRL] instead, and when that
    succeeds the control is marked: every later write to it asks for
    [VIDIOC_S_CTRL] only, with the new value, and leaves the session as
    it is. *)
Theorem old_ioctl_is_remembered (key value value' : Tcl_Obj) (a : Z)
    (vctrl : VCTRL) (xc xc' : v4l2_ext_control) (m : Machine) :
  let s := session _ m in
  let xid := id (qry vctrl) in
  let ext := VIDIOC_S_EXT_CTRLS (V4L2_CTRL_ID2CLASS xid) xid (xc_value xc)
               (xc_value64 xc) in
  let old := VIDIOC_S_CTRL xid (xc_value xc) in
  nctrl s !! Tcl_GetString key = Some (P_alloc a) ->
  heap s !! a = Some vctrl ->
  Z.land (flags (qry vctrl)) V4L2_CTRL_FLAG_READ_ONLY = 0 ->
  Z.land (flags (qry vctrl)) V4L2_CTRL_FLAG_INACTIVE = 0 ->
  useOld vctrl < 0 ->
  control_value vctrl value = Some xc ->
  control_value vctrl value' = Some xc' ->
  ret (sys (world _ m) ext).1 < 0 ->
  errno (sys (world _ m) ext).1 = EINVAL ->
  ret (sys (sys (world _ m) ext).2 old).1 = 0 ->
  let first := set_control key value m in
  first.1 = None
  /\ trace _ first.2 = trace _ m ++ [ext; old]
  /\ heap (session _ first.2) !! a = Some (set_useOld 1 vctrl)
  /\ forall w t,
       let m1 := {| session := session _ first.2; world := w; trace := t |} in
       trace _ (set_control key value' m1).2
       = t ++ [VIDIOC_S_CTRL xid (xc_value xc')]
       /\ session _ (set_control key value' m1).2 = session _ first.2.
Proof.
  intros s xid ext old Hn Hh Hro Hin Hu Hv Hv' H1 H2 H3 first.
  subst first s.
  assert (Hfirst : set_control key value m
            = (None,
               {| session := store_useOld (P_alloc a) 1 (session _ m);
                  world := (sys (sys (world _ m) ext).2 old).2;
                  trace := trace _ m ++ [ext; old] |})).
  { unfold Engine.set_control, Engine.write_control.
    unfold mbind, M_bind, mret, M_ret, Engine.get, Engine.modify, Engine.call.
    cbn [session world trace]. rewrite Hn. cbn [deref]. rewrite Hh, Hro, Hin.
    cbn [Z.eqb negb orb]. rewrite Hv. cbv zeta.
    destruct (Z.ltb_spec 0 (useOld vctrl)); [lia|].
    fold xid. fold ext.
    destruct (sys (world _ m) ext) as [r1 w1]. cbn [fst snd] in H1, H2, H3.
    cbn [session world trace fst snd].
    destruct (Z.ltb_spec (ret r1) 0); [|lia]. rewrite H2.
    destruct (Z.ltb_spec (useOld vctrl) 0); [|lia].
    change (EINVAL =? EINVAL) with true. cbn [andb]. fold old.
    cbn [session world trace].
    destruct (sys w1 old) as [r2 w2]. cbn [fst snd] in H3.
    cbn [session world trace fst snd]. rewrite H3. cbn [Z.eqb].
    rewrite <- app_assoc. reflexivity. }
  rewrite Hfirst. cbn [fst snd session world trace store_useOld].
  split; [reflexivity|]. split; [reflexivity|].
  assert (Hh' : alter (set_useOld 1) a (heap (session _ m)) !! a
                = Some (set_useOld 1 vctrl))
    by (rewrite lookup_alter_eq, Hh; reflexivity).
  split; [exact Hh'|].
  intros w t.
  unfold Engine.set_control, Engine.write_control.
  unfold mbind, M_bind, mret, M_ret, Engine.get, Engine.modify, Engine.call.
  cbn [session world trace nctrl set_heap]. rewrite Hn.
  cbn [deref heap set_heap]. rewrite Hh'.
  cbn [qry flags set_useOld useOld]. rewrite Hro, Hin.
  cbn [Z.eqb negb orb]. rewrite control_value_useOld, Hv'. cbv zeta.
  cbn [qry set_useOld useOld]. change (0 <? 1) with true. cbv iota.
  fold xid. cbn [session world trace].
  destruct (sys w (VIDIOC_S_CTRL xid (xc_value xc'))) as [r w'].
  cbn [session world trace].
  destruct (ret r <? 0); cbn [session world trace snd]; auto.
Qed.

End Writes.

End ControlsFacts.

(** ** The menus of [InitControls] *)

Module MenusFacts.
Import CStr Fixup Engine Menus FixupFacts.

Lemma of_string_bytes (s : string) : Forall in_byte (of_string s).
Proof.
  unfold of_string. apply List.Forall_map. apply Forall_forall. intros a _.
  unfold in_byte. pose proof (nat_ascii_bounded a). lia.
Qed.

Lemma fix_char_byte (c : Z) : in_byte c -> in_byte (fix_char c).
Proof.
  unfold in_byte, fix_char, tolower, hyphen. intros H.
  destruct (0 <=? c);
    [destruct (Z.leb_spec 65 c), (Z.leb_spec c 90); cbn [andb]|];
    destruct (_ && _); lia.
Qed.

Lemma lowered_bytes (name : list Z) (length : Z) :
  Forall in_byte name -> Forall in_byte (lowered name length).
Proof.
  intros H. unfold lowered. cbv zeta.
  assert (H1 : forall n, Forall in_byte
                           (map fix_char (take n name) ++ drop n name)).
  { intros n. apply Forall_app. split.
    - apply List.Forall_map. apply Forall_take.
      eapply Forall_impl; [exact H|]. apply fix_char_byte.
    - apply Forall_drop. exact H. }
  destruct (0 <? length); [|apply H1].
  apply Forall_insert; [apply H1 | unfold in_byte; lia].
Qed.

Lemma fixup_field_some (s : string) :
  exists r, fixup_field s = Some r
            /\ Forall (fun c => c <> 0 /\ is_separator c = false
                                /\ in_byte c) r.
Proof.
  unfold fixup_field. rewrite FixupName_squeeze by lia. eexists.
  split; [reflexivity|]. apply squeeze_Forall.
  pose proof (lowered_settled (name_field s) 32 ltac:(lia)) as H1.
  pose proof (cstring_nonzero (lowered (name_field s) 32)) as H2.
  assert (H3 : Forall in_byte (cstring (lowered (name_field s) 32))).
  { unfold cstring. apply Forall_take. apply lowered_bytes.
    unfold name_field. apply Forall_take. apply Forall_app. split.
    - apply of_string_bytes.
    - apply Forall_replicate. unfold in_byte. lia. }
  rewrite Forall_forall in *. intros c Hc.
  destruct (H1 c Hc). auto.
Qed.

Lemma decimal_label (i : Z) : label (decimal i).
Proof.
  unfold decimal, NilZero.string_of_int.
  destruct (Z.to_int i) as [u|u]; [|cbn; discriminate].
  destruct u; cbn; discriminate.
Qed.

Lemma to_string_label (c : Z) (r : list Z) :
  is_separator c = false -> in_byte c -> label (to_string (c :: r)).
Proof.
  intros Hs Hb. unfold to_string. cbn [map string_of_list_ascii label].
  intros E. apply (f_equal nat_of_ascii) in E.
  rewrite nat_ascii_embedding in E by (unfold in_byte in Hb; lia).
  change (nat_of_ascii ",") with 44%nat in E.
  assert (c = 44) by (unfold in_byte in Hb; lia). subst c. discriminate Hs.
Qed.

Lemma menu_entry_label (i : Z) (name : string) :
  label (menu_entry i (Some name)).
Proof.
  unfold menu_entry. destruct (fixup_field_some name) as (r & -> & Hr).
  destruct r as [|c [|d r]]; [apply decimal_label| |].
  - destruct (c =? hyphen); [apply decimal_label|].
    apply Forall_cons in Hr. destruct Hr as [(_ & Hs & Hb) _].
    apply to_string_label; assumption.
  - apply Forall_cons in Hr. destruct Hr as [(_ & Hs & Hb) _].
    apply to_string_label; assumption.
Qed.

Lemma label_shown (e : string) (rest : list string) :
  label e -> GetZZString_at (e :: rest) 0 = e.
Proof.
  destruct e as [|c e]; [contradiction|]. cbn [label GetZZString_at].
  intros Hc. destruct c as [[] [] [] [] [] [] [] []]; try reflexivity.
  contradiction Hc. reflexivity.
Qed.

Lemma entries_walk (i : Z) (replies : list (option string)) (k : nat)
    (rest : list string) :
  (k < List.length replies)%nat ->
  GetZZString_at (menu_entries i replies ++ rest) k
  = match nth k replies None with
    | None => EmptyString
    | Some name => menu_entry (i + Z.of_nat k) (Some name)
    end.
Proof.
  revert i k. induction replies as [|reply replies IH]; intros i k Hk;
    [cbn in Hk; lia|].
  cbn [menu_entries app]. destruct k as [|k].
  - cbn [nth]. rewrite Z.add_0_r. destruct reply as [name|].
    + apply label_shown, menu_entry_label.
    + reflexivity.
  - cbn [nth GetZZString_at].
    assert (He : menu_entry i reply <> EmptyString).
    { destruct reply as [name|]; [|discriminate].
      pose proof (menu_entry_label i name) as Hl.
      destruct (menu_entry i (Some name)); [contradiction | discriminate]. }
    destruct (menu_entry i reply) as [|c e]; [contradiction|].
    rewrite IH by (cbn in Hk; lia).
    replace (i + 1 + Z.of_nat k) with (i + Z.of_nat (S k)) by lia.
    reflexivity.
Qed.

(** X21.  The choices of a menu as [InitControls] stores them and
    [GetZZString] reads them.  The choice of an index whose
    [VIDIOC_QUERYMENU] failed reads as the empty string; the choice of
    any other index reads as the name the kernel gave, fixed up, or as the
    index in decimal when nothing is left of the name, and is never
    empty.  A placeholder does not end the list: the choices after it are
    found. *)
Theorem menu_placeholders (minimum : Z) (replies : list (option string))
    (k : Z) :
  0 <= k < Z.of_nat (List.length replies) ->
  let shown := GetZZString (menu_ds minimum replies) k in
  match nth (Z.to_nat k) replies None with
  | None => shown = EmptyString
  | Some name =>
      shown = menu_entry (minimum + k) (Some name) /\ shown <> EmptyString
  end.
Proof.
  intros Hk shown. subst shown. unfold GetZZString, menu_ds.
  rewrite entries_walk by lia. rewrite Z2Nat.id by lia.
  destruct (nth (Z.to_nat k) replies None) as [name|]; [|reflexivity].
  split; [reflexivity|].
  pose proof (menu_entry_label (minimum + k) name) as Hl.
  destruct (menu_entry (minimum + k) (Some name));
    [contradiction | discriminate].
Qed.

End MenusFacts.

(** ** Names that are fixed already *)

Module NameFacts.
Import CStr Fixup FixupFacts.

Lemma fix_char_fixed (c : Z) :
  is_upper c = false -> is_separator c = false -> fix_char c = c.
Proof.
  intros Hu Hs. unfold fix_char, tolower. unfold is_upper in Hu.
  rewrite Hu. destruct (0 <=? c); rewrite Hs, andb_false_r; reflexivity.
Qed.

Lemma fix_chars_fixed (r : list Z) :
  Forall (fun c => c <> 0 /\ is_upper c = false /\ is_separator c = false) r ->
  map fix_char r = r.
Proof.
  induction 1 as [|c r (_ & Hu & Hs) _ IH]; [reflexivity|].
  cbn [map]. rewrite IH, fix_char_fixed by assumption. reflexivity.
Qed.

Lemma strlen_fixed (r z : list Z) :
  Forall (fun c => c <> 0) r -> strlen (r ++ 0 :: z) = List.length r.
Proof.
  induction 1 as [|c r Hc _ IH]; [reflexivity|].
  cbn [app strlen List.length]. destruct (Z.eqb_spec c 0); [contradiction|].
  rewrite IH. reflexivity.
Qed.

Lemma squeeze_fixed (r z : list Z) :
  Forall (fun c => c <> 0) r -> adjacent_hyphens r = false ->
  last r <> Some hyphen -> squeeze (r ++ 0 :: z) = r.
Proof.
  induction r as [|c r IH]; intros Hz Ha Hl; [reflexivity|].
  apply Forall_cons in Hz. destruct Hz as [Hc Hz].
  cbn [app squeeze]. destruct (Z.eqb_spec c 0); [contradiction|].
  assert (Hl' : last r <> Some hyphen).
  { destruct r as [|d r]; [discriminate|]. exact Hl. }
  assert (Ha' : adjacent_hyphens r = false).
  { destruct r as [|d r]; [reflexivity|].
    cbn [adjacent_hyphens] in Ha. apply orb_false_elim in Ha. apply Ha. }
  destruct (Z.eqb_spec c hyphen) as [->|Hne].
  - destruct r as [|d r]; [contradiction Hl; reflexivity|].
    cbn [app]. cbn [adjacent_hyphens] in Ha.
    apply orb_false_elim in Ha. destruct Ha as [Hd _].
    rewrite Z.eqb_refl in Hd. cbn [andb] in Hd. rewrite Hd.
    apply Forall_cons in Hz. destruct Hz as [Hd0 Hz].
    destruct (Z.eqb_spec d 0); [contradiction|].
    f_equal. apply (IH ltac:(apply Forall_cons; auto) Ha' Hl').
  - f_equal. apply (IH Hz Ha' Hl').
Qed.

Lemma no_double_hyphen (r z : list Z) :
  Forall (fun c => c <> 0) r -> adjacent_hyphens r = false ->
  last r <> Some hyphen -> has_double_hyphen (r ++ 0 :: z) = false.
Proof.
  induction r as [|c r IH]; intros Hz Ha Hl; [reflexivity|].
  apply Forall_cons in Hz. destruct Hz as [Hc Hz].
  cbn [app has_double_hyphen]. destruct (Z.eqb_spec c 0); [contradiction|].
  assert (Hl' : last r <> Some hyphen).
  { destruct r as [|d r]; [discriminate|]. exact Hl. }
  destruct r as [|d r].
  - cbn [app]. destruct (Z.eqb_spec c hyphen) as [->|];
      [contradiction Hl; reflexivity|].
    reflexivity.
  - cbn [adjacent_hyphens] in Ha. apply orb_false_elim in Ha.
    destruct Ha as [Hd Ha]. cbn [app]. rewrite Hd. cbn [orb].
    apply (IH Hz Ha Hl').
Qed.

(** The buffer after the first loop still begins with the name and its
    terminator. *)
Lemma lowered_fixed (r pad : list Z) (length : Z) :
  Forall (fun c => c <> 0 /\ is_upper c = false /\ is_separator c = false) r ->
  length <= 0
  \/ Z.of_nat (List.length r) < length
     <= Z.of_nat (List.length r) + 1 + Z.of_nat (List.length pad) ->
  exists z, lowered (r ++ 0 :: pad) length = r ++ 0 :: z.
Proof.
  intros Hr Hlen.
  assert (Hz : Forall (fun c => c <> 0) r)
    by (eapply Forall_impl; [exact Hr | cbn; tauto]).
  unfold lowered. cbv zeta.
  destruct (Z.ltb_spec length 0) as [Hneg|Hnn].
  - rewrite (strlen_fixed r pad Hz).
    rewrite take_app_length, drop_app_length, (fix_chars_fixed r Hr).
    destruct (Z.ltb_spec 0 length); [lia|]. eauto.
  - destruct (Z.ltb_spec 0 length) as [Hpos|Hz0].
    + destruct Hlen as [Hlen|Hlen]; [lia|].
      assert (Hn : exists k, Z.to_nat length = (List.length r + S k)%nat)
        by (exists (Z.to_nat length - List.length r - 1)%nat; lia).
      destruct Hn as [k Hk]. rewrite Hk.
      rewrite take_app_add', drop_app_add' by reflexivity.
      cbn [take drop]. rewrite map_app, (fix_chars_fixed r Hr). cbn [map].
      change (fix_char 0) with 0. rewrite <- app_assoc. cbn [app].
      replace (Z.to_nat (length - 1)) with (List.length r + k)%nat by lia.
      rewrite insert_app_r.
      destruct k as [|k]; cbn; eauto.
    + assert (length = 0) by lia. subst length.
      change (Z.to_nat 0) with 0%nat. cbn [take drop map app]. eauto.
Qed.

(** X22.  [FixupName] changes a name only once: applied to a buffer that
    holds a name it has produced (followed by its NUL and anything else),
    with a length that is negative or takes in the whole name and lies
    inside the buffer, it gives the same name again. *)
Theorem fixup_name_idempotent (name pad r : list Z) (length length' : Z) :
  length <> 0 ->
  FixupName name length = Some r ->
  length' <= 0
  \/ Z.of_nat (List.length r) < length'
     <= Z.of_nat (List.length r) + 1 + Z.of_nat (List.length pad) ->
  FixupName (r ++ 0 :: pad) length' = Some r.
Proof.
  intros Hlen E Hlen'. rewrite (FixupName_squeeze name length Hlen) in E.
  injection E as <-.
  set (r := squeeze (lowered name length)) in *.
  assert (Hr : Forall (fun c => c <> 0 /\ is_upper c = false
                                /\ is_separator c = false) r).
  { apply squeeze_Forall.
    pose proof (lowered_settled name length Hlen) as H1.
    pose proof (cstring_nonzero (lowered name length)) as H2.
    rewrite Forall_forall in *. intros c Hc. destruct (H1 c Hc). auto. }
  assert (Hz : Forall (fun c => c <> 0) r)
    by (eapply Forall_impl; [exact Hr | cbn; tauto]).
  pose proof (squeeze_no_adjacent (lowered name length)) as Ha.
  pose proof (squeeze_last (lowered name length)) as Hl.
  fold r in Ha, Hl.
  destruct (lowered_fixed r pad length' Hr Hlen') as [z Ez].
  unfold FixupName. cbv zeta. rewrite Ez.
  rewrite (no_double_hyphen r z Hz Ha Hl), andb_false_r.
  rewrite (squeeze_fixed r z Hz Ha Hl). reflexivity.
Qed.

End NameFacts.

(** ** Loopback devices *)

Module LoopFacts.
Import Engine Convert Pixels Loop PhotoFacts PixelsFacts.

Lemma scan_nonneg (formats : list Z) (i : nat) (code : Z) :
  0 <= scan formats i code.
Proof. induction i as [|j IH]; cbn [scan]; [lia|]. destruct (_ =? _); lia. Qed.

(** X23.  [CMD_loopback] never answers "unsupported fourcc": the search
    of [FormatsLoop] ends with an index that is not negative whether the
    code is in the table or not, so every text is taken, and the pixel
    format set is the code of its first four characters (blanks where the
    text is shorter). *)
Theorem loopback_takes_any_fourcc (text : string) :
  loopback_fourcc text
  = inr (fourcc_of (take 4 (list_ascii_of_string text))).
Proof.
  unfold loopback_fourcc. cbv zeta.
  destruct (Z.ltb_spec (scan FormatsLoop (List.length FormatsLoop)
                          (fourcc_of (take 4 (list_ascii_of_string text)))) 0)
    as [H|H]; [|reflexivity].
  pose proof (scan_nonneg FormatsLoop (List.length FormatsLoop)
                (fourcc_of (take 4 (list_ascii_of_string text)))). lia.
Qed.

Lemma to_int_fits (x : Z) : 0 <= x < 2 ^ 31 -> to_int x = x.
Proof. intros H. unfold to_int. rewrite Z.mod_small; lia. Qed.

Lemma ConvertToYUV_count (blk : Tk_PhotoImageBlock) (isvu : bool) :
  pitch blk = width blk * pixelSize blk ->
  0 <= width blk * height blk ->
  exists out,
    ConvertToYUV true blk isvu = Some (out, width blk * height blk * 2)
    /\ Z.of_nat (List.length out) = width blk * height blk * 2.
Proof.
  intros Hp Hn. unfold ConvertToYUV. rewrite Hp, Z.eqb_refl. cbn [negb].
  cbv zeta. eexists. split; [reflexivity|].
  rewrite length_take, to_yuv_loop_length.
  pose proof (passes_pairs (width blk * height blk) 2 Hn ltac:(lia)) as Hpass.
  change (2 * 2) with 4 in Hpass.
  pose proof (Z.div_mod (width blk * height blk + 1) 2 ltac:(lia)).
  pose proof (Z.mod_pos_bound (width blk * height blk + 1) 2 ltac:(lia)).
  lia.
Qed.

Lemma to_grey_loop_length (n : nat) (blk : Tk_PhotoImageBlock) (inp : Z) :
  List.length (to_grey_loop n blk inp) = n.
Proof.
  revert inp. induction n as [|n IH]; intros inp; [reflexivity|].
  cbn [to_grey_loop List.length]. rewrite IH. reflexivity.
Qed.

Lemma ConvertToGREY_count (blk : Tk_PhotoImageBlock) :
  pitch blk = width blk * pixelSize blk ->
  0 <= width blk * height blk ->
  exists out,
    ConvertToGREY true blk = Some (out, width blk * height blk)
    /\ Z.of_nat (List.length out) = width blk * height blk.
Proof.
  intros Hp Hn. unfold ConvertToGREY. rewrite Hp, Z.eqb_refl. cbn [negb].
  cbv zeta. eexists. split; [reflexivity|].
  rewrite to_grey_loop_length. unfold passes.
  rewrite Z2Nat.id by (apply Z.div_pos; lia).
  replace (width blk * height blk + 1 - 1) with (width blk * height blk)
    by lia.
  apply Z.div_1_r.
Qed.

Lemma write_block_shape (s : V4L2C) (data : list Z) (length : Z) :
  let n := loopWidth s * loopHeight s in
  let blk := write_block s data length in
  0 <= loopWidth s -> 0 < loopHeight s -> n * 4 < 2 ^ 31 ->
  width blk = loopWidth s /\ height blk = loopHeight s
  /\ pitch blk = width blk * pixelSize blk
  /\ pixelSize blk
     = if length =? n * 4 then 4 else if length =? n then 1 else 3.
Proof.
  intros n blk Hw Hh Hn. subst blk. unfold write_block. cbv zeta.
  fold n. assert (Hn0 : 0 <= n) by (unfold n; nia).
  rewrite (to_int_fits n), (to_int_fits (n * 4)) by lia.
  assert (Hfit : 4 * loopWidth s < 2 ^ 31) by (unfold n in Hn; nia).
  destruct (Z.eqb_spec length (n * 4));
    [|destruct (Z.eqb_spec length n)];
    cbn [width height pitch pixelSize];
    (split; [reflexivity|]); (split; [reflexivity|]);
    (split; [|reflexivity]);
    rewrite to_int_fits by lia; ring.
Qed.

(** X24.  [CMD_write] on a loop device of [n = loopWidth * loopHeight]
    pixels takes a byte array exactly when its length is [n], [3 * n] or
    [4 * n] ("unsupported width or height" otherwise).  It hands [write]
    as many bytes as it counts: [2 * n] for the two packed YUV formats;
    for GREY the array itself when its length is [n] and [2 * n]
    converted bytes otherwise; for every other format the array
    itself. *)
Theorem write_counts (s : V4L2C) (data : list Z) :
  let n := loopWidth s * loopHeight s in
  let length := Z.of_nat (List.length data) in
  isLoopDev s <> 0 -> 0 <= loopWidth s -> 0 < loopHeight s ->
  n * 4 < 2 ^ 31 ->
  match CMD_write s true data with
  | inl e =>
      e = ResString "unsupported width or height"
      /\ length <> n /\ length <> n * 3 /\ length <> n * 4
  | inr (out, count) =>
      (length = n \/ length = n * 3 \/ length = n * 4)
      /\ Z.of_nat (List.length out) = count
      /\ count
         = if (loopFormat s =? V4L2_PIX_FMT_YUYV)
              || (loopFormat s =? V4L2_PIX_FMT_YVYU) then n * 2
           else if loopFormat s =? V4L2_PIX_FMT_GREY
                then (if length =? n then n else n * 2)
                else length
  end.
Proof.
  intros n length Hloop Hw Hh Hn.
  assert (Hn0 : 0 <= n) by (unfold n; nia).
  destruct (write_block_shape s data length Hw Hh Hn)
    as (Bw & Bh & Bp & Bs).
  fold n in Bs.
  unfold CMD_write. cbv zeta. fold n. fold length.
  rewrite (to_int_fits n), (to_int_fits (n * 3)), (to_int_fits (n * 4))
    by lia.
  destruct (Z.eqb_spec (isLoopDev s) 0) as [|_]; [contradiction|].
  assert (Hany : (negb (length =? n * 3) && negb (length =? n * 4)
                  && negb (length =? n) = false)
                 -> length = n \/ length = n * 3 \/ length = n * 4).
  { destruct (Z.eqb_spec length (n * 3)); [auto|].
    destruct (Z.eqb_spec length (n * 4)); [auto|].
    destruct (Z.eqb_spec length n); [auto|]. discriminate. }
  destruct (negb (length =? n * 3) && negb (length =? n * 4)
            && negb (length =? n)) eqn:Eno.
  { destruct (Z.eqb_spec length (n * 3)); [discriminate|].
    destruct (Z.eqb_spec length (n * 4)); [discriminate|].
    destruct (Z.eqb_spec length n); [discriminate|]. auto. }
  specialize (Hany eq_refl).
  destruct (ConvertToYUV_count (write_block s data length)
              (loopFormat s =? V4L2_PIX_FMT_YVYU) Bp)
    as (out & Ec & El); [rewrite Bw, Bh; exact Hn0|].
  rewrite Bw, Bh in Ec, El. fold n in Ec, El.
  destruct ((loopFormat s =? V4L2_PIX_FMT_YUYV)
            || (loopFormat s =? V4L2_PIX_FMT_YVYU)) eqn:Eyuv.
  - cbn [orb].
    assert (Eg : (loopFormat s =? V4L2_PIX_FMT_GREY) = false).
    { apply orb_prop in Eyuv. destruct Eyuv as [E|E];
        apply Z.eqb_eq in E; rewrite E; reflexivity. }
    rewrite Eg. cbn [andb]. rewrite Ec. auto.
  - cbn [orb]. destruct (loopFormat s =? V4L2_PIX_FMT_GREY);
      [|split; [exact Hany|]; split; reflexivity].
    cbn [andb]. rewrite Bs.
    destruct (Z.eqb_spec length (n * 4)) as [E4|E4].
    + change (4 =? 1) with false. cbv iota. rewrite Ec.
      split; [exact Hany|]. split; [exact El|].
      destruct (Z.eqb_spec length n); [lia | reflexivity].
    + destruct (Z.eqb_spec length n) as [E1|E1].
      * change (1 =? 1) with true. cbv iota.
        split; [exact Hany|]. split; [reflexivity | exact E1].
      * change (3 =? 1) with false. cbv iota. rewrite Ec.
        split; [exact Hany|]. split; [exact El | reflexivity].
Qed.

(** X25.  [CMD_writephoto] with a photo image of the size of the loop
    device, of 4 bytes a pixel and without padding.  The image has
    [4 * n] bytes.  For the packed YUV formats [2 * n] converted bytes are
    written, for GREY [n]; for every other format the pixels of the image
    are handed to [write] with a count of four times the bytes of the
    image. *)
Theorem writephoto_counts (s : V4L2C) (block : Tk_PhotoImageBlock) :
  let n := loopWidth s * loopHeight s in
  isLoopDev s <> 0 -> 0 <= loopWidth s -> 0 < loopHeight s ->
  n * 16 < 2 ^ 31 ->
  pitch block = width block * pixelSize block -> pixelSize block = 4 ->
  width block = loopWidth s -> height block = loopHeight s ->
  block_bytes block = n * 4
  /\ exists out count,
       CMD_writephoto s true block = inr (out, count)
       /\ if (loopFormat s =? V4L2_PIX_FMT_YUYV)
             || (loopFormat s =? V4L2_PIX_FMT_YVYU)
          then count = n * 2 /\ Z.of_nat (List.length out) = count
          else if loopFormat s =? V4L2_PIX_FMT_GREY
               then count = n /\ Z.of_nat (List.length out) = count
               else out = pixelPtr block /\ count = 4 * block_bytes block.
Proof.
  intros n Hloop Hw Hh Hn Hp Hs Ew Eh.
  assert (Hn0 : 0 <= n) by (unfold n; nia).
  assert (Hb : block_bytes block = n * 4).
  { unfold block_bytes, n. rewrite Hp, Hs, Ew, Eh. ring. }
  split; [exact Hb|].
  unfold CMD_writephoto.
  destruct (Z.eqb_spec (isLoopDev s) 0) as [|_]; [contradiction|].
  rewrite to_int_fits
    by (rewrite Ew, Hs; split; [lia | unfold n in Hn; nia]).
  rewrite <- Hp, Z.eqb_refl, Hs, Ew, Eh, !Z.eqb_refl. cbn [negb orb].
  cbv zeta.
  destruct ((loopFormat s =? V4L2_PIX_FMT_YUYV)
            || (loopFormat s =? V4L2_PIX_FMT_YVYU)).
  - destruct (ConvertToYUV_count block
                (loopFormat s =? V4L2_PIX_FMT_YVYU) Hp)
      as (out & Ec & El); [rewrite Ew, Eh; exact Hn0|].
    rewrite Ec. exists out, (width block * height block * 2).
    split; [reflexivity|]. rewrite El, Ew, Eh. auto.
  - destruct (loopFormat s =? V4L2_PIX_FMT_GREY).
    + destruct (ConvertToGREY_count block Hp) as (out & Ec & El);
        [rewrite Ew, Eh; exact Hn0|].
      rewrite Ec. exists out, (width block * height block).
      split; [reflexivity|]. rewrite El, Ew, Eh. auto.
    + eexists _, _. split; [reflexivity|]. split; [reflexivity|].
      rewrite Hb. rewrite Hp, Hs, Ew. fold n.
      rewrite to_int_fits; [unfold n; ring|]. unfold n in *. nia.
Qed.

End LoopFacts.

(** ** The engine on the scripted device *)

Module Scenarios.
Import Engine Sim.

Abbreviation run := (run (list Reply) scripted false no_sizes).
Abbreviation BufferReady := (BufferReady (list Reply) scripted).

(** One spurious wake-up followed by a frame keeps the session capturing. *)
Lemma ready_event_stall_witness :
  let m := boot capturing stall_then_frame in
  stalled (session _ (BufferReady 2 (BufferReady 2 m).2).2) = 0
  /\ state_of (session _ (BufferReady 2 (BufferReady 2 m).2).2) <> Error.
Proof.
  intros m.
  refine (proj1 (proj2 (proj2 (proj2 (proj2
           (EngineFacts.ready_event_stall _ scripted m 2 _ _))))) _ _ _ _).
  - vm_compute. discriminate.
  - vm_compute. reflexivity.
  - vm_compute. split; [reflexivity | left; reflexivity].
  - vm_compute. reflexivity.
  - vm_compute. discriminate.
  - left. vm_compute. reflexivity.
Defined.

(** A spurious wake-up followed by a dequeue that succeeds still ends in
    the error state when the requeue of the displaced buffer fails. *)
Lemma stall_then_frame_can_fail :
  let m0 := boot capturing stall_then_refused_requeue in
  let m := (BufferReady 2 m0).2 in
  let m1 := (BufferReady 2 m).2 in
  let m2 := (BufferReady 2 m1).2 in
  state_of (session _ m) = Capturing
  /\ would_block (dequeue_reply _ scripted m)
  /\ stalled (session _ m) = 0
  /\ 0 <= ret (dequeue_reply _ scripted m1)
  /\ state_of (session _ m2) = Error.
Proof.
  vm_compute. repeat split; try reflexivity; try discriminate.
  left. reflexivity.
Qed.

(** A driver that needs five buffers is asked for 2, 4 and 8, and the
    pool has eight. *)
Lemma buffer_pool_negotiation_witness :
  let r := StartCapture _ (kernel needs_five) false
                        (boot camera start8_script) in
  nvbufs (session _ r.2) = 8 /\ state_of (session _ r.2) = Capturing.
Proof.
  intros r.
  refine (proj2 (proj1 (EngineFacts.buffer_pool_negotiation
                          (list Reply) (kernel needs_five) false
                          (boot camera start8_script)
                          (negotiate_format _ (kernel needs_five) false
                             (boot camera start8_script)).2
                          {| pixelformat := V4L2_PIX_FMT_RGB24;
                             pix_width := 640; pix_height := 480 |}
                          _ _)) _).
  - vm_compute. discriminate.
  - vm_compute. reflexivity.
  - vm_compute. reflexivity.
Defined.

(** A driver that grants a pool only when at least nine buffers are asked
    for would grant one of 16, which is within the cap; the doubling up to
    the cap would get it; the start asks for 2, 4 and 8 only and fails. *)
Lemma pool_of_sixteen_is_never_requested :
  let r := StartCapture _ (kernel needs_nine) false
                        (boot camera start8_script) in
  in_pool_range (out1 (needs_nine 16)) = true
  /\ doubling _ (kernel needs_nine) [2; 4; 8; 16] []
     = ([2; 4; 8; 16], Some (gives 16 0 0))
  /\ r.1 = (TCL_ERROR, ResString "unable to get buffers")
  /\ state_of (session _ r.2) = Error
  /\ trace _ r.2
     = [VIDIOC_S_FMT V4L2_PIX_FMT_RGB24 640 480; VIDIOC_G_PARM;
        VIDIOC_REQBUFS 2; VIDIOC_REQBUFS 4; VIDIOC_REQBUFS 8].
Proof. vm_compute. repeat split; reflexivity. Qed.

(** A frame rate of 25 is stored. *)
Lemma frame_rate_write_witness :
  SetControls _ scripted no_sizes
              [text_obj "frame-rate"; int_obj 25 "25"] (boot camera [])
  = ((TCL_OK, ResUnset), boot (set_fps 25 camera) []).
Proof.
  refine (proj1 (EngineFacts.frame_rate_write
                   (list Reply) scripted no_sizes (boot camera [])
                   (text_obj "frame-rate") (int_obj 25 "25") 25 _ _ _)).
  - vm_compute. reflexivity.
  - reflexivity.
  - reflexivity.
Defined.

(** A frame rate of 500 is not stored as 199 or 200: the rate stays what
    it was, be it 30, or the 240 a start took from the driver. *)
Lemma frame_rate_write_not_clamped :
  let key := text_obj "frame-rate" in
  let value := int_obj 500 "500" in
  let m1 := (StartCapture _ scripted false (boot camera fast_start_script)).2 in
  let m2 := (SetControls _ scripted no_sizes [key; value] m1).2 in
  let m3 := (SetControls _ scripted no_sizes [key; value] (boot camera [])).2 in
  fps (session _ m3) = 30
  /\ state_of (session _ m1) = Capturing
  /\ fps (session _ m1) = 240
  /\ fps (session _ m2) = 240.
Proof. vm_compute. repeat split; reflexivity. Qed.

(** A label that is none of the choices of a menu, between two writes of
    the frame rate. *)
Lemma skipped_pair_is_noop_witness :
  let rate v text := (text_obj "frame-rate", int_obj v text) in
  let pair := (text_obj "power-line-frequency", text_obj "70-hz") in
  let m := boot webcam [] in
  SetControls _ scripted no_sizes
              (objv_of ([rate 25 "25"] ++ pair :: [rate 10 "10"])) m
  = SetControls _ scripted no_sizes
                (objv_of ([rate 25 "25"] ++ [rate 10 "10"])) m.
Proof.
  intros rate pair m.
  refine (proj2 (proj2 (proj2 (proj1
           (EngineFacts.skipped_pair_is_noop
              (list Reply) scripted no_sizes [rate 25 "25"] [rate 10 "10"]
              pair.1 pair.2 m
              (SetControls _ scripted no_sizes (objv_of [rate 25 "25"]) m).2
              ResUnset _) _)))).
  - vm_compute. reflexivity.
  - apply (skip_no_choice _ _ _ 1 power_line).
    + vm_compute. reflexivity.
    + vm_compute. reflexivity.
    + reflexivity.
    + intros k Hk. cbn in Hk.
      assert (k = 0 \/ k = 1 \/ k = 2) as [-> | [-> | ->]] by lia;
        vm_compute; intros E; discriminate E.
Defined.

(** The frame size is a menu, here with the one choice 640x480; the size
    320x240 is none of its choices, and is taken. *)
Lemma frame_size_outside_menu_is_applied :
  let s := fallback_camera in
  let value := text_obj "320x240" in
  let m' := (SetControls _ scripted scan_size
                         [text_obj "frame-size"; value] (boot s [])).2 in
  type (qry (fsize s)) = V4L2_CTRL_TYPE_MENU
  /\ ds (fsize s) = ["640x480"%string]
  /\ maximum (qry (fsize s)) - minimum (qry (fsize s)) = 0
  /\ GetZZString (ds (fsize s)) 0 <> Tcl_GetString value
  /\ (width s, height s) = (640, 480)
  /\ (width (session _ m'), height (session _ m')) = (320, 240)
  /\ trace _ m' = [].
Proof.
  vm_compute. repeat split; try reflexivity. intros E. discriminate E.
Qed.

(** A start, a frame, and the image fetched twice. *)
Lemma consumed_never_exceeds_captured_witness :
  let ops := [OpStart; OpReady 2; OpImage 0 None; OpImage 0 None] in
  let m := (run ops (boot camera (start_script ++ [gives 0 7 0]))).2 in
  counters0 (session _ m) = 1
  /\ counters1 (session _ m) <= counters0 (session _ m).
Proof.
  intros ops m. split; [vm_compute; reflexivity|].
  refine (proj1 (EngineFacts.consumed_never_exceeds_captured
                   (list Reply) scripted false no_sizes
                   3 0 640 480 30 "vdev0" "/dev/video0" "onframe" [] ∅ ∅ ∅
                   (start_script ++ [gives 0 7 0]) ops _)).
  vm_compute. reflexivity.
Defined.

(** A camera that has not captured anything yet. *)
Lemma get_image_without_frame_witness :
  let m := boot camera photo_script in
  GetImage _ scripted false 0 None m
  = ((TCL_ERROR, ResString "no image available"), m)
  /\ (GetImage _ scripted false 0 (Some (text_obj "img")) m).1
     = (TCL_OK, ResInt 0).
Proof.
  intros m.
  assert (Hno : bufrdy (session _ m) < 0) by (vm_compute; reflexivity).
  assert (Hph : photo_found _ scripted m (text_obj "img"))
    by (vm_compute; repeat split; intros E; discriminate E).
  pose proof (EngineFacts.get_image_without_frame
                (list Reply) scripted false m 0 Hno) as [H1 H2].
  exact (conj H1 (proj1 (H2 (text_obj "img") Hph))).
Defined.

End Scenarios.

(** ** The conversions and the names on examples *)

Module Examples.
Import CStr Fixup Convert.

(** Two pairs of grey pixels, of the values 100 and 110. *)
Lemma grey_roundtrip_witness :
  roundtrip (grey_pairs [100; 110]) 4 1 false = Some (grey_back [100; 110])
  /\ grey_back [100; 110]
     = [101; 101; 101; 101; 101; 101; 110; 110; 110; 110; 110; 110].
Proof.
  split; [|reflexivity].
  refine (proj1 (ConvertFacts.grey_roundtrip [100; 110] 4 1 false _ _)).
  - repeat constructor; unfold is_byte; lia.
  - reflexivity.
Defined.

(** A black and a white pair of pixels come back as 16 and as 235, in
    either byte ordering. *)
Lemma grey_roundtrip_off_by_more_than_two :
  roundtrip [0; 0; 0; 0; 0; 0] 2 1 false = Some [16; 16; 16; 16; 16; 16]
  /\ roundtrip [0; 0; 0; 0; 0; 0] 2 1 true = Some [16; 16; 16; 16; 16; 16]
  /\ roundtrip [255; 255; 255; 255; 255; 255] 2 1 false
     = Some [235; 235; 235; 235; 235; 235]
  /\ roundtrip [255; 255; 255; 255; 255; 255] 2 1 true
     = Some [235; 235; 235; 235; 235; 235].
Proof. vm_compute. repeat split; reflexivity. Qed.

(** The name of a control of the UVC driver. *)
Lemma fixup_name_normalized_witness :
  let text := name_text (name_field "Exposure, Auto") 32 in
  fixup_field "Exposure, Auto" = Some (of_string "exposure-auto")
  /\ text = of_string "Exposure, Auto"
  /\ exists r,
      FixupName (name_field "Exposure, Auto") 32 = Some r
      /\ r = normalized text
      /\ Forall (fun c => c <> 0 /\ is_upper c = false
                          /\ is_separator c = false) r
      /\ adjacent_hyphens r = false
      /\ last r <> Some hyphen
      /\ filter (fun c => c <> hyphen) r
         = filter (fun c => c <> hyphen) (map normal_char text)
      /\ (forall (c d : Z) (rest : list Z),
            text = c :: rest -> normal_char c = hyphen ->
            In d rest -> normal_char d <> hyphen ->
            head r = Some hyphen).
Proof.
  intros text. split; [vm_compute; reflexivity|].
  split; [vm_compute; reflexivity|].
  refine (FixupFacts.fixup_name_normalized
            (name_field "Exposure, Auto") 32 _).
  discriminate.
Defined.

(** A name that starts with a separator keeps a leading hyphen, and a
    punctuation character that is no separator stays. *)
Lemma fixup_name_keeps_leading_hyphen :
  fixup_field "(a)" = Some (of_string "-a")
  /\ fixup_field "--x" = Some (of_string "-x")
  /\ fixup_field "a!b" = Some (of_string "a!b").
Proof. vm_compute. repeat split; reflexivity. Qed.

End Examples.

(** ** The further properties on examples *)

Module FurtherExamples.
Import CStr Fixup Convert Engine Sim Photo Pixels Session Controls Loop Menus
  Cases.

(** A frame of 4 by 3 grey pixels turned by 90 degrees. *)
Lemma transform_shows_witness :
  let g := transform 90 0 4 3 (plain 4 3 1) in
  (g_width g, g_height g) = (3, 4)
  /\ shown 90 0 4 3 1 2 = (1, 1)
  /\ pixel_at g 1 2 = 5.
Proof.
  intros g.
  pose proof (PhotoFacts.transform_shows 90 0 4 3 1 1 2) as H.
  cbv zeta in H. specialize (H ltac:(change (0 <= 1 < 3); lia)
                ltac:(change (0 <= 2 < 4); lia)).
  split; [reflexivity|]. split; [reflexivity|].
  change (shown 90 0 4 3 1 2) with (1, 1) in H.
  destruct H as (_ & H & _). exact H.
Defined.

(** A colour frame of 4 by 3 pixels, turned and mirrored. *)
Lemma DataToPhoto_block_reads_witness :
  match DataToPhoto_block 4 3 3 90 true false 36 with
  | None => 36 < 4 * 3 * 3 \/ (3 <> 1 /\ 3 <> 3)
  | Some g =>
      (3 = 1 \/ 3 = 3) /\ 4 * 3 * 3 <= 36
      /\ g_width g * g_height g = 4 * 3
      /\ forall x y o : Z,
          0 <= x < g_width g -> 0 <= y < g_height g -> 0 <= o < 3 ->
          0 <= pixel_at g x y + o < 36
  end.
Proof.
  apply (PhotoFacts.DataToPhoto_block_reads 4 3 3 90 true false 36); lia.
Defined.

(** A sample of 10 bits with the shift of 4 a session starts with. *)
Lemma grey_sample_exact_witness :
  grey_sample 4 1000 = 62
  /\ 0 <= grey_sample 4 1000 < 256
  /\ grey_sample 8 1000 = 1000 / 256.
Proof.
  pose proof (PixelsFacts.grey_sample_exact 4 1000 ltac:(lia) ltac:(lia))
    as (H1 & _ & _ & H2).
  split; [reflexivity|]. split; [exact H1 | exact H2].
Defined.

(** Two pixels of a photo image. *)
Lemma ConvertToGREY_range_witness :
  match ConvertToGREY true (rgba_block two_pixels_alpha 2 1) with
  | None => False
  | Some (out, len) =>
      len = 2 /\ Z.of_nat (List.length out) = 2
      /\ Forall (fun v => 16 <= v <= 235) out
  end.
Proof.
  pose proof (PixelsFacts.ConvertToGREY_range
                (rgba_block two_pixels_alpha 2 1)) as H.
  specialize (H ltac:(repeat constructor; unfold is_byte; lia)).
  destruct (ConvertToGREY true (rgba_block two_pixels_alpha 2 1))
    as [[out len]|]; [|apply H; reflexivity].
  destruct H as (_ & H1 & H2 & H3 & _).
  split; [exact H1|]. split; [|exact H3]. rewrite H2, H1. reflexivity.
Defined.

(** A frame of 3 by 1 pixels: both loops go one pixel too far. *)
Lemma converters_overrun_witness :
  Z.of_nat (List.length (from_yuv_loop (passes 9 6) false [] 0)) = 12
  /\ Z.of_nat (List.length
                 (to_yuv_loop (passes 6 4) (rgb_block [] 3 1) false 0)) = 8.
Proof.
  pose proof (PixelsFacts.converters_overrun 3 1 false [] (rgb_block [] 3 1)
                ltac:(lia)) as (H1 & H2 & _).
  split; [exact H1 | exact H2].
Defined.

(** Two pixels in the two byte orderings. *)
Lemma byte_orderings_exchange_chroma_witness :
  ConvertFromYUV true [16; 100; 235; 200] 2 1 true
  = ConvertFromYUV true (swap_chroma [16; 100; 235; 200]) 2 1 false
  /\ ConvertToYUV true (rgb_block two_pixels 2 1) true
     = match ConvertToYUV true (rgb_block two_pixels 2 1) false with
       | Some (out, len) => Some (swap_chroma out, len)
       | None => None
       end.
Proof.
  apply (PixelsFacts.byte_orderings_exchange_chroma
           (rgb_block two_pixels 2 1) [16; 100; 235; 200] 2 1).
  - reflexivity.
  - cbn. lia.
  - reflexivity.
Defined.

(** A start, a frame, a stop and an orientation. *)
Lemma session_invariant_witness :
  let ops := [OpStart; OpReady 2; OpStop; OpOrientation None] in
  sane (session _ (run _ scripted false no_sizes ops
                       (boot camera (start_script ++ [gives 0 7 0]))).2).
Proof.
  intros ops.
  apply (SessionFacts.session_invariant (list Reply) scripted false no_sizes).
  change (sane camera). unfold sane, sane_fields, right_angle.
  cbn. repeat split; lia.
Defined.

(** A start with two buffers, and a stop. *)
Lemma stop_unmaps_what_start_mapped_witness :
  let begun := StartCapture _ scripted false (boot camera start_script) in
  let stopped := StopCapture _ scripted begun.2 in
  unmapped_lengths (since (trace _ begun.2) stopped.2)
  = mapped_lengths (since [] begun.2)
  /\ Z.of_nat (List.length (mapped_lengths (since [] begun.2)))
     = nvbufs (session _ begun.2)
  /\ running (session _ stopped.2) = 0.
Proof.
  refine (SessionFacts.stop_unmaps_what_start_mapped
            (list Reply) scripted false (boot camera start_script) _ _ _).
  - change (0 <= 0). lia.
  - reflexivity.
  - vm_compute. reflexivity.
Defined.

(** A start, a second start, a frame, a stop and a second stop. *)
Lemma file_handler_while_capturing_witness :
  let ops := [OpStart; OpStart; OpReady 2; OpStop; OpStop] in
  registered (run _ scripted false no_sizes ops
                  (boot camera (start_script ++ [gives 0 7 0]))).2.
Proof.
  intros ops.
  apply (SessionFacts.file_handler_while_capturing
           (list Reply) scripted false no_sizes).
  reflexivity.
Defined.

(** A start and two frames. *)
Lemma callbacks_announce_the_device_witness :
  let ops := [OpStart; OpReady 2; OpReady 2] in
  announces [WStr "onframe"] "vdev0"
    (run _ scripted false no_sizes ops
         (boot camera (start_script ++ [gives 0 7 0]))).2.
Proof.
  intros ops.
  apply (SessionFacts.callbacks_announce_the_device
           (list Reply) scripted false no_sizes).
  split; [reflexivity|]. split; [cbn; lia|]. split; [reflexivity|].
  constructor.
Defined.

(** A frame arrives, and the script fails. *)
Lemma failing_script_stops_capture_witness :
  let m := boot capturing [gives 0 7 0] in
  let m' := (BufferReady _ broken_callback 2 m).2 in
  running (session _ m') = 0
  /\ (running (session _ m') <= 0
      \/ (tally is_eval (since (trace _ m) m') = 0
          /\ running (session _ m') = running (session _ m))).
Proof.
  intros m m'. split; [vm_compute; reflexivity|].
  apply (SessionFacts.failing_script_stops_capture
           (list Reply) broken_callback).
  intros w cmd. cbn. discriminate.
Defined.

(** The size of a VGA frame with the code of packed YUV. *)
Lemma frame_size_format_round_trip_witness :
  let value := text_obj "640x480@YUYV" in
  let s' := session _ (set_frame_size (list Reply) vga_size value
                                      (boot camera [])).2 in
  fourcc_str V4L2_PIX_FMT_YUYV = "@YUYV"%string
  /\ wantFormat s' = V4L2_PIX_FMT_YUYV
  /\ Engine.width s' = 640 /\ Engine.height s' = 480.
Proof.
  intros value s'. split; [vm_compute; reflexivity|].
  refine (ControlsFacts.frame_size_format_round_trip
            (list Reply) vga_size 89 85 89 86 640 480 "640x480" value
            (boot camera []) _ _ _ _ _ _ _ _).
  - unfold plain_code. lia.
  - unfold blank. intros E. inversion E.
  - reflexivity.
  - vm_compute. reflexivity.
  - reflexivity.
  - lia.
  - lia.
  - change (0 <= 0). lia.
Defined.

(** The third choice of the power line control. *)
Lemma menu_choice_written_witness :
  control_value power_line (text_obj "60-hz")
  = Some {| xc_value := 2; xc_value64 := 2 |}
  /\ let label := "60-hz"%string in
     match control_value power_line (text_obj "60-hz") with
     | Some xc =>
         exists k,
           0 <= k <= 2 - 0
           /\ GetZZString (ds power_line) k = label
           /\ label <> EmptyString
           /\ (forall j, 0 <= j < k -> GetZZString (ds power_line) j <> label)
           /\ xc_value xc = to_int (k + 0)
           /\ (0 = 0 -> k < 2 ^ 31 ->
               shown_choice power_line (xc_value xc) = label)
     | None =>
         label = EmptyString
         \/ forall k, 0 <= k <= 2 - 0 -> GetZZString (ds power_line) k <> label
     end.
Proof.
  split; [vm_compute; reflexivity|].
  exact (ControlsFacts.menu_choice_written power_line (text_obj "60-hz")
           eq_refl).
Defined.

(** The brightness is written twice on a driver without extended
    controls. *)
Lemma old_ioctl_is_remembered_witness :
  let key := text_obj "brightness" in
  let first := set_control (list Reply) scripted no_sizes key
                           (int_obj 10 "10") (boot dimmer old_driver) in
  first.1 = None
  /\ trace _ first.2
     = [VIDIOC_S_EXT_CTRLS (V4L2_CTRL_ID2CLASS 9963776) 9963776 10 10;
        VIDIOC_S_CTRL 9963776 10]
  /\ heap (session _ first.2) !! 1 = Some (set_useOld 1 brightness)
  /\ forall w t,
       let m1 := {| session := session _ first.2; world := w; trace := t |} in
       trace _ (set_control (list Reply) scripted no_sizes key
                            (int_obj 20 "20") m1).2
       = t ++ [VIDIOC_S_CTRL 9963776 20]
       /\ session _ (set_control (list Reply) scripted no_sizes key
                                 (int_obj 20 "20") m1).2
          = session _ first.2.
Proof.
  refine (ControlsFacts.old_ioctl_is_remembered
            (list Reply) scripted no_sizes (text_obj "brightness")
            (int_obj 10 "10") (int_obj 20 "20") 1 brightness
            {| xc_value := 10; xc_value64 := 10 |}
            {| xc_value := 20; xc_value64 := 20 |}
            (boot dimmer old_driver) _ _ _ _ _ _ _ _ _ _).
  - vm_compute. reflexivity.
  - vm_compute. reflexivity.
  - reflexivity.
  - reflexivity.
  - reflexivity.
  - reflexivity.
  - reflexivity.
  - reflexivity.
  - reflexivity.
  - reflexivity.
Defined.

(** A menu with a gap at its second index, and a choice without a name. *)
Lemma menu_placeholders_witness :
  menu_ds 0 gappy_menu = ["disabled"; ","; "60-hz"; "3"; ""]%string
  /\ GetZZString (menu_ds 0 gappy_menu) 1 = EmptyString
  /\ GetZZString (menu_ds 0 gappy_menu) 2 = "60-hz"%string.
Proof.
  split; [vm_compute; reflexivity|].
  pose proof (MenusFacts.menu_placeholders 0 gappy_menu 1
                ltac:(cbn; lia)) as H1.
  pose proof (MenusFacts.menu_placeholders 0 gappy_menu 2
                ltac:(cbn; lia)) as (H2 & _).
  split; [exact H1|]. rewrite H2. vm_compute. reflexivity.
Defined.

(** The fixed name of a control of the UVC driver, fixed again. *)
Lemma fixup_name_idempotent_witness :
  FixupName (of_string "exposure-auto" ++ 0 :: replicate 18 0) 32
  = Some (of_string "exposure-auto").
Proof.
  refine (NameFacts.fixup_name_idempotent
            (name_field "Exposure, Auto") (replicate 18 0)
            (of_string "exposure-auto") 32 32 _ _ _).
  - discriminate.
  - vm_compute. reflexivity.
  - right. cbn. lia.
Defined.

(** Two RGB pixels written to a loop device of packed YUV. *)
Lemma write_counts_witness :
  match CMD_write (loop_device V4L2_PIX_FMT_YUYV 2 1) true two_pixels with
  | inl e => False
  | inr (out, count) => Z.of_nat (List.length out) = 4 /\ count = 4
  end.
Proof.
  pose proof (LoopFacts.write_counts (loop_device V4L2_PIX_FMT_YUYV 2 1)
                two_pixels) as H.
  cbv zeta in H.
  specialize (H ltac:(discriminate) ltac:(cbn; lia) ltac:(cbn; lia)
                ltac:(cbn; lia)).
  destruct (CMD_write (loop_device V4L2_PIX_FMT_YUYV 2 1) true two_pixels)
    as [e|[out count]].
  - destruct H as (_ & _ & H & _). apply H. reflexivity.
  - destruct H as (_ & H1 & H2). rewrite H1, H2. split; reflexivity.
Defined.

(** A photo image of two pixels written to a loop device of RGB. *)
Lemma writephoto_counts_witness :
  let s := loop_device V4L2_PIX_FMT_RGB32 2 1 in
  let block := rgba_block two_pixels_alpha 2 1 in
  block_bytes block = 8
  /\ exists out count,
       CMD_writephoto s true block = inr (out, count)
       /\ out = two_pixels_alpha /\ count = 32.
Proof.
  intros s block.
  pose proof (LoopFacts.writephoto_counts s block) as H.
  cbv zeta in H.
  specialize (H ltac:(discriminate) ltac:(cbn; lia) ltac:(cbn; lia)
                ltac:(cbn; lia) ltac:(reflexivity) ltac:(reflexivity)
                ltac:(reflexivity) ltac:(reflexivity)).
  destruct H as (H1 & out & count & H2 & H3).
  split; [exact H1|]. exists out, count. split; [exact H2|].
  change ((loopFormat s =? V4L2_PIX_FMT_YUYV)
          || (loopFormat s =? V4L2_PIX_FMT_YVYU)) with false in H3.
  change (loopFormat s =? V4L2_PIX_FMT_GREY) with false in H3.
  cbv iota in H3. destruct H3 as (H3 & H4).
  split; [exact H3|]. rewrite H4, H1. reflexivity.
Defined.

End FurtherExamples.
